(** * Size-constrained JPEG re-encoding search: the CLI tool
      (tools/uscis-compress.mjs) and the browser search (encodeCanvasFitUnder)

    A shallow embedding of the two search routines and of the CLI's argument
    normalisation, with the properties of the specification stated over it.

    Modelling choices.
    - A JavaScript Number is an IEEE 754 binary64 value: Rocq's primitive
      [float], whose operations the kernel evaluates with the same rounding as
      the JavaScript engine.  Fidelities, thresholds, midpoints and byte
      targets are [float]s.
    - [buf.length] and [blob.size] are non-negative integers: [Z]; they are
      turned into Numbers ([Z2F]) where the source compares them with a target.
    - The encoder (sharp in the CLI, [canvas.toBlob] in the browser) is an
      external, deterministic function: a [Variable] of the section.  Encoder
      exceptions are not modelled.
    - Every call of the encoder is recorded in a log (a writer monad), so that
      statements on "every attempt" quantify over what was really called.
    - [die] ends the process: an [outcome] with a [Die] case.
    - Strings are ASCII ([string]); command-line words with other characters
      are outside the model.

    The development then covers more of the two files: the scan of the
    command line, the listing of the inputs and [main] in the CLI tool;
    [clamp], [escapeHtml], [pickSafeBaseName] and [compressImages] in the
    page.
    - The file system is a state [World] with the calls that [main] makes on
      it; a call that is rejected gives no result.  The functions of Node's
      [path] are [Variable]s.
    - In [main] an image that sharp rejects makes every encode of it throw;
      the lines of the console are kept as records, not as text.
    - In [compressImages] the decoding of a file can reject and an encode
      can give no blob: the loop then stops, and the items are the objects
      that it has changed so far.
    - A regular expression is translated by hand into the function on
      strings that it computes. *)

From Stdlib Require Import ZArith List String Ascii Bool Lia Floats.
Import ListNotations.

Set Warnings "-inexact-float".
Local Open Scope string_scope.
Local Open Scope Z_scope.

(** ** Strings *)

Module Str.

Definition dquote : string := String (ascii_of_nat 34) EmptyString.

Definition is_digit (c : ascii) : bool :=
  let n := nat_of_ascii c in (48 <=? n)%nat && (n <=? 57)%nat.

Definition digit_val (c : ascii) : Z := Z.of_nat (nat_of_ascii c) - 48.

(** White space and line terminators of the ASCII range. *)
Definition is_space (c : ascii) : bool :=
  let n := nat_of_ascii c in
  ((9 <=? n)%nat && (n <=? 13)%nat) || (n =? 32)%nat.

Definition lower (c : ascii) : ascii :=
  let n := nat_of_ascii c in
  if (65 <=? n)%nat && (n <=? 90)%nat then ascii_of_nat (n + 32) else c.

Fixpoint toLowerCase (s : string) : string :=
  match s with
  | EmptyString => EmptyString
  | String c r => String (lower c) (toLowerCase r)
  end.

Fixpoint trimStart (s : string) : string :=
  match s with
  | String c r => if is_space c then trimStart r else s
  | EmptyString => EmptyString
  end.

Fixpoint rev_acc (s acc : string) : string :=
  match s with
  | EmptyString => acc
  | String c r => rev_acc r (String c acc)
  end.

Definition rev (s : string) : string := rev_acc s EmptyString.

Definition trim (s : string) : string := rev (trimStart (rev (trimStart s))).

Definition startsWith (s p : string) : bool := String.prefix p s.

(** The longest prefix of [s] on which [p] holds, and what follows it. *)
Fixpoint span (p : ascii -> bool) (s : string) : string * string :=
  match s with
  | String c r =>
      if p c then let '(a, b) := span p r in (String c a, b) else (EmptyString, s)
  | EmptyString => (EmptyString, EmptyString)
  end.

Definition all_digits (s : string) : bool :=
  match span is_digit s with
  | (String _ _, EmptyString) => true
  | _ => false
  end.

(** [s.split(sep, 2)] for a one-character separator: the piece before the
    first separator, and the piece between the first and the second, when
    there is a first. *)
Definition split2 (sep : ascii) (s : string) : string * option string :=
  let '(k, r) := span (fun c => negb (Ascii.eqb c sep)) s in
  match r with
  | EmptyString => (k, None)
  | String _ r' => (k, Some (fst (span (fun c => negb (Ascii.eqb c sep)) r')))
  end.

(** [p] holds of every character. *)
Fixpoint every (p : ascii -> bool) (s : string) : bool :=
  match s with
  | EmptyString => true
  | String c r => p c && every p r
  end.

(** Value of a string of digits in a base, most significant first. *)
Fixpoint digits_val (base : Z) (val : ascii -> Z) (s : string) (acc : Z) : Z :=
  match s with
  | EmptyString => acc
  | String c r => digits_val base val r (acc * base + val c)
  end.

End Str.

(** ** JavaScript Numbers *)

Module JS.

(** The Number nearest to an integer (exact below 2^53). *)
Definition Z2F (z : Z) : float :=
  SF2Prim (binary_normalize prec emax z 0 false).

(** [Number.isFinite]. *)
Definition isFinite (x : float) : bool := is_finite x.

(** Truthiness of a Number: [0], [-0] and [NaN] are falsy. *)
Definition truthy (x : float) : bool := negb (is_zero x || is_nan x).

(** [Math.min] and [Math.max] on two arguments: [NaN] is contagious and
    [-0] is below [+0]. *)
Definition Math_min (a b : float) : float :=
  if is_nan a || is_nan b then nan
  else if (a <? b)%float then a
  else if (b <? a)%float then b
  else if get_sign a then a else b.

Definition Math_max (a b : float) : float :=
  if is_nan a || is_nan b then nan
  else if (b <? a)%float then a
  else if (a <? b)%float then b
  else if get_sign a then b else a.

(** [Math.floor]: the value [m * 2^e] is floored exactly; a Number with
    [e >= 0] is an integer already. *)
Definition Math_floor (x : float) : float :=
  match Prim2SF x with
  | S754_finite s m e =>
      if 0 <=? e then x
      else
        let v := Z.shiftl (cond_Zopp s (Zpos m)) e in
        if v =? 0 then zero else Z2F v
  | _ => x
  end.

(** [Math.round]: nearest integer, ties towards +infinity. *)
Definition Math_round (x : float) : float :=
  match Prim2SF x with
  | S754_finite s m e =>
      if 0 <=? e then x
      else
        let k := - e in
        let v := Z.shiftr (2 * cond_Zopp s (Zpos m) + 2 ^ k) (k + 1) in
        if v =? 0 then (if s then neg_zero else zero) else Z2F v
  | _ => x
  end.

(** The Number nearest to [m * 10^x], for [0 <= m]. *)
Definition decimal (m x : Z) : float :=
  match m with
  | Zpos p =>
      if 0 <=? x then Z2F (m * 10 ^ x)
      else SF2Prim (SFdiv prec emax (S754_finite false p 0)
                                    (S754_finite false (Z.to_pos (10 ^ (- x))) 0))
  | _ => zero
  end.

Definition hex_val (c : ascii) : Z :=
  let n := Z.of_nat (nat_of_ascii c) in
  if Str.is_digit c then n - 48
  else if (97 <=? n) && (n <=? 102) then n - 87
  else if (65 <=? n) && (n <=? 70) then n - 55
  else -1.

Definition in_base (base : Z) (c : ascii) : bool :=
  (0 <=? hex_val c) && (hex_val c <? base).

Definition all_in_base (base : Z) (s : string) : bool :=
  match Str.span (in_base base) s with
  | (String _ _, EmptyString) => true
  | _ => false
  end.

(** [ExponentPart], or nothing, up to the end of the literal. *)
Definition exponent_part (s : string) : option Z :=
  match s with
  | EmptyString => Some 0
  | String c r =>
      if Ascii.eqb c "e" || Ascii.eqb c "E" then
        let '(sgn, ds) :=
          match r with
          | String "+" r' => (1, r')
          | String "-" r' => (-1, r')
          | _ => (1, r)
          end in
        if Str.all_digits ds then Some (sgn * Str.digits_val 10 Str.digit_val ds 0)
        else None
      else None
  end.

(** [StrUnsignedDecimalLiteral]. *)
Definition unsigned_decimal (s : string) : option float :=
  if String.eqb s "Infinity" then Some infinity
  else
    let '(ip, r1) := Str.span Str.is_digit s in
    let '(fp, r2) :=
      match r1 with
      | String "." r => Str.span Str.is_digit r
      | _ => (EmptyString, r1)
      end in
    match ip, fp with
    | EmptyString, EmptyString => None
    | _, _ =>
        match exponent_part r2 with
        | Some x =>
            Some (decimal (Str.digits_val 10 Str.digit_val (ip ++ fp) 0)
                          (x - Z.of_nat (String.length fp)))
        | None => None
        end
    end.

Definition of_option (o : option float) : float :=
  match o with Some x => x | None => nan end.

Definition non_decimal (base : Z) (ds : string) : float :=
  if all_in_base base ds then Z2F (Str.digits_val base hex_val ds 0) else nan.

(** The radix and the digits of a [NonDecimalIntegerLiteral]:
    [0x], [0o] or [0b], in either case. *)
Definition radix_prefix (t : string) : option (Z * string) :=
  match t with
  | String c0 (String c1 ds) =>
      if Ascii.eqb c0 "0" then
        if Ascii.eqb c1 "x" || Ascii.eqb c1 "X" then Some (16, ds)
        else if Ascii.eqb c1 "o" || Ascii.eqb c1 "O" then Some (8, ds)
        else if Ascii.eqb c1 "b" || Ascii.eqb c1 "B" then Some (2, ds)
        else None
      else None
  | _ => None
  end.

(** [StrDecimalLiteral]: an optional sign, then the unsigned literal. *)
Definition signed_decimal (t : string) : float :=
  match t with
  | String c r =>
      if Ascii.eqb c "+" then of_option (unsigned_decimal r)
      else if Ascii.eqb c "-" then (- of_option (unsigned_decimal r))%float
      else of_option (unsigned_decimal t)
  | EmptyString => nan
  end.

(** [Number(s)] on a string: the StringToNumber conversion (correctly
    rounded, as V8 does for literals of any length). *)
Definition Number (s : string) : float :=
  let t := Str.trim s in
  match t with
  | EmptyString => zero
  | _ =>
      match radix_prefix t with
      | Some (base, ds) => non_decimal base ds
      | None => signed_decimal t
      end
  end.

(** A fidelity that the encoder accepts: a Number of [0.1, 1.0]. *)
Definition valid_fidelity (q : float) : bool := (0.1 <=? q)%float && (q <=? 1)%float.

End JS.


(** ** Outcomes of a run, and the log of encoder calls *)

(** [die(msg)] prints and exits; a JavaScript exception unwinds the call. *)
Inductive outcome (A : Type) : Type :=
| Ret (a : A)
| Die (msg : string)
| Throw (msg : string).

Arguments Ret {A} a.
Arguments Die {A} msg.
Arguments Throw {A} msg.

Definition bindO {A B : Type} (o : outcome A) (k : A -> outcome B) : outcome B :=
  match o with
  | Ret a => k a
  | Die msg => Die msg
  | Throw msg => Throw msg
  end.

(** A computation that calls the encoder: its outcome and the calls it made,
    oldest first. *)
Definition logged (L A : Type) : Type := outcome A * list L.

Definition ret {L A : Type} (a : A) : logged L A := (Ret a, []).

Definition lift {L A : Type} (o : outcome A) : logged L A := (o, []).

Definition bind {L A B : Type} (m : logged L A) (k : A -> logged L B) : logged L B :=
  match m with
  | (Ret a, l) => let '(r, l') := k a in (r, (l ++ l')%list)
  | (Die msg, l) => (Die msg, l)
  | (Throw msg, l) => (Throw msg, l)
  end.

Declare Scope logged_scope.
Delimit Scope logged_scope with logged.
Notation "x <- c ;; k" := (bind c (fun x => k))
  (at level 61, c at next level, right associativity) : logged_scope.
Notation "' p <- c ;; k" := (bind c (fun x => let p := x in k))
  (at level 61, p pattern, c at next level, right associativity) : logged_scope.

Declare Scope outcome_scope.
Delimit Scope outcome_scope with outcome.
Notation "x <- c ;; k" := (bindO c (fun x => k))
  (at level 61, c at next level, right associativity) : outcome_scope.

(** ** The CLI tool: tools/uscis-compress.mjs *)

Module Cli.

(** An entry of the variant table, and the [used] field of a result. *)
Record Variant : Type := mkVariant {
  subsample : string;
  progressive : bool;
  stripMetadata : bool
}.

(** The [args] object of [parseArgs]. *)
Module Args.
Record t : Type := mk {
  compress : bool;
  quality : float;
  maxSize : option string;
  fitUnder : option string;
  preserveResolution : bool;
  subsample : string;
  progressive : bool;
  stripMetadata : bool;
  minQuality : float;
  outDir : string;
  suffix : string;
  overwrite : bool;
  recursive : bool;
  inputs : list string;
  help : bool;
  maxSizeBytes : option float
}.

Definition defaults : t :=
  mk true 0.85%float None None true "4:4:4" false true 0.55%float
     "out" "-uscis" false false [] false None.

Definition set_compress (v : bool) (a : t) : t :=
  mk v (quality a) (maxSize a) (fitUnder a) (preserveResolution a) (subsample a)
     (progressive a) (stripMetadata a) (minQuality a) (outDir a) (suffix a)
     (overwrite a) (recursive a) (inputs a) (help a) (maxSizeBytes a).
Definition set_quality (v : float) (a : t) : t :=
  mk (compress a) v (maxSize a) (fitUnder a) (preserveResolution a) (subsample a)
     (progressive a) (stripMetadata a) (minQuality a) (outDir a) (suffix a)
     (overwrite a) (recursive a) (inputs a) (help a) (maxSizeBytes a).
Definition set_maxSize (v : option string) (a : t) : t :=
  mk (compress a) (quality a) v (fitUnder a) (preserveResolution a) (subsample a)
     (progressive a) (stripMetadata a) (minQuality a) (outDir a) (suffix a)
     (overwrite a) (recursive a) (inputs a) (help a) (maxSizeBytes a).
Definition set_fitUnder (v : option string) (a : t) : t :=
  mk (compress a) (quality a) (maxSize a) v (preserveResolution a) (subsample a)
     (progressive a) (stripMetadata a) (minQuality a) (outDir a) (suffix a)
     (overwrite a) (recursive a) (inputs a) (help a) (maxSizeBytes a).
Definition set_preserveResolution (v : bool) (a : t) : t :=
  mk (compress a) (quality a) (maxSize a) (fitUnder a) v (subsample a)
     (progressive a) (stripMetadata a) (minQuality a) (outDir a) (suffix a)
     (overwrite a) (recursive a) (inputs a) (help a) (maxSizeBytes a).
Definition set_subsample (v : string) (a : t) : t :=
  mk (compress a) (quality a) (maxSize a) (fitUnder a) (preserveResolution a) v
     (progressive a) (stripMetadata a) (minQuality a) (outDir a) (suffix a)
     (overwrite a) (recursive a) (inputs a) (help a) (maxSizeBytes a).
Definition set_progressive (v : bool) (a : t) : t :=
  mk (compress a) (quality a) (maxSize a) (fitUnder a) (preserveResolution a) (subsample a)
     v (stripMetadata a) (minQuality a) (outDir a) (suffix a)
     (overwrite a) (recursive a) (inputs a) (help a) (maxSizeBytes a).
Definition set_stripMetadata (v : bool) (a : t) : t :=
  mk (compress a) (quality a) (maxSize a) (fitUnder a) (preserveResolution a) (subsample a)
     (progressive a) v (minQuality a) (outDir a) (suffix a)
     (overwrite a) (recursive a) (inputs a) (help a) (maxSizeBytes a).
Definition set_minQuality (v : float) (a : t) : t :=
  mk (compress a) (quality a) (maxSize a) (fitUnder a) (preserveResolution a) (subsample a)
     (progressive a) (stripMetadata a) v (outDir a) (suffix a)
     (overwrite a) (recursive a) (inputs a) (help a) (maxSizeBytes a).
Definition set_outDir (v : string) (a : t) : t :=
  mk (compress a) (quality a) (maxSize a) (fitUnder a) (preserveResolution a) (subsample a)
     (progressive a) (stripMetadata a) (minQuality a) v (suffix a)
     (overwrite a) (recursive a) (inputs a) (help a) (maxSizeBytes a).
Definition set_suffix (v : string) (a : t) : t :=
  mk (compress a) (quality a) (maxSize a) (fitUnder a) (preserveResolution a) (subsample a)
     (progressive a) (stripMetadata a) (minQuality a) (outDir a) v
     (overwrite a) (recursive a) (inputs a) (help a) (maxSizeBytes a).
Definition set_overwrite (v : bool) (a : t) : t :=
  mk (compress a) (quality a) (maxSize a) (fitUnder a) (preserveResolution a) (subsample a)
     (progressive a) (stripMetadata a) (minQuality a) (outDir a) (suffix a)
     v (recursive a) (inputs a) (help a) (maxSizeBytes a).
Definition set_recursive (v : bool) (a : t) : t :=
  mk (compress a) (quality a) (maxSize a) (fitUnder a) (preserveResolution a) (subsample a)
     (progressive a) (stripMetadata a) (minQuality a) (outDir a) (suffix a)
     (overwrite a) v (inputs a) (help a) (maxSizeBytes a).
Definition set_inputs (v : list string) (a : t) : t :=
  mk (compress a) (quality a) (maxSize a) (fitUnder a) (preserveResolution a) (subsample a)
     (progressive a) (stripMetadata a) (minQuality a) (outDir a) (suffix a)
     (overwrite a) (recursive a) v (help a) (maxSizeBytes a).
Definition set_help (v : bool) (a : t) : t :=
  mk (compress a) (quality a) (maxSize a) (fitUnder a) (preserveResolution a) (subsample a)
     (progressive a) (stripMetadata a) (minQuality a) (outDir a) (suffix a)
     (overwrite a) (recursive a) (inputs a) v (maxSizeBytes a).
Definition set_maxSizeBytes (v : option float) (a : t) : t :=
  mk (compress a) (quality a) (maxSize a) (fitUnder a) (preserveResolution a) (subsample a)
     (progressive a) (stripMetadata a) (minQuality a) (outDir a) (suffix a)
     (overwrite a) (recursive a) (inputs a) (help a) v.
End Args.

(** *** [clamp01], [normalizeSubsample], [parseSizeToBytes] *)

Definition clamp01 (x : float) : outcome float :=
  if negb (JS.isFinite x) then Die "Invalid --quality (must be number 0.1..1.0)"
  else Ret (JS.Math_max 0.1 (JS.Math_min 1.0 x)).

Definition normalizeSubsample (s : string) : outcome string :=
  let v := Str.trim s in
  if String.eqb v "4:4:4" || String.eqb v "444" then Ret "4:4:4"
  else if String.eqb v "4:2:0" || String.eqb v "420" then Ret "4:2:0"
  else Die ("Invalid --subsample " ++ Str.dquote ++ v ++ Str.dquote
            ++ " (use 4:4:4 or 4:2:0)").

(** The match of [/^(\d+(\.\d+)?)(kb|mb|gb)$/]: the groups 1 and 3. *)
Definition match_size (raw : string) : option (string * string) :=
  let '(ip, r1) := Str.span Str.is_digit raw in
  match ip with
  | EmptyString => None
  | _ =>
      let '(num, unit) :=
        match r1 with
        | String "." r =>
            let '(fp, r2) := Str.span Str.is_digit r in
            match fp with
            | EmptyString => (ip, r1)
            | _ => (ip ++ "." ++ fp, r2)
            end
        | _ => (ip, r1)
        end in
      if String.eqb unit "kb" || String.eqb unit "mb" || String.eqb unit "gb"
      then Some (num, unit) else None
  end.

(** [unit === "kb" ? 1024 : unit === "mb" ? 1024 * 1024 : 1024 * 1024 * 1024]. *)
Definition mult_of (unit : string) : float :=
  (if String.eqb unit "kb" then 1024
   else if String.eqb unit "mb" then 1024 * 1024
   else 1024 * 1024 * 1024)%float.

Definition parseSizeToBytes (s : string) : outcome float :=
  let raw := Str.toLowerCase (Str.trim s) in
  if Str.all_digits raw then Ret (JS.Number raw)
  else
    match match_size raw with
    | None =>
        Die ("Invalid --max-size " ++ Str.dquote ++ s ++ Str.dquote
             ++ " (examples: 6mb, 5500kb, 5000000)")
    | Some (m1, unit) =>
        let n := JS.Number m1 in
        let mult := mult_of unit in
        Ret (JS.Math_floor (n * mult))
    end%float.

(** *** [parseArgs] *)

(** What the [switch] does with an option name: set a flag, or consume a
    value ([nextVal()]) and store it. *)
Inductive handler : Type :=
| Flag (f : Args.t -> Args.t)
| Valued (f : string -> Args.t -> Args.t).

Definition option_handler (k : string) : option handler :=
  if String.eqb k "--help" then Some (Flag (Args.set_help true))
  else if String.eqb k "--compress" then Some (Flag (Args.set_compress true))
  else if String.eqb k "--no-compress" then Some (Flag (Args.set_compress false))
  else if String.eqb k "--quality" then
    Some (Valued (fun v => Args.set_quality (JS.Number v)))
  else if String.eqb k "--max-size" then
    Some (Valued (fun v => Args.set_maxSize (Some v)))
  else if String.eqb k "--fit-under" then
    Some (Valued (fun v => Args.set_fitUnder (Some v)))
  else if String.eqb k "--preserve-resolution" then
    Some (Flag (Args.set_preserveResolution true))
  else if String.eqb k "--subsample" then Some (Valued Args.set_subsample)
  else if String.eqb k "--progressive" then Some (Flag (Args.set_progressive true))
  else if String.eqb k "--strip-metadata" then Some (Flag (Args.set_stripMetadata true))
  else if String.eqb k "--keep-metadata" then Some (Flag (Args.set_stripMetadata false))
  else if String.eqb k "--min-quality" then
    Some (Valued (fun v => Args.set_minQuality (JS.Number v)))
  else if String.eqb k "--out-dir" then Some (Valued Args.set_outDir)
  else if String.eqb k "--suffix" then Some (Valued Args.set_suffix)
  else if String.eqb k "--overwrite" then Some (Flag (Args.set_overwrite true))
  else if String.eqb k "--recursive" then Some (Flag (Args.set_recursive true))
  else None.

(** The loop over [argv]: the iterator is the list of the words not yet
    read; [nextVal] takes the inline value of [--k=v], or the next word. *)
Fixpoint scan (argv : list string) (args : Args.t) : outcome Args.t :=
  match argv with
  | [] => Ret args
  | a :: rest =>
      if negb (Str.startsWith a "--") then
        scan rest (Args.set_inputs (Args.inputs args ++ [a])%list args)
      else
        let '(k, inlineV) := Str.split2 "=" a in
        match option_handler k with
        | None =>
            Die ("Unknown option: " ++ k ++ String (ascii_of_nat 10) "Run with --help")
        | Some (Flag f) => scan rest (f args)
        | Some (Valued f) =>
            match inlineV with
            | Some v => scan rest (f v args)
            | None =>
                match rest with
                | [] => Die ("Missing value for " ++ k)
                | v :: rest' => scan rest' (f v args)
                end
            end
        end
  end.

Definition parseArgs (argv : list string) : outcome Args.t :=
  (args <- scan argv Args.defaults ;;
   q <- clamp01 (Args.quality args) ;;
   let args := Args.set_quality q args in
   mq <- clamp01 (Args.minQuality args) ;;
   let args := Args.set_minQuality mq args in
   ss <- normalizeSubsample (Args.subsample args) ;;
   let args := Args.set_subsample ss args in
   let size :=
     match Args.fitUnder args with
     | Some s => Some s
     | None => Args.maxSize args
     end in
   match size with
   | Some (String c r) =>
       n <- parseSizeToBytes (String c r) ;;
       Ret (Args.set_maxSizeBytes (Some n) args)
   | _ => Ret (Args.set_maxSizeBytes None args)
   end)%outcome.

(** The reasons for which [parseArgs] rejects a command line: how the
    message of [die] starts. *)
Definition rejections : list string :=
  [ "Unknown option: "; "Missing value for "; "Invalid --quality ";
    "Invalid --subsample "; "Invalid --max-size " ].

Definition known_rejection (msg : string) : bool :=
  existsb (fun p => String.prefix p msg) rejections.

(** The size expression that [parseArgs] normalises. *)
Definition size_of (args : Args.t) : option string :=
  match Args.fitUnder args with
  | Some s => Some s
  | None => Args.maxSize args
  end.

(** *** The encoder and the search *)

(** The options object handed to [sharp(...).jpeg]. *)
Record JpegOpts : Type := mkJpegOpts {
  jpeg_quality : float;
  jpeg_progressive : bool;
  chromaSubsampling : string;
  mozjpeg : bool;
  optimizeCoding : bool
}.

Definition jpegOpts (args : Args.t) (quality01 : float) : JpegOpts :=
  {| jpeg_quality := JS.Math_round (quality01 * 100)%float;
     jpeg_progressive := Args.progressive args;
     chromaSubsampling := Args.subsample args;
     mozjpeg := true;
     optimizeCoding := true |}.

(** The knobs in effect for a call of [encodeAtQuality]:
    [overrides?.x ?? args.x] for each of the three. *)
Definition effective (args : Args.t) (overrides : option Variant) : Variant :=
  match overrides with
  | Some o => mkVariant (subsample o) (progressive o) (stripMetadata o)
  | None => mkVariant (Args.subsample args) (Args.progressive args) (Args.stripMetadata args)
  end.

(** [encodeAtQuality], over the library call it makes:
    [sharp inputPath withMetadata opts] stands for
    [sharp(inputPath, ...)], with [withMetadata()] called or not, then
    [.jpeg(opts).toBuffer()]. *)
Definition encodeAtQuality {Buf : Type} (sharp : string -> bool -> JpegOpts -> Buf)
           (inputPath : string) (args : Args.t) (quality01 : float)
           (overrides : option Variant) : Buf :=
  let e := effective args overrides in
  sharp inputPath (negb (stripMetadata e))
        (jpegOpts (Args.set_subsample (subsample e)
                     (Args.set_progressive (progressive e) args))
                  quality01).

Section Search.

(** A byte buffer and its [length]. *)
Variable Buf : Type.
Variable length : Buf -> Z.

(** The encoder capability that the search drives, with the signature of
    [encodeAtQuality]: the tool's own is [encodeAtQuality sharp]; the
    scenarios of the specification put a stub in its place. *)
Variable encode : string -> Args.t -> float -> option Variant -> Buf.

(** One call of the encoder, as the log keeps it: the fidelity asked
    for, the knobs in effect, and the buffer produced. *)
Record Attempt : Type := mkAttempt {
  fidelity : float;
  knobs : Variant;
  output : Buf
}.

Definition M (A : Type) : Type := logged Attempt A.

(** [await encodeAtQuality(inputPath, args, quality01, overrides)]. *)
Definition call (inputPath : string) (args : Args.t)
           (quality01 : float) (overrides : option Variant) : M Buf :=
  let buf := encode inputPath args quality01 overrides in
  (Ret buf, [mkAttempt quality01 (effective args overrides) buf]).

(** [{buf, q, used}]: the records kept in [bestFit] and [bestClarity]. *)
Record Candidate : Type := mkCandidate {
  c_buf : Buf;
  c_q : float;
  c_used : Variant
}.

(** The result of [compressWithTarget]. *)
Record Result : Type := mkResult {
  buf : Buf;
  usedQuality : float;
  used : Variant;
  pass : bool
}.

Definition variants : list Variant :=
  [ mkVariant "4:4:4" false true;
    mkVariant "4:4:4" true true;
    mkVariant "4:2:0" false true;
    mkVariant "4:2:0" true true ].

(** [b.length <= target] and [b.length > target]. *)
Definition fits (target : float) (b : Buf) : bool :=
  (JS.Z2F (length b) <=? target)%float.

Definition exceeds (target : float) (b : Buf) : bool :=
  (target <? JS.Z2F (length b))%float.

Section PerImage.

Variable inputPath : string.
Variable args : Args.t.
Variable target : float.
Variables baseQ minQ : float.

(** The inner [for (let i = 0; i < 10 && hi - lo > 0.015; i++)]:
    [fuel] is [10 - i]; the state is [(lo, hi, best, bestQ)]. *)
Fixpoint search (v : Variant) (fuel : nat) (lo hi : float) (best : Buf)
         (bestQ : float) {struct fuel} : M (Buf * float) :=
  match fuel with
  | O => ret (best, bestQ)
  | S fuel' =>
      if (0.015 <? hi - lo)%float then
        let mid := ((lo + hi) / 2)%float in
        (b <- call inputPath args mid (Some v) ;;
         if fits target b then search v fuel' mid hi b mid
         else search v fuel' lo mid best bestQ)%logged
      else ret (best, bestQ)
  end.

(** The [for (const v of variants)] loop, from the variants still to
    try and the current [bestFit] and [bestClarity]; the code after
    the loop is the case of the empty list. *)
Fixpoint forVariants (vs : list Variant) (bestFit bestClarity : option Candidate)
         {struct vs} : M Result :=
  match vs with
  | [] =>
      match bestClarity with
      | Some c => ret (mkResult (c_buf c) (c_q c) (c_used c) false)
      | None => lift (Throw "TypeError: Cannot read properties of null (reading 'buf')")
      end
  | v :: rest =>
      (atBase <- call inputPath args baseQ (Some v) ;;
       let bestClarity :=
         match bestClarity with
         | None => Some (mkCandidate atBase baseQ v)
         | Some c =>
             if length atBase <? length (c_buf c)
             then Some (mkCandidate atBase baseQ v) else bestClarity
         end in
       if fits target atBase then
         (* [bestFit] is assigned here as well, and dropped by the return *)
         ret (mkResult atBase baseQ v true)
       else
         atMin <- call inputPath args minQ (Some v) ;;
         if exceeds target atMin then forVariants rest bestFit bestClarity
         else
           ' (best, bestQ) <- search v 10 minQ baseQ atMin minQ ;;
           let bestFit :=
             match bestFit with
             | None => Some (mkCandidate best bestQ v)
             | Some _ => bestFit
             end in
           forVariants rest bestFit bestClarity)%logged
  end.

(** Vocabulary of the proofs: the attempt that a call at [q] for the variant
    [v] logs, [bestClarity] after the base encode of [v], and [bestFit] after
    the search of [v] returned [sr]. *)
Definition attempt_of (q : float) (v : Variant) : Attempt :=
  mkAttempt q (effective args (Some v)) (encode inputPath args q (Some v)).

Definition clarity_after (v : Variant) (bestClarity : option Candidate) : option Candidate :=
  let atBase := encode inputPath args baseQ (Some v) in
  match bestClarity with
  | None => Some (mkCandidate atBase baseQ v)
  | Some c =>
      if length atBase <? length (c_buf c)
      then Some (mkCandidate atBase baseQ v) else bestClarity
  end.

Definition fit_after (v : Variant) (sr : Buf * float) (bestFit : option Candidate) :
  option Candidate :=
  match bestFit with
  | None => Some (mkCandidate (fst sr) (snd sr) v)
  | Some _ => bestFit
  end.

(** [c] is the base-fidelity encode of a variant of [seen], of the least
    length among the base-fidelity encodes of [seen]. *)
Definition smallest_base (seen : list Variant) (c : Candidate) : Prop :=
  exists v, In v seen /\
    c = mkCandidate (encode inputPath args baseQ (Some v)) baseQ v /\
    forall v', In v' seen ->
      length (encode inputPath args baseQ (Some v))
      <= length (encode inputPath args baseQ (Some v')).

Definition clarity_ok (seen : list Variant) (bestClarity : option Candidate) : Prop :=
  match bestClarity with
  | None => seen = []
  | Some c => smallest_base seen c
  end.

End PerImage.

(** The attempts of a log that were made for the variant [v], and the number
    of times [v] occurs in a list of variants. *)
Definition variant_eqb (a b : Variant) : bool :=
  String.eqb (subsample a) (subsample b)
  && Bool.eqb (progressive a) (progressive b)
  && Bool.eqb (stripMetadata a) (stripMetadata b).

Definition attempts_for (v : Variant) (log : list Attempt) : list Attempt :=
  filter (fun a => variant_eqb (knobs a) v) log.

Definition occurrences (v : Variant) (vs : list Variant) : nat :=
  List.length (filter (fun v' => variant_eqb v' v) vs).

(** The byte target that is configured: [maxSizeBytes], when it is truthy. *)
Definition target_of (args : Args.t) : option float :=
  match Args.maxSizeBytes args with
  | Some t => if JS.truthy t then Some t else None
  | None => None
  end.

Definition compressWithTarget (inputPath : string) (args : Args.t) : M Result :=
  let passthrough : M Result :=
    (buf <- call inputPath args (Args.quality args) None ;;
     ret (mkResult buf (Args.quality args)
            (mkVariant (Args.subsample args) (Args.progressive args)
                       (Args.stripMetadata args))
            true))%logged in
  match Args.maxSizeBytes args with
  | None => passthrough
  | Some target =>
      if negb (JS.truthy target) then passthrough
      else
        (baseQ <- lift (clamp01 (Args.quality args)) ;;
         minQ <- lift (clamp01 (Args.minQuality args)) ;;
         forVariants inputPath args target baseQ minQ variants None None)%logged
  end.

End Search.

End Cli.

(** ** The browser tool: [encodeCanvasFitUnder] and [encodeCanvasSmart] *)

Module Browser.

Definition clamp (n min max : float) : float := JS.Math_max min (JS.Math_min max n).

(** The [opts] argument; a field that is absent (or null) is [None]. *)
Record Opts : Type := mkOpts {
  targetBytes : option float;
  baseQuality : option float;
  minQuality : option float
}.

(** The fields of the page's [state] that the encoding reads. *)
Record State : Type := mkState {
  quality : float;
  compress : bool;
  maxSizeMB : float;
  fitUnderMax : bool
}.

Definition nullish (o : option float) (default : float) : float :=
  match o with Some x => x | None => default end.

Section Search.

Variable Canvas : Type.
Variable Blob : Type.
Variable size : Blob -> Z.

(** [canvas.toBlob(_, "image/jpeg", quality)]. *)
Variable toBlob : Canvas -> float -> Blob.

Record Attempt : Type := mkAttempt {
  fidelity : float;
  output : Blob
}.

Definition M (A : Type) : Type := logged Attempt A.

Definition canvasToJpegBlob (canvas : Canvas) (quality : float) : M Blob :=
  let b := toBlob canvas quality in (Ret b, [mkAttempt quality b]).

Record Result : Type := mkResult {
  blob : Blob;
  usedQuality : float;
  tried : Z;
  pass : bool
}.

Definition fits (targetBytes : float) (b : Blob) : bool :=
  (JS.Z2F (size b) <=? targetBytes)%float.

Definition exceeds (targetBytes : float) (b : Blob) : bool :=
  (targetBytes <? JS.Z2F (size b))%float.

(** [for (let i = 0; i < 10 && hi - lo > 0.02; i++)], with [fuel = 10 - i]. *)
Fixpoint search (canvas : Canvas) (targetBytes : float) (fuel : nat)
         (lo hi : float) (bestBlob : Blob) (bestQ : float) (tried : Z)
         {struct fuel} : M (Blob * float * Z) :=
  match fuel with
  | O => ret (bestBlob, bestQ, tried)
  | S fuel' =>
      if (0.02 <? hi - lo)%float then
        let mid := ((lo + hi) / 2)%float in
        (b <- canvasToJpegBlob canvas mid ;;
         let tried := tried + 1 in
         if fits targetBytes b then search canvas targetBytes fuel' mid hi b mid tried
         else search canvas targetBytes fuel' lo mid bestBlob bestQ tried)%logged
      else ret (bestBlob, bestQ, tried)
  end.

Definition encodeCanvasFitUnder (canvas : Canvas) (opts : Opts) : M Result :=
  let baseQuality := clamp (nullish (baseQuality opts) 0.85) 0.1 1.0 in
  let minQuality := clamp (nullish (minQuality opts) 0.55) 0.1 1.0 in
  let oneShot : M Result :=
    (blob <- canvasToJpegBlob canvas baseQuality ;;
     ret (mkResult blob baseQuality 1 true))%logged in
  match targetBytes opts with
  | None => oneShot
  | Some targetBytes =>
      if negb (JS.truthy targetBytes) then oneShot
      else
        (b <- canvasToJpegBlob canvas baseQuality ;;
         if fits targetBytes b then ret (mkResult b baseQuality 1 true)
         else
           bestBlob <- canvasToJpegBlob canvas minQuality ;;
           if exceeds targetBytes bestBlob then
             ret (mkResult bestBlob minQuality 2 false)
           else
             ' (bestBlob, bestQ, tried) <-
                search canvas targetBytes 10 minQuality baseQuality bestBlob minQuality 2 ;;
             ret (mkResult bestBlob bestQ tried true))%logged
  end.

(** Vocabulary of the proofs. *)
Definition attempt_at (canvas : Canvas) (q : float) : Attempt :=
  mkAttempt q (toBlob canvas q).

Definition target_of (opts : Opts) : option float :=
  match targetBytes opts with
  | Some t => if JS.truthy t then Some t else None
  | None => None
  end.

Definition base_of (opts : Opts) : float := clamp (nullish (baseQuality opts) 0.85) 0.1 1.0.

Definition min_of (opts : Opts) : float := clamp (nullish (minQuality opts) 0.55) 0.1 1.0.

Definition encodeCanvasSmart (state : State) (canvas : Canvas) : M Result :=
  let targetBytes :=
    if fitUnderMax state
    then Some (JS.Math_floor (maxSizeMB state * 1024 * 1024)%float) else None in
  let q := clamp (quality state) 0.1 1.0 in
  if negb (compress state) then
    (blob <- canvasToJpegBlob canvas q ;; ret (mkResult blob q 1 true))%logged
  else
    encodeCanvasFitUnder canvas (mkOpts targetBytes (Some q) (Some 0.55%float)).

End Search.

End Browser.

(** ** The stub encoder of the scenarios *)

Module Scenario.

(** The integer that an integer-valued Number denotes. *)
Definition F2Z (x : float) : Z :=
  match Prim2SF x with
  | S754_finite s m e => Z.shiftl (cond_Zopp s (Zpos m)) e
  | _ => 0
  end.

(** [size = floor(1,000,000 * fidelity)], whatever the variant; a buffer is
    its byte count. *)
Definition stub_size (fidelity : float) : Z :=
  F2Z (JS.Math_floor (1000000 * fidelity)%float).

Definition stub_encode (inputPath : string) (args : Cli.Args.t)
           (quality01 : float) (overrides : option Cli.Variant) : Z :=
  stub_size quality01.

Definition stub_toBlob (canvas : unit) (quality : float) : Z := stub_size quality.

(** A stub of the library call itself, for which kept metadata costs 1,000
    bytes: sharp receives the fidelity as the percentage
    [Math.round(q * 100)]. *)
Definition stub_sharp (inputPath : string) (withMetadata : bool) (opts : Cli.JpegOpts) : Z :=
  stub_size (Cli.jpeg_quality opts / 100)%float + (if withMetadata then 1000 else 0).

(** Base fidelity 0.85 and minimum fidelity 0.55 are the defaults. *)
Definition cli_args (target : option float) : Cli.Args.t :=
  Cli.Args.set_maxSizeBytes target Cli.Args.defaults.

Definition cli_run (target : option float) :=
  Cli.compressWithTarget Z (fun n => n) stub_encode "in.jpg" (cli_args target).

Definition browser_run (target : option float) :=
  Browser.encodeCanvasFitUnder unit Z (fun n => n) stub_toBlob tt
    (Browser.mkOpts target (Some 0.85%float) (Some 0.55%float)).

End Scenario.

(** ** The page's helpers on strings: [escapeHtml], [pickSafeBaseName] *)

Module Text.

(** [s.endsWith(suffix)]. *)
Definition endsWith (s suffix : string) : bool :=
  String.prefix (Str.rev suffix) (Str.rev s).

End Text.

Module Html.

(** The characters of the class of [escapeHtml]'s expression: the
    ampersand, the angle brackets and the double and single quotes. *)
Definition special (c : ascii) : bool :=
  Ascii.eqb c "&" || Ascii.eqb c "<" || Ascii.eqb c ">"
  || Ascii.eqb c (ascii_of_nat 34) || Ascii.eqb c "'".

(** The object [map] of [escapeHtml], read at the key [c]. *)
Definition map (c : ascii) : option string :=
  if Ascii.eqb c "&" then Some "&amp;"
  else if Ascii.eqb c "<" then Some "&lt;"
  else if Ascii.eqb c ">" then Some "&gt;"
  else if Ascii.eqb c (ascii_of_nat 34) then Some "&quot;"
  else if Ascii.eqb c "'" then Some "&#39;"
  else None.

(** The callback of the replacement: [map[c] || c]. *)
Definition replacement (c : ascii) : string :=
  match map c with
  | Some (String a e) => String a e
  | _ => String c EmptyString
  end.

(** [String(s).replace(re, (c) => map[c] || c)], with the global flag:
    every match is one character, replaced by what the callback returns. *)
Fixpoint escapeHtml (s : string) : string :=
  match s with
  | EmptyString => EmptyString
  | String c r =>
      (if special c then replacement c else String c EmptyString) ++ escapeHtml r
  end.

(** What [escapeHtml] writes for one character. *)
Definition written (c : ascii) : string :=
  if special c then replacement c else String c EmptyString.

(** The characters that end a text node or a quoted attribute value. *)
Definition raw_markup (c : ascii) : bool :=
  Ascii.eqb c "<" || Ascii.eqb c ">" || Ascii.eqb c (ascii_of_nat 34) || Ascii.eqb c "'".

End Html.

Module Names.

(** [\w], without the unicode flag: [[A-Za-z0-9_]]. *)
Definition is_word (c : ascii) : bool :=
  let n := nat_of_ascii c in
  ((65 <=? n)%nat && (n <=? 90)%nat) || ((97 <=? n)%nat && (n <=? 122)%nat)
  || Str.is_digit c || Ascii.eqb c "_".

(** The characters that [[^\w\-]] does not match. *)
Definition kept (c : ascii) : bool := is_word c || Ascii.eqb c "-".

Definition not_dot (c : ascii) : bool := negb (Ascii.eqb c ".").

(** [s.replace(/\.[^.]+$/, empty)]: the leftmost match is at the first dot
    that is followed, up to the end, by one or more characters other than a
    dot; it is removed with what follows it. *)
Fixpoint strip_extension (s : string) : string :=
  match s with
  | EmptyString => EmptyString
  | String c r =>
      if Ascii.eqb c "." && negb (String.eqb r EmptyString) && Str.every not_dot r
      then EmptyString
      else String c (strip_extension r)
  end.

(** [s.replace(/[^\w\-]+/g, underscore)]: every maximal run of characters out of
    [[\w\-]] becomes one underscore; [in_run] tells that the previous
    character was of such a run. *)
Fixpoint replace_runs (in_run : bool) (s : string) : string :=
  match s with
  | EmptyString => EmptyString
  | String c r =>
      if kept c then String c (replace_runs false r)
      else if in_run then replace_runs true r
      else String "_" (replace_runs true r)
  end.

(** [s.replace(/^_+|_+$/g, empty)]: the underscores at the start and those at
    the end are removed. *)
Fixpoint drop_underscores (s : string) : string :=
  match s with
  | String c r => if Ascii.eqb c "_" then drop_underscores r else s
  | EmptyString => EmptyString
  end.

Definition strip_underscores (s : string) : string :=
  Str.rev (drop_underscores (Str.rev (drop_underscores s))).

(** [x || "document"] on a string: the empty string is falsy. *)
Definition or_document (x : string) : string :=
  match x with
  | EmptyString => "document"
  | _ => x
  end.

Definition pickSafeBaseName (fileName : string) : string :=
  let base := strip_extension (or_document fileName) in
  let safe := strip_underscores (replace_runs false base) in
  or_document safe.

End Names.


(** ** Words of the command line *)

Module Words.

(** A character other than the equals sign, at which [a.split] cuts. *)
Definition not_equals (c : ascii) : bool := negb (Ascii.eqb c "=").

(** A word that the loop of [parseArgs] takes for an input: it does not
    start with two dashes. *)
Definition plain (w : string) : bool := negb (Str.startsWith w "--").

(** The cases of the [switch]. *)
Definition option_names : list string :=
  [ "--help"; "--compress"; "--no-compress"; "--quality"; "--max-size"; "--fit-under";
    "--preserve-resolution"; "--subsample"; "--progressive"; "--strip-metadata";
    "--keep-metadata"; "--min-quality"; "--out-dir"; "--suffix"; "--overwrite";
    "--recursive" ]%list.

(** The message of [clamp01]. *)
Definition invalid_quality : string := "Invalid --quality (must be number 0.1..1.0)".

End Words.

(** ** What a search returns, and the log of its encodes *)

Module Returned.

Section Cli.

Variable Buf : Type.
Variable length : Buf -> Z.

(** The candidate kept in [bestClarity] is an encode at the base fidelity
    [baseQ] that does not fit the target. *)
Definition unfit (target baseQ : float) (bestClarity : option (Cli.Candidate Buf)) : Prop :=
  forall c, bestClarity = Some c ->
    Cli.fits Buf length target (Cli.c_buf Buf c) = false /\ Cli.c_q Buf c = baseQ.

(** The buffer, the fidelity and the knobs of the result are those of an
    encode of the log. *)
Definition logged_result (r : Cli.Result Buf) (log : list (Cli.Attempt Buf)) : Prop :=
  In (Cli.mkAttempt Buf (Cli.usedQuality Buf r) (Cli.used Buf r) (Cli.buf Buf r)) log.

End Cli.

Section Browser.

Variable Blob : Type.

Definition logged_blob (r : Browser.Result Blob) (log : list (Browser.Attempt Blob)) : Prop :=
  In (Browser.mkAttempt Blob (Browser.usedQuality Blob r) (Browser.blob Blob r)) log.

End Browser.

End Returned.

(** ** The browser tool: [compressImages] *)

Module Images.

(** The fields of the page's [state] that [compressImages] reads. *)
Record Settings : Type := mkSettings {
  imgUscisPreset : bool;
  imgTargetKB : float;
  imgMinQuality : float;
  quality : float
}.

(** The toast that ends a run: that of the [try] block, or that of the
    [catch] with the message it shows. *)
Inductive Toast : Type :=
| Complete
| Failure (message : string).

(** [e?.message ? String(e.message) : "Image compression failed."]: an
    error without a message, or with an empty one, gets the default. *)
Definition shown (message : string) : string :=
  match message with
  | EmptyString => "Image compression failed."
  | _ => message
  end.

Section Compress.

Variable File : Type.
Variable Canvas : Type.
Variable Blob : Type.
Variable size : Blob -> Z.

(** [canvas.toBlob(_, "image/jpeg", quality)]: the blob handed to the
    callback, or null. *)
Variable toBlob : Canvas -> float -> option Blob.

(** [imageFileToCanvas(file)]: the canvas it returns, or the message of the
    error with which it rejects (the image does not load, the bitmap
    cannot be made); and a canvas's dimensions. *)
Variable toCanvas : File -> Canvas + string.
Variable canvas_width : Canvas -> Z.
Variable canvas_height : Canvas -> Z.

Local Abbreviation Attempt := (Browser.Attempt Blob).
Local Abbreviation M := (Browser.M Blob).

(** [canvasToJpegBlob], which rejects on a null blob. *)
Definition canvasToJpegBlob (canvas : Canvas) (quality : float) : M Blob :=
  match toBlob canvas quality with
  | Some b => (Ret b, [Browser.mkAttempt Blob quality b])
  | None => (Throw "Failed to export canvas to JPEG.", [])
  end%list.

(** The loop of [encodeCanvasFitUnder] and the function itself, as in
    [Browser], over the encoder that can reject: a rejection ends them. *)
Fixpoint search (canvas : Canvas) (targetBytes : float) (fuel : nat)
         (lo hi : float) (bestBlob : Blob) (bestQ : float) (tried : Z)
         {struct fuel} : M (Blob * float * Z) :=
  match fuel with
  | O => ret (bestBlob, bestQ, tried)
  | S fuel' =>
      if (0.02 <? hi - lo)%float then
        let mid := ((lo + hi) / 2)%float in
        (b <- canvasToJpegBlob canvas mid ;;
         let tried := tried + 1 in
         if Browser.fits Blob size targetBytes b
         then search canvas targetBytes fuel' mid hi b mid tried
         else search canvas targetBytes fuel' lo mid bestBlob bestQ tried)%logged
      else ret (bestBlob, bestQ, tried)
  end.

Definition encodeCanvasFitUnder (canvas : Canvas) (opts : Browser.Opts) :
  M (Browser.Result Blob) :=
  let baseQuality := Browser.clamp (Browser.nullish (Browser.baseQuality opts) 0.85) 0.1 1.0 in
  let minQuality := Browser.clamp (Browser.nullish (Browser.minQuality opts) 0.55) 0.1 1.0 in
  let oneShot : M (Browser.Result Blob) :=
    (blob <- canvasToJpegBlob canvas baseQuality ;;
     ret (Browser.mkResult Blob blob baseQuality 1 true))%logged in
  match Browser.targetBytes opts with
  | None => oneShot
  | Some targetBytes =>
      if negb (JS.truthy targetBytes) then oneShot
      else
        (b <- canvasToJpegBlob canvas baseQuality ;;
         if Browser.fits Blob size targetBytes b
         then ret (Browser.mkResult Blob b baseQuality 1 true)
         else
           bestBlob <- canvasToJpegBlob canvas minQuality ;;
           if Browser.exceeds Blob size targetBytes bestBlob then
             ret (Browser.mkResult Blob bestBlob minQuality 2 false)
           else
             ' (bestBlob, bestQ, tried) <-
                search canvas targetBytes 10 minQuality baseQuality bestBlob minQuality 2 ;;
             ret (Browser.mkResult Blob bestBlob bestQ tried true))%logged
  end.

(** The [compressed] field of an item. *)
Record Compressed : Type := mkCompressed {
  blob : Blob;
  bytes : Z;
  usedQuality : float;
  tried : Z;
  pass : bool
}.

(** An item of [state.imgFiles], as [addImages] makes it; [compressed] is
    absent until the item is compressed.  The [url] of [compressed], an
    object URL made for the blob, is left out. *)
Record Item : Type := mkItem {
  id : string;
  file : File;
  origBytes : Z;
  width : Z;
  height : Z;
  wasPng : bool;
  compressed : option Compressed
}.

Definition targetBytes (state : Settings) : float :=
  if imgUscisPreset state then (600 * 1024)%float
  else JS.Math_floor (imgTargetKB state * 1024)%float.

(** The options with which every item is encoded. *)
Definition options (state : Settings) : Browser.Opts :=
  Browser.mkOpts (Some (targetBytes state))
    (Some (Browser.clamp (quality state) 0.1 1.0))
    (Some (Browser.clamp (imgMinQuality state) 0.1 1.0)).

(** The body of the loop, for one item: the item as the body leaves it,
    the message of the exception that ended it if any, and the encodes
    made.  The items are objects that the body changes in place: the
    dimensions are set once the image is decoded, [compressed] once it is
    encoded. *)
Definition compressItem (state : Settings) (item : Item) :
  Item * option string * list Attempt :=
  match toCanvas (file item) with
  | inr message => (item, Some message, [])
  | inl canvas =>
      let sized :=
        mkItem (id item) (file item) (origBytes item)
               (canvas_width canvas) (canvas_height canvas) (wasPng item)
               (compressed item) in
      match encodeCanvasFitUnder canvas (options state) with
      | (Ret res, log) =>
          (mkItem (id item) (file item) (origBytes item)
                  (canvas_width canvas) (canvas_height canvas) (wasPng item)
                  (Some (mkCompressed (Browser.blob Blob res) (size (Browser.blob Blob res))
                           (Browser.usedQuality Blob res) (Browser.tried Blob res)
                           (Browser.fits Blob size (targetBytes state) (Browser.blob Blob res)
                            && Browser.pass Blob res))),
           None, log)
      | (Die message, log) | (Throw message, log) => (sized, Some message, log)
      end
  end%list.

(** The loop over the items: the [catch] is around the whole loop, so
    that an exception leaves the items that follow as they are. *)
Fixpoint compressEach (state : Settings) (items : list Item) :
  list Item * option string * list Attempt :=
  match items with
  | [] => ([], None, [])
  | item :: rest =>
      match compressItem state item with
      | (item', Some message, log) => (item' :: rest, Some message, log)
      | (item', None, log) =>
          let '(rest', thrown, log') := compressEach state rest in
          (item' :: rest', thrown, log ++ log')
      end
  end%list.

(** What a call of [compressImages] leaves: the items, the toast shown if
    any, [state.busy], and the encodes made. *)
Record Run : Type := mkRun {
  items_after : list Item;
  toast : option Toast;
  busy_after : bool;
  encodes : list Attempt
}.

(** [compressImages(subset)], for the items it is run on: nothing is done
    when there is none or when the page is busy. *)
Definition compressImages (state : Settings) (busy : bool) (items : list Item) : Run :=
  match items with
  | [] => mkRun items None busy []
  | _ =>
      if busy then mkRun items None busy []
      else
        let '(items', thrown, log) := compressEach state items in
        mkRun items'
              (Some match thrown with
                    | None => Complete
                    | Some message => Failure (shown message)
                    end)
              false log
  end%list.

(** Vocabulary of the proofs.  The item [item'] is [item] with the outcome
    of its compression: the dimensions of its canvas, and the blob encoded
    from the canvas at the quality stored, with its size and a [pass] flag
    that tells whether it fits the target. *)
Definition stored (state : Settings) (item item' : Item) : Prop :=
  id item' = id item /\ file item' = file item /\ origBytes item' = origBytes item /\
  wasPng item' = wasPng item /\
  exists canvas c,
    toCanvas (file item) = inl canvas /\
    width item' = canvas_width canvas /\ height item' = canvas_height canvas /\
    compressed item' = Some c /\
    toBlob canvas (usedQuality c) = Some (blob c) /\
    bytes c = size (blob c) /\
    pass c = Browser.fits Blob size (targetBytes state) (blob c).

(** The item [item'] is [item], with a new outcome or none: only the
    dimensions may have changed. *)
Definition kept (item item' : Item) : Prop :=
  id item' = id item /\ file item' = file item /\ origBytes item' = origBytes item /\
  wasPng item' = wasPng item /\ compressed item' = compressed item.

(** Nothing rejects on [item]: its image is decoded and its canvas is
    encoded at every quality. *)
Definition sound (item : Item) : Prop :=
  exists canvas, toCanvas (file item) = inl canvas /\ forall q, toBlob canvas q <> None.

(** The message of the exception that ends the body of the loop on
    [item], which the body leaves as [item']: that of the decoder, with
    the item untouched, or that of the encoder, with the item resized. *)
Definition thrown_by (item item' : Item) (message : string) : Prop :=
  (toCanvas (file item) = inr message /\ item' = item)
  \/
  (exists canvas q,
     toCanvas (file item) = inl canvas /\ toBlob canvas q = None /\
     message = "Failed to export canvas to JPEG." /\
     width item' = canvas_width canvas /\
     height item' = canvas_height canvas).

(** The items as the loop leaves them: those before the first on which
    something rejects have their outcome; that one has kept what it had,
    and those after it are untouched. *)
Definition left_as (state : Settings) (items items' : list Item) (thrown : option string) :
  Prop :=
  match thrown with
  | None => Forall2 (stored state) items items'
  | Some message =>
      exists done done' failing failing' later,
        items = (done ++ failing :: later)%list /\
        items' = (done' ++ failing' :: later)%list /\
        Forall2 (stored state) done done' /\
        kept failing failing' /\ thrown_by failing failing' message
  end.

(** The encoder of [Browser], which always gives a blob: [toBlob], with
    the blob [d] where [toBlob] gives none. *)
Definition total (d : Blob) (canvas : Canvas) (q : float) : Blob :=
  match toBlob canvas q with Some b => b | None => d end.

(** A computation over [toBlob] against the same one over [total d]: they
    agree as long as [toBlob] gives a blob; where it gives none, the first
    stops with the message of [canvasToJpegBlob]. *)
Definition agree {A : Type} (canvas : Canvas) (x y : M A) : Prop :=
  match x with
  | (Ret a, l) => y = (Ret a, l)
  | (Throw message, l) =>
      message = "Failed to export canvas to JPEG." /\
      (exists q, toBlob canvas q = None) /\ exists l', snd y = (l ++ l')%list
  | (Die _, _) => False
  end.

(** The attempt [a] is an encode of [canvas]. *)
Definition genuine (canvas : Canvas) (a : Attempt) : Prop :=
  toBlob canvas (Browser.fidelity Blob a) = Some (Browser.output Blob a).

End Compress.

End Images.

(** ** More binary64 representations *)

Module Binary64More.

(** The mantissa of [100] (exponent -46). *)
Definition M100 : positive := 7036874417766400.

(** [m * 2^e] is a Number of [[lo, hi]], for integers [lo] and [hi], and
    [e] is negative. *)
Definition within (lo hi : Z) (m : positive) (e : Z) : Prop :=
  e < 0 /\ lo * 2 ^ (- e) <= Zpos m <= hi * 2 ^ (- e).

End Binary64More.

(** ** The calls of the encoder behind a log *)

Module Calls.

Section Cli.

Variable Buf : Type.
Variable encode : string -> Cli.Args.t -> float -> option Cli.Variant -> Buf.

(** The attempt [a] records a call
    [encodeAtQuality(inputPath, args, fidelity, overrides)]. *)
Definition genuine (inputPath : string) (args : Cli.Args.t) (overrides : option Cli.Variant)
           (a : Cli.Attempt Buf) : Prop :=
  Cli.knobs Buf a = Cli.effective args overrides /\
  Cli.output Buf a = encode inputPath args (Cli.fidelity Buf a) overrides.

End Cli.

End Calls.

(** ** Fidelities as integers *)

Module Ticks.

(** The value of a Number [m * 2^e], [-56 <= e], in units of [2^-56]: every
    fidelity of [[0.1, 1.0]] is a whole number of them. *)
Definition ticks (m : positive) (e : Z) : Z := Zpos m * 2 ^ (e + 56).

(** [q] lies between [lo] and [hi]. *)
Definition inside (lo hi q : float) : bool := (lo <=? q)%float && (q <=? hi)%float.

(** The ticks of a fidelity. *)
Definition ticks_of (q : float) : Z :=
  match Prim2SF q with
  | S754_finite _ m e => ticks m e
  | _ => 0
  end.

(** The widest interval of fidelities, from [0.1] to [1.0], and the widths
    from which [hi - lo] is not above the threshold of the loop: 0.015 in
    the CLI and 0.02 in the browser, in ticks and rounded down. *)
Definition widest : Z := 2 ^ 56 - 7205759403792794.

Definition narrow_cli : Z := 1080863910568919.

Definition narrow_browser : Z := 1441151880758558.

(** A bound on the probes of a loop of [fuel] turns on an interval of
    [width] ticks at most: a probe halves the interval, up to the 16 ticks
    of the rounding of the midpoint. *)
Fixpoint probes (narrow width : Z) (fuel : nat) : nat :=
  match fuel with
  | O => O
  | S fuel' => if width <=? narrow then O else S (probes narrow (width / 2 + 16) fuel')
  end.

End Ticks.


(** ** The CLI tool: the inputs, the outputs and [main] *)

Module Files.

#[local] Set Warnings "-register-all".

(** What [fs.stat] and [fs.readdir] find: a regular file and its size, a
    directory and its entries in the order of [readdir], or something else
    (a socket, a device; for an entry of a directory, also a symbolic link,
    which [withFileTypes] does not follow). *)
Inductive Tree : Type :=
| File (size : Z)
| Dir (ents : list (string * Tree))
| Other.

Section Paths.

(** The functions of Node's [path] that the tool calls: [path.resolve(p)],
    [path.join(a, b)], [path.extname(p)] and [path.basename(p, ext)]. *)
Variable resolve : string -> string.
Variable join : string -> string -> string.
Variable extname : string -> string.
Variable basename : string -> string -> string.

Definition isJpegFile (p : string) : bool :=
  let ext := Str.toLowerCase (extname p) in
  String.eqb ext ".jpg" || String.eqb ext ".jpeg".

(** [scanDir(dir, recursive)], for the directory [t] found at [dir]. *)
Fixpoint scanDir (dir : string) (t : Tree) (recursive : bool) {struct t} : list string :=
  match t with
  | Dir ents =>
      (fix each (ents : list (string * Tree)) : list string :=
         match ents with
         | [] => []
         | (name, e) :: rest =>
             let full := join dir name in
             match e with
             | Dir _ => (if recursive then scanDir full e recursive else []) ++ each rest
             | File _ => (if isJpegFile full then [full] else []) ++ each rest
             | Other => each rest
             end
         end%list) ents
  | _ => []
  end.

(** [fs.stat(abs)]: what is found at an absolute path, links followed;
    [None] when the call is rejected. *)
Variable stat : string -> option Tree.

Fixpoint listInputs (inputs : list string) (recursive : bool) : outcome (list string) :=
  match inputs with
  | [] => Ret []
  | input :: rest =>
      let abs := resolve input in
      match stat abs with
      | None => Die ("Input not found: " ++ input)
      | Some (File _) =>
          if negb (isJpegFile abs)
          then Die ("Unsupported file (only .jpg/.jpeg): " ++ input)
          else (out <- listInputs rest recursive ;; Ret (abs :: out))%outcome
      | Some (Dir ents) =>
          (out <- listInputs rest recursive ;;
           Ret (scanDir abs (Dir ents) recursive ++ out))%outcome
      | Some Other => Die ("Unsupported input: " ++ input)
      end
  end%list.

(** An input that [listInputs] accepts, what it adds to the list, and the
    message for one that it rejects. *)
Definition accepted (input : string) : bool :=
  match stat (resolve input) with
  | Some (File _) => isJpegFile (resolve input)
  | Some (Dir _) => true
  | _ => false
  end.

Definition contribution (recursive : bool) (input : string) : list string :=
  match stat (resolve input) with
  | Some (File _) => [resolve input]
  | Some (Dir ents) => scanDir (resolve input) (Dir ents) recursive
  | _ => []
  end%list.

Definition rejection (input : string) : string :=
  match stat (resolve input) with
  | None => "Input not found: " ++ input
  | Some (File _) => "Unsupported file (only .jpg/.jpeg): " ++ input
  | _ => "Unsupported input: " ++ input
  end.

Definition outputPathFor (inputPath outDir suffix : string) : string :=
  let base := basename inputPath (extname inputPath) in
  join outDir (base ++ suffix ++ ".jpg").

End Paths.

End Files.

(** *** [main] *)

Module Main.

Definition SIX_MB : float := (6 * 1024 * 1024)%float.

Section Run.

Variable Buf : Type.
Variable length : Buf -> Z.

Variable resolve : string -> string.
Variable join : string -> string -> string.
Variable extname : string -> string.
Variable basename : string -> string -> string.

(** The state of the file system, and the calls that [main] makes on it.
    A call that is rejected (the promise throws) gives [None]. *)
Variable World : Type.

(** [fs.stat(p)], for [listInputs]. *)
Variable tree : World -> string -> option Files.Tree.

(** [(await fs.stat(p)).size]. *)
Variable stat_size : World -> string -> option Z.

(** [fs.mkdir(dir, { recursive: true })], which gives the new state or the
    stack of the error, and [fs.writeFile(p, buf)]. *)
Variable mkdir : World -> string -> World + string.
Variable writeFile : World -> string -> Buf -> option World.

(** [sharp(inputPath, { failOn: error })]: the image at [inputPath] is
    rejected, every encode throws, or it is accepted and is encoded with
    any options. *)
Variable sharp : World -> string -> option (bool -> Cli.JpegOpts -> Buf).

(** What a line of the console reports. *)
Record Report : Type := mkReport {
  r_input : string;
  r_before : Z;
  r_after : Z;
  r_ratio : float;
  r_usedQuality : float;
  r_pass : bool;
  r_warn6mb : bool;
  r_warnTarget : bool;
  r_used : Cli.Variant
}.

Inductive Line : Type :=
| Help
| Skipped (outPath : string)
| Done (report : Report)
| Failed (inputPath : string)
| Summary (ok fail : Z) (outDir : string).

(** A call of [fs.writeFile] that succeeded, with the state in which it
    was made. *)
Record Write : Type := mkWrite {
  w_before : World;
  w_path : string;
  w_buf : Buf
}.

(** The state of the loop over the inputs. *)
Record Loop : Type := mkLoop {
  world : World;
  ok : Z;
  fail : Z;
  console : list Line;
  writes : list Write;
  encodes : list (Cli.Attempt Buf)
}.

(** How a run ends: the exit code, the message of [die] if any, and what
    was done. *)
Record Exit : Type := mkExit {
  code : Z;
  died : option string;
  final : Loop
}.

Definition ratio (before after : Z) : float :=
  if (0 <? JS.Z2F before)%float
  then JS.Math_round ((1 - JS.Z2F after / JS.Z2F before) * 100)%float
  else 0%float.

Definition warn6mb (after : Z) : bool := (SIX_MB <? JS.Z2F after)%float.

(** [args.maxSizeBytes && after > args.maxSizeBytes]. *)
Definition warnTarget (args : Cli.Args.t) (after : Z) : bool :=
  match Cli.Args.maxSizeBytes args with
  | Some t => JS.truthy t && (t <? JS.Z2F after)%float
  | None => false
  end.

Definition failed (inputPath : string) (st : Loop) : Loop :=
  mkLoop (world st) (ok st) (fail st + 1) (console st ++ [Failed inputPath])
         (writes st) (encodes st).

(** The body of the loop once the input is not skipped: the state after
    it, and the message of a [die] if one ended the process. *)
Definition process (args : Cli.Args.t) (outPath : string) (st : Loop) (inputPath : string) :
  Loop * option string :=
  let w := world st in
  match stat_size w inputPath with
  | None => (failed inputPath st, None)
  | Some before =>
      match sharp w inputPath with
      | None => (failed inputPath st, None)
      | Some enc =>
          let '(res, log) :=
            Cli.compressWithTarget Buf length
              (Cli.encodeAtQuality (fun _ => enc)) inputPath args in
          let st := mkLoop w (ok st) (fail st) (console st) (writes st)
                           (encodes st ++ log) in
          match res with
          | Die msg => (st, Some msg)
          | Throw _ => (failed inputPath st, None)
          | Ret r =>
              let buf := Cli.buf Buf r in
              let after := length buf in
              match writeFile w outPath buf with
              | None => (failed inputPath st, None)
              | Some w' =>
                  let report :=
                    mkReport inputPath before after (ratio before after)
                             (Cli.usedQuality Buf r) (Cli.pass Buf r)
                             (warn6mb after) (warnTarget args after) (Cli.used Buf r) in
                  (mkLoop w' (ok st + 1) (fail st) (console st ++ [Done report])
                          (writes st ++ [mkWrite w outPath buf]) (encodes st),
                   None)
              end
          end
      end
  end%list.

(** The body of the loop, for one input: it is skipped when the output
    exists and [--overwrite] is not given. *)
Definition step (args : Cli.Args.t) (outDir : string) (st : Loop) (inputPath : string) :
  Loop * option string :=
  let outPath := Files.outputPathFor join extname basename inputPath outDir (Cli.Args.suffix args) in
  let w := world st in
  let exists_out :=
    match stat_size w outPath with Some _ => true | None => false end in
  if negb (Cli.Args.overwrite args) && exists_out then
    (mkLoop w (ok st) (fail st) (console st ++ [Skipped outPath]) (writes st) (encodes st),
     None)%list
  else process args outPath st inputPath.

Fixpoint loop (args : Cli.Args.t) (outDir : string) (inputs : list string) (st : Loop) :
  Loop * option string :=
  match inputs with
  | [] => (st, None)
  | inputPath :: rest =>
      match step args outDir st inputPath with
      | (st', None) => loop args outDir rest st'
      | dead => dead
      end
  end%list.

Definition start (w : World) : Loop := mkLoop w 0 0 [] [] [].

Definition die (msg : string) (st : Loop) : Exit := mkExit 1 (Some msg) st.

Definition main (argv : list string) (w : World) : Exit :=
  match Cli.parseArgs argv with
  | Die msg | Throw msg => die msg (start w)
  | Ret args =>
      let helped := mkLoop w 0 0 [Help] [] [] in
      if Cli.Args.help args then mkExit 0 None helped
      else
        match Cli.Args.inputs args with
        | [] => die (String (ascii_of_nat 10) "Missing input files/directories.") helped
        | _ =>
            if negb (Cli.Args.compress args) then
              die "Nothing to do: --no-compress was set." (start w)
            else if negb (Cli.Args.preserveResolution args) then
              die "This tool only supports --preserve-resolution." (start w)
            else
              match Files.listInputs resolve join extname (tree w)
                      (Cli.Args.inputs args) (Cli.Args.recursive args) with
              | Die msg | Throw msg => die msg (start w)
              | Ret [] => die "No .jpg/.jpeg inputs found." (start w)
              | Ret inputs =>
                  let outDir := resolve (Cli.Args.outDir args) in
                  match mkdir w outDir with
                  | inr stack => die stack (start w)
                  | inl w1 =>
                      match loop args outDir inputs (start w1) with
                      | (st, Some msg) => die msg st
                      | (st, None) =>
                          let st := mkLoop (world st) (ok st) (fail st)
                                      (console st ++ [Summary (ok st) (fail st) outDir])
                                      (writes st) (encodes st) in
                          mkExit (if fail st =? 0 then 0 else 2) None st
                      end
                  end
              end
        end
  end%list.

(** What one turn of the loop does: it skips the input, fails on it, dies,
    or writes the output and reports. *)
Inductive turn (args : Cli.Args.t) (outDir : string) (st : Loop) (inputPath : string) :
  Loop -> option string -> Prop :=
| turn_skip :
    Cli.Args.overwrite args = false ->
    stat_size (world st)
      (Files.outputPathFor join extname basename inputPath outDir (Cli.Args.suffix args))
    <> None ->
    turn args outDir st inputPath
      (mkLoop (world st) (ok st) (fail st)
         (console st ++
            [Skipped (Files.outputPathFor join extname basename inputPath outDir
                        (Cli.Args.suffix args))])
         (writes st) (encodes st))
      None
| turn_fail (log : list (Cli.Attempt Buf)) :
    turn args outDir st inputPath
      (mkLoop (world st) (ok st) (fail st + 1)
         (console st ++ [Failed inputPath]) (writes st) (encodes st ++ log))
      None
| turn_die (log : list (Cli.Attempt Buf)) (msg : string) :
    turn args outDir st inputPath
      (mkLoop (world st) (ok st) (fail st) (console st) (writes st) (encodes st ++ log))
      (Some msg)
| turn_done (before : Z) (enc : bool -> Cli.JpegOpts -> Buf) (r : Cli.Result Buf)
            (log : list (Cli.Attempt Buf)) (w' : World) :
    let w := world st in
    let outPath :=
      Files.outputPathFor join extname basename inputPath outDir (Cli.Args.suffix args) in
    let after := length (Cli.buf Buf r) in
    (Cli.Args.overwrite args = true \/ stat_size w outPath = None) ->
    stat_size w inputPath = Some before ->
    sharp w inputPath = Some enc ->
    Cli.compressWithTarget Buf length (Cli.encodeAtQuality (fun _ => enc)) inputPath args
    = (Ret r, log) ->
    writeFile w outPath (Cli.buf Buf r) = Some w' ->
    turn args outDir st inputPath
      (mkLoop w' (ok st + 1) (fail st)
         (console st ++
            [Done (mkReport inputPath before after (ratio before after)
                     (Cli.usedQuality Buf r) (Cli.pass Buf r) (warn6mb after)
                     (warnTarget args after) (Cli.used Buf r))])
         (writes st ++ [mkWrite w outPath (Cli.buf Buf r)])
         (encodes st ++ log))
      None.

(** Vocabulary of the proofs: the lines of a kind, and a file system in
    which what exists goes on existing when a file is written or a
    directory made. *)
Definition is_skipped (l : Line) : bool :=
  match l with Skipped _ => true | _ => false end.

Definition is_done (l : Line) : bool :=
  match l with Done _ => true | _ => false end.

Definition is_failed (l : Line) : bool :=
  match l with Failed _ => true | _ => false end.

Definition count (kind : Line -> bool) (lines : list Line) : Z :=
  Z.of_nat (List.length (filter kind lines)).

(** The counters count the lines, and every output reported was written. *)
Definition tallied (st : Loop) : Prop :=
  ok st = count is_done (console st) /\
  fail st = count is_failed (console st) /\
  ok st = Z.of_nat (List.length (writes st)).

(** A file is written only where [fs.stat] has just been rejected. *)
Definition fresh_writes (st : Loop) : Prop :=
  forall wr, In wr (writes st) -> stat_size (w_before wr) (w_path wr) = None.

(** What existed at [w0] still exists, and no file was written where
    something existed at [w0]. *)
Definition untouched (w0 : World) (st : Loop) : Prop :=
  (forall q, stat_size w0 q <> None -> stat_size (world st) q <> None) /\
  (forall wr, In wr (writes st) -> stat_size w0 (w_path wr) = None).

(** What a report says of the target: the tag of a missed target goes
    with a result that has not passed, and with no other. *)
Definition truthful (args : Cli.Args.t) (report : Report) : Prop :=
  match Cli.target_of args with
  | Some t =>
      r_warnTarget report = negb (r_pass report) /\
      (r_pass report = true -> (JS.Z2F (r_after report) <=? t)%float = true) /\
      (r_pass report = false -> (t <? JS.Z2F (r_after report))%float = true)
  | None => r_warnTarget report = false /\ r_pass report = true
  end.

Definition truthful_lines (args : Cli.Args.t) (st : Loop) : Prop :=
  forall report, In (Done report) (console st) -> truthful args report.

(** A line that reports an output goes with the file written for it: the
    path is that of the input reported, the size reported is the length of
    what was written, and what was written is the output of an encode of
    [log], made at the quality and with the knobs reported. *)
Definition matches (args : Cli.Args.t) (outDir : string) (log : list (Cli.Attempt Buf))
           (line : Line) (wr : Write) : Prop :=
  match line with
  | Done report =>
      w_path wr
      = Files.outputPathFor join extname basename (r_input report) outDir (Cli.Args.suffix args) /\
      r_after report = length (w_buf wr) /\
      In (Cli.mkAttempt Buf (r_usedQuality report) (r_used report) (w_buf wr)) log
  | _ => False
  end.

(** The outputs reported are the files written, in their order. *)
Definition reported (args : Cli.Args.t) (outDir : string) (st : Loop) : Prop :=
  Forall2 (matches args outDir (encodes st)) (filter is_done (console st)) (writes st).

Definition persistent : Prop :=
  (forall w p b w', writeFile w p b = Some w' ->
     forall q, stat_size w q <> None -> stat_size w' q <> None) /\
  (forall w d w', mkdir w d = inl w' ->
     forall q, stat_size w q <> None -> stat_size w' q <> None).

End Run.

Arguments world {Buf World} _.
Arguments ok {Buf World} _.
Arguments fail {Buf World} _.
Arguments console {Buf World} _.
Arguments writes {Buf World} _.
Arguments encodes {Buf World} _.
Arguments w_before {Buf World} _.
Arguments w_path {Buf World} _.
Arguments w_buf {Buf World} _.
Arguments code {Buf World} _.
Arguments died {Buf World} _.
Arguments final {Buf World} _.

End Main.


(** ** A small file system, for the examples *)

Module Sample.

(** The files with their sizes, the newest first.  A buffer is its byte
    count, as in the scenarios, and writing a file adds it in front. *)
Definition World : Type := list (string * Z).

(** Stand-ins for the functions of Node's [path] on POSIX paths.  A path
    is resolved to itself and two paths are joined by a slash, which is
    what Node does on the relative paths of the examples. *)
Definition resolve (p : string) : string := p.

Definition join (a b : string) : string := a ++ "/" ++ b.

(** What follows the last [sep] of [s], if there is one. *)
Fixpoint after_last (sep : ascii) (s : string) : option string :=
  match s with
  | EmptyString => None
  | String c rest =>
      match after_last sep rest with
      | Some t => Some t
      | None => if Ascii.eqb c sep then Some rest else None
      end
  end.

(** [s] without the slashes that end it. *)
Fixpoint strip_slashes (s : string) : string :=
  match s with
  | EmptyString => EmptyString
  | String c rest =>
      match strip_slashes rest with
      | EmptyString => if Ascii.eqb c "/" then EmptyString else String c EmptyString
      | t => String c t
      end
  end.

(** The last portion of a path: what follows its last slash, the slashes
    that end the path aside. *)
Definition portion (p : string) : string :=
  let t := strip_slashes p in
  match after_last "/" t with Some s => s | None => t end.

(** [path.extname(p)]: the last portion from its last dot on; empty when
    there is no dot, when the dot is the first character of the portion,
    and for the portion [..]. *)
Definition extname (p : string) : string :=
  let name := portion p in
  match after_last "." name with
  | None => ""
  | Some e =>
      if (String.length e + 1 =? String.length name)%nat then ""
      else if String.eqb name ".." then ""
      else String "." e
  end.

(** [path.basename(p, ext)]: the last portion, without [ext] when the
    portion ends with it and is longer; empty when [ext] is the whole
    path.  (For a path made of slashes only Node has cases of its own.) *)
Definition basename (p ext : string) : string :=
  let name := portion p in
  if String.eqb ext "" then name
  else if String.eqb ext p then ""
  else if Text.endsWith name ext && negb (String.eqb name ext)
       then String.substring 0 (String.length name - String.length ext) name
       else name.

Fixpoint stat_size (w : World) (p : string) : option Z :=
  match w with
  | [] => None
  | (q, n) :: rest => if String.eqb q p then Some n else stat_size rest p
  end%list.

Definition tree (w : World) (p : string) : option Files.Tree :=
  option_map Files.File (stat_size w p).

Definition mkdir (w : World) (dir : string) : World + string := inl w.

Definition writeFile (w : World) (p : string) (buf : Z) : option World :=
  Some ((p, buf) :: w)%list.

(** Every file is an image; it is encoded by the stub of the scenarios. *)
Definition sharp (w : World) (p : string) : option (bool -> Cli.JpegOpts -> Z) :=
  match stat_size w p with
  | Some _ => Some (Scenario.stub_sharp p)
  | None => None
  end.

Definition run (argv : list string) (w : World) : Main.Exit Z World :=
  Main.main Z (fun n => n) resolve join extname basename World tree stat_size mkdir
            writeFile sharp argv w.

(** Two images, and the output of an earlier run on the second. *)
Definition disk : World :=
  [ ("a.jpg", 2000000); ("b.jpeg", 900000); ("out/b-uscis.jpg", 5) ]%list.

(** A directory of images, with a subdirectory, a text file and a link. *)
Definition photos : Files.Tree :=
  Files.Dir [ ("x.jpg", Files.File 10);
              ("sub", Files.Dir [ ("y.JPG", Files.File 5) ]);
              ("notes.txt", Files.File 3);
              ("link.jpg", Files.Other) ]%list.

Definition stat_photos (p : string) : option Files.Tree :=
  if String.eqb p "photos" then Some photos
  else if String.eqb p "a.jpeg" then Some (Files.File 7)
  else if String.eqb p "notes.txt" then Some (Files.File 3)
  else None.

(** The images of a page: a file is a number, that of its canvas, and a
    negative one is not an image; the canvas 13 cannot be exported; a blob
    is its byte count, that of the scenarios. *)
Definition toCanvas (file : Z) : Z + string :=
  if file <? 0 then inr "Failed to load image." else inl file.

Definition toBlob (canvas : Z) (quality : float) : option Z :=
  if canvas =? 13 then None else Some (Scenario.stub_size quality).

(** The page with the preset: a target of 614,400 bytes. *)
Definition page : Images.Settings := Images.mkSettings true 600 0.55 0.85.

Definition image (id : string) (file : Z) : Images.Item Z Z :=
  Images.mkItem Z Z id file 1000000 0 0 false None.

Definition compressImages :
  Images.Settings -> bool -> list (Images.Item Z Z) -> Images.Run Z Z :=
  Images.compressImages Z Z Z (fun n => n) toBlob toCanvas (fun c => c) (fun c => c + 1).

End Sample.


(** ** The forms of a size expression, in the words of the specification *)

Module SizeForms.

(** A string of digits, not empty. *)
Definition digits (s : string) : Prop :=
  s <> EmptyString /\ Str.every Str.is_digit s = true.

(** A numeric value: digits, optionally followed by a point and digits. *)
Inductive numeric : string -> Prop :=
| whole (ip : string) : digits ip -> numeric ip
| fractional (ip fp : string) : digits ip -> digits fp -> numeric (ip ++ String "." fp).

(** The units and their multipliers: 1024, 1024^2 and 1024^3. *)
Inductive unit_of : string -> float -> Prop :=
| kb : unit_of "kb" 1024%float
| mb : unit_of "mb" 1048576%float
| gb : unit_of "gb" 1073741824%float.

(** The byte count that a size expression writes: bare digits are bytes;
    a numeric value followed by a unit is multiplied and floored. *)
Inductive bytes_of : string -> float -> Prop :=
| bare (ds : string) :
    digits ds -> bytes_of ds (JS.Z2F (Str.digits_val 10 Str.digit_val ds 0))
| with_unit (num u : string) (mult : float) :
    numeric num -> unit_of u mult ->
    bytes_of (num ++ u) (JS.Math_floor (JS.Number num * mult)%float).

(** A string of [n] nines. *)
Fixpoint nines (n : nat) : string :=
  match n with
  | O => EmptyString
  | S n' => String "9" (nines n')
  end.

End SizeForms.


(** ** Binary64 representations used by the proofs on Numbers *)

Module Binary64.

(** The mantissas of [0.1] (exponent -56) and of [1.0] (exponent -52). *)
Definition M01 : positive := 7205759403792794.
Definition P52 : positive := 4503599627370496.

(** [m * 2^e] is a normal Number of [[M01 * 2^e0, 2^(e0 + 56)]]: with
    [e0 = -56], of [[0.1, 1.0]]; with [e0 = -55], of [[0.2, 2.0]]. *)
Definition between (e0 : Z) (m : positive) (e : Z) : Prop :=
  Zpos (digits2_pos m) = 53 /\ e0 <= e <= e0 + 4 /\
  (e = e0 -> Zpos M01 <= Zpos m) /\ (e = e0 + 4 -> Zpos m = Zpos P52).

(** The sticky flags of a shift record, and the relation between a record
    and the same record shifted right by [k] bits. *)
Definition flags (x : shr_record) : bool := shr_r x || shr_s x.

Definition shifted (k : Z) (x0 x : shr_record) : Prop :=
  shr_m x = shr_m x0 / 2 ^ k /\
  (flags x = true -> shr_m x0 mod 2 ^ k <> 0 \/ flags x0 = true).

(** A rounded value that is valid and is not NaN. *)
Definition regular (x : spec_float) : Prop :=
  valid_binary x = true /\ x <> S754_nan.

End Binary64.

Local Close Scope string_scope.
Local Open Scope list_scope.
Local Open Scope Z_scope.

(** * Facts on Numbers *)

Module Binary64Facts.

Import Binary64.

(** ** The number of binary digits of a mantissa *)

Lemma digits2_bounds (p : positive) :
  2 ^ (Zpos (digits2_pos p) - 1) <= Zpos p < 2 ^ Zpos (digits2_pos p).
Proof.
  induction p as [p IH | p IH | ]; cbn [digits2_pos].
  - rewrite Pos2Z.inj_succ, Z.pow_succ_r by lia.
    replace (Z.succ (Zpos (digits2_pos p)) - 1) with (Z.succ (Zpos (digits2_pos p) - 1)) by lia.
    rewrite Z.pow_succ_r by lia. lia.
  - rewrite Pos2Z.inj_succ, Z.pow_succ_r by lia.
    replace (Z.succ (Zpos (digits2_pos p)) - 1) with (Z.succ (Zpos (digits2_pos p) - 1)) by lia.
    rewrite Z.pow_succ_r by lia. lia.
  - cbn. lia.
Qed.

Lemma digits2_unique (p : positive) (k : Z) :
  2 ^ (k - 1) <= Zpos p < 2 ^ k -> Zpos (digits2_pos p) = k.
Proof.
  intros [Hlo Hhi]. pose proof (digits2_bounds p) as [Dlo Dhi].
  assert (0 < k).
  { destruct (Z.ltb_spec 0 k) as [|Hk]; [assumption|].
    assert (2 ^ k <= 2 ^ 0) by (destruct (Z.eq_dec k 0) as [->|]; [lia| rewrite Z.pow_neg_r by lia; cbn; lia]).
    cbn in *. lia. }
  destruct (Z.lt_trichotomy (Zpos (digits2_pos p)) k) as [Hlt | [Heq | Hgt]]; [|assumption|].
  - assert (2 ^ Zpos (digits2_pos p) <= 2 ^ (k - 1)) by (apply Z.pow_le_mono_r; lia). lia.
  - assert (2 ^ k <= 2 ^ (Zpos (digits2_pos p) - 1)) by (apply Z.pow_le_mono_r; lia). lia.
Qed.

Lemma shr_1_shifted (x : shr_record) : 0 <= shr_m x -> shifted 1 x (shr_1 x).
Proof.
  destruct x as [m r s]. unfold shifted, flags. cbn [shr_m shr_r shr_s].
  intros Hm. change (2 ^ 1) with 2.
  destruct m as [ | [p | p | ] | p ]; cbn [shr_1 shr_m shr_r shr_s]; try lia.
  - split; [reflexivity | intros H; right; rewrite orb_false_l in H; destruct r, s; auto].
  - split; [ rewrite Pos2Z.inj_xI; apply (Z.div_unique _ _ _ 1); lia
           | intros _; left; rewrite Pos2Z.inj_xI; rewrite <- (Z.mod_unique (2 * Zpos p + 1) 2 (Zpos p) 1); lia ].
  - split; [ rewrite Pos2Z.inj_xO; apply (Z.div_unique _ _ _ 0); lia
           | intros H; right; rewrite orb_false_l in H; destruct r, s; auto ].
  - split; [ reflexivity | intros _; left; cbn; lia ].
Qed.

Lemma shifted_trans (a b : Z) (x0 x1 x2 : shr_record) :
  0 <= a -> 0 <= b -> 0 <= shr_m x0 ->
  shifted a x0 x1 -> shifted b x1 x2 -> shifted (a + b) x0 x2.
Proof.
  intros Ha Hb H0 [E1 F1] [E2 F2]. unfold shifted.
  assert (Pa : 0 < 2 ^ a) by (apply Z.pow_pos_nonneg; lia).
  assert (Pb : 0 < 2 ^ b) by (apply Z.pow_pos_nonneg; lia).
  rewrite Z.pow_add_r by lia. split.
  - rewrite E2, E1. apply Z.div_div; lia.
  - intros Hf.
    destruct (Z.eq_dec (shr_m x0 mod (2 ^ a * 2 ^ b)) 0) as [Hz | Hnz]; [ | left; assumption].
    apply Z.mod_divide in Hz; [ | lia]. destruct Hz as [c Hc].
    destruct (F2 Hf) as [Hm | Hf1].
    + exfalso. apply Hm. rewrite E1, Hc.
      replace (c * (2 ^ a * 2 ^ b)) with ((c * 2 ^ b) * 2 ^ a) by ring.
      rewrite Z.div_mul by lia. apply Z.mod_mul. lia.
    + destruct (F1 Hf1) as [Hm | Hf0]; [ | right; assumption].
      exfalso. apply Hm. rewrite Hc.
      replace (c * (2 ^ a * 2 ^ b)) with ((c * 2 ^ b) * 2 ^ a) by ring.
      apply Z.mod_mul. lia.
Qed.

Lemma shifted_nonneg (k : Z) (x0 x : shr_record) :
  0 <= k -> 0 <= shr_m x0 -> shifted k x0 x -> 0 <= shr_m x.
Proof.
  intros Hk H0 [E _]. rewrite E. apply Z.div_pos; [assumption | apply Z.pow_pos_nonneg; lia].
Qed.

Lemma iter_shr_1_shifted (n : positive) :
  forall x, 0 <= shr_m x -> shifted (Zpos n) x (iter_pos shr_1 n x).
Proof.
  induction n as [n IH | n IH | ]; intros x Hx; cbn [iter_pos].
  - pose proof (shr_1_shifted x Hx) as S1.
    pose proof (shifted_nonneg 1 _ _ ltac:(lia) Hx S1) as N1.
    pose proof (IH _ N1) as S2.
    pose proof (shifted_nonneg (Zpos n) _ _ ltac:(lia) N1 S2) as N2.
    pose proof (IH _ N2) as S3.
    replace (Zpos n~1) with (1 + (Zpos n + Zpos n)) by lia.
    eapply shifted_trans; [lia | lia | assumption | exact S1 | ].
    eapply shifted_trans; [lia | lia | assumption | exact S2 | exact S3].
  - pose proof (IH _ Hx) as S2.
    pose proof (shifted_nonneg (Zpos n) _ _ ltac:(lia) Hx S2) as N2.
    pose proof (IH _ N2) as S3.
    replace (Zpos n~0) with (Zpos n + Zpos n) by lia.
    eapply shifted_trans; [lia | lia | assumption | exact S2 | exact S3].
  - apply shr_1_shifted. assumption.
Qed.

Lemma round_nearest_even_cases (q : Z) (x : shr_record) :
  let q' := round_nearest_even q (loc_of_shr_record x) in
  (q' = q \/ q' = q + 1) /\ (flags x = false -> q' = q).
Proof.
  destruct x as [m [|] [|]]; unfold flags; cbn; try destruct (Z.even q); auto; split; auto; discriminate.
Qed.

Lemma fexp_normal (d e : Z) : -1074 <= d + e - 53 -> fexp prec emax (d + e) - e = d - 53.
Proof. unfold fexp, SpecFloat.emin, prec, emax. lia. Qed.

Lemma round_big (sx : bool) (s : positive) (e : Z) (n : positive) :
  Zpos (digits2_pos s) = 53 + Zpos n ->
  -1074 <= e ->
  exists m e',
    binary_round_aux prec emax sx (Zpos s) e loc_Exact
    = (if e' <=? 971 then S754_finite sx m e' else S754_infinity sx) /\
    Zpos (digits2_pos m) = 53 /\
    (Zpos s mod 2 ^ Zpos n = 0 -> Zpos m = Zpos s / 2 ^ Zpos n /\ e' = e + Zpos n) /\
    ((e' = e + Zpos n /\ Zpos s / 2 ^ Zpos n <= Zpos m) \/
     (e' = e + Zpos n + 1 /\ Zpos m = 2 ^ 52)).
Proof.
  intros Hd He.
  unfold binary_round_aux, shr_fexp. cbn [Zdigits2]. rewrite Hd.
  rewrite fexp_normal by lia.
  replace (53 + Zpos n - 53) with (Zpos n) by lia.
  cbn [shr shr_record_of_loc].
  set (x0 := {| shr_m := Zpos s; shr_r := false; shr_s := false |}).
  pose proof (iter_shr_1_shifted n x0 ltac:(cbn; lia)) as [Em Ef].
  set (x := iter_pos shr_1 n x0) in *. cbn [shr_m x0] in Em, Ef.
  pose proof (digits2_bounds s) as [Slo Shi]. rewrite Hd in Slo, Shi.
  assert (P2 : 0 < 2 ^ Zpos n) by (apply Z.pow_pos_nonneg; lia).
  replace (53 + Zpos n - 1) with (52 + Zpos n) in Slo by lia.
  rewrite Z.pow_add_r in Slo, Shi by lia.
  assert (Qlo : 2 ^ 52 <= shr_m x) by (rewrite Em; apply Z.div_le_lower_bound; lia).
  assert (Qhi : shr_m x < 2 ^ 53) by (rewrite Em; apply Z.div_lt_upper_bound; lia).
  destruct (round_nearest_even_cases (shr_m x) x) as [Hq Hexact].
  set (q' := round_nearest_even (shr_m x) (loc_of_shr_record x)) in *.
  assert (Hex : Zpos s mod 2 ^ Zpos n = 0 -> q' = Zpos s / 2 ^ Zpos n).
  { intros Hz. rewrite <- Em. apply Hexact.
    destruct (flags x) eqn:Fx; [ | reflexivity].
    destruct (Ef eq_refl) as [Hn | Hf]; [contradiction | discriminate]. }
  destruct (Z.eq_dec q' (2 ^ 53)) as [Hc | Hnc].
  - (* the rounding carried into the next binade *)
    rewrite Hc. change (Zdigits2 (2 ^ 53)) with 54.
    replace (54 + (e + Zpos n)) with (54 + e + Zpos n) by lia.
    replace (fexp prec emax (54 + e + Zpos n) - (e + Zpos n)) with 1
      by (unfold fexp, SpecFloat.emin, prec, emax; lia).
    cbn [shr iter_pos shr_1 shr_record_of_loc shr_m]. change (2 ^ 53) with (Zpos (2 ^ 53)).
    cbn [shr_1 shr_m Z.pow Z.pow_pos Pos.iter Z.mul Pos.mul].
    change (emax - prec) with 971.
    eexists _, _. split; [reflexivity | ]. split; [reflexivity | ]. split.
    + intros Hz. rewrite (Hex Hz) in Hc. rewrite <- Em in Hc. lia.
    + right. split; reflexivity.
  - assert (Hq' : 2 ^ 52 <= q' < 2 ^ 53) by lia.
    destruct q' as [ | p' | p' ] eqn:Eq'; try lia.
    cbn [Zdigits2]. rewrite (digits2_unique p' 53) by (change (53 - 1) with 52; lia).
    replace (fexp prec emax (53 + (e + Zpos n)) - (e + Zpos n)) with 0
      by (unfold fexp, SpecFloat.emin, prec, emax; lia).
    cbn [shr shr_record_of_loc shr_m].
    change (emax - prec) with 971.
    exists p', (e + Zpos n). split; [reflexivity | ]. split.
    + apply digits2_unique. change (53 - 1) with 52. lia.
    + split; [ intros Hz; split; [ apply Hex; assumption | reflexivity ] | ].
      left. split; [reflexivity | ]. rewrite <- Em. lia.
Qed.

Lemma Prim2SF_tenth : Prim2SF 0.1 = S754_finite false M01 (-56).
Proof. vm_compute. reflexivity. Qed.
Lemma Prim2SF_one : Prim2SF 1 = S754_finite false P52 (-52).
Proof. vm_compute. reflexivity. Qed.
Lemma Prim2SF_two : Prim2SF 2 = S754_finite false P52 (-51).
Proof. vm_compute. reflexivity. Qed.

Lemma canonical_normal (m : positive) (e : Z) :
  -1074 < e -> bounded prec emax m e = true -> Zpos (digits2_pos m) = 53.
Proof.
  intros He Hb. unfold bounded, canonical_mantissa in Hb.
  apply andb_true_iff in Hb. destruct Hb as [Hc _]. apply Z.eqb_eq in Hc.
  unfold fexp, SpecFloat.emin, prec, emax in Hc. lia.
Qed.

Lemma compare_cont_Eq (a b : positive) : Pos.compare_cont Eq a b = (a ?= b)%positive.
Proof. reflexivity. Qed.

Lemma valid_fidelity_between (x : float) :
  JS.valid_fidelity x = true ->
  exists m e, Prim2SF x = S754_finite false m e /\ between (-56) m e.
Proof.
  unfold JS.valid_fidelity. rewrite andb_true_iff, !leb_spec, Prim2SF_tenth, Prim2SF_one.
  pose proof (Prim2SF_valid x) as V.
  destruct (Prim2SF x) as [s | s | | s m e]; unfold SFleb, SFcompare; intros [H1 H2]; try discriminate.
  - destruct s; discriminate.
  - destruct s; [discriminate | ].
    cbn [valid_binary] in V.
    rewrite compare_cont_Eq in H1, H2.
    unfold between.
    destruct (Z.compare_spec (-56) e) as [E1 | E1 | E1];
      destruct (Z.compare_spec e (-52)) as [E2 | E2 | E2];
      try (exfalso; clear - E1 E2; lia);
      try (exfalso; clear - H1; discriminate H1);
      try (exfalso; clear - H2; discriminate H2).
    all: exists m, e; (split; [reflexivity | ]);
      pose proof (canonical_normal m e ltac:(clear - E1 E2; lia) V) as D;
      (split; [assumption | ]); (split; [clear - E1 E2; lia | ]); split; intros E;
      try (exfalso; clear - E E1 E2; lia).
    + assert (C : (M01 <= m)%positive)
        by (unfold Pos.le; intros C; rewrite C in H1; discriminate H1).
      apply Pos2Z.pos_le_pos. exact C.
    + pose proof (digits2_bounds m) as B. rewrite D in B. change (53 - 1) with 52 in B.
      assert (C : (m <= P52)%positive)
        by (unfold Pos.le; intros C; rewrite C in H2; discriminate H2).
      apply Pos2Z.pos_le_pos in C. clear - C B. unfold P52 in *. lia.
Qed.

Lemma iter_xO_value (m d : positive) : Zpos (Pos.iter xO m d) = Zpos m * 2 ^ Zpos d.
Proof.
  induction d as [ | d IH] using Pos.peano_ind.
  - cbn [Pos.iter]. rewrite Pos2Z.inj_xO. change (2 ^ 1) with 2. lia.
  - rewrite Pos.iter_succ, Pos2Z.inj_xO, IH, Pos2Z.inj_succ, Z.pow_succ_r by lia. lia.
Qed.

Lemma shl_align_value (m : positive) (e ez : Z) :
  ez <= e -> Zpos (fst (shl_align m e ez)) = Zpos m * 2 ^ (e - ez).
Proof.
  intros H. unfold shl_align.
  destruct (ez - e) as [ | p | p] eqn:E; cbn [fst].
  - replace (e - ez) with 0 by lia. cbn. lia.
  - lia.
  - rewrite iter_xO_value. replace (e - ez) with (Zpos p) by lia. reflexivity.
Qed.

Lemma digits2_le (p : positive) (k : Z) : 0 <= k -> Zpos p < 2 ^ k -> Zpos (digits2_pos p) <= k.
Proof.
  intros Hk H. pose proof (digits2_bounds p) as [Lo _].
  destruct (Z.le_gt_cases (Zpos (digits2_pos p)) k) as [ | G]; [assumption | ].
  assert (2 ^ k <= 2 ^ (Zpos (digits2_pos p) - 1)) by (apply Z.pow_le_mono_r; lia). lia.
Qed.

Lemma digits2_gt (p : positive) (k : Z) : 2 ^ k <= Zpos p -> k < Zpos (digits2_pos p).
Proof.
  intros H. pose proof (digits2_bounds p) as [_ Hi].
  destruct (Z.lt_ge_cases k (Zpos (digits2_pos p))) as [ | G]; [assumption | ].
  assert (2 ^ Zpos (digits2_pos p) <= 2 ^ k) by (apply Z.pow_le_mono_r; lia). lia.
Qed.

Ltac eval_pow2 :=
  repeat match goal with
    | |- context [2 ^ ?k] =>
        let v := eval vm_compute in (2 ^ k) in
        progress change (2 ^ k) with v
    | H : context [2 ^ ?k] |- _ =>
        let v := eval vm_compute in (2 ^ k) in
        progress change (2 ^ k) with v in H
    end.

Ltac eval_Z :=
  repeat match goal with
    | H : context [?x - ?y] |- _ =>
        let v := eval vm_compute in (x - y) in
        progress change (x - y) with v in H
    | H : context [?x + ?y] |- _ =>
        let v := eval vm_compute in (x + y) in
        progress change (x + y) with v in H
    end.

Lemma round_sum (s : positive) (ez : Z) :
  -56 <= ez <= -52 -> 2 ^ 53 <= Zpos s ->
  2 * Zpos M01 * 2 ^ (-56 - ez) <= Zpos s <= 2 ^ (1 - ez) ->
  exists m e,
    binary_round prec emax false s ez = S754_finite false m e /\ between (-55) m e.
Proof.
  intros R H53 [Lo Hi]. unfold M01 in *.
  pose proof (digits2_bounds s) as [Blo Bhi].
  pose proof (digits2_gt s 53 H53) as Dlo.
  assert (Dhi : Zpos (digits2_pos s) <= 2 - ez).
  { apply digits2_le; [lia | ].
    replace (2 - ez) with (Z.succ (1 - ez)) by lia. rewrite Z.pow_succ_r by lia. lia. }
  set (d := Zpos (digits2_pos s)) in *.
  assert (Hn : exists n : positive, d = 53 + Zpos n).
  { exists (Z.to_pos (d - 53)). rewrite Z2Pos.id; lia. }
  destruct Hn as [n Hd].
  destruct (round_big false s ez n Hd ltac:(lia)) as (m & e' & Hr & Hm & Hex & Hc).
  replace (e' <=? 971) with true in Hr by (symmetry; apply Z.leb_le; lia).
  unfold binary_round. fold d. rewrite Hd.
  replace (fexp prec emax (53 + Zpos n + ez)) with (ez + Zpos n)
    by (unfold fexp, SpecFloat.emin, prec, emax; lia).
  unfold shl_align. replace (ez + Zpos n - ez) with (Zpos n) by lia.
  rewrite Hr. exists m, e'. split; [reflexivity | ].
  pose proof (Z.mul_div_le (Zpos s) (2 ^ Zpos n) ltac:(apply Z.pow_pos_nonneg; lia)) as Q1.
  pose proof (Z.mul_succ_div_gt (Zpos s) (2 ^ Zpos n) ltac:(apply Z.pow_pos_nonneg; lia)) as Q2.
  set (q := Zpos s / 2 ^ Zpos n) in *.
  assert (Hex' : Zpos s = 2 ^ 52 * 2 ^ Zpos n -> Zpos m = 2 ^ 52 /\ e' = ez + Zpos n).
  { intros E. rewrite E in Hex. rewrite Z.mod_mul in Hex by lia.
    destruct (Hex eq_refl) as [Hq He]. split; [ | exact He].
    rewrite Hq. unfold q. rewrite E. apply Z.div_mul. lia. }
  clear Hex Hr. clearbody q.
  rewrite Hd in Blo, Bhi.
  replace (53 + Zpos n - 1) with (52 + Zpos n) in Blo by lia.
  rewrite Z.pow_add_r in Blo, Bhi by lia.
  assert (Cn : Zpos n = 1 \/ Zpos n = 2 \/ Zpos n = 3 \/ Zpos n = 4 \/ Zpos n = 5) by lia.
  assert (Ce : ez = -56 \/ ez = -55 \/ ez = -54 \/ ez = -53 \/ ez = -52) by lia.
  unfold between, M01, P52. split; [exact Hm | ].
  clear Hm R Dlo.
  destruct Ce as [-> | [-> | [-> | [-> | ->]]]];
  destruct Cn as [En | [En | [En | [En | En]]]]; rewrite En in *; clear En;
    eval_Z; eval_pow2; try lia.
  all: lia.
Qed.

Lemma add_between (m1 m2 : positive) (e1 e2 : Z) :
  between (-56) m1 e1 -> between (-56) m2 e2 ->
  exists m e,
    SFadd prec emax (S754_finite false m1 e1) (S754_finite false m2 e2)
    = S754_finite false m e /\ between (-55) m e.
Proof.
  intros (D1 & R1 & L1 & U1) (D2 & R2 & L2 & U2).
  pose proof (digits2_bounds m1) as B1. rewrite D1 in B1.
  pose proof (digits2_bounds m2) as B2. rewrite D2 in B2.
  unfold SFadd. cbn [cond_Zopp]. cbn [Z.add].
  set (a := fst (shl_align m1 e1 (Z.min e1 e2))).
  set (b := fst (shl_align m2 e2 (Z.min e1 e2))).
  assert (Ha : Zpos a = Zpos m1 * 2 ^ (e1 - Z.min e1 e2)) by (apply shl_align_value; lia).
  assert (Hb : Zpos b = Zpos m2 * 2 ^ (e2 - Z.min e1 e2)) by (apply shl_align_value; lia).
  assert (HS : Zpos (a + b) = Zpos a + Zpos b) by reflexivity.
  set (s := (a + b)%positive) in *. clearbody s a b.
  cbn [binary_normalize]. unfold binary_round.
  unfold M01, P52 in *.
  assert (C1 : e1 = -56 \/ e1 = -55 \/ e1 = -54 \/ e1 = -53 \/ e1 = -52) by lia.
  assert (C2 : e2 = -56 \/ e2 = -55 \/ e2 = -54 \/ e2 = -53 \/ e2 = -52) by lia.
  clear R1 R2.
  destruct C1 as [-> | [-> | [-> | [-> | ->]]]];
  destruct C2 as [-> | [-> | [-> | [-> | ->]]]];
    try specialize (L1 eq_refl); try specialize (U1 eq_refl);
    try specialize (L2 eq_refl); try specialize (U2 eq_refl);
    clear D1 D2;
    match goal with |- context [Z.min ?x ?y] =>
      let v := eval vm_compute in (Z.min x y) in change (Z.min x y) with v in * end;
    match type of Ha with context [?x - ?y] =>
      let v := eval vm_compute in (x - y) in change (x - y) with v in Ha end;
    match type of Hb with context [?x - ?y] =>
      let v := eval vm_compute in (x - y) in change (x - y) with v in Hb end;
    eval_pow2;
    (apply round_sum; unfold M01;
     [ lia
     | eval_pow2; lia
     | match goal with |- context [?x - ?y] =>
         let v := eval vm_compute in (x - y) in change (x - y) with v end;
       match goal with |- context [2 ^ (?x - ?y)] =>
         let v := eval vm_compute in (x - y) in change (x - y) with v end;
       eval_pow2; lia ]).
Qed.

Lemma halve_between (m : positive) (e : Z) :
  between (-55) m e ->
  SFdiv prec emax (S754_finite false m e) (S754_finite false P52 (-51))
  = S754_finite false m (e - 1).
Proof.
  intros (D & R & L & U).
  unfold SFdiv, SFdiv_core_binary. cbn [Zdigits2 xorb]. rewrite D.
  change (Zpos (digits2_pos P52)) with 53.
  replace (53 + e - (53 + -51)) with (e + 51) by lia.
  replace (fexp prec emax (e + 51)) with (e - 2)
    by (unfold fexp, SpecFloat.emin, prec, emax; lia).
  replace (Z.min (e - 2) (e - -51)) with (e - 2) by lia.
  replace (e - -51 - (e - 2)) with 53 by lia.
  rewrite Z.shiftl_mul_pow2 by lia.
  assert (Hdiv : Z.div_eucl (Zpos m * 2 ^ 53) (Zpos P52) = (Zpos m * 2, 0)).
  { pose proof (Z.div_eucl_eq (Zpos m * 2 ^ 53) (Zpos P52) ltac:(unfold P52; lia)) as E.
    pose proof (Z.mod_pos_bound (Zpos m * 2 ^ 53) (Zpos P52) ltac:(unfold P52; lia)) as B.
    unfold Z.modulo in B.
    destruct (Z.div_eucl (Zpos m * 2 ^ 53) (Zpos P52)) as [q r].
    unfold P52 in *. f_equal; lia. }
  rewrite Hdiv.
  change (new_location (Zpos P52) 0) with loc_Exact.
  assert (D2 : Zpos (digits2_pos (m~0)) = 53 + 1).
  { cbn [digits2_pos]. rewrite Pos2Z.inj_succ. lia. }
  replace (Zpos m * 2) with (Zpos m~0) by lia.
  destruct (round_big false (m~0) (e - 2) 1 D2 ltac:(lia)) as (m' & e' & Hr & _ & Hex & _).
  rewrite Hr.
  destruct Hex as [Hq He].
  { rewrite Pos2Z.inj_xO. change (2 ^ 1) with 2. rewrite Z.mul_comm. apply Z.mod_mul. lia. }
  replace (e' <=? 971) with true by (symmetry; apply Z.leb_le; lia).
  rewrite Pos2Z.inj_xO in Hq. change (2 ^ 1) with 2 in Hq.
  rewrite Z.mul_comm, Z.div_mul in Hq by lia.
  injection Hq as ->. f_equal. lia.
Qed.

Lemma between_valid_fidelity (x : float) (m : positive) (e : Z) :
  Prim2SF x = S754_finite false m e -> between (-56) m e -> JS.valid_fidelity x = true.
Proof.
  intros Hx (D & R & L & U). unfold JS.valid_fidelity.
  rewrite !leb_spec, Hx, Prim2SF_tenth, Prim2SF_one. unfold SFleb, SFcompare.
  rewrite !compare_cont_Eq. apply andb_true_iff. split.
  - destruct (Z.compare_spec (-56) e) as [E | E | E]; [ | reflexivity | lia].
    specialize (L (eq_sym E)). apply Pos2Z.pos_le_pos in L. unfold Pos.le in L.
    destruct (M01 ?= m)%positive eqn:C; [reflexivity | reflexivity | contradiction].
  - destruct (Z.compare_spec e (-52)) as [E | E | E]; [ | reflexivity | lia].
    specialize (U E). injection U as ->. rewrite Pos.compare_refl. reflexivity.
Qed.

(** The midpoint of two Numbers of [0.1, 1.0] lies in [0.1, 1.0]. *)
Lemma midpoint_valid (lo hi : float) :
  JS.valid_fidelity lo = true -> JS.valid_fidelity hi = true -> JS.valid_fidelity ((lo + hi) / 2)%float = true.
Proof.
  intros Hlo Hhi.
  destruct (valid_fidelity_between lo Hlo) as (m1 & e1 & E1 & B1).
  destruct (valid_fidelity_between hi Hhi) as (m2 & e2 & E2 & B2).
  destruct (add_between m1 m2 e1 e2 B1 B2) as (m & e & Ea & Ba).
  apply (between_valid_fidelity _ m (e - 1)).
  - rewrite div_spec, add_spec, E1, E2, Prim2SF_two. unfold SF64div, SF64add.
    rewrite Ea. apply halve_between. exact Ba.
  - destruct Ba as (D & R & L & U). unfold between. repeat split; try lia; assumption || (intros; (apply L || apply U); lia).
Qed.

(** ** Comparisons and clamping *)

Lemma SFcompare_antisym (x y : spec_float) (c : comparison) :
  SFcompare x y = Some c -> SFcompare y x = Some (CompOpp c).
Proof.
  destruct x as [sx | sx | | sx mx ex], y as [sy | sy | | sy my ey];
    cbn [SFcompare]; try discriminate;
    try (destruct sx; intros H; injection H as <-; reflexivity);
    try (destruct sy; intros H; injection H as <-; reflexivity).
  - destruct sx, sy; intros H; injection H as <-; reflexivity.
  - match goal with
    | |- context [?f Eq mx my] =>
        assert (HB : f Eq my mx = CompOpp (f Eq mx my))
          by (symmetry; apply (Pos.compare_cont_antisym mx my Eq));
        rewrite HB; generalize (f Eq mx my); intros A
    end.
    rewrite (Z.compare_antisym ex ey).
    destruct sx, sy; intros H; injection H as <-; try reflexivity;
      destruct (ex ?= ey); cbn [CompOpp]; try reflexivity;
      rewrite ?CompOpp_involutive; reflexivity.
Qed.

Lemma not_nan_Prim2SF (x : float) : is_nan x = false -> Prim2SF x <> S754_nan.
Proof.
  unfold is_nan. rewrite eqb_spec. intros H E. rewrite E in H. discriminate H.
Qed.

Lemma compare_defined (x y : float) :
  is_nan x = false -> is_nan y = false ->
  exists c, SFcompare (Prim2SF x) (Prim2SF y) = Some c.
Proof.
  intros Hx Hy. apply not_nan_Prim2SF in Hx, Hy.
  destruct (Prim2SF x) as [sx | sx | | sx mx ex], (Prim2SF y) as [sy | sy | | sy my ey];
    try contradiction; cbn [SFcompare]; eexists; reflexivity.
Qed.

Lemma ltb_leb (x y : float) : (x <? y)%float = true -> (x <=? y)%float = true.
Proof.
  rewrite ltb_spec, leb_spec. unfold SFltb, SFleb.
  destruct (SFcompare (Prim2SF x) (Prim2SF y)) as [[ | | ] | ]; intros H; try discriminate; reflexivity.
Qed.

Lemma not_ltb_leb (x y : float) :
  is_nan x = false -> is_nan y = false ->
  (x <? y)%float = false -> (y <=? x)%float = true.
Proof.
  intros Hx Hy. destruct (compare_defined x y Hx Hy) as [c Hc].
  rewrite ltb_spec, leb_spec. unfold SFltb, SFleb.
  rewrite (SFcompare_antisym _ _ _ Hc), Hc. destruct c; intros H; try discriminate; reflexivity.
Qed.

Lemma leb_not_nan (x y : float) : (x <=? y)%float = true -> is_nan x = false /\ is_nan y = false.
Proof.
  unfold is_nan. rewrite leb_spec, !eqb_spec. unfold SFleb, SFeqb.
  destruct (Prim2SF x) as [sx | sx | | sx mx ex], (Prim2SF y) as [sy | sy | | sy my ey];
    cbn [SFcompare]; intros H; try discriminate H; split;
    repeat match goal with s : bool |- _ => destruct s end; try reflexivity;
    rewrite ?Z.compare_refl, ?Pos.compare_cont_refl; reflexivity.
Qed.

(** [Math.max(0.1, Math.min(1.0, x))] is a valid fidelity unless [x] is NaN. *)
Lemma clamp_valid (x : float) :
  is_nan x = false -> JS.valid_fidelity (JS.Math_max 0.1 (JS.Math_min 1.0 x)) = true.
Proof.
  intros Hx.
  assert (Hy : exists y, JS.Math_min 1.0 x = y /\ is_nan y = false /\ (y <=? 1)%float = true).
  { unfold JS.Math_min. change (is_nan 1) with false. rewrite Hx. cbn [orb].
    destruct (1 <? x)%float eqn:L1.
    - exists 1%float. repeat split; reflexivity.
    - exists x. split; [ | split; [assumption | apply not_ltb_leb; [reflexivity | assumption | exact L1]]].
      destruct (x <? 1)%float; reflexivity. }
  destruct Hy as (y & -> & Ny & Ly).
  unfold JS.Math_max. change (is_nan 0.1) with false. rewrite Ny. cbn [orb].
  destruct (y <? 0.1)%float eqn:L2; [reflexivity | ].
  destruct (0.1 <? y)%float eqn:L3; [ | reflexivity].
  unfold JS.valid_fidelity. rewrite (ltb_leb _ _ L3), Ly. reflexivity.
Qed.

Lemma valid_fidelity_finite (q : float) : JS.valid_fidelity q = true -> is_finite q = true.
Proof.
  intros H. destruct (valid_fidelity_between q H) as (m & e & E & _).
  unfold is_finite, is_nan, is_infinity.
  rewrite !eqb_spec, abs_spec, E. cbn [SFabs]. unfold SFeqb. cbn [SFcompare].
  rewrite Z.compare_refl, Pos.compare_cont_refl.
  change (Prim2SF infinity) with (S754_infinity false). reflexivity.
Qed.

Lemma ltb_not_leb (x y : float) : (x <? y)%float = true -> (y <=? x)%float = false.
Proof.
  rewrite ltb_spec, leb_spec. unfold SFltb, SFleb.
  destruct (SFcompare (Prim2SF x) (Prim2SF y)) as [c | ] eqn:E; [ | discriminate].
  rewrite (SFcompare_antisym _ _ _ E). destruct c; intros H; try discriminate H; reflexivity.
Qed.

(** ** The Number of an integer *)

Lemma fexp_53 (e : Z) : -1074 <= e -> fexp prec emax (53 + e) = e.
Proof. unfold fexp, SpecFloat.emin, prec, emax. lia. Qed.

Lemma finite_53_valid (s : bool) (m : positive) (e : Z) :
  Zpos (digits2_pos m) = 53 -> -1074 <= e <= 971 ->
  valid_binary (S754_finite s m e) = true.
Proof.
  intros D R. cbn [valid_binary]. unfold bounded, canonical_mantissa.
  rewrite D, fexp_53 by lia. rewrite Z.eqb_refl. cbn [andb].
  apply Z.leb_le. unfold prec, emax. lia.
Qed.

(** Rounding a mantissa of 53 digits at a non-negative exponent. *)
Lemma round_53 (sx : bool) (m : positive) (e : Z) :
  Zpos (digits2_pos m) = 53 -> -1074 <= e ->
  binary_round_aux prec emax sx (Zpos m) e loc_Exact
  = if e <=? 971 then S754_finite sx m e else S754_infinity sx.
Proof.
  intros D He. unfold binary_round_aux, shr_fexp. cbn [Zdigits2]. rewrite D.
  rewrite fexp_53 by lia. rewrite Z.sub_diag.
  cbn [shr shr_record_of_loc shr_m loc_of_shr_record round_nearest_even Zdigits2].
  rewrite D, fexp_53 by lia. rewrite Z.sub_diag. cbn [shr shr_record_of_loc shr_m].
  reflexivity.
Qed.

(** The Number of a positive integer below 2^53 is the integer itself,
    normalised to 53 digits. *)
Lemma round_small (sx : bool) (p : positive) (d : Z) :
  d = Zpos (digits2_pos p) -> d <= 53 ->
  exists m, Zpos m = Zpos p * 2 ^ (53 - d) /\ Zpos (digits2_pos m) = 53 /\
    binary_round prec emax sx p 0 = S754_finite sx m (d - 53).
Proof.
  intros Ed Hd. unfold binary_round.
  rewrite Z.add_0_r, <- Ed.
  assert (Hp : 0 < d) by lia.
  assert (Hf : fexp prec emax d = d - 53)
    by (unfold fexp, SpecFloat.emin, prec, emax; lia).
  rewrite Hf.
  pose proof (shl_align_value p 0 (d - 53) ltac:(lia)) as Hv.
  destruct (shl_align p 0 (d - 53)) as [mz ez] eqn:Es. cbn [fst] in Hv.
  assert (Hez : ez = d - 53).
  { unfold shl_align in Es. destruct (d - 53 - 0) eqn:E0; injection Es as <- <-; lia. }
  subst ez. replace (0 - (d - 53)) with (53 - d) in Hv by lia.
  assert (Dm : Zpos (digits2_pos mz) = 53).
  { apply digits2_unique. rewrite Hv.
    pose proof (digits2_bounds p) as [Lo Hi]. rewrite <- Ed in Lo, Hi.
    assert (P : 0 < 2 ^ (53 - d)) by (apply Z.pow_pos_nonneg; lia).
    replace (53 - 1) with ((d - 1) + (53 - d)) by lia.
    replace 53 with (d + (53 - d)) at 4 by lia.
    rewrite !Z.pow_add_r by lia. split; nia. }
  exists mz. split; [exact Hv | ]. split; [exact Dm | ].
  rewrite round_53 by (try assumption; lia).
  replace (d - 53 <=? 971) with true by (symmetry; apply Z.leb_le; lia). reflexivity.
Qed.

Lemma round_regular (sx : bool) (p : positive) : regular (binary_round prec emax sx p 0).
Proof.
  destruct (Z.le_gt_cases (Zpos (digits2_pos p)) 53) as [Hd | Hd].
  - destruct (round_small sx p _ eq_refl Hd) as (m & _ & Dm & ->).
    split; [ | discriminate]. apply finite_53_valid; [exact Dm | ].
    pose proof (Pos2Z.is_pos (digits2_pos p)). lia.
  - assert (Hn : exists n : positive, Zpos (digits2_pos p) = 53 + Zpos n).
    { exists (Z.to_pos (Zpos (digits2_pos p) - 53)). rewrite Z2Pos.id; lia. }
    destruct Hn as [n Hn].
    unfold binary_round. rewrite Z.add_0_r, Hn.
    replace (fexp prec emax (53 + Zpos n)) with (Zpos n)
      by (unfold fexp, SpecFloat.emin, prec, emax; lia).
    unfold shl_align. cbn [Z.sub Z.opp Z.add].
    destruct (round_big sx p 0 n Hn ltac:(lia)) as (m & e' & -> & Dm & _ & Hc).
    destruct (Z.leb_spec e' 971) as [Le | Gt].
    + split; [ | discriminate]. apply finite_53_valid; [exact Dm | lia].
    + split; [reflexivity | discriminate].
Qed.

(** The Number of an integer is never NaN. *)
Lemma normalize_regular (z : Z) : regular (binary_normalize prec emax z 0 false).
Proof.
  destruct z as [ | p | p]; cbn [binary_normalize].
  - split; [reflexivity | discriminate].
  - apply round_regular.
  - apply round_regular.
Qed.

Lemma SFcompare_refl (x : spec_float) : x <> S754_nan -> SFcompare x x = Some Eq.
Proof.
  destruct x as [s | s | | s m e]; intros H; cbn [SFcompare]; try contradiction.
  - reflexivity.
  - destruct s; reflexivity.
  - rewrite Z.compare_refl.
    match goal with |- context [?f Eq m m] =>
      assert (HB : f Eq m m = Eq) by apply Pos.compare_cont_refl; rewrite HB end.
    destruct s; reflexivity.
Qed.

Lemma Prim2SF_Z2F (z : Z) : Prim2SF (JS.Z2F z) = binary_normalize prec emax z 0 false.
Proof. unfold JS.Z2F. apply Prim2SF_SF2Prim. apply normalize_regular. Qed.

Lemma Z2F_not_nan (z : Z) : is_nan (JS.Z2F z) = false.
Proof.
  unfold is_nan. rewrite eqb_spec, Prim2SF_Z2F. unfold SFeqb.
  rewrite SFcompare_refl by apply normalize_regular. reflexivity.
Qed.

Lemma truthy_not_nan (t : float) : JS.truthy t = true -> is_nan t = false.
Proof.
  unfold JS.truthy. destruct (is_nan t); [ | reflexivity].
  rewrite orb_true_r. discriminate.
Qed.

(** Below 2^53 the comparison of two Numbers of integers is that of the
    integers. *)
Lemma Z2F_compare (a b : Z) :
  0 <= a < 2 ^ 53 -> 0 <= b < 2 ^ 53 ->
  SFcompare (Prim2SF (JS.Z2F a)) (Prim2SF (JS.Z2F b)) = Some (a ?= b).
Proof.
  intros Ha Hb. rewrite !Prim2SF_Z2F.
  assert (Small : forall p : positive, Zpos p < 2 ^ 53 -> Zpos (digits2_pos p) <= 53).
  { intros p Hp. apply digits2_le; lia. }
  destruct a as [ | pa | pa], b as [ | pb | pb]; try lia; cbn [binary_normalize].
  - reflexivity.
  - destruct (round_small false pb _ eq_refl (Small pb ltac:(lia))) as (mb & _ & _ & ->).
    reflexivity.
  - destruct (round_small false pa _ eq_refl (Small pa ltac:(lia))) as (ma & _ & _ & ->).
    reflexivity.
  - destruct (round_small false pa _ eq_refl (Small pa ltac:(lia))) as (ma & Va & _ & ->).
    destruct (round_small false pb _ eq_refl (Small pb ltac:(lia))) as (mb & Vb & _ & ->).
    cbn [SFcompare]. f_equal.
    pose proof (digits2_bounds pa) as [La Ua]. pose proof (digits2_bounds pb) as [Lb Ub].
    pose proof (Small pa ltac:(lia)) as Sa. pose proof (Small pb ltac:(lia)) as Sb.
    set (da := Zpos (digits2_pos pa)) in *. set (db := Zpos (digits2_pos pb)) in *.
    assert (Pa : 0 < da) by (unfold da; lia). assert (Pb : 0 < db) by (unfold db; lia).
    clearbody da db.
    destruct (Z.compare_spec (da - 53) (db - 53)) as [E | L | G].
    + assert (da = db) by lia. subst db.
      match goal with |- context [?f Eq ma mb] =>
        change (f Eq ma mb) with (Zpos ma ?= Zpos mb) end.
      rewrite Va, Vb. symmetry.
      assert (P : 0 < 2 ^ (53 - da)) by (apply Z.pow_pos_nonneg; lia).
      destruct (Z.compare_spec (Zpos pa * 2 ^ (53 - da)) (Zpos pb * 2 ^ (53 - da)));
        [apply Z.compare_eq_iff | apply Z.compare_lt_iff | apply Z.compare_gt_iff]; nia.
    + symmetry. apply Z.compare_lt_iff.
      assert (2 ^ da <= 2 ^ (db - 1)) by (apply Z.pow_le_mono_r; lia). lia.
    + symmetry. apply Z.compare_gt_iff.
      assert (2 ^ db <= 2 ^ (da - 1)) by (apply Z.pow_le_mono_r; lia). lia.
Qed.

Lemma Z2F_leb (a b : Z) :
  0 <= a < 2 ^ 53 -> 0 <= b < 2 ^ 53 ->
  (JS.Z2F a <=? JS.Z2F b)%float = (a <=? b).
Proof.
  intros Ha Hb. rewrite leb_spec. unfold SFleb. rewrite (Z2F_compare a b Ha Hb).
  unfold Z.leb. destruct (a ?= b); reflexivity.
Qed.

End Binary64Facts.

(** * Facts on the CLI search *)

Module CliFacts.

Import Cli Binary64Facts.

Section Facts.

Variable Buf : Type.
Variable length : Buf -> Z.
Variable encode : string -> Args.t -> float -> option Variant -> Buf.
Variable inputPath : string.
Variable args : Args.t.
Variable target : float.
Variables baseQ minQ : float.

Local Abbreviation Attempt := (Attempt Buf).
Local Abbreviation M := (M Buf).
Local Abbreviation call := (call Buf encode).
Local Abbreviation search := (search Buf length encode inputPath args target).
Local Abbreviation forVariants := (forVariants Buf length encode inputPath args target baseQ minQ).
Local Abbreviation fits := (fits Buf length).
Local Abbreviation exceeds := (exceeds Buf length).
Local Abbreviation attempt_of := (attempt_of Buf encode inputPath args).
Local Abbreviation clarity_after := (clarity_after Buf length encode inputPath args baseQ).
Local Abbreviation fit_after := (fit_after Buf).
Local Abbreviation smallest_base := (smallest_base Buf length encode inputPath args baseQ).
Local Abbreviation clarity_ok := (clarity_ok Buf length encode inputPath args baseQ).
Local Abbreviation attempts_for := (attempts_for Buf).

Lemma bind_call {B : Type} (q : float) (ov : option Variant) (k : Buf -> M B) :
  bind (call inputPath args q ov) k =
  (fst (k (encode inputPath args q ov)),
   mkAttempt Buf q (effective args ov) (encode inputPath args q ov)
   :: snd (k (encode inputPath args q ov))).
Proof. unfold bind, Cli.call. destruct (k _) as [r l]. reflexivity. Qed.

Lemma search_S (v : Variant) (fuel : nat) (lo hi : float) (best : Buf) (bestQ : float) :
  search v (S fuel) lo hi best bestQ =
  if (0.015 <? hi - lo)%float then
    let mid := ((lo + hi) / 2)%float in
    let b := encode inputPath args mid (Some v) in
    let rest := if fits target b then search v fuel mid hi b mid
                else search v fuel lo mid best bestQ in
    (fst rest, attempt_of mid v :: snd rest)
  else (Ret (best, bestQ), []).
Proof.
  cbn [Cli.search]. destruct (0.015 <? hi - lo)%float; [ | reflexivity].
  rewrite bind_call. cbv zeta. destruct (fits target _); reflexivity.
Qed.

(** The search always returns, with at most [fuel] probes, all of them for
    the variant [v]. *)
Lemma search_returns (v : Variant) (fuel : nat) :
  forall lo hi best bestQ,
  exists b q l,
    search v fuel lo hi best bestQ = (Ret (b, q), l) /\
    (List.length l <= fuel)%nat /\
    (forall a, In a l -> knobs Buf a = effective args (Some v)) /\
    (JS.valid_fidelity lo = true -> JS.valid_fidelity hi = true ->
     forall a, In a l -> JS.valid_fidelity (fidelity Buf a) = true).
Proof.
  induction fuel as [ | fuel IH]; intros lo hi best bestQ.
  - exists best, bestQ, []. cbn. repeat split; try lia; intros; contradiction.
  - rewrite search_S. destruct (0.015 <? hi - lo)%float.
    + cbv zeta.
      set (mid := ((lo + hi) / 2)%float).
      destruct (fits target (encode inputPath args mid (Some v))).
      * destruct (IH mid hi (encode inputPath args mid (Some v)) mid) as (b & q & l & E & Hn & Hk & Hv).
        exists b, q, (attempt_of mid v :: l). rewrite E. cbn [fst snd List.length].
        repeat split; try lia.
        -- intros a [<- | Ha]; [reflexivity | auto].
        -- intros Vlo Vhi a [<- | Ha]; cbn [fidelity Cli.attempt_of].
           ++ apply midpoint_valid; assumption.
           ++ apply Hv; try assumption. apply midpoint_valid; assumption.
      * destruct (IH lo mid best bestQ) as (b & q & l & E & Hn & Hk & Hv).
        exists b, q, (attempt_of mid v :: l). rewrite E. cbn [fst snd List.length].
        repeat split; try lia.
        -- intros a [<- | Ha]; [reflexivity | auto].
        -- intros Vlo Vhi a [<- | Ha]; cbn [fidelity Cli.attempt_of].
           ++ apply midpoint_valid; assumption.
           ++ apply Hv; try assumption. apply midpoint_valid; assumption.
    + exists best, bestQ, []. cbn. repeat split; try lia; intros; contradiction.
Qed.

(** One turn of the loop over the variants. *)
Lemma forVariants_cons (v : Variant) (rest : list Variant)
      (bestFit bestClarity : option (Candidate Buf)) :
  forVariants (v :: rest) bestFit bestClarity =
  let atBase := encode inputPath args baseQ (Some v) in
  let atMin := encode inputPath args minQ (Some v) in
  if fits target atBase then
    (Ret (mkResult Buf atBase baseQ v true), [attempt_of baseQ v])
  else if exceeds target atMin then
    let r := forVariants rest bestFit (clarity_after v bestClarity) in
    (fst r, attempt_of baseQ v :: attempt_of minQ v :: snd r)
  else
    match search v 10 minQ baseQ atMin minQ with
    | (Ret sr, ls) =>
        let r := forVariants rest (fit_after v sr bestFit) (clarity_after v bestClarity) in
        (fst r, attempt_of baseQ v :: attempt_of minQ v :: ls ++ snd r)%list
    | (Die msg, ls) => (Die msg, attempt_of baseQ v :: attempt_of minQ v :: ls)
    | (Throw msg, ls) => (Throw msg, attempt_of baseQ v :: attempt_of minQ v :: ls)
    end.
Proof.
  cbn [Cli.forVariants]. rewrite bind_call. cbv zeta.
  destruct (fits target (encode inputPath args baseQ (Some v))); [reflexivity | ].
  rewrite bind_call.
  destruct (exceeds target (encode inputPath args minQ (Some v))).
  - unfold Cli.clarity_after. destruct bestClarity; reflexivity.
  - unfold bind at 1.
    destruct (search v 10 minQ baseQ (encode inputPath args minQ (Some v)) minQ) as [[[b q] | msg | msg] ls];
      cbn [fst snd]; try reflexivity.
    unfold Cli.clarity_after, Cli.fit_after. cbn [fst snd].
    destruct bestFit, bestClarity; cbn; 
    match goal with |- context [Cli.forVariants ?a ?b ?c ?d ?e ?f ?g ?h ?i ?j ?k] => destruct (Cli.forVariants a b c d e f g h i j k) end; reflexivity.
Qed.


Ltac step_variant v rest bestFit bestClarity :=
  rewrite (forVariants_cons v rest bestFit bestClarity); cbv zeta;
  destruct (fits target (encode inputPath args baseQ (Some v))) eqn:Fb;
  [ | destruct (exceeds target (encode inputPath args minQ (Some v))) eqn:Xm;
      [ | let b := fresh "b" in let q := fresh "q" in let ls := fresh "ls" in
          let Es := fresh "Es" in let Hn := fresh "Hn" in let Hk := fresh "Hk" in
          let Hv := fresh "Hv" in
          destruct (search_returns v 10 minQ baseQ (encode inputPath args minQ (Some v)) minQ)
            as (b & q & ls & Es & Hn & Hk & Hv);
          rewrite Es ] ].

(** Budget respect: a result with [pass = true] is a buffer that fits. *)
Lemma forVariants_pass_fits (vs : list Variant) :
  forall bestFit bestClarity r,
    fst (forVariants vs bestFit bestClarity) = Ret r ->
    pass Buf r = true -> fits target (buf Buf r) = true.
Proof.
  induction vs as [ | v rest IH]; intros bestFit bestClarity r.
  - cbn. destruct bestClarity; cbn; intros E; [ | discriminate E].
    injection E as <-. cbn. discriminate.
  - step_variant v rest bestFit bestClarity; cbn [fst].
    + intros E _. injection E as <-. exact Fb.
    + apply IH.
    + apply IH.
Qed.

(** The defect: when no variant fits at the base fidelity the result has
    [pass = false], whatever the searches found. *)
Lemma forVariants_no_base_fit (vs : list Variant) :
  forall bestFit bestClarity r,
    (forall v, In v vs -> fits target (encode inputPath args baseQ (Some v)) = false) ->
    fst (forVariants vs bestFit bestClarity) = Ret r -> pass Buf r = false.
Proof.
  induction vs as [ | v rest IH]; intros bestFit bestClarity r Hall.
  - cbn. destruct bestClarity; cbn; intros E; [ | discriminate E].
    injection E as <-. reflexivity.
  - step_variant v rest bestFit bestClarity; cbn [fst].
    + rewrite (Hall v (or_introl eq_refl)) in Fb. discriminate Fb.
    + apply IH. intros v' Hv'. apply Hall. right. exact Hv'.
    + apply IH. intros v' Hv'. apply Hall. right. exact Hv'.
Qed.

(** The loop returns a result as soon as there is a variant to try or a
    candidate already. *)
Lemma forVariants_returns (vs : list Variant) :
  forall bestFit bestClarity,
    vs <> [] \/ bestClarity <> None ->
    exists r, fst (forVariants vs bestFit bestClarity) = Ret r.
Proof.
  induction vs as [ | v rest IH]; intros bestFit bestClarity H.
  - destruct H as [H | H]; [contradiction | ].
    destruct bestClarity; [ | contradiction]. cbn. eexists; reflexivity.
  - step_variant v rest bestFit bestClarity; cbn [fst].
    + eexists; reflexivity.
    + apply IH. right. unfold Cli.clarity_after. destruct bestClarity; [ | discriminate].
      destruct (_ <? _); discriminate.
    + apply IH. right. unfold Cli.clarity_after. destruct bestClarity; [ | discriminate].
      destruct (_ <? _); discriminate.
Qed.

(** Every logged attempt is for a variant of the list, at a valid fidelity
    when the base and minimum fidelities are valid. *)
Lemma forVariants_log (vs : list Variant) :
  forall bestFit bestClarity a,
    In a (snd (forVariants vs bestFit bestClarity)) ->
    (exists v, In v vs /\ knobs Buf a = effective args (Some v)) /\
    (JS.valid_fidelity baseQ = true -> JS.valid_fidelity minQ = true ->
     JS.valid_fidelity (fidelity Buf a) = true).
Proof.
  induction vs as [ | v rest IH]; intros bestFit bestClarity a.
  - cbn. destruct bestClarity; cbn; contradiction.
  - assert (Hrest : forall bf bc, In a (snd (forVariants rest bf bc)) ->
      (exists v0, In v0 (v :: rest) /\ knobs Buf a = effective args (Some v0)) /\
      (JS.valid_fidelity baseQ = true -> JS.valid_fidelity minQ = true ->
       JS.valid_fidelity (fidelity Buf a) = true)).
    { intros bf bc Ha. destruct (IH bf bc a Ha) as [(v0 & Hin & Hk0) Hv0].
      split; [exists v0; split; [right; exact Hin | exact Hk0] | exact Hv0]. }
    assert (Hb : (exists v0, In v0 (v :: rest) /\
                   knobs Buf (attempt_of baseQ v) = effective args (Some v0)) /\
                 (JS.valid_fidelity baseQ = true -> JS.valid_fidelity minQ = true ->
                  JS.valid_fidelity (fidelity Buf (attempt_of baseQ v)) = true)).
    { split; [exists v; split; [left; reflexivity | reflexivity] | intros; assumption]. }
    assert (Hm : (exists v0, In v0 (v :: rest) /\
                   knobs Buf (attempt_of minQ v) = effective args (Some v0)) /\
                 (JS.valid_fidelity baseQ = true -> JS.valid_fidelity minQ = true ->
                  JS.valid_fidelity (fidelity Buf (attempt_of minQ v)) = true)).
    { split; [exists v; split; [left; reflexivity | reflexivity] | intros; assumption]. }
    step_variant v rest bestFit bestClarity; cbn [snd].
    + intros [<- | []]. exact Hb.
    + intros [<- | [<- | Ha]]; [exact Hb | exact Hm | eapply Hrest; exact Ha].
    + intros [<- | [<- | Ha]]; [exact Hb | exact Hm | ].
      apply in_app_or in Ha. destruct Ha as [Ha | Ha]; [ | eapply Hrest; exact Ha].
      split; [exists v; split; [left; reflexivity | apply Hk; exact Ha] | ].
      intros Vb Vm. apply Hv; assumption.
Qed.

Lemma clarity_after_ok (seen : list Variant) (v : Variant)
      (bestClarity : option (Candidate Buf)) :
  clarity_ok seen bestClarity ->
  clarity_ok (seen ++ [v]) (clarity_after v bestClarity).
Proof.
  unfold Cli.clarity_ok, Cli.clarity_after, Cli.smallest_base. destruct bestClarity as [c | ].
  - intros (v0 & Hin & -> & Hmin). cbn [c_buf].
    destruct (Z.ltb_spec (length (encode inputPath args baseQ (Some v)))
                         (length (encode inputPath args baseQ (Some v0)))) as [Hlt | Hge].
    + exists v. split; [apply in_or_app; right; left; reflexivity | ].
      split; [reflexivity | ].
      intros v' Hv'. apply in_app_or in Hv'. destruct Hv' as [Hv' | [<- | []]]; [ | lia].
      specialize (Hmin v' Hv'). lia.
    + exists v0. split; [apply in_or_app; left; exact Hin | ].
      split; [reflexivity | ].
      intros v' Hv'. apply in_app_or in Hv'. destruct Hv' as [Hv' | [<- | []]]; [auto | lia].
  - intros ->. exists v. split; [left; reflexivity | ]. split; [reflexivity | ].
    intros v' [<- | []]. lia.
Qed.

(** Fallback: when no variant of [vs] fits at the base fidelity, the result
    is the smallest base-fidelity encode of all the variants, [pass = false]. *)
Lemma forVariants_fallback (vs : list Variant) :
  forall seen bestFit bestClarity,
    clarity_ok seen bestClarity ->
    (forall v, In v vs -> fits target (encode inputPath args baseQ (Some v)) = false) ->
    seen ++ vs <> [] ->
    exists c, smallest_base (seen ++ vs) c /\
      fst (forVariants vs bestFit bestClarity)
      = Ret (mkResult Buf (c_buf Buf c) (c_q Buf c) (c_used Buf c) false).
Proof.
  induction vs as [ | v rest IH]; intros seen bestFit bestClarity Hok Hall Hne.
  - rewrite app_nil_r in *. destruct bestClarity as [c | ]; cbn in Hok.
    + exists c. split; [exact Hok | reflexivity].
    + contradiction.
  - assert (Hrest : forall bf, exists c, smallest_base (seen ++ v :: rest) c /\
        fst (forVariants rest bf (clarity_after v bestClarity))
        = Ret (mkResult Buf (c_buf Buf c) (c_q Buf c) (c_used Buf c) false)).
    { intros bf.
      replace (seen ++ v :: rest)%list with ((seen ++ [v]) ++ rest)%list
        by (rewrite <- app_assoc; reflexivity).
      apply IH.
      - apply clarity_after_ok. exact Hok.
      - intros v' Hv'. apply Hall. right. exact Hv'.
      - destruct seen; discriminate. }
    step_variant v rest bestFit bestClarity; cbn [fst].
    + rewrite (Hall v (or_introl eq_refl)) in Fb. discriminate Fb.
    + apply Hrest.
    + apply Hrest.
Qed.

Lemma attempts_for_other (v v0 : Variant) (l : list Attempt) :
  (forall a, In a l -> knobs Buf a = effective args (Some v)) ->
  variant_eqb v v0 = false -> attempts_for v0 l = [].
Proof.
  intros Hk Hne. induction l as [ | a l IH]; [reflexivity | ].
  cbn [Cli.attempts_for filter].
  rewrite (Hk a (or_introl eq_refl)).
  change (variant_eqb (effective args (Some v)) v0) with (variant_eqb v v0).
  rewrite Hne. apply IH. intros a' Ha'. apply Hk. right. exact Ha'.
Qed.

Lemma attempts_for_length (v0 : Variant) (l : list Attempt) :
  (List.length (attempts_for v0 l) <= List.length l)%nat.
Proof. apply filter_length_le. Qed.

Lemma attempts_for_app (v0 : Variant) (l1 l2 : list Attempt) :
  attempts_for v0 (l1 ++ l2) = attempts_for v0 l1 ++ attempts_for v0 l2.
Proof. apply filter_app. Qed.

Lemma occurrences_cons (v0 v : Variant) (vs : list Variant) :
  occurrences v0 (v :: vs)
  = ((if variant_eqb v v0 then 1 else 0) + occurrences v0 vs)%nat.
Proof. unfold occurrences. cbn [filter]. destruct (variant_eqb v v0); reflexivity. Qed.

(** Bounded search: a variant that occurs [n] times in the list gets at most
    [12 * n] encodes: base, minimum and at most ten probes each time. *)
Lemma forVariants_attempts (vs : list Variant) (v0 : Variant) :
  forall bestFit bestClarity,
    (List.length (attempts_for v0 (snd (forVariants vs bestFit bestClarity)))
     <= 12 * occurrences v0 vs)%nat.
Proof.
  induction vs as [ | v rest IH]; intros bestFit bestClarity.
  - cbn. destruct bestClarity; cbn; lia.
  - rewrite occurrences_cons.
    step_variant v rest bestFit bestClarity; cbn [snd].
    + destruct (variant_eqb v v0) eqn:E.
      * pose proof (attempts_for_length v0 [attempt_of baseQ v]). cbn [List.length] in *. lia.
      * rewrite (attempts_for_other v v0); [cbn; lia | | exact E].
        intros a [<- | []]. reflexivity.
    + change (attempt_of baseQ v :: attempt_of minQ v :: snd (forVariants rest bestFit (clarity_after v bestClarity)))
        with ([attempt_of baseQ v; attempt_of minQ v] ++ snd (forVariants rest bestFit (clarity_after v bestClarity)))%list.
      rewrite attempts_for_app, length_app.
      specialize (IH bestFit (clarity_after v bestClarity)).
      destruct (variant_eqb v v0) eqn:E.
      * pose proof (attempts_for_length v0 [attempt_of baseQ v; attempt_of minQ v]).
        cbn [List.length] in *. lia.
      * rewrite (attempts_for_other v v0); [cbn [List.length]; lia | | exact E].
        intros a [<- | [<- | []]]; reflexivity.
    + change (attempt_of baseQ v :: attempt_of minQ v :: ls ++ snd (forVariants rest (fit_after v (b, q) bestFit) (clarity_after v bestClarity)))%list
        with (([attempt_of baseQ v; attempt_of minQ v] ++ ls) ++ snd (forVariants rest (fit_after v (b, q) bestFit) (clarity_after v bestClarity)))%list.
      rewrite attempts_for_app, length_app.
      specialize (IH (fit_after v (b, q) bestFit) (clarity_after v bestClarity)).
      destruct (variant_eqb v v0) eqn:E.
      * pose proof (attempts_for_length v0 ([attempt_of baseQ v; attempt_of minQ v] ++ ls)).
        rewrite length_app in *. cbn [List.length] in *. lia.
      * rewrite (attempts_for_other v v0); [cbn [List.length]; lia | | exact E].
        intros a Ha. apply in_app_or in Ha. destruct Ha as [[<- | [<- | []]] | Ha]; auto.
Qed.
End Facts.

(** *** The whole of [compressWithTarget] *)

Section Whole.

Variable Buf : Type.
Variable length : Buf -> Z.
Variable encode : string -> Args.t -> float -> option Variant -> Buf.
Variable inputPath : string.

Local Abbreviation compressWithTarget := (compressWithTarget Buf length encode inputPath).

Lemma clamp01_cases (x : float) :
  (exists q, clamp01 x = Ret q /\ JS.valid_fidelity q = true) \/
  (exists msg, clamp01 x = Die msg).
Proof.
  unfold clamp01, JS.isFinite. destruct (is_finite x) eqn:F; cbn [negb].
  - left. eexists. split; [reflexivity | ]. apply clamp_valid.
    unfold is_finite in F. destruct (is_nan x); [discriminate F | reflexivity].
  - right. eexists. reflexivity.
Qed.

Lemma clamp01_valid (x q : float) : clamp01 x = Ret q -> JS.valid_fidelity q = true.
Proof.
  destruct (clamp01_cases x) as [(q' & E & V) | (msg & E)]; rewrite E; intros H.
  - injection H as <-. exact V.
  - discriminate H.
Qed.

Lemma clamp01_of_valid (q : float) :
  JS.valid_fidelity q = true ->
  exists q', clamp01 q = Ret q' /\ JS.valid_fidelity q' = true.
Proof.
  intros V. destruct (clamp01_cases q) as [H | (msg & E)]; [exact H | ].
  unfold clamp01, JS.isFinite in E. rewrite (valid_fidelity_finite q V) in E. discriminate E.
Qed.

(** Without a target: one encode with the knobs of [args]. *)
Lemma compress_passthrough (args : Args.t) :
  target_of args = None ->
  compressWithTarget args =
  (Ret (mkResult Buf (encode inputPath args (Args.quality args) None)
          (Args.quality args)
          (mkVariant (Args.subsample args) (Args.progressive args) (Args.stripMetadata args))
          true),
   [mkAttempt Buf (Args.quality args) (effective args None)
      (encode inputPath args (Args.quality args) None)]).
Proof.
  unfold target_of, Cli.compressWithTarget.
  destruct (Args.maxSizeBytes args) as [t | ]; [ | reflexivity].
  destruct (JS.truthy t); [discriminate | reflexivity].
Qed.

(** With a target: the loop over the table, from the clamped fidelities. *)
Lemma compress_targeted (args : Args.t) (t baseQ minQ : float) :
  target_of args = Some t ->
  clamp01 (Args.quality args) = Ret baseQ ->
  clamp01 (Args.minQuality args) = Ret minQ ->
  compressWithTarget args =
  forVariants Buf length encode inputPath args t baseQ minQ (variants) None None.
Proof.
  unfold target_of, Cli.compressWithTarget.
  destruct (Args.maxSizeBytes args) as [t' | ]; [ | discriminate].
  destruct (JS.truthy t'); [ | discriminate]. intros E. injection E as ->.
  intros -> ->. cbn [negb lift bind].
  destruct (forVariants _ _ _ _ _ _ _ _ _ _ _) as [r l]. reflexivity.
Qed.

Lemma compress_rejected (args : Args.t) (t : float) :
  target_of args = Some t ->
  (forall baseQ minQ,
     clamp01 (Args.quality args) = Ret baseQ ->
     clamp01 (Args.minQuality args) = Ret minQ -> False) ->
  exists msg, compressWithTarget args = (Die msg, []).
Proof.
  unfold target_of, Cli.compressWithTarget.
  destruct (Args.maxSizeBytes args) as [t' | ]; [ | discriminate].
  destruct (JS.truthy t'); [ | discriminate]. intros _ H. cbn [negb].
  destruct (clamp01_cases (Args.quality args)) as [(q & E & _) | (msg & E)]; rewrite E in *.
  - destruct (clamp01_cases (Args.minQuality args)) as [(mq & E' & _) | (msg & E')]; rewrite E' in *.
    + exfalso. eapply H; reflexivity.
    + exists msg. reflexivity.
  - exists msg. reflexivity.
Qed.

Lemma variants_distinct (v0 : Variant) : (occurrences v0 variants <= 1)%nat.
Proof.
  destruct v0 as [s p m]. unfold occurrences, variants, variant_eqb.
  cbn [filter subsample progressive stripMetadata].
  destruct (String.eqb_spec "4:4:4"%string s) as [E1 | E1], (String.eqb_spec "4:2:0"%string s) as [E2 | E2];
    try (rewrite <- E1 in E2; discriminate E2);
    destruct p, m; cbn; lia.
Qed.

End Whole.

End CliFacts.

(** * Facts on the browser search *)

Module BrowserFacts.

Import Browser Binary64Facts.

Section Facts.

Variable Canvas : Type.
Variable Blob : Type.
Variable size : Blob -> Z.
Variable toBlob : Canvas -> float -> Blob.
Variable canvas : Canvas.

Local Abbreviation Attempt := (Attempt Blob).
Local Abbreviation M := (M Blob).
Local Abbreviation canvasToJpegBlob := (canvasToJpegBlob Canvas Blob toBlob).
Local Abbreviation search := (search Canvas Blob size toBlob canvas).
Local Abbreviation fits := (fits Blob size).
Local Abbreviation exceeds := (exceeds Blob size).
Local Abbreviation encodeCanvasFitUnder := (encodeCanvasFitUnder Canvas Blob size toBlob canvas).
Local Abbreviation attempt_at := (attempt_at Canvas Blob toBlob canvas).

Lemma bind_blob {B : Type} (q : float) (k : Blob -> M B) :
  bind (canvasToJpegBlob canvas q) k =
  (fst (k (toBlob canvas q)), attempt_at q :: snd (k (toBlob canvas q))).
Proof. unfold bind, Browser.canvasToJpegBlob. destruct (k _) as [r l]. reflexivity. Qed.

Lemma exceeds_not_fits (t : float) (b : Blob) : exceeds t b = true -> fits t b = false.
Proof. apply ltb_not_leb. Qed.

Lemma blob_search_S (t : float) (fuel : nat) (lo hi : float) (bestBlob : Blob) (bestQ : float)
      (tried : Z) :
  search t (S fuel) lo hi bestBlob bestQ tried =
  if (0.02 <? hi - lo)%float then
    let mid := ((lo + hi) / 2)%float in
    let b := toBlob canvas mid in
    let rest := if fits t b then search t fuel mid hi b mid (tried + 1)
                else search t fuel lo mid bestBlob bestQ (tried + 1) in
    (fst rest, attempt_at mid :: snd rest)
  else (Ret (bestBlob, bestQ, tried), []).
Proof.
  cbn [Browser.search]. destruct (0.02 <? hi - lo)%float; [ | reflexivity].
  rewrite bind_blob. cbv zeta. destruct (fits t _); reflexivity.
Qed.

(** The search returns; it probes at most [fuel] times and counts its probes;
    what it returns fits when what it started from fits; its probes are at
    valid fidelities when its bounds are. *)
Lemma blob_search_returns (t : float) (fuel : nat) :
  forall lo hi bestBlob bestQ tried,
  exists b q l,
    search t fuel lo hi bestBlob bestQ tried
    = (Ret (b, q, tried + Z.of_nat (List.length l)), l) /\
    (List.length l <= fuel)%nat /\
    (fits t bestBlob = true -> fits t b = true) /\
    (JS.valid_fidelity lo = true -> JS.valid_fidelity hi = true ->
     forall a, In a l -> JS.valid_fidelity (fidelity Blob a) = true).
Proof.
  induction fuel as [ | fuel IH]; intros lo hi bestBlob bestQ tried.
  - exists bestBlob, bestQ, []. cbn. rewrite Z.add_0_r.
    repeat split; try lia; auto; intros; contradiction.
  - rewrite blob_search_S. destruct (0.02 <? hi - lo)%float.
    + cbv zeta. set (mid := ((lo + hi) / 2)%float).
      destruct (fits t (toBlob canvas mid)) eqn:Fm.
      * destruct (IH mid hi (toBlob canvas mid) mid (tried + 1)) as (b & q & l & E & Hn & Hf & Hv).
        exists b, q, (attempt_at mid :: l). rewrite E. cbn [fst snd List.length].
        replace (tried + 1 + Z.of_nat (List.length l))
          with (tried + Z.of_nat (S (List.length l))) by lia.
        repeat split; try lia; auto.
        intros Vlo Vhi a [<- | Ha]; cbn [fidelity Browser.attempt_at].
        -- apply midpoint_valid; assumption.
        -- apply Hv; try assumption. apply midpoint_valid; assumption.
      * destruct (IH lo mid bestBlob bestQ (tried + 1)) as (b & q & l & E & Hn & Hf & Hv).
        exists b, q, (attempt_at mid :: l). rewrite E. cbn [fst snd List.length].
        replace (tried + 1 + Z.of_nat (List.length l))
          with (tried + Z.of_nat (S (List.length l))) by lia.
        repeat split; try lia; auto.
        intros Vlo Vhi a [<- | Ha]; cbn [fidelity Browser.attempt_at].
        -- apply midpoint_valid; assumption.
        -- apply Hv; try assumption. apply midpoint_valid; assumption.
    + exists bestBlob, bestQ, []. cbn. rewrite Z.add_0_r.
      repeat split; try lia; auto; intros; contradiction.
Qed.

(** Without a target: one encode at the clamped base fidelity. *)
Lemma fitUnder_one_shot (opts : Opts) :
  target_of opts = None ->
  encodeCanvasFitUnder opts =
  (Ret (mkResult Blob (toBlob canvas (base_of opts)) (base_of opts) 1 true),
   [attempt_at (base_of opts)]).
Proof.
  unfold target_of, Browser.encodeCanvasFitUnder.
  destruct (targetBytes opts) as [t | ]; [ | reflexivity].
  destruct (JS.truthy t); [discriminate | reflexivity].
Qed.

(** With a target: the three ways out. *)
Lemma fitUnder_targeted (opts : Opts) (t : float) :
  target_of opts = Some t ->
  encodeCanvasFitUnder opts =
  let atBase := toBlob canvas (base_of opts) in
  let atMin := toBlob canvas (min_of opts) in
  if fits t atBase then
    (Ret (mkResult Blob atBase (base_of opts) 1 true), [attempt_at (base_of opts)])
  else if exceeds t atMin then
    (Ret (mkResult Blob atMin (min_of opts) 2 false),
     [attempt_at (base_of opts); attempt_at (min_of opts)])
  else
    match search t 10 (min_of opts) (base_of opts) atMin (min_of opts) 2 with
    | (Ret (b, q, n), l) =>
        (Ret (mkResult Blob b q n true),
         attempt_at (base_of opts) :: attempt_at (min_of opts) :: l)
    | (Die msg, l) => (Die msg, attempt_at (base_of opts) :: attempt_at (min_of opts) :: l)
    | (Throw msg, l) => (Throw msg, attempt_at (base_of opts) :: attempt_at (min_of opts) :: l)
    end.
Proof.
  unfold target_of, Browser.encodeCanvasFitUnder.
  destruct (targetBytes opts) as [t' | ]; [ | discriminate].
  destruct (JS.truthy t'); [ | discriminate]. intros E. injection E as ->.
  cbn [negb]. fold (base_of opts) (min_of opts). rewrite bind_blob. cbv zeta.
  destruct (fits t (toBlob canvas (base_of opts))); [reflexivity | ].
  rewrite bind_blob.
  destruct (exceeds t (toBlob canvas (min_of opts))); [reflexivity | ].
  unfold bind.
  destruct (search t 10 (min_of opts) (base_of opts) (toBlob canvas (min_of opts)) (min_of opts) 2)
    as [[[[b q] n] | msg | msg] l]; cbn [fst snd]; try reflexivity.
  unfold ret. cbn [fst snd]. rewrite app_nil_r. reflexivity.
Qed.

End Facts.

End BrowserFacts.

(** * Results on the browser search *)

Module BrowserResults.

Import Browser Binary64Facts BrowserFacts.

Section Results.

Variable Canvas : Type.
Variable Blob : Type.
Variable size : Blob -> Z.
Variable toBlob : Canvas -> float -> Blob.
Variable canvas : Canvas.

Local Abbreviation Attempt := (Attempt Blob).
Local Abbreviation search := (search Canvas Blob size toBlob canvas).
Local Abbreviation fits := (fits Blob size).
Local Abbreviation exceeds := (exceeds Blob size).
Local Abbreviation encodeCanvasFitUnder := (encodeCanvasFitUnder Canvas Blob size toBlob canvas).
Local Abbreviation encodeCanvasSmart := (encodeCanvasSmart Canvas Blob size toBlob).
Local Abbreviation attempt_at := (attempt_at Canvas Blob toBlob canvas).

Lemma not_exceeds_fits (t : float) (b : Blob) :
  JS.truthy t = true -> exceeds t b = false -> fits t b = true.
Proof.
  intros T X. apply not_ltb_leb; [apply truthy_not_nan; exact T | apply Z2F_not_nan | exact X].
Qed.

(** The four shapes of a targeted run. *)
Lemma fitUnder_shapes (opts : Opts) (t : float) :
  target_of opts = Some t ->
  let atBase := toBlob canvas (base_of opts) in
  let atMin := toBlob canvas (min_of opts) in
  (fits t atBase = true /\
   encodeCanvasFitUnder opts
   = (Ret (mkResult Blob atBase (base_of opts) 1 true), [attempt_at (base_of opts)]))
  \/
  (fits t atBase = false /\ exceeds t atMin = true /\
   encodeCanvasFitUnder opts
   = (Ret (mkResult Blob atMin (min_of opts) 2 false),
      [attempt_at (base_of opts); attempt_at (min_of opts)]))
  \/
  (fits t atBase = false /\ exceeds t atMin = false /\
   exists b q l,
     search t 10 (min_of opts) (base_of opts) atMin (min_of opts) 2
     = (Ret (b, q, 2 + Z.of_nat (List.length l)), l) /\
     (List.length l <= 10)%nat /\
     (fits t atMin = true -> fits t b = true) /\
     (JS.valid_fidelity (min_of opts) = true -> JS.valid_fidelity (base_of opts) = true ->
      forall a, In a l -> JS.valid_fidelity (fidelity Blob a) = true) /\
     encodeCanvasFitUnder opts
     = (Ret (mkResult Blob b q (2 + Z.of_nat (List.length l)) true),
        attempt_at (base_of opts) :: attempt_at (min_of opts) :: l)).
Proof.
  intros Ht. cbv zeta. rewrite (fitUnder_targeted _ _ _ _ _ _ t Ht). cbv zeta.
  destruct (fits t (toBlob canvas (base_of opts))) eqn:Fb; [left; auto | right].
  destruct (exceeds t (toBlob canvas (min_of opts))) eqn:Xm; [left; auto | right].
  split; [reflexivity | ]. split; [reflexivity | ].
  destruct (blob_search_returns Canvas Blob size toBlob canvas t 10
              (min_of opts) (base_of opts) (toBlob canvas (min_of opts)) (min_of opts) 2)
    as (b & q & l & E & Hn & Hf & Hv).
  exists b, q, l. rewrite E. repeat split; assumption.
Qed.

Lemma target_truthy (opts : Opts) (t : float) : target_of opts = Some t -> JS.truthy t = true.
Proof.
  unfold target_of. destruct (targetBytes opts) as [t' | ]; [ | discriminate].
  destruct (JS.truthy t') eqn:T; [ | discriminate]. intros E. injection E as <-. exact T.
Qed.

(** Budget respect. *)
Lemma fitUnder_pass_fits (opts : Opts) (t : float) (r : Result Blob) :
  target_of opts = Some t ->
  fst (encodeCanvasFitUnder opts) = Ret r ->
  pass Blob r = true -> fits t (blob Blob r) = true.
Proof.
  intros Ht. pose proof (target_truthy opts t Ht) as T.
  destruct (fitUnder_shapes opts t Ht) as [(Fb & ->) | [(Fb & Xm & ->) | (Fb & Xm & b & q & l & _ & _ & Hf & _ & ->)]];
    cbn [fst]; intros E; injection E as <-; cbn [pass blob]; intros P.
  - exact Fb.
  - discriminate P.
  - apply Hf. apply not_exceeds_fits; assumption.
Qed.

(** Fallback correctness: a failed run made no attempt that fits. *)
Lemma fitUnder_fail_no_fit (opts : Opts) (t : float) (r : Result Blob) :
  target_of opts = Some t ->
  fst (encodeCanvasFitUnder opts) = Ret r ->
  pass Blob r = false ->
  forall a, In a (snd (encodeCanvasFitUnder opts)) -> fits t (output Blob a) = false.
Proof.
  intros Ht.
  destruct (fitUnder_shapes opts t Ht) as [(Fb & ->) | [(Fb & Xm & ->) | (Fb & Xm & b & q & l & _ & _ & Hf & _ & ->)]];
    cbn [fst snd]; intros E; injection E as <-; cbn [pass]; intros P; try discriminate P.
  intros a [<- | [<- | []]]; cbn [output Browser.attempt_at].
  - exact Fb.
  - apply exceeds_not_fits. exact Xm.
Qed.

(** Bounded search: at most twelve encodes, all counted in [tried]. *)
Lemma fitUnder_tried (opts : Opts) :
  exists r, fst (encodeCanvasFitUnder opts) = Ret r /\
    tried Blob r = Z.of_nat (List.length (snd (encodeCanvasFitUnder opts))) /\
    tried Blob r <= 12.
Proof.
  destruct (target_of opts) as [t | ] eqn:Ht.
  - destruct (fitUnder_shapes opts t Ht) as [(Fb & ->) | [(Fb & Xm & ->) | (Fb & Xm & b & q & l & _ & Hn & _ & _ & ->)]];
      eexists; (split; [reflexivity | ]); cbn [tried snd List.length]; lia.
  - rewrite (fitUnder_one_shot _ _ _ _ _ opts Ht). eexists. split; [reflexivity | ].
    cbn. lia.
Qed.

(** Clamping: every attempt is at a valid fidelity, unless a fidelity of
    [opts] is NaN. *)
Lemma fitUnder_log_valid (opts : Opts) :
  is_nan (nullish (baseQuality opts) 0.85) = false ->
  is_nan (nullish (minQuality opts) 0.55) = false ->
  forall a, In a (snd (encodeCanvasFitUnder opts)) ->
    JS.valid_fidelity (fidelity Blob a) = true.
Proof.
  intros Nb Nm.
  assert (Vb : JS.valid_fidelity (base_of opts) = true) by (apply clamp_valid; exact Nb).
  assert (Vm : JS.valid_fidelity (min_of opts) = true) by (apply clamp_valid; exact Nm).
  destruct (target_of opts) as [t | ] eqn:Ht.
  - destruct (fitUnder_shapes opts t Ht) as [(Fb & ->) | [(Fb & Xm & ->) | (Fb & Xm & b & q & l & _ & _ & _ & Hv & ->)]];
      cbn [snd]; intros a Ha.
    + destruct Ha as [<- | []]. exact Vb.
    + destruct Ha as [<- | [<- | []]]; assumption.
    + destruct Ha as [<- | [<- | Ha]]; try assumption. apply Hv; assumption.
  - rewrite (fitUnder_one_shot _ _ _ _ _ opts Ht). cbn [snd].
    intros a [<- | []]. exact Vb.
Qed.

Lemma smart_log_valid (state : State) :
  is_nan (quality state) = false ->
  forall a, In a (snd (encodeCanvasSmart state canvas)) ->
    JS.valid_fidelity (fidelity Blob a) = true.
Proof.
  intros Nq.
  assert (Vq : JS.valid_fidelity (clamp (quality state) 0.1 1.0) = true)
    by (apply clamp_valid; exact Nq).
  unfold Browser.encodeCanvasSmart. destruct (compress state); cbn [negb].
  - apply fitUnder_log_valid; cbn [baseQuality minQuality nullish].
    + unfold JS.valid_fidelity in Vq. apply andb_true_iff in Vq.
      destruct Vq as [V _]. apply leb_not_nan in V. apply V.
    + reflexivity.
  - rewrite bind_blob. cbn [snd ret]. intros a [<- | []]. exact Vq.
Qed.

End Results.

End BrowserResults.

(** * Results on the CLI search *)

Module CliResults.

Import Cli Binary64Facts CliFacts.

Section Results.

Variable Buf : Type.
Variable length : Buf -> Z.
Variable encode : string -> Args.t -> float -> option Variant -> Buf.
Variable inputPath : string.

Local Abbreviation Attempt := (Attempt Buf).
Local Abbreviation fits := (fits Buf length).
Local Abbreviation exceeds := (exceeds Buf length).
Local Abbreviation compressWithTarget := (compressWithTarget Buf length encode inputPath).
Local Abbreviation forVariants := (forVariants Buf length encode inputPath).
Local Abbreviation attempts_for := (attempts_for Buf).

(** A targeted run either is rejected by [clamp01] before any encode, or is
    the loop over the table from two valid fidelities. *)
Lemma compress_shapes (args : Args.t) (t : float) :
  target_of args = Some t ->
  (exists msg, compressWithTarget args = (Die msg, [])) \/
  (exists baseQ minQ,
     clamp01 (Args.quality args) = Ret baseQ /\
     clamp01 (Args.minQuality args) = Ret minQ /\
     JS.valid_fidelity baseQ = true /\ JS.valid_fidelity minQ = true /\
     compressWithTarget args = forVariants args t baseQ minQ variants None None).
Proof.
  intros Ht.
  destruct (clamp01_cases (Args.quality args)) as [(bq & Eb & Vb) | (msg & Eb)].
  - destruct (clamp01_cases (Args.minQuality args)) as [(mq & Em & Vm) | (msg & Em)].
    + right. exists bq, mq. repeat split; try assumption.
      apply compress_targeted; assumption.
    + left. apply (compress_rejected _ _ _ _ args t Ht).
      intros b m _ E. rewrite Em in E. discriminate E.
  - left. apply (compress_rejected _ _ _ _ args t Ht).
    intros b m E _. rewrite Eb in E. discriminate E.
Qed.

(** Budget respect. *)
Lemma compress_pass_fits (args : Args.t) (t : float) (r : Result Buf) :
  target_of args = Some t ->
  fst (compressWithTarget args) = Ret r ->
  pass Buf r = true -> fits t (buf Buf r) = true.
Proof.
  intros Ht. destruct (compress_shapes args t Ht) as [(msg & ->) | (bq & mq & _ & _ & _ & _ & ->)].
  - discriminate.
  - apply forVariants_pass_fits.
Qed.

(** Every attempt of a run is at a valid fidelity when the fidelities of
    [args] are valid. *)
Lemma compress_log_valid (args : Args.t) :
  JS.valid_fidelity (Args.quality args) = true ->
  forall a, In a (snd (compressWithTarget args)) ->
    JS.valid_fidelity (fidelity Buf a) = true.
Proof.
  intros Vq a. destruct (target_of args) as [t | ] eqn:Ht.
  - destruct (compress_shapes args t Ht) as [(msg & ->) | (bq & mq & _ & _ & Vb & Vm & ->)].
    + intros [].
    + intros Ha. apply (forVariants_log _ _ _ _ _ _ _ _ _ _ _ a Ha); assumption.
  - rewrite (compress_passthrough _ _ _ _ args Ht). cbn [snd].
    intros [<- | []]. exact Vq.
Qed.

(** With a target, every attempt is for a variant of the table. *)
Lemma compress_log_variant (args : Args.t) (t : float) :
  target_of args = Some t ->
  forall a, In a (snd (compressWithTarget args)) -> In (knobs Buf a) variants.
Proof.
  intros Ht a. destruct (compress_shapes args t Ht) as [(msg & ->) | (bq & mq & _ & _ & _ & _ & ->)].
  - intros [].
  - intros Ha. destruct (forVariants_log _ _ _ _ _ _ _ _ _ _ _ a Ha) as [(v & Hin & ->) _].
    destruct v as [s p m]. exact Hin.
Qed.

(** Bounded search, over the whole run: twelve encodes per variant at most. *)
Lemma compress_attempts (args : Args.t) (v0 : Variant) :
  (List.length (attempts_for v0 (snd (compressWithTarget args))) <= 12)%nat.
Proof.
  destruct (target_of args) as [t | ] eqn:Ht.
  - destruct (compress_shapes args t Ht) as [(msg & ->) | (bq & mq & _ & _ & _ & _ & ->)].
    + cbn. lia.
    + pose proof (forVariants_attempts Buf length encode inputPath args t bq mq variants v0 None None).
      pose proof (variants_distinct v0). lia.
  - rewrite (compress_passthrough _ _ _ _ args Ht). cbn [snd].
    pose proof (attempts_for_length Buf v0
      [mkAttempt Buf (Args.quality args) (effective args None)
         (encode inputPath args (Args.quality args) None)]).
    cbn [List.length] in *. lia.
Qed.

(** Fallback: when no variant fits at the base fidelity, the result is the
    smallest base-fidelity encode over the table, and it fails. *)
Lemma compress_fallback (args : Args.t) (t baseQ minQ : float) :
  target_of args = Some t ->
  clamp01 (Args.quality args) = Ret baseQ ->
  clamp01 (Args.minQuality args) = Ret minQ ->
  (forall v, In v variants -> fits t (encode inputPath args baseQ (Some v)) = false) ->
  exists v, In v variants /\
    fst (compressWithTarget args)
    = Ret (mkResult Buf (encode inputPath args baseQ (Some v)) baseQ v false) /\
    forall v', In v' variants ->
      length (encode inputPath args baseQ (Some v))
      <= length (encode inputPath args baseQ (Some v')).
Proof.
  intros Ht Eb Em Hall.
  rewrite (compress_targeted _ _ _ _ args t baseQ minQ Ht Eb Em).
  destruct (forVariants_fallback Buf length encode inputPath args t baseQ minQ variants
              [] None None eq_refl Hall ltac:(discriminate))
    as (c & (v & Hin & -> & Hmin) & E).
  cbn [app] in *. exists v. split; [exact Hin | ]. split; [exact E | exact Hmin].
Qed.

(** A run on arguments with valid fidelities is never rejected: it returns
    a result and has encoded at least once. *)
Lemma compress_returns (args : Args.t) :
  JS.valid_fidelity (Args.quality args) = true ->
  JS.valid_fidelity (Args.minQuality args) = true ->
  exists r a l, compressWithTarget args = (Ret r, a :: l).
Proof.
  intros Vq Vm. destruct (target_of args) as [t | ] eqn:Ht.
  - destruct (clamp01_of_valid (Args.quality args) Vq) as (bq & Eb & _).
    destruct (clamp01_of_valid (Args.minQuality args) Vm) as (mq & Em & _).
    rewrite (compress_targeted _ _ _ _ args t bq mq Ht Eb Em).
    destruct (forVariants_returns Buf length encode inputPath args t bq mq variants None None
                ltac:(left; discriminate)) as [r Hr].
    destruct (forVariants _ _ _ _ _ _ _) as [o l] eqn:E. cbn [fst] in Hr. subst o.
    destruct l as [ | a l].
    + exfalso. unfold variants in E. rewrite forVariants_cons in E. cbv zeta in E.
      destruct (fits _ _); [discriminate E | ].
      destruct (exceeds _ _); [discriminate E | ].
      destruct (search _ _ _ _ _ _ _ _ _ _ _ _) as [[sr | msg | msg] ls]; discriminate E.
    + exists r, a, l. reflexivity.
  - rewrite (compress_passthrough _ _ _ _ args Ht). eexists _, _, _. reflexivity.
Qed.

End Results.

(** *** The metadata knob *)

Section Metadata.

Variable Buf : Type.
Variable length : Buf -> Z.
Variable sharp : string -> bool -> JpegOpts -> Buf.
Variable inputPath : string.

Local Abbreviation encode := (encodeAtQuality sharp).

(** With overrides, [encodeAtQuality] does not read [args.stripMetadata]. *)
Lemma encodeAtQuality_override (args : Args.t) (b : bool) (q : float) (v : Variant) :
  encode inputPath (Args.set_stripMetadata b args) q (Some v)
  = encode inputPath args q (Some v).
Proof. reflexivity. Qed.

(** So neither does the loop over the table, whose every call has them. *)
Lemma forVariants_strip (args : Args.t) (b : bool) (t baseQ minQ : float)
      (vs : list Variant) (bestFit bestClarity : option (Candidate Buf)) :
  forVariants Buf length encode inputPath (Args.set_stripMetadata b args) t baseQ minQ
              vs bestFit bestClarity
  = forVariants Buf length encode inputPath args t baseQ minQ vs bestFit bestClarity.
Proof. reflexivity. Qed.

(** With a target, the result and the log do not depend on
    [args.stripMetadata]. *)
Lemma compress_strip (args : Args.t) (b : bool) (t : float) :
  target_of args = Some t ->
  compressWithTarget Buf length encode inputPath (Args.set_stripMetadata b args)
  = compressWithTarget Buf length encode inputPath args.
Proof.
  unfold target_of, compressWithTarget.
  change (Args.maxSizeBytes (Args.set_stripMetadata b args)) with (Args.maxSizeBytes args).
  change (Args.quality (Args.set_stripMetadata b args)) with (Args.quality args).
  change (Args.minQuality (Args.set_stripMetadata b args)) with (Args.minQuality args).
  destruct (Args.maxSizeBytes args) as [t' | ]; [ | discriminate].
  destruct (JS.truthy t'); [ | discriminate]. intros _. cbn [negb].
  destruct (clamp01 (Args.quality args)) as [bq | msg | msg];
    [ | cbn [lift bind]; reflexivity ..].
  destruct (clamp01 (Args.minQuality args)) as [mq | msg | msg];
    [ | cbn [lift bind]; reflexivity ..].
  cbn [lift bind]. rewrite forVariants_strip. reflexivity.
Qed.

End Metadata.

End CliResults.

(** * Facts on strings and on [Number] *)

Module StringFacts.

Import Str.

Lemma digit_char (c : ascii) :
  is_digit c = true ->
  is_space c = false /\
  Ascii.eqb c "x" = false /\ Ascii.eqb c "X" = false /\
  Ascii.eqb c "o" = false /\ Ascii.eqb c "O" = false /\
  Ascii.eqb c "b" = false /\ Ascii.eqb c "B" = false /\
  Ascii.eqb c "+" = false /\ Ascii.eqb c "-" = false /\
  Ascii.eqb c "I" = false /\ 0 <= digit_val c <= 9.
Proof.
  destruct c as [[] [] [] [] [] [] [] []]; intros H; try discriminate H;
    repeat split; try reflexivity; unfold digit_val; cbn; lia.
Qed.

Lemma span_every (p : ascii -> bool) (s : string) :
  every p s = true -> span p s = (s, EmptyString).
Proof.
  induction s as [ | c r IH]; cbn [every span]; [reflexivity | ].
  intros H. apply andb_true_iff in H. destruct H as [Hc Hr].
  rewrite Hc, (IH Hr). reflexivity.
Qed.

Lemma span_fst_every (p : ascii -> bool) (s : string) : every p (fst (span p s)) = true.
Proof.
  induction s as [ | c r IH]; cbn [span]; [reflexivity | ].
  destruct (p c) eqn:Hc; [ | reflexivity].
  destruct (span p r) as [a b]. cbn [fst every] in *. rewrite Hc, IH. reflexivity.
Qed.

Lemma span_whole (p : ascii -> bool) (s a : string) :
  span p s = (a, EmptyString) -> a = s.
Proof.
  revert a. induction s as [ | c r IH]; cbn [span]; intros a.
  - intros E. injection E as <-. reflexivity.
  - destruct (p c); [ | discriminate].
    destruct (span p r) as [a' b'] eqn:Er. intros E. injection E as <- ->.
    rewrite (IH a' eq_refl). reflexivity.
Qed.

(** A string of digits only, and not empty. *)
Lemma all_digits_every (s : string) :
  all_digits s = true <-> s <> EmptyString /\ every is_digit s = true.
Proof.
  unfold all_digits. split.
  - destruct (span is_digit s) as [a b] eqn:E.
    destruct a as [ | c a]; [discriminate | ]. destruct b; [ | discriminate]. intros _.
    pose proof (span_whole _ _ _ E) as <-. split; [discriminate | ].
    pose proof (span_fst_every is_digit (String c a)) as H. rewrite E in H. exact H.
  - intros [Hne He]. rewrite (span_every _ _ He). destruct s; [contradiction | reflexivity].
Qed.

Lemma every_rev_acc (p : ascii -> bool) (s acc : string) :
  every p (rev_acc s acc) = every p s && every p acc.
Proof.
  revert acc. induction s as [ | c r IH]; intros acc; cbn [rev_acc every]; [reflexivity | ].
  rewrite IH. cbn [every]. destruct (p c), (every p r), (every p acc); reflexivity.
Qed.

Lemma rev_acc_rev_acc (s a b : string) :
  rev_acc (rev_acc s a) b = rev_acc a (s ++ b)%string.
Proof.
  revert a b. induction s as [ | c r IH]; intros a b; cbn [rev_acc String.append]; [reflexivity | ].
  rewrite IH. reflexivity.
Qed.

Lemma rev_rev (s : string) : rev (rev s) = s.
Proof.
  unfold rev. rewrite rev_acc_rev_acc. cbn [rev_acc].
  induction s as [ | c r IH]; cbn [String.append]; [reflexivity | rewrite IH; reflexivity].
Qed.

Lemma trimStart_digits (s : string) : every is_digit s = true -> trimStart s = s.
Proof.
  destruct s as [ | c r]; [reflexivity | ]. cbn [every trimStart]. intros H.
  apply andb_true_iff in H. destruct H as [Hc _].
  destruct (digit_char c Hc) as [-> _]. reflexivity.
Qed.

Lemma trim_digits (s : string) : every is_digit s = true -> trim s = s.
Proof.
  intros H. unfold trim. rewrite (trimStart_digits s H).
  rewrite trimStart_digits; [apply rev_rev | ].
  unfold rev. rewrite every_rev_acc, H. reflexivity.
Qed.

Lemma append_empty (s : string) : (s ++ EmptyString)%string = s.
Proof. induction s as [ | c r IH]; cbn; [reflexivity | rewrite IH; reflexivity]. Qed.

Lemma digits_val_nonneg (s : string) :
  every is_digit s = true -> forall acc, 0 <= acc -> 0 <= digits_val 10 digit_val s acc.
Proof.
  induction s as [ | c r IH]; cbn [every digits_val]; intros H acc Hacc; [exact Hacc | ].
  apply andb_true_iff in H. destruct H as [Hc Hr]. apply IH; [exact Hr | ].
  destruct (digit_char c Hc) as (_ & _ & _ & _ & _ & _ & _ & _ & _ & _ & Hv). lia.
Qed.

(** [Number] on a string of digits is the Number of the integer they
    write. *)
Lemma Number_digits (s : string) :
  all_digits s = true -> JS.Number s = JS.Z2F (digits_val 10 digit_val s 0).
Proof.
  intros H. apply all_digits_every in H. destruct H as [Hne He].
  unfold JS.Number. rewrite (trim_digits s He). cbv zeta.
  destruct s as [ | c r]; [contradiction | ].
  pose proof He as He'. cbn [every] in He'. apply andb_true_iff in He'. destruct He' as [Hc Hr].
  destruct (digit_char c Hc) as (_ & _ & _ & _ & _ & _ & _ & Hplus & Hminus & HI & _).
  assert (Hrp : JS.radix_prefix (String c r) = None).
  { unfold JS.radix_prefix. destruct r as [ | c1 ds]; [reflexivity | ].
    cbn [every] in Hr. apply andb_true_iff in Hr. destruct Hr as [Hc1 _].
    destruct (digit_char c1 Hc1) as (_ & -> & -> & -> & -> & -> & -> & _).
    destruct (Ascii.eqb c "0"); reflexivity. }
  rewrite Hrp. unfold JS.signed_decimal. rewrite Hplus, Hminus.
  unfold JS.unsigned_decimal.
  assert (Hinf : String.eqb (String c r) "Infinity" = false)
    by (cbn [String.eqb]; rewrite HI; reflexivity).
  rewrite Hinf, (span_every _ _ He). cbn [JS.exponent_part String.length Z.of_nat].
  rewrite append_empty. cbn [JS.of_option].
  pose proof (digits_val_nonneg (String c r) He 0 ltac:(lia)) as Hv.
  destruct (digits_val 10 digit_val (String c r) 0) as [ | p | p]; [reflexivity | | lia].
  unfold JS.decimal. cbn [Z.sub Z.opp Z.leb Z.compare]. rewrite Z.pow_0_r, Z.mul_1_r.
  reflexivity.
Qed.

End StringFacts.

(** * Facts on [parseArgs] *)

Module ParseFacts.

Import Cli Binary64Facts CliFacts.

Lemma prefix_append (p s : string) : String.prefix p (p ++ s)%string = true.
Proof.
  induction p as [ | a p IH]; cbn [String.append String.prefix].
  - destruct s; reflexivity.
  - destruct (ascii_dec a a) as [_ | N]; [exact IH | contradiction].
Qed.

Lemma known_prefix (p s : string) :
  In p rejections -> known_rejection (p ++ s)%string = true.
Proof.
  intros H. unfold known_rejection. apply existsb_exists.
  exists p. split; [exact H | apply prefix_append].
Qed.

Ltac known p s := apply (known_prefix p s); cbn; tauto.

Lemma scan_die (n : nat) :
  forall argv args msg,
    (List.length argv <= n)%nat ->
    scan argv args = Die msg -> known_rejection msg = true.
Proof.
  induction n as [ | n IH]; intros argv args msg Hn.
  - destruct argv; [discriminate | cbn in Hn; lia].
  - destruct argv as [ | a rest]; [discriminate | ]. cbn [List.length] in Hn.
    cbn [scan]. destruct (negb (Str.startsWith a "--")).
    + apply IH. lia.
    + destruct (Str.split2 "=" a) as [k inlineV].
      destruct (option_handler k) as [[f | f] | ].
      * apply IH. lia.
      * destruct inlineV as [v | ]; [apply IH; lia | ].
        destruct rest as [ | v rest']; [ | apply IH; cbn [List.length] in Hn; lia].
        intros E. injection E as <-. known "Missing value for "%string k.
      * intros E. injection E as <-.
        known "Unknown option: "%string
              (k ++ String (ascii_of_nat 10) "Run with --help")%string.
Qed.

Lemma scan_no_throw (n : nat) :
  forall argv args msg, (List.length argv <= n)%nat -> scan argv args <> Throw msg.
Proof.
  induction n as [ | n IH]; intros argv args msg Hn.
  - destruct argv; [discriminate | cbn in Hn; lia].
  - destruct argv as [ | a rest]; [discriminate | ]. cbn [List.length] in Hn.
    cbn [scan]. destruct (negb (Str.startsWith a "--")).
    + apply IH. lia.
    + destruct (Str.split2 "=" a) as [k inlineV].
      destruct (option_handler k) as [[f | f] | ]; try discriminate.
      * apply IH. lia.
      * destruct inlineV as [v | ]; [apply IH; lia | ].
        destruct rest as [ | v rest']; [discriminate | apply IH; cbn [List.length] in Hn; lia].
Qed.

Lemma clamp01_die (x : float) (msg : string) :
  clamp01 x = Die msg -> known_rejection msg = true.
Proof.
  unfold clamp01. destruct (negb (JS.isFinite x)); [ | discriminate].
  intros E. injection E as <-.
  known "Invalid --quality "%string "(must be number 0.1..1.0)"%string.
Qed.

Lemma normalizeSubsample_die (s msg : string) :
  normalizeSubsample s = Die msg -> known_rejection msg = true.
Proof.
  unfold normalizeSubsample.
  destruct (_ || _); [discriminate | ]. destruct (_ || _); [discriminate | ].
  intros E. injection E as <-.
  known "Invalid --subsample "%string
        (Str.dquote ++ Str.trim s ++ Str.dquote ++ " (use 4:4:4 or 4:2:0)")%string.
Qed.

Lemma parseSizeToBytes_die (s msg : string) :
  parseSizeToBytes s = Die msg -> known_rejection msg = true.
Proof.
  unfold parseSizeToBytes. destruct (Str.all_digits _); [discriminate | ].
  destruct (match_size _) as [[m1 unit] | ]; [discriminate | ].
  intros E. injection E as <-.
  known "Invalid --max-size "%string
        (Str.dquote ++ s ++ Str.dquote ++ " (examples: 6mb, 5500kb, 5000000)")%string.
Qed.

(** What [parseArgs] does after the scan of the command line. *)
Lemma parseArgs_after_scan (argv : list string) (raw : Args.t) :
  scan argv Args.defaults = Ret raw ->
  parseArgs argv =
  (q <- clamp01 (Args.quality raw) ;;
   mq <- clamp01 (Args.minQuality raw) ;;
   ss <- normalizeSubsample (Args.subsample raw) ;;
   let args := Args.set_subsample ss (Args.set_minQuality mq (Args.set_quality q raw)) in
   match size_of raw with
   | Some (String c r) =>
       n <- parseSizeToBytes (String c r) ;; Ret (Args.set_maxSizeBytes (Some n) args)
   | _ => Ret (Args.set_maxSizeBytes None args)
   end)%outcome.
Proof. intros E. unfold parseArgs. rewrite E. reflexivity. Qed.

(** The fidelities that [parseArgs] returns are valid. *)
Lemma parseArgs_valid (argv : list string) (args : Args.t) :
  parseArgs argv = Ret args ->
  JS.valid_fidelity (Args.quality args) = true /\
  JS.valid_fidelity (Args.minQuality args) = true.
Proof.
  destruct (scan argv Args.defaults) as [raw | msg | msg] eqn:Es;
    [ | unfold parseArgs; rewrite Es; discriminate ..].
  rewrite (parseArgs_after_scan argv raw Es). unfold bindO.
  destruct (clamp01 (Args.quality raw)) as [q | | ] eqn:Eq; try discriminate.
  destruct (clamp01 (Args.minQuality raw)) as [mq | | ] eqn:Em; try discriminate.
  destruct (normalizeSubsample (Args.subsample raw)) as [ss | | ]; try discriminate.
  apply clamp01_valid in Eq, Em.
  destruct (size_of raw) as [[ | c r] | ].
  - intros E. injection E as <-. split; assumption.
  - destruct (parseSizeToBytes (String c r)); try discriminate.
    intros E. injection E as <-. split; assumption.
  - intros E. injection E as <-. split; assumption.
Qed.

(** [parseArgs] rejects for the known reasons only; none of them compares
    the minimum quality with the quality. *)
Lemma parseArgs_die (argv : list string) (msg : string) :
  parseArgs argv = Die msg -> known_rejection msg = true.
Proof.
  destruct (scan argv Args.defaults) as [raw | msg' | msg'] eqn:Es.
  - rewrite (parseArgs_after_scan argv raw Es). unfold bindO.
    destruct (clamp01 (Args.quality raw)) as [q | m | m] eqn:Eq.
    + destruct (clamp01 (Args.minQuality raw)) as [mq | m | m] eqn:Em.
      * destruct (normalizeSubsample (Args.subsample raw)) as [ss | m | m] eqn:En.
        -- destruct (size_of raw) as [[ | c r] | ]; try discriminate.
           destruct (parseSizeToBytes (String c r)) as [n | m | m] eqn:Ep; try discriminate.
           intros E. injection E as <-. apply (parseSizeToBytes_die _ _ Ep).
        -- intros E. injection E as <-. apply (normalizeSubsample_die _ _ En).
        -- unfold normalizeSubsample in En.
           destruct (_ || _); [discriminate | ]. destruct (_ || _); discriminate.
      * intros E. injection E as <-. apply (clamp01_die _ _ Em).
      * unfold clamp01 in Em. destruct (negb _); discriminate.
    + intros E. injection E as <-. apply (clamp01_die _ _ Eq).
    + unfold clamp01 in Eq. destruct (negb _); discriminate.
  - unfold parseArgs. rewrite Es. cbn [bindO]. intros E. injection E as <-.
    apply (scan_die (List.length argv) argv Args.defaults msg' (le_n _) Es).
  - exfalso. apply (scan_no_throw (List.length argv) argv Args.defaults msg' (le_n _) Es).
Qed.

End ParseFacts.


(** * Facts on the page's string helpers *)

Module HtmlFacts.

Import Html StringFacts.

Local Open Scope string_scope.

Lemma escapeHtml_cons (c : ascii) (r : string) :
  escapeHtml (String c r) = written c ++ escapeHtml r.
Proof. reflexivity. Qed.

(** The six kinds of characters. *)
Lemma written_cases (c : ascii) :
  (c = "&"%char /\ written c = "&amp;") \/
  (c = "<"%char /\ written c = "&lt;") \/
  (c = ">"%char /\ written c = "&gt;") \/
  (c = ascii_of_nat 34 /\ written c = "&quot;") \/
  (c = "'"%char /\ written c = "&#39;") \/
  (special c = false /\ written c = String c EmptyString).
Proof.
  unfold written, special, replacement, map.
  destruct (Ascii.eqb_spec c "&") as [-> | _]; [left; split; reflexivity | right].
  destruct (Ascii.eqb_spec c "<") as [-> | _]; [left; split; reflexivity | right].
  destruct (Ascii.eqb_spec c ">") as [-> | _]; [left; split; reflexivity | right].
  destruct (Ascii.eqb_spec c (ascii_of_nat 34)) as [-> | _]; [left; split; reflexivity | right].
  destruct (Ascii.eqb_spec c "'") as [-> | _]; [left; split; reflexivity | right].
  split; reflexivity.
Qed.

Lemma append_assoc (a b c : string) : (a ++ b) ++ c = a ++ (b ++ c).
Proof. induction a as [ | x a IH]; cbn; [reflexivity | rewrite IH; reflexivity]. Qed.

Lemma every_append (p : ascii -> bool) (a b : string) :
  Str.every p (a ++ b) = Str.every p a && Str.every p b.
Proof.
  induction a as [ | x a IH]; cbn [String.append Str.every]; [reflexivity | ].
  rewrite IH. apply andb_assoc.
Qed.

Lemma length_append (a b : string) :
  String.length (a ++ b) = (String.length a + String.length b)%nat.
Proof. induction a as [ | x a IH]; cbn; [reflexivity | rewrite IH; reflexivity]. Qed.

Lemma escapeHtml_append (s t : string) :
  escapeHtml (s ++ t) = escapeHtml s ++ escapeHtml t.
Proof.
  induction s as [ | c r IH]; [reflexivity | ].
  cbn [String.append]. rewrite !escapeHtml_cons, IH, append_assoc. reflexivity.
Qed.

Lemma written_no_markup (c : ascii) :
  Str.every (fun d => negb (raw_markup d)) (written c) = true.
Proof.
  destruct (written_cases c) as [[_ ->] | [[_ ->] | [[_ ->] | [[_ ->] | [[_ ->] | [N ->]]]]]];
    try reflexivity.
  cbn [Str.every]. unfold special in N. unfold raw_markup.
  destruct (Ascii.eqb c "&"); [discriminate N | ]. cbn [orb] in N. rewrite N. reflexivity.
Qed.

Lemma escapeHtml_no_markup (s : string) :
  Str.every (fun d => negb (raw_markup d)) (escapeHtml s) = true.
Proof.
  induction s as [ | c r IH]; [reflexivity | ].
  rewrite escapeHtml_cons, every_append, written_no_markup, IH. reflexivity.
Qed.

(** No written form is a prefix of another: the first characters decide. *)
Lemma written_prefix_free (c1 c2 : ascii) (x y : string) :
  written c1 ++ x = written c2 ++ y -> c1 = c2 /\ x = y.
Proof.
  destruct (written_cases c1) as [[-> ->] | [[-> ->] | [[-> ->] | [[-> ->] | [[-> ->] | [N1 ->]]]]]];
  destruct (written_cases c2) as [[-> ->] | [[-> ->] | [[-> ->] | [[-> ->] | [[-> ->] | [N2 ->]]]]]];
    cbn [String.append]; intros E;
    try (injection E as <-; split; reflexivity);
    try discriminate E.
  all: try (injection E as E1 E2; subst; discriminate N2).
  all: try (injection E as E1 E2; subst; discriminate N1).
  injection E as -> ->. split; reflexivity.
Qed.

Lemma written_not_empty (c : ascii) (x : string) : written c ++ x <> EmptyString.
Proof.
  destruct (written_cases c) as [[_ ->] | [[_ ->] | [[_ ->] | [[_ ->] | [[_ ->] | [_ ->]]]]]];
    discriminate.
Qed.

Lemma escapeHtml_injective (s : string) :
  forall t, escapeHtml s = escapeHtml t -> s = t.
Proof.
  induction s as [ | c r IH]; intros [ | d t].
  - reflexivity.
  - rewrite escapeHtml_cons. cbn [escapeHtml]. intros E. symmetry in E.
    exfalso. exact (written_not_empty _ _ E).
  - rewrite escapeHtml_cons. cbn [escapeHtml]. intros E.
    exfalso. exact (written_not_empty _ _ E).
  - rewrite !escapeHtml_cons. intros E.
    destruct (written_prefix_free _ _ _ _ E) as [-> E'].
    rewrite (IH t E'). reflexivity.
Qed.

Lemma written_length (c : ascii) :
  (1 <= String.length (written c) <= 6)%nat /\
  (special c = true -> (4 <= String.length (written c))%nat).
Proof.
  destruct (written_cases c) as [[-> ->] | [[-> ->] | [[-> ->] | [[-> ->] | [[-> ->] | [N ->]]]]]];
    cbn; (split; [lia | ]); intros H; try lia. rewrite N in H. discriminate H.
Qed.

Lemma escapeHtml_length (s : string) :
  (String.length s <= String.length (escapeHtml s) <= 6 * String.length s)%nat.
Proof.
  induction s as [ | c r IH]; [cbn; lia | ].
  rewrite escapeHtml_cons, length_append. cbn [String.length].
  pose proof (written_length c) as [H _]. lia.
Qed.

(** The strings that [escapeHtml] leaves as they are. *)
Lemma escapeHtml_fixed (s : string) :
  escapeHtml s = s <-> Str.every (fun c => negb (special c)) s = true.
Proof.
  induction s as [ | c r IH]; [split; reflexivity | ].
  rewrite escapeHtml_cons. cbn [Str.every]. split.
  - intros E. assert (L := f_equal String.length E).
    rewrite length_append in L. cbn [String.length] in L.
    pose proof (written_length c) as [H1 H4]. pose proof (escapeHtml_length r) as Hr.
    destruct (special c) eqn:Sc; [specialize (H4 eq_refl); lia | ].
    unfold written in E. rewrite Sc in E. cbn [String.append] in E.
    injection E as E. cbn [negb andb]. apply IH. exact E.
  - intros H. apply andb_true_iff in H. destruct H as [Hc Hr].
    apply negb_true_iff in Hc. unfold written. rewrite Hc. cbn [String.append].
    rewrite (proj2 IH Hr). reflexivity.
Qed.

End HtmlFacts.

Module NamesFacts.

Import Names StringFacts HtmlFacts.

Local Open Scope string_scope.

Lemma rev_acc_append (s acc : string) : Str.rev_acc s acc = Str.rev s ++ acc.
Proof.
  unfold Str.rev. revert acc. induction s as [ | c r IH]; intros acc; [reflexivity | ].
  cbn [Str.rev_acc]. rewrite (IH (String c acc)), (IH (String c EmptyString)), append_assoc.
  reflexivity.
Qed.

Lemma rev_app (a b : string) : Str.rev (a ++ b) = Str.rev b ++ Str.rev a.
Proof.
  induction a as [ | c a IH]; cbn [String.append].
  - cbn. rewrite append_empty. reflexivity.
  - unfold Str.rev at 1 3. cbn [Str.rev_acc]. rewrite !rev_acc_append, IH, append_assoc.
    reflexivity.
Qed.

Lemma every_rev (p : ascii -> bool) (s : string) : Str.every p (Str.rev s) = Str.every p s.
Proof. unfold Str.rev. rewrite every_rev_acc. cbn [Str.every]. apply andb_true_r. Qed.

Lemma kept_underscore : kept "_" = true.
Proof. reflexivity. Qed.

Lemma replace_runs_kept (s : string) :
  forall b, Str.every kept (replace_runs b s) = true.
Proof.
  induction s as [ | c r IH]; intros b; cbn [replace_runs]; [reflexivity | ].
  destruct (kept c) eqn:K; [cbn [Str.every]; rewrite K, IH; reflexivity | ].
  destruct b; [apply IH | cbn [Str.every]; rewrite kept_underscore, IH; reflexivity].
Qed.

Lemma replace_runs_same (s : string) :
  Str.every kept s = true -> forall b, replace_runs b s = s.
Proof.
  induction s as [ | c r IH]; cbn [Str.every replace_runs]; [reflexivity | ].
  intros H b. apply andb_true_iff in H. destruct H as [-> Hr]. rewrite (IH Hr). reflexivity.
Qed.

(** [drop_underscores] removes a prefix of underscores, and what is left
    does not start with one. *)
Lemma drop_underscores_spec (s : string) :
  exists us, s = us ++ drop_underscores s /\
    Str.every (fun c => Ascii.eqb c "_") us = true /\
    Str.startsWith (drop_underscores s) "_" = false.
Proof.
  induction s as [ | c r (us & E & Hu & Hs)].
  - exists EmptyString. repeat split.
  - cbn [drop_underscores]. destruct (Ascii.eqb_spec c "_") as [-> | N].
    + exists (String "_" us). cbn [String.append Str.every]. rewrite <- E.
      repeat split; assumption.
    + exists EmptyString. repeat split. unfold Str.startsWith. cbn [String.prefix].
      destruct (ascii_dec "_" c) as [<- | _]; [contradiction | reflexivity].
Qed.

Lemma drop_underscores_same (s : string) :
  Str.startsWith s "_" = false -> drop_underscores s = s.
Proof.
  destruct s as [ | c r]; [reflexivity | ]. unfold Str.startsWith. cbn [String.prefix drop_underscores].
  destruct (ascii_dec "_" c) as [<- | N].
  - destruct r; discriminate.
  - intros _. destruct (Ascii.eqb_spec c "_") as [-> | _]; [contradiction | reflexivity].
Qed.

Lemma every_drop_underscores (p : ascii -> bool) (s : string) :
  Str.every p s = true -> Str.every p (drop_underscores s) = true.
Proof.
  induction s as [ | c r IH]; cbn [drop_underscores]; [reflexivity | ].
  destruct (Ascii.eqb c "_"); [ | tauto]. cbn [Str.every]. intros H.
  apply andb_true_iff in H. apply IH, H.
Qed.

Lemma startsWith_append (a b : string) :
  a <> EmptyString -> Str.startsWith (a ++ b) "_" = Str.startsWith a "_".
Proof.
  destruct a as [ | c a]; [contradiction | ]. intros _. unfold Str.startsWith.
  cbn [String.append String.prefix]. destruct (ascii_dec "_" c); [ | reflexivity].
  destruct (a ++ b), a; reflexivity.
Qed.

Lemma rev_empty (s : string) : Str.rev s = EmptyString -> s = EmptyString.
Proof. intros E. rewrite <- (rev_rev s), E. reflexivity. Qed.

(** What [strip_underscores] returns neither starts nor ends with an
    underscore. *)
Lemma strip_underscores_ends (s : string) :
  Str.startsWith (strip_underscores s) "_" = false /\
  Text.endsWith (strip_underscores s) "_" = false.
Proof.
  unfold strip_underscores, Text.endsWith.
  destruct (drop_underscores_spec s) as (us1 & _ & _ & H1).
  set (u := drop_underscores s) in *.
  destruct (drop_underscores_spec (Str.rev u)) as (us2 & E2 & Hu2 & H2).
  set (w := drop_underscores (Str.rev u)) in *.
  split.
  - assert (Eu : u = Str.rev w ++ Str.rev us2).
    { rewrite <- (rev_rev u), E2, rev_app. reflexivity. }
    destruct w as [ | c w'] eqn:Ew; [reflexivity | ].
    rewrite Eu, startsWith_append in H1; [exact H1 | ].
    intros E. apply rev_empty in E. discriminate E.
  - rewrite rev_rev. exact H2.
Qed.

Lemma strip_underscores_kept (s : string) :
  Str.every kept s = true -> Str.every kept (strip_underscores s) = true.
Proof.
  intros H. unfold strip_underscores. rewrite every_rev. apply every_drop_underscores.
  rewrite every_rev. apply every_drop_underscores. exact H.
Qed.

Lemma strip_underscores_same (s : string) :
  Str.startsWith s "_" = false -> Text.endsWith s "_" = false -> strip_underscores s = s.
Proof.
  intros H1 H2. unfold strip_underscores. rewrite (drop_underscores_same s H1).
  rewrite drop_underscores_same; [apply rev_rev | exact H2].
Qed.

Lemma kept_not_dot (c : ascii) : kept c = true -> Ascii.eqb c "." = false.
Proof. destruct (Ascii.eqb_spec c ".") as [-> | _]; [discriminate | reflexivity]. Qed.

Lemma strip_extension_same (s : string) :
  Str.every kept s = true -> strip_extension s = s.
Proof.
  induction s as [ | c r IH]; cbn [Str.every strip_extension]; [reflexivity | ].
  intros H. apply andb_true_iff in H. destruct H as [Hc Hr].
  rewrite (kept_not_dot c Hc), (IH Hr). reflexivity.
Qed.

Lemma or_document_same (s : string) : s <> EmptyString -> or_document s = s.
Proof. destruct s; [contradiction | reflexivity]. Qed.

(** A name that is safe already is returned as it is. *)
Lemma pickSafeBaseName_same (r : string) :
  r <> EmptyString -> Str.every kept r = true ->
  Str.startsWith r "_" = false -> Text.endsWith r "_" = false ->
  pickSafeBaseName r = r.
Proof.
  intros Hne Hk H1 H2. unfold pickSafeBaseName.
  rewrite (or_document_same r Hne), (strip_extension_same r Hk), (replace_runs_same r Hk),
    (strip_underscores_same r H1 H2).
  apply or_document_same, Hne.
Qed.

Lemma pickSafeBaseName_shape (s : string) :
  pickSafeBaseName s <> EmptyString /\
  Str.every kept (pickSafeBaseName s) = true /\
  Str.startsWith (pickSafeBaseName s) "_" = false /\
  Text.endsWith (pickSafeBaseName s) "_" = false.
Proof.
  unfold pickSafeBaseName.
  set (x := replace_runs false (strip_extension (or_document s))).
  pose proof (strip_underscores_kept x (replace_runs_kept _ false)) as Hk.
  pose proof (strip_underscores_ends x) as [H1 H2].
  destruct (strip_underscores x) as [ | c r].
  - cbn [or_document]. repeat split; try reflexivity. discriminate.
  - cbn [or_document]. repeat split; try assumption. discriminate.
Qed.

End NamesFacts.


(** * Facts on the scan of the command line *)

Module ScanFacts.

Import Cli Words StringFacts ParseFacts HtmlFacts.

Lemma prefix_app (p k x : string) :
  String.prefix p k = true -> String.prefix p (k ++ x)%string = true.
Proof.
  revert k. induction p as [ | a p IH]; intros k.
  - intros _. destruct (k ++ x)%string; reflexivity.
  - destruct k as [ | b k]; [discriminate | ]. cbn [String.append String.prefix].
    destruct (ascii_dec a b); [apply IH | discriminate].
Qed.

Lemma span_append (p : ascii -> bool) (a b : string) :
  Str.every p a = true ->
  Str.span p (a ++ b)%string = ((a ++ fst (Str.span p b))%string, snd (Str.span p b)).
Proof.
  induction a as [ | c a IH]; cbn [Str.every String.append].
  - intros _. destruct (Str.span p b); reflexivity.
  - intros H. apply andb_true_iff in H. destruct H as [Hc Ha].
    cbn [Str.span]. rewrite Hc, (IH Ha). reflexivity.
Qed.

(** [a.split("=", 2)] on [k=v], and on [k=v=...]. *)
Lemma split2_inline (k v tl : string) :
  Str.every not_equals k = true -> Str.every not_equals v = true ->
  tl = EmptyString \/ (exists t, tl = String "=" t) ->
  Str.split2 "=" (k ++ String "=" (v ++ tl))%string = (k, Some v).
Proof.
  intros Hk Hv Htl. unfold Str.split2.
  change (fun c : ascii => negb (Ascii.eqb c "=")) with not_equals.
  rewrite (span_append _ k _ Hk). cbn [Str.span fst snd].
  change (not_equals "=") with false. cbn [fst snd]. rewrite append_empty.
  rewrite (span_append _ v _ Hv).
  destruct Htl as [-> | (t & ->)]; cbn [Str.span fst].
  - rewrite append_empty. reflexivity.
  - change (not_equals "=") with false. cbn [fst]. rewrite append_empty. reflexivity.
Qed.

Lemma split2_none (k : string) :
  Str.every not_equals k = true -> Str.split2 "=" k = (k, None).
Proof.
  intros Hk. unfold Str.split2.
  change (fun c : ascii => negb (Ascii.eqb c "=")) with not_equals.
  rewrite (span_every _ _ Hk). reflexivity.
Qed.

(** The names that the [switch] knows. *)
Lemma option_handler_names (k : string) (h : handler) :
  option_handler k = Some h -> In k option_names.
Proof.
  unfold option_handler, option_names.
  repeat match goal with
  | |- context [String.eqb k ?lit] =>
      destruct (String.eqb_spec k lit) as [-> | _]; [intros _; cbn; tauto | ]
  end.
  discriminate.
Qed.

Lemma option_names_shape (k : string) :
  In k option_names -> Str.startsWith k "--" = true /\ Str.every not_equals k = true.
Proof.
  unfold option_names. cbn [In]. intros H.
  repeat (destruct H as [<- | H]; [split; reflexivity | ]). destruct H.
Qed.

(** The loop on an option that takes a value: the inline value, cut at a
    second equals sign, or the next word whatever it is. *)
Lemma scan_valued (k : string) (f : string -> Args.t -> Args.t) (v tl : string)
      (rest : list string) (args : Args.t) :
  option_handler k = Some (Valued f) ->
  (Str.every not_equals v = true ->
   tl = EmptyString \/ (exists t, tl = String "=" t) ->
   scan ((k ++ String "=" (v ++ tl))%string :: rest) args = scan rest (f v args)) /\
  scan (k :: v :: rest) args = scan rest (f v args).
Proof.
  intros Hh.
  destruct (option_names_shape k (option_handler_names k _ Hh)) as [Hs Hk]. split.
  - intros Hv Htl. cbn [scan]. unfold Str.startsWith in *.
    rewrite (prefix_app _ _ _ Hs). cbn [negb].
    rewrite (split2_inline k v tl Hk Hv Htl), Hh. reflexivity.
  - cbn [scan]. rewrite Hs. cbn [negb]. rewrite (split2_none k Hk), Hh. reflexivity.
Qed.

Lemma scan_flag (k : string) (f : Args.t -> Args.t) (rest : list string) (args : Args.t) :
  option_handler k = Some (Flag f) -> scan (k :: rest) args = scan rest (f args).
Proof.
  intros Hh.
  destruct (option_names_shape k (option_handler_names k _ Hh)) as [Hs Hk].
  cbn [scan]. rewrite Hs. cbn [negb]. rewrite (split2_none k Hk), Hh. reflexivity.
Qed.

(** Plain words are appended to the inputs, in their order. *)
Lemma scan_plain (ws : list string) :
  forall rest args,
    forallb plain ws = true ->
    scan (ws ++ rest) args = scan rest (Args.set_inputs (Args.inputs args ++ ws) args).
Proof.
  induction ws as [ | w ws IH]; intros rest args H.
  - cbn [app]. rewrite app_nil_r. destruct args. reflexivity.
  - cbn [forallb] in H. apply andb_true_iff in H. destruct H as [Hw Hws].
    cbn [app scan]. unfold plain in Hw. rewrite Hw. rewrite (IH _ _ Hws).
    cbn [Args.inputs Args.set_inputs]. rewrite <- app_assoc. reflexivity.
Qed.

End ScanFacts.


(** * Facts on what the searches return *)

Module ReturnFacts.

Import Cli Binary64Facts CliFacts CliResults.

Section Returned.

Variable Buf : Type.
Variable length : Buf -> Z.
Variable encode : string -> Args.t -> float -> option Variant -> Buf.
Variable inputPath : string.
Variable args : Args.t.
Variable target : float.
Variables baseQ minQ : float.

Local Abbreviation Attempt := (Attempt Buf).
Local Abbreviation search := (search Buf length encode inputPath args target).
Local Abbreviation forVariants := (forVariants Buf length encode inputPath args target baseQ minQ).
Local Abbreviation fits := (fits Buf length).
Local Abbreviation exceeds := (exceeds Buf length).
Local Abbreviation attempt_of := (attempt_of Buf encode inputPath args).
Local Abbreviation clarity_after := (clarity_after Buf length encode inputPath args baseQ).
Local Abbreviation fit_after := (fit_after Buf).

Lemma attempt_of_eta (q : float) (v : Variant) :
  attempt_of q v = mkAttempt Buf q v (encode inputPath args q (Some v)).
Proof. destruct v. reflexivity. Qed.

(** A buffer that does not fit a target that is a number exceeds it. *)
Lemma not_fits_exceeds (b : Buf) :
  JS.truthy target = true -> fits target b = false -> exceeds target b = true.
Proof.
  intros Ht F. unfold Cli.fits, Cli.exceeds in *.
  destruct (target <? JS.Z2F (length b))%float eqn:L; [reflexivity | ].
  rewrite (not_ltb_leb _ _ (truthy_not_nan _ Ht) (Z2F_not_nan _) L) in F. discriminate F.
Qed.

Local Abbreviation unfit := (Returned.unfit Buf length target baseQ).

Lemma clarity_after_unfit (v : Variant) (bestClarity : option (Candidate Buf)) :
  fits target (encode inputPath args baseQ (Some v)) = false ->
  unfit bestClarity -> unfit (clarity_after v bestClarity).
Proof.
  intros Fb H c. unfold Returned.unfit in *. unfold Cli.clarity_after. destruct bestClarity as [c0 | ].
  - destruct (_ <? _).
    + intros E. injection E as <-. split; [exact Fb | reflexivity].
    + apply H.
  - intros E. injection E as <-. split; [exact Fb | reflexivity].
Qed.

Lemma forVariants_fail_unfit (vs : list Variant) :
  forall bestFit bestClarity r,
    unfit bestClarity ->
    fst (forVariants vs bestFit bestClarity) = Ret r -> pass Buf r = false ->
    fits target (buf Buf r) = false /\ usedQuality Buf r = baseQ.
Proof.
  induction vs as [ | v rest IH]; intros bestFit bestClarity r Hu.
  - cbn [Cli.forVariants]. destruct bestClarity as [c | ]; [ | discriminate].
    cbn [ret fst]. intros E _. injection E as <-. cbn [buf usedQuality]. apply Hu. reflexivity.
  - rewrite (forVariants_cons Buf length encode inputPath args target baseQ minQ). cbv zeta.
    destruct (fits target (encode inputPath args baseQ (Some v))) eqn:Fb.
    + cbn [fst]. intros E. injection E as <-. discriminate.
    + pose proof (clarity_after_unfit v bestClarity Fb Hu) as Hu'.
      destruct (exceeds target (encode inputPath args minQ (Some v))).
      * cbn [fst]. apply IH. exact Hu'.
      * destruct (search_returns Buf length encode inputPath args target v 10 minQ baseQ
                    (encode inputPath args minQ (Some v)) minQ) as (b & q & ls & Es & _).
        rewrite Es. cbn [fst]. apply IH. exact Hu'.
Qed.

Local Abbreviation logged_result := (Returned.logged_result Buf).

(** What is returned was encoded, the candidate of [bestClarity] apart. *)
Lemma forVariants_logged (vs : list Variant) :
  forall bestFit bestClarity r,
    fst (forVariants vs bestFit bestClarity) = Ret r ->
    logged_result r (snd (forVariants vs bestFit bestClarity)) \/
    (exists c, bestClarity = Some c /\
       r = mkResult Buf (c_buf Buf c) (c_q Buf c) (c_used Buf c) false).
Proof.
  induction vs as [ | v rest IH]; intros bestFit bestClarity r.
  - cbn [Cli.forVariants]. destruct bestClarity as [c | ]; [ | discriminate].
    cbn [ret fst]. intros E. injection E as <-. right. exists c. split; reflexivity.
  - rewrite (forVariants_cons Buf length encode inputPath args target baseQ minQ). cbv zeta.
    assert (Hnew : forall r' tl,
      logged_result r' tl \/
      (exists c, clarity_after v bestClarity = Some c /\
         r' = mkResult Buf (c_buf Buf c) (c_q Buf c) (c_used Buf c) false) ->
      forall pre, In (attempt_of baseQ v) pre ->
      logged_result r' (pre ++ tl) \/
      (exists c, bestClarity = Some c /\
         r' = mkResult Buf (c_buf Buf c) (c_q Buf c) (c_used Buf c) false)).
    { intros r' tl [H | (c & Ec & ->)] pre Hpre.
      - left. unfold Returned.logged_result. apply in_or_app. right. exact H.
      - unfold Cli.clarity_after in Ec.
        assert (Hfresh : Some (mkCandidate Buf (encode inputPath args baseQ (Some v)) baseQ v)
                         = Some c ->
                logged_result
                  (mkResult Buf (c_buf Buf c) (c_q Buf c) (c_used Buf c) false) (pre ++ tl)).
        { intros E. injection E as <-. unfold Returned.logged_result. cbn.
          apply in_or_app. left. rewrite <- attempt_of_eta. exact Hpre. }
        destruct bestClarity as [c0 | ].
        + destruct (_ <? _).
          * left. apply Hfresh, Ec.
          * right. exists c. split; [exact Ec | reflexivity].
        + left. apply Hfresh, Ec. }
    destruct (fits target (encode inputPath args baseQ (Some v))) eqn:Fb.
    + cbn [fst snd]. intros E. injection E as <-. left. unfold Returned.logged_result. cbn.
      left. apply attempt_of_eta.
    + destruct (exceeds target (encode inputPath args minQ (Some v))).
      * cbn [fst snd]. intros E.
        apply (Hnew r _ (IH _ _ r E) [attempt_of baseQ v; attempt_of minQ v]).
        left. reflexivity.
      * destruct (search_returns Buf length encode inputPath args target v 10 minQ baseQ
                    (encode inputPath args minQ (Some v)) minQ) as (b & q & ls & Es & _).
        rewrite Es. cbn [fst snd]. intros E.
        pose proof (Hnew r _ (IH _ _ r E) (attempt_of baseQ v :: attempt_of minQ v :: ls)
                      (or_introl eq_refl)) as H.
        cbn [app] in H. exact H.
Qed.

End Returned.

Section Whole.

Variable Buf : Type.
Variable length : Buf -> Z.
Variable encode : string -> Args.t -> float -> option Variant -> Buf.
Variable inputPath : string.

Local Abbreviation compressWithTarget := (compressWithTarget Buf length encode inputPath).
Local Abbreviation fits := (fits Buf length).
Local Abbreviation exceeds := (exceeds Buf length).

Lemma cli_target_truthy (args : Args.t) (t : float) :
  target_of args = Some t -> JS.truthy t = true.
Proof.
  unfold target_of. destruct (Args.maxSizeBytes args) as [t' | ]; [ | discriminate].
  destruct (JS.truthy t') eqn:E; [ | discriminate]. intros H. injection H as <-. exact E.
Qed.

Lemma compress_fail_exceeds (args : Args.t) (t : float) (r : Result Buf) :
  target_of args = Some t ->
  fst (compressWithTarget args) = Ret r -> pass Buf r = false ->
  exceeds t (buf Buf r) = true /\ clamp01 (Args.quality args) = Ret (usedQuality Buf r).
Proof.
  intros Ht. destruct (compress_shapes Buf length encode inputPath args t Ht)
    as [(msg & ->) | (bq & mq & Eb & _ & _ & _ & ->)]; [discriminate | ].
  intros E Hp.
  destruct (forVariants_fail_unfit Buf length encode inputPath args t bq mq variants
              None None r ltac:(intros c; discriminate) E Hp) as [F ->].
  split; [ | exact Eb].
  apply not_fits_exceeds; [exact (cli_target_truthy args t Ht) | exact F].
Qed.

Lemma compress_logged (args : Args.t) (r : Result Buf) :
  fst (compressWithTarget args) = Ret r ->
  Returned.logged_result Buf r (snd (compressWithTarget args)).
Proof.
  destruct (target_of args) as [t | ] eqn:Ht.
  - destruct (compress_shapes Buf length encode inputPath args t Ht)
      as [(msg & ->) | (bq & mq & _ & _ & _ & _ & ->)]; [discriminate | ].
    intros E.
    destruct (forVariants_logged Buf length encode inputPath args t bq mq variants
                None None r E) as [H | (c & Ec & _)]; [exact H | discriminate Ec].
  - rewrite (compress_passthrough Buf length encode inputPath args Ht). cbn [fst snd].
    intros E. injection E as <-. left. reflexivity.
Qed.

End Whole.

End ReturnFacts.


Module BlobFacts.

Import Browser Binary64Facts BrowserFacts BrowserResults.

Section Facts.

Variable Canvas : Type.
Variable Blob : Type.
Variable size : Blob -> Z.
Variable toBlob : Canvas -> float -> Blob.
Variable canvas : Canvas.

Local Abbreviation search := (search Canvas Blob size toBlob canvas).
Local Abbreviation fits := (fits Blob size).
Local Abbreviation exceeds := (exceeds Blob size).
Local Abbreviation encodeCanvasFitUnder := (encodeCanvasFitUnder Canvas Blob size toBlob canvas).
Local Abbreviation attempt_at := (attempt_at Canvas Blob toBlob canvas).

(** The blob and the fidelity that the search returns are those it started
    from, or those of one of its probes. *)
Lemma blob_search_logged (t : float) (fuel : nat) :
  forall lo hi bestBlob bestQ tried b q n l,
    search t fuel lo hi bestBlob bestQ tried = (Ret (b, q, n), l) ->
    (b = bestBlob /\ q = bestQ) \/ In (mkAttempt Blob q b) l.
Proof.
  induction fuel as [ | fuel IH]; intros lo hi bestBlob bestQ tried b q n l.
  - cbn [Browser.search ret]. intros E. injection E as <- <- _ _. left. split; reflexivity.
  - rewrite blob_search_S. destruct (0.02 <? hi - lo)%float.
    + cbv zeta.
      destruct (fits t (toBlob canvas ((lo + hi) / 2)%float)).
      * destruct (search t fuel _ _ _ _ _) as [o l'] eqn:Es. cbn [fst snd].
        intros E. injection E as -> <-. right.
        destruct (IH _ _ _ _ _ _ _ _ _ Es) as [[-> ->] | H].
        -- left. reflexivity.
        -- right. exact H.
      * destruct (search t fuel _ _ _ _ _) as [o l'] eqn:Es. cbn [fst snd].
        intros E. injection E as -> <-.
        destruct (IH _ _ _ _ _ _ _ _ _ Es) as [H | H].
        -- left. exact H.
        -- right. right. exact H.
    + intros E. injection E as <- <- _ _. left. split; reflexivity.
Qed.

Lemma fitUnder_logged (opts : Opts) (r : Result Blob) :
  fst (encodeCanvasFitUnder opts) = Ret r ->
  Returned.logged_blob Blob r (snd (encodeCanvasFitUnder opts)).
Proof.
  unfold Returned.logged_blob. destruct (target_of opts) as [t | ] eqn:Ht.
  - destruct (fitUnder_shapes Canvas Blob size toBlob canvas opts t Ht)
      as [(_ & ->) | [(_ & _ & ->) | (_ & _ & b & q & l & Es & _ & _ & _ & ->)]];
      cbn [fst snd]; intros E; injection E as <-; cbn [usedQuality blob].
    + left. reflexivity.
    + right. left. reflexivity.
    + destruct (blob_search_logged _ _ _ _ _ _ _ _ _ _ _ Es) as [[-> ->] | H].
      * right. left. reflexivity.
      * right. right. exact H.
  - rewrite (fitUnder_one_shot Canvas Blob size toBlob canvas opts Ht). cbn [fst snd].
    intros E. injection E as <-. left. reflexivity.
Qed.

(** With a target, [pass] tells whether the returned blob fits. *)
Lemma fitUnder_pass_is_fits (opts : Opts) (t : float) (r : Result Blob) :
  target_of opts = Some t ->
  fst (encodeCanvasFitUnder opts) = Ret r ->
  pass Blob r = fits t (blob Blob r).
Proof.
  intros Ht E. destruct (pass Blob r) eqn:Hp.
  - symmetry. apply (fitUnder_pass_fits Canvas Blob size toBlob canvas opts t r Ht E Hp).
  - symmetry.
    destruct (fitUnder_shapes Canvas Blob size toBlob canvas opts t Ht)
      as [(_ & Er) | [(_ & Xm & Er) | (_ & _ & b & q & l & _ & _ & _ & _ & Er)]];
      rewrite Er in E; cbn [fst] in E; injection E as <-; cbn [pass blob] in *;
      try discriminate Hp.
    apply exceeds_not_fits. exact Xm.
Qed.

(** Without a usable target, one encode and [pass = true]. *)
Lemma fitUnder_no_target (opts : Opts) (r : Result Blob) :
  target_of opts = None ->
  fst (encodeCanvasFitUnder opts) = Ret r -> pass Blob r = true.
Proof.
  intros Ht. rewrite (fitUnder_one_shot Canvas Blob size toBlob canvas opts Ht). cbn [fst].
  intros E. injection E as <-. reflexivity.
Qed.

End Facts.

End BlobFacts.

Module ParseMore.

Import Cli Words Binary64Facts CliFacts StringFacts ParseFacts ScanFacts.

Local Open Scope string_scope.

(** The defaults are valid: a command line of plain words is accepted. *)
Lemma parseArgs_plain (ws : list string) :
  forallb plain ws = true ->
  parseArgs ws = Ret (Args.set_inputs ws Args.defaults).
Proof.
  intros H. pose proof (scan_plain ws [] Args.defaults H) as E.
  rewrite app_nil_r in E. cbn [scan Args.inputs Args.defaults app] in E.
  rewrite (parseArgs_after_scan ws _ E). vm_compute. reflexivity.
Qed.

(** Both qualities are checked by [clamp01], before the subsampling and
    the size, and its message names [--quality] for either. *)
Lemma parseArgs_invalid_quality (argv : list string) (raw : Args.t) :
  scan argv Args.defaults = Ret raw ->
  JS.isFinite (Args.quality raw) = false \/ JS.isFinite (Args.minQuality raw) = false ->
  parseArgs argv = Die invalid_quality.
Proof.
  intros Es H. rewrite (parseArgs_after_scan argv raw Es). unfold bindO.
  destruct (JS.isFinite (Args.quality raw)) eqn:Fq.
  - destruct H as [H | H]; [discriminate H | ].
    unfold clamp01 at 1. rewrite Fq. cbn [negb].
    unfold clamp01. rewrite H. reflexivity.
  - unfold clamp01 at 1. rewrite Fq. reflexivity.
Qed.

Lemma normalizeSubsample_canonical (s v : string) :
  normalizeSubsample s = Ret v ->
  (v = "4:4:4" \/ v = "4:2:0") /\ normalizeSubsample v = Ret v.
Proof.
  unfold normalizeSubsample at 1.
  destruct (_ || _).
  - intros E. injection E as <-. split; [left; reflexivity | reflexivity].
  - destruct (_ || _); [ | discriminate].
    intros E. injection E as <-. split; [right; reflexivity | reflexivity].
Qed.

Lemma parseArgs_subsample (argv : list string) (args : Args.t) :
  parseArgs argv = Ret args ->
  (Args.subsample args = "4:4:4" \/ Args.subsample args = "4:2:0") /\
  normalizeSubsample (Args.subsample args) = Ret (Args.subsample args).
Proof.
  destruct (scan argv Args.defaults) as [raw | msg | msg] eqn:Es;
    [ | unfold parseArgs; rewrite Es; discriminate ..].
  rewrite (parseArgs_after_scan argv raw Es). unfold bindO.
  destruct (clamp01 (Args.quality raw)) as [q | | ]; try discriminate.
  destruct (clamp01 (Args.minQuality raw)) as [mq | | ]; try discriminate.
  destruct (normalizeSubsample (Args.subsample raw)) as [ss | | ] eqn:En; try discriminate.
  apply normalizeSubsample_canonical in En.
  destruct (size_of raw) as [[ | c r] | ].
  - intros E. injection E as <-. exact En.
  - destruct (parseSizeToBytes (String c r)); try discriminate.
    intros E. injection E as <-. exact En.
  - intros E. injection E as <-. exact En.
Qed.

(** The size that is normalised is that of [--fit-under] whenever the
    option is given, be it with an empty value. *)
Lemma parseArgs_fit_under (argv : list string) (raw args : Args.t) (s : string) :
  scan argv Args.defaults = Ret raw ->
  Args.fitUnder raw = Some s ->
  parseArgs argv = Ret args ->
  match s with
  | EmptyString => Args.maxSizeBytes args = None
  | _ => exists n, parseSizeToBytes s = Ret n /\ Args.maxSizeBytes args = Some n
  end.
Proof.
  intros Es Hf. rewrite (parseArgs_after_scan argv raw Es). unfold bindO, size_of. rewrite Hf.
  destruct (clamp01 (Args.quality raw)) as [q | | ]; try discriminate.
  destruct (clamp01 (Args.minQuality raw)) as [mq | | ]; try discriminate.
  destruct (normalizeSubsample (Args.subsample raw)) as [ss | | ]; try discriminate.
  destruct s as [ | c r].
  - intros E. injection E as <-. reflexivity.
  - destruct (parseSizeToBytes (String c r)) as [n | | ]; try discriminate.
    intros E. injection E as <-. exists n. split; reflexivity.
Qed.

End ParseMore.


(** * Facts on the size expressions *)

Module SizeFacts.

Import Str Cli SizeForms StringFacts HtmlFacts ScanFacts.

Local Open Scope string_scope.

(** What [span] returns: the two pieces of the string, the first one all
    of [p], the second one not starting with a character of [p]. *)
Lemma span_pieces (p : ascii -> bool) (s : string) :
  s = fst (span p s) ++ snd (span p s) /\
  every p (fst (span p s)) = true /\
  match snd (span p s) with
  | EmptyString => True
  | String c _ => p c = false
  end.
Proof.
  induction s as [ | c r (IH1 & IH2 & IH3)]; cbn [span].
  - repeat split.
  - destruct (p c) eqn:Pc.
    + destruct (span p r) as [a b]. cbn [fst snd] in *. repeat split.
      * cbn [append]. f_equal. exact IH1.
      * cbn [every]. rewrite Pc, IH2. reflexivity.
      * exact IH3.
    + cbn [fst snd append]. repeat split. exact Pc.
Qed.

(** The span of a string of [p] followed by a character out of [p]. *)
Lemma span_stop (p : ascii -> bool) (a : string) (c : ascii) (b : string) :
  every p a = true -> p c = false -> span p (a ++ String c b) = (a, String c b).
Proof.
  intros Ha Hc. rewrite (span_append p a (String c b) Ha). cbn [span]. rewrite Hc.
  cbn [fst snd]. rewrite append_empty. reflexivity.
Qed.

Lemma unit_shape (u : string) (mult : float) :
  unit_of u mult ->
  exists c r, u = String c r /\ is_digit c = false /\ Ascii.eqb c "." = false /\
    every is_digit u = false /\
    (String.eqb u "kb" || String.eqb u "mb" || String.eqb u "gb") = true /\
    mult_of u = mult.
Proof.
  intros []; eexists _, _; repeat split; reflexivity.
Qed.

Lemma unit_known (u : string) :
  (String.eqb u "kb" || String.eqb u "mb" || String.eqb u "gb") = true ->
  unit_of u (mult_of u).
Proof.
  intros H. apply orb_true_iff in H. destruct H as [H | H].
  - apply orb_true_iff in H. destruct H as [H | H]; apply String.eqb_eq in H; subst u.
    + exact kb.
    + exact mb.
  - apply String.eqb_eq in H. subst u. exact gb.
Qed.

(** The match of the expression of [parseSizeToBytes], in the words of the
    specification: a numeric value followed by a unit. *)
Lemma match_size_forms (raw num u : string) :
  match_size raw = Some (num, u) <->
  raw = num ++ u /\ numeric num /\ exists mult, unit_of u mult.
Proof.
  split.
  - unfold match_size.
    destruct (span_pieces is_digit raw) as (E1 & D1 & N1).
    destruct (span is_digit raw) as [ip r1]. cbn [fst snd] in *.
    destruct ip as [ | c0 ip0]; [discriminate | ].
    set (ip := String c0 ip0) in *.
    assert (Dip : digits ip) by (split; [discriminate | exact D1]).
    assert (Plain :
      (if String.eqb r1 "kb" || String.eqb r1 "mb" || String.eqb r1 "gb"
       then Some (ip, r1) else None) = Some (num, u) ->
      raw = num ++ u /\ numeric num /\ exists mult, unit_of u mult).
    { destruct (String.eqb r1 "kb" || String.eqb r1 "mb" || String.eqb r1 "gb") eqn:U;
        [ | discriminate].
      intros E. injection E as <- <-. split; [exact E1 | ]. split; [apply whole; exact Dip | ].
      exists (mult_of r1). apply unit_known. exact U. }
    destruct r1 as [ | c r]; [exact Plain | ].
    destruct (Ascii.eqb_spec c ".") as [-> | Hc].
    + destruct (span_pieces is_digit r) as (E2 & D2 & N2).
      destruct (span is_digit r) as [fp r2]. cbn [fst snd] in *.
      destruct fp as [ | f0 fp0].
      * exact Plain.
      * set (fp := String f0 fp0) in *.
        destruct (String.eqb r2 "kb" || String.eqb r2 "mb" || String.eqb r2 "gb") eqn:U;
          [ | discriminate].
        intros E. injection E as En Eu. subst u.
        assert (En' : num = ip ++ String "." fp) by (rewrite <- En; reflexivity).
        clear En. subst num. split; [ | split].
        -- rewrite E1, E2. rewrite append_assoc. reflexivity.
        -- apply fractional; [exact Dip | split; [discriminate | exact D2]].
        -- exists (mult_of r2). apply unit_known. exact U.
    + intros E. apply Plain. revert E.
      destruct c as [[] [] [] [] [] [] [] []]; try (intros E; exact E).
      exfalso. apply Hc. reflexivity.
  - intros (-> & Hn & mult & Hu).
    destruct (unit_shape u mult Hu) as (c & r & -> & Hc & Hdot & _ & Hk & _).
    unfold match_size. destruct Hn as [ip [Hne Hd] | ip fp [Hne Hd] [Hfne Hfd]].
    + rewrite (span_stop is_digit ip c r Hd Hc).
      destruct ip as [ | c0 ip0]; [contradiction | ].
      assert (E : match String c r with
                  | String "." r0 =>
                      let '(fp, r2) := span is_digit r0 in
                      match fp with
                      | EmptyString => (String c0 ip0, String c r)
                      | String _ _ => (String c0 ip0 ++ "." ++ fp, r2)
                      end
                  | _ => (String c0 ip0, String c r)
                  end = (String c0 ip0, String c r)).
      { clear - Hdot. destruct c as [[] [] [] [] [] [] [] []]; try reflexivity.
        discriminate Hdot. }
      rewrite E. rewrite Hk. reflexivity.
    + rewrite append_assoc. cbn [append].
      rewrite (span_stop is_digit ip "." (fp ++ String c r) Hd eq_refl).
      destruct ip as [ | c0 ip0]; [contradiction | ].
      rewrite (span_stop is_digit fp c r Hfd Hc).
      destruct fp as [ | f0 fp0]; [contradiction | ].
      rewrite Hk. cbn [append]. reflexivity.
Qed.

(** A numeric value followed by a unit is not a string of digits. *)
Lemma with_unit_not_digits (num u : string) (mult : float) :
  unit_of u mult -> all_digits (num ++ u) = false.
Proof.
  intros Hu. destruct (unit_shape u mult Hu) as (_ & _ & _ & _ & _ & Hn & _).
  destruct (all_digits (num ++ u)) eqn:A; [ | reflexivity].
  apply all_digits_every in A. destruct A as [_ A].
  rewrite every_append, Hn, andb_false_r in A. discriminate A.
Qed.

(** [parseSizeToBytes] accepts the forms of the specification, and these
    only. *)
Lemma parseSizeToBytes_forms (s : string) (n : float) :
  parseSizeToBytes s = Ret n <-> bytes_of (toLowerCase (trim s)) n.
Proof.
  unfold parseSizeToBytes. set (raw := toLowerCase (trim s)). split.
  - destruct (all_digits raw) eqn:A.
    + intros E. injection E as <-. rewrite (Number_digits raw A).
      apply bare. apply all_digits_every. exact A.
    + destruct (match_size raw) as [[m1 u] | ] eqn:M; [ | discriminate].
      intros E. injection E as <-.
      apply match_size_forms in M. destruct M as (-> & Hn & mult & Hu).
      destruct (unit_shape u mult Hu) as (_ & _ & _ & _ & _ & _ & _ & ->).
      apply with_unit; assumption.
  - intros B. remember raw as x eqn:Ex. clear Ex raw.
    destruct B as [ds Hd | num u mult Hn Hu].
    + apply all_digits_every in Hd. rewrite Hd, (Number_digits ds Hd). reflexivity.
    + rewrite (with_unit_not_digits num u mult Hu).
      assert (M : match_size (num ++ u) = Some (num, u)).
      { apply match_size_forms. split; [reflexivity | ]. split; [exact Hn | ].
        exists mult. exact Hu. }
      rewrite M.
      destruct (unit_shape u mult Hu) as (_ & _ & _ & _ & _ & _ & _ & ->). reflexivity.
Qed.

(** Every other form is a configuration error. *)
Lemma parseSizeToBytes_cases (s : string) :
  (exists n, parseSizeToBytes s = Ret n) \/
  (parseSizeToBytes s
   = Die ("Invalid --max-size " ++ Str.dquote ++ s ++ Str.dquote
          ++ " (examples: 6mb, 5500kb, 5000000)")).
Proof.
  unfold parseSizeToBytes.
  destruct (all_digits _); [left; eexists; reflexivity | ].
  destruct (match_size _) as [[m1 u] | ]; [left; eexists; reflexivity | right; reflexivity].
Qed.

End SizeFacts.


(** * Facts on the qualities of a command line *)

Module QualityFacts.

Import Cli Words Binary64Facts CliFacts StringFacts ParseFacts ScanFacts ParseMore.

Local Open Scope string_scope.

(** A scan that returns has read all its words: more words are scanned
    from the arguments it returned. *)
Lemma scan_app (n : nat) :
  forall argv args raw more,
    (List.length argv <= n)%nat ->
    scan argv args = Ret raw -> scan (argv ++ more) args = scan more raw.
Proof.
  induction n as [ | n IH]; intros argv args raw more Hn.
  - destruct argv; [ | cbn in Hn; lia]. cbn. intros E. injection E as <-. reflexivity.
  - destruct argv as [ | a rest]; [cbn; intros E; injection E as <-; reflexivity | ].
    cbn [List.length] in Hn. cbn [scan app].
    destruct (negb (Str.startsWith a "--")); [apply IH; lia | ].
    destruct (Str.split2 "=" a) as [k inlineV].
    destruct (option_handler k) as [[f | f] | ]; [apply IH; lia | | discriminate].
    destruct inlineV as [v | ]; [apply IH; lia | ].
    destruct rest as [ | v rest']; [discriminate | ].
    cbn [app]. apply IH. cbn [List.length] in Hn. lia.
Qed.

(** The two qualities, given last, are read as they are written. *)
Lemma scan_qualities (sq smq : string) (raw : Args.t) :
  scan ["--quality"; sq; "--min-quality"; smq]%list raw
  = Ret (Args.set_minQuality (JS.Number smq) (Args.set_quality (JS.Number sq) raw)).
Proof. reflexivity. Qed.

(** Any two finite qualities are accepted, whatever their order, and each
    is clamped on its own. *)
Lemma parseArgs_qualities (argv : list string) (args : Args.t) (sq smq : string) :
  parseArgs argv = Ret args ->
  JS.isFinite (JS.Number sq) = true -> JS.isFinite (JS.Number smq) = true ->
  parseArgs (argv ++ ["--quality"; sq; "--min-quality"; smq])%list
  = Ret (Args.set_minQuality (JS.Math_max 0.1 (JS.Math_min 1.0 (JS.Number smq)))
           (Args.set_quality (JS.Math_max 0.1 (JS.Math_min 1.0 (JS.Number sq))) args)).
Proof.
  intros Hp Fq Fm.
  destruct (scan argv Args.defaults) as [raw | msg | msg] eqn:Es;
    [ | unfold parseArgs in Hp; rewrite Es in Hp; discriminate Hp ..].
  rewrite (parseArgs_after_scan argv raw Es) in Hp.
  pose proof (scan_app (List.length argv) argv Args.defaults raw
                ["--quality"; sq; "--min-quality"; smq]%list (le_n _) Es) as Ea.
  rewrite scan_qualities in Ea.
  rewrite (parseArgs_after_scan _ _ Ea).
  unfold bindO in *.
  destruct (clamp01 (Args.quality raw)) as [q0 | | ]; try discriminate Hp.
  destruct (clamp01 (Args.minQuality raw)) as [m0 | | ]; try discriminate Hp.
  cbn [Args.quality Args.minQuality Args.subsample Args.set_quality Args.set_minQuality].
  unfold clamp01 at 1. rewrite Fq. cbn [negb].
  unfold clamp01 at 1. rewrite Fm. cbn [negb].
  destruct (normalizeSubsample (Args.subsample raw)) as [ss | | ]; try discriminate Hp.
  unfold size_of in *.
  cbn [Args.fitUnder Args.maxSize Args.set_quality Args.set_minQuality] in *.
  destruct raw as [c q ms fu pr sub prog strip mq od sf ov rc inp hp msb].
  cbn [Args.fitUnder Args.maxSize] in *.
  destruct (match fu with Some s => Some s | None => ms end) as [[ | ch r] | ].
  - injection Hp as <-. reflexivity.
  - destruct (parseSizeToBytes (String ch r)) as [nb | | ]; try discriminate Hp.
    injection Hp as <-. reflexivity.
  - injection Hp as <-. reflexivity.
Qed.

End QualityFacts.


(** * The quality handed to the encoder: [Math.round(quality01 * 100)] *)

Module PercentFacts.

Import Binary64 Binary64Facts.

(** Rounding a mantissa of [53 + n] bits: the result is the quotient by
    [2^n], or the next integer. *)
Lemma round_near (sx : bool) (s : positive) (e : Z) (n : positive) :
  Zpos (digits2_pos s) = 53 + Zpos n ->
  -1074 <= e -> e + Zpos n + 1 <= 971 ->
  exists m e' v,
    binary_round_aux prec emax sx (Zpos s) e loc_Exact = S754_finite sx m e' /\
    Zpos (digits2_pos m) = 53 /\
    (v = Zpos s / 2 ^ Zpos n \/ v = Zpos s / 2 ^ Zpos n + 1) /\
    (Zpos s mod 2 ^ Zpos n = 0 -> v = Zpos s / 2 ^ Zpos n) /\
    ((e' = e + Zpos n /\ Zpos m = v) \/
     (e' = e + Zpos n + 1 /\ Zpos m = 2 ^ 52 /\ v = 2 ^ 53)).
Proof.
  intros Hd He Hmax.
  unfold binary_round_aux, shr_fexp. cbn [Zdigits2]. rewrite Hd.
  rewrite fexp_normal by lia.
  replace (53 + Zpos n - 53) with (Zpos n) by lia.
  cbn [shr shr_record_of_loc].
  set (x0 := {| shr_m := Zpos s; shr_r := false; shr_s := false |}).
  pose proof (iter_shr_1_shifted n x0 ltac:(cbn; lia)) as [Em Ef].
  set (x := iter_pos shr_1 n x0) in *. cbn [shr_m x0] in Em, Ef.
  pose proof (digits2_bounds s) as [Slo Shi]. rewrite Hd in Slo, Shi.
  assert (P2 : 0 < 2 ^ Zpos n) by (apply Z.pow_pos_nonneg; lia).
  replace (53 + Zpos n - 1) with (52 + Zpos n) in Slo by lia.
  rewrite Z.pow_add_r in Slo, Shi by lia.
  assert (Qlo : 2 ^ 52 <= shr_m x) by (rewrite Em; apply Z.div_le_lower_bound; lia).
  assert (Qhi : shr_m x < 2 ^ 53) by (rewrite Em; apply Z.div_lt_upper_bound; lia).
  destruct (round_nearest_even_cases (shr_m x) x) as [Hq Hexact].
  set (q' := round_nearest_even (shr_m x) (loc_of_shr_record x)) in *.
  assert (Hex : Zpos s mod 2 ^ Zpos n = 0 -> q' = Zpos s / 2 ^ Zpos n).
  { intros Hz. rewrite <- Em. apply Hexact.
    destruct (flags x) eqn:Fx; [ | reflexivity].
    destruct (Ef eq_refl) as [Hn | Hf]; [contradiction | discriminate]. }
  rewrite Em in Hq.
  destruct (Z.eq_dec q' (2 ^ 53)) as [Hc | Hnc].
  - rewrite Hc. change (Zdigits2 (2 ^ 53)) with 54.
    replace (54 + (e + Zpos n)) with (54 + e + Zpos n) by lia.
    replace (fexp prec emax (54 + e + Zpos n) - (e + Zpos n)) with 1
      by (unfold fexp, SpecFloat.emin, prec, emax; lia).
    cbn [shr iter_pos shr_1 shr_record_of_loc shr_m]. change (2 ^ 53) with (Zpos (2 ^ 53)).
    cbn [shr_1 shr_m Z.pow Z.pow_pos Pos.iter Z.mul Pos.mul].
    change (emax - prec) with 971.
    replace (e + Zpos n + 1 <=? 971) with true by (symmetry; apply Z.leb_le; lia).
    eexists _, _, q'. split; [reflexivity | ]. split; [reflexivity | ].
    split; [exact Hq | ]. split; [exact Hex | ].
    right. split; [reflexivity | ]. split; [reflexivity | exact Hc].
  - rewrite Em in Qlo, Qhi.
    assert (Hq' : 2 ^ 52 <= q' < 2 ^ 53) by lia.
    destruct q' as [ | p' | p' ] eqn:Eq'; try lia.
    cbn [Zdigits2]. rewrite (digits2_unique p' 53) by (change (53 - 1) with 52; lia).
    replace (fexp prec emax (53 + (e + Zpos n)) - (e + Zpos n)) with 0
      by (unfold fexp, SpecFloat.emin, prec, emax; lia).
    cbn [shr shr_record_of_loc shr_m].
    change (emax - prec) with 971.
    replace (e + Zpos n <=? 971) with true by (symmetry; apply Z.leb_le; lia).
    exists p', (e + Zpos n), (Zpos p'). split; [reflexivity | ]. split.
    + apply digits2_unique. change (53 - 1) with 52. lia.
    + split; [exact Hq | ]. split; [exact Hex | ].
      left. split; reflexivity.
Qed.

Lemma Prim2SF_hundred : Prim2SF 100 = S754_finite false Binary64More.M100 (-46).
Proof. vm_compute. reflexivity. Qed.

(** The product of a fidelity of [[0.1, 1.0]] by 100 is a Number of
    [[10, 100]]. *)
Lemma mul100_within (m : positive) (e : Z) :
  between (-56) m e ->
  exists m' e',
    SFmul prec emax (S754_finite false m e) (S754_finite false Binary64More.M100 (-46))
    = S754_finite false m' e' /\ Binary64More.within 10 100 m' e'.
Proof.
  intros (Hd & He & Hlo & Hhi). cbn [SFmul xorb].
  pose proof (digits2_bounds m) as [Mlo Mhi]. rewrite Hd in Mlo, Mhi.
  change (53 - 1) with 52 in Mlo.
  set (s := (m * Binary64More.M100)%positive).
  assert (Es : Zpos s = Zpos m * 7036874417766400) by reflexivity.
  assert (Dlo : 104 < Zpos (digits2_pos s)).
  { apply digits2_gt. rewrite Es. eval_pow2. lia. }
  assert (Dhi : Zpos (digits2_pos s) <= 106).
  { apply digits2_le; [lia | ]. rewrite Es. eval_pow2. lia. }
  assert (Hn : exists n : positive,
             Zpos (digits2_pos s) = 53 + Zpos n /\ (Zpos n = 52 \/ Zpos n = 53)).
  { exists (Z.to_pos (Zpos (digits2_pos s) - 53)). rewrite Z2Pos.id by lia. split; lia. }
  destruct Hn as (n & Hds & Cn).
  destruct (round_near false s (e + -46) n Hds ltac:(lia) ltac:(lia))
    as (m' & e' & v & Hr & _ & Hv & Hex & Hc).
  rewrite Hr. exists m', e'. split; [reflexivity | ].
  assert (P2 : 0 < 2 ^ Zpos n) by (apply Z.pow_pos_nonneg; lia).
  pose proof (Z.mul_div_le (Zpos s) (2 ^ Zpos n) P2) as Q1.
  pose proof (Z.mul_succ_div_gt (Zpos s) (2 ^ Zpos n) P2) as Q2.
  unfold M01, P52 in *. unfold Binary64More.within.
  assert (Ce : e = -56 \/ e = -55 \/ e = -54 \/ e = -53 \/ e = -52) by lia.
  assert (Hgoal : forall t, e' = t ->
            t < 0 /\ 10 * 2 ^ (- t) <= Zpos m' <= 100 * 2 ^ (- t) ->
            e' < 0 /\ 10 * 2 ^ (- e') <= Zpos m' <= 100 * 2 ^ (- e'))
    by (intros t ->; tauto).
  clear Hr Dlo Dhi Hds He Hd P2.
  destruct Ce as [-> | [-> | [-> | [-> | ->]]]];
  destruct Cn as [En | En]; rewrite En in *; clear En;
  destruct Hc as [[He' Em'] | (He' & Em' & Ev)];
  match type of He' with
  | _ = ?t => let c := eval vm_compute in t in apply (Hgoal c He')
  end; clear Hgoal He'; rewrite Em'; clear Em' m';
  try (specialize (Hhi eq_refl); rewrite Hhi in Es;
       match type of Es with
       | _ = ?t => let c := eval vm_compute in t in change t with c in Es
       end;
       rewrite Es in Hex; pose proof (Hex eq_refl) as Hexact;
       match type of Hexact with
       | _ = ?t => let c := eval vm_compute in t in change t with c in Hexact
       end);
  clear Hex;
  try (specialize (Hlo eq_refl));
  set (q := Zpos s / _) in *; clearbody q;
  rewrite Es in Q1, Q2; clear Es s;
  eval_pow2; (split; [lia | ]); lia.
Qed.

(** [Math.round] of a positive Number of [[lo, hi]] is an integer of
    [[lo, hi]]. *)
Lemma Math_round_within (x : float) (m : positive) (e : Z) (lo hi : Z) :
  Prim2SF x = S754_finite false m e -> Binary64More.within lo hi m e -> 0 < lo ->
  exists n, lo <= n <= hi /\ JS.Math_round x = JS.Z2F n.
Proof.
  intros Ex (He & Hlo & Hhi) Hpos. unfold JS.Math_round. rewrite Ex.
  replace (0 <=? e) with false by (symmetry; apply Z.leb_gt; exact He).
  cbv zeta. cbn [cond_Zopp].
  rewrite Z.shiftr_div_pow2 by lia.
  replace (- e + 1) with (Z.succ (- e)) by lia. rewrite Z.pow_succ_r by lia.
  assert (P : 0 < 2 ^ (- e)) by (apply Z.pow_pos_nonneg; lia).
  set (p := 2 ^ (- e)) in *. clearbody p.
  set (v := (2 * Zpos m + p) / (2 * p)).
  assert (Hv : lo <= v <= hi).
  { unfold v. split.
    - apply Z.div_le_lower_bound; nia.
    - apply Z.lt_succ_r. apply Z.div_lt_upper_bound; nia. }
  exists v. split; [exact Hv | ].
  replace (v =? 0) with false by (symmetry; apply Z.eqb_neq; lia). reflexivity.
Qed.

(** The quality that [jpegOpts] hands to sharp, for a fidelity of
    [[0.1, 1.0]]: an integer of [[10, 100]]. *)
Lemma percent_valid (q : float) :
  JS.valid_fidelity q = true ->
  exists n, 10 <= n <= 100 /\ JS.Math_round (q * 100)%float = JS.Z2F n.
Proof.
  intros V. destruct (valid_fidelity_between q V) as (m & e & Eq & B).
  destruct (mul100_within m e B) as (m' & e' & Em & W).
  apply (Math_round_within _ m' e' 10 100); [ | exact W | lia].
  rewrite mul_spec, Eq, Prim2SF_hundred. exact Em.
Qed.

End PercentFacts.


(** * Facts on the calls of the encoder *)

Module CallFacts.

Import Cli Binary64Facts CliFacts CliResults.

Section Facts.

Variable Buf : Type.
Variable length : Buf -> Z.
Variable encode : string -> Args.t -> float -> option Variant -> Buf.
Variable inputPath : string.
Variable args : Args.t.

Local Abbreviation genuine := (Calls.genuine Buf encode inputPath args).
Local Abbreviation attempt_of := (attempt_of Buf encode inputPath args).

Lemma attempt_of_genuine (q : float) (v : Variant) : genuine (Some v) (attempt_of q v).
Proof. split; reflexivity. Qed.

Lemma search_genuine (target : float) (v : Variant) (fuel : nat) :
  forall lo hi best bestQ a,
    In a (snd (search Buf length encode inputPath args target v fuel lo hi best bestQ)) ->
    genuine (Some v) a.
Proof.
  induction fuel as [ | fuel IH]; intros lo hi best bestQ a.
  - intros [].
  - rewrite search_S. destruct (0.015 <? hi - lo)%float; [ | intros []].
    cbv zeta. cbn [snd]. intros [<- | H]; [apply attempt_of_genuine | ].
    destruct (fits _ _ _ _); apply (IH _ _ _ _ _ H).
Qed.

Lemma forVariants_genuine (target baseQ minQ : float) (vs : list Variant) :
  forall bestFit bestClarity a,
    In a (snd (forVariants Buf length encode inputPath args target baseQ minQ
                 vs bestFit bestClarity)) ->
    exists v, In v vs /\ genuine (Some v) a.
Proof.
  induction vs as [ | v rest IH]; intros bestFit bestClarity a.
  - cbn [Cli.forVariants]. destruct bestClarity; intros [].
  - rewrite forVariants_cons. cbv zeta.
    assert (Hrest : forall bf bc,
              In a (snd (forVariants Buf length encode inputPath args target baseQ minQ
                           rest bf bc)) ->
              exists v0, In v0 (v :: rest) /\ genuine (Some v0) a).
    { intros bf bc H. destruct (IH bf bc a H) as (v0 & Hin & G).
      exists v0. split; [right; exact Hin | exact G]. }
    assert (Hhere : forall q, a = attempt_of q v ->
              exists v0, In v0 (v :: rest) /\ genuine (Some v0) a).
    { intros q ->. exists v. split; [left; reflexivity | apply attempt_of_genuine]. }
    destruct (fits Buf length target (encode inputPath args baseQ (Some v))).
    + cbn [snd]. intros [<- | []]. apply (Hhere baseQ eq_refl).
    + destruct (exceeds Buf length target (encode inputPath args minQ (Some v))).
      * cbn [snd]. intros [<- | [<- | H]];
          [apply (Hhere baseQ eq_refl) | apply (Hhere minQ eq_refl) | apply (Hrest _ _ H)].
      * pose proof (search_genuine target v 10 minQ baseQ
                      (encode inputPath args minQ (Some v)) minQ) as Hs.
        destruct (search Buf length encode inputPath args target v 10 minQ baseQ
                    (encode inputPath args minQ (Some v)) minQ) as [[sr | msg | msg] ls];
          cbn [snd] in *.
        -- intros [<- | [<- | H]];
             [apply (Hhere baseQ eq_refl) | apply (Hhere minQ eq_refl) | ].
           apply in_app_or in H. destruct H as [H | H]; [ | apply (Hrest _ _ H)].
           exists v. split; [left; reflexivity | apply (Hs a H)].
        -- intros [<- | [<- | H]];
             [apply (Hhere baseQ eq_refl) | apply (Hhere minQ eq_refl) | ].
           exists v. split; [left; reflexivity | apply (Hs a H)].
        -- intros [<- | [<- | H]];
             [apply (Hhere baseQ eq_refl) | apply (Hhere minQ eq_refl) | ].
           exists v. split; [left; reflexivity | apply (Hs a H)].
Qed.

(** Every attempt of a run records a call of the encoder: with the
    overrides of a variant of the table when a target is configured, without
    overrides otherwise. *)
Lemma compress_genuine (a : Attempt Buf) :
  In a (snd (compressWithTarget Buf length encode inputPath args)) ->
  match target_of args with
  | Some _ => exists v, In v variants /\ genuine (Some v) a
  | None => genuine None a
  end.
Proof.
  destruct (target_of args) as [t | ] eqn:Ht.
  - destruct (compress_shapes Buf length encode inputPath args t Ht)
      as [(msg & ->) | (bq & mq & _ & _ & _ & _ & ->)]; [intros [] | ].
    apply forVariants_genuine.
  - rewrite (compress_passthrough Buf length encode inputPath args Ht). cbn [snd].
    intros [<- | []]. split; reflexivity.
Qed.

End Facts.

End CallFacts.


(** * Facts on the inputs of the CLI *)

Module FilesFacts.

Import Files.

Lemma Tree_induction (P : Tree -> Prop) :
  (forall s, P (File s)) -> P Other ->
  (forall ents, Forall (fun ne => P (snd ne)) ents -> P (Dir ents)) ->
  forall t, P t.
Proof.
  intros Hf Ho Hd. fix IH 1. intros [s | ents | ]; [apply Hf | | apply Ho].
  apply Hd. induction ents as [ | [name e] rest IHr]; constructor; [apply IH | exact IHr].
Qed.

Section Paths.

Variable resolve : string -> string.
Variable join : string -> string -> string.
Variable extname : string -> string.
Variable stat : string -> option Tree.

Local Abbreviation isJpegFile := (isJpegFile extname).
Local Abbreviation scanDir := (scanDir join extname).
Local Abbreviation listInputs := (listInputs resolve join extname stat).

(** One step of the loop over the entries of a directory. *)
Lemma scanDir_cons (dir name : string) (e : Tree) (rest : list (string * Tree)) (r : bool) :
  scanDir dir (Dir ((name, e) :: rest)) r =
  match e with
  | Dir _ => if r then scanDir (join dir name) e r else []
  | File _ => if isJpegFile (join dir name) then [join dir name] else []
  | Other => []
  end ++ scanDir dir (Dir rest) r.
Proof. destruct e; reflexivity. Qed.

Lemma scanDir_jpeg (t : Tree) :
  forall dir r p, In p (scanDir dir t r) -> isJpegFile p = true.
Proof.
  induction t as [s | | ents IH] using Tree_induction; intros dir r p; try (intros []).
  induction IH as [ | [name e] rest He _ IHrest]; [intros [] | ].
  rewrite scanDir_cons. intros H. apply in_app_or in H. destruct H as [H | H];
    [ | apply IHrest; exact H].
  cbn [snd] in He. destruct e as [s | sub | ].
  - destruct (isJpegFile (join dir name)) eqn:J; [ | destruct H].
    destruct H as [<- | []]. exact J.
  - destruct r; [apply (He _ _ _ H) | destruct H].
  - destruct H.
Qed.

(** Without [--recursive], nothing is listed that is not listed with it. *)
Lemma scanDir_recursive_more (t : Tree) :
  forall dir p, In p (scanDir dir t false) -> In p (scanDir dir t true).
Proof.
  induction t as [s | | ents IH] using Tree_induction; intros dir p; try (intros []).
  induction IH as [ | [name e] rest He _ IHrest]; [intros [] | ].
  rewrite !scanDir_cons. intros H. apply in_or_app. apply in_app_or in H.
  destruct H as [H | H]; [left | right; apply IHrest; exact H].
  destruct e as [s | sub | ]; [exact H | destruct H | destruct H].
Qed.

(** Without [--recursive], what is listed is the entries of the directory
    itself that are regular files with a JPEG extension. *)
Lemma scanDir_flat (dir : string) (ents : list (string * Tree)) (p : string) :
  In p (scanDir dir (Dir ents) false) <->
  exists name s, In (name, File s) ents /\ p = join dir name /\ isJpegFile p = true.
Proof.
  induction ents as [ | [name e] rest IH].
  - split; [intros [] | intros (n & s & [] & _)].
  - rewrite scanDir_cons. split.
    + intros H. apply in_app_or in H. destruct H as [H | H].
      * destruct e as [s | sub | ]; try destruct H.
        destruct (isJpegFile (join dir name)) eqn:J; [ | destruct H].
        destruct H as [<- | []]. exists name, s. split; [left; reflexivity | ]. split; [reflexivity | exact J].
      * apply IH in H. destruct H as (n & s & Hin & E & J).
        exists n, s. split; [right; exact Hin | ]. split; assumption.
    + intros (n & s & [E | Hin] & -> & J).
      * injection E as -> ->. apply in_or_app. left. rewrite J. left. reflexivity.
      * apply in_or_app. right. apply IH. exists n, s. split; [exact Hin | ]. split; [reflexivity | exact J].
Qed.

Local Abbreviation accepted := (accepted resolve extname stat).
Local Abbreviation contribution := (contribution resolve join extname stat).
Local Abbreviation rejection := (rejection resolve stat).

(** [listInputs] on inputs that are all accepted, and on a first input
    that is not. *)
Lemma listInputs_accepted (r : bool) (inputs : list string) :
  forallb accepted inputs = true ->
  listInputs inputs r = Ret (flat_map (contribution r) inputs).
Proof.
  induction inputs as [ | input rest IH]; [reflexivity | ].
  cbn [forallb flat_map Files.listInputs]. intros H. apply andb_true_iff in H.
  destruct H as [Ha Hr]. rewrite (IH Hr). unfold Files.accepted in Ha. unfold Files.contribution.
  destruct (stat (resolve input)) as [[s | ents | ] | ]; try discriminate Ha.
  - fold isJpegFile. rewrite Ha. reflexivity.
  - reflexivity.
Qed.

Lemma listInputs_rejected (r : bool) (pre : list string) (input : string) (rest : list string) :
  forallb accepted pre = true -> accepted input = false ->
  listInputs (pre ++ input :: rest) r = Die (rejection input).
Proof.
  intros Hpre Hin. induction pre as [ | p pre IH].
  - cbn [app Files.listInputs]. unfold Files.accepted in Hin. unfold Files.rejection.
    destruct (stat (resolve input)) as [[s | ents | ] | ]; try reflexivity; try discriminate Hin.
    fold isJpegFile. rewrite Hin. reflexivity.
  - cbn [forallb] in Hpre. apply andb_true_iff in Hpre. destruct Hpre as [Hp Hpre].
    cbn [app Files.listInputs]. rewrite (IH Hpre). unfold Files.accepted in Hp.
    destruct (stat (resolve p)) as [[s | ents | ] | ]; try discriminate Hp.
    + fold isJpegFile. rewrite Hp. reflexivity.
    + reflexivity.
Qed.

(** Either all the inputs are accepted, or there is a first one that is
    not. *)
Lemma first_rejected (inputs : list string) :
  forallb accepted inputs = true \/
  exists pre input rest,
    inputs = pre ++ input :: rest /\ forallb accepted pre = true /\ accepted input = false.
Proof.
  induction inputs as [ | a l [IH | (pre & input & rest & -> & Hp & Hi)]].
  - left. reflexivity.
  - destruct (accepted a) eqn:Ha.
    + left. cbn [forallb]. rewrite Ha, IH. reflexivity.
    + right. exists [], a, l. repeat split. exact Ha.
  - destruct (accepted a) eqn:Ha.
    + right. exists (a :: pre), input, rest. cbn [forallb app]. rewrite Ha, Hp.
      repeat split. exact Hi.
    + right. exists [], a, (pre ++ input :: rest). repeat split. exact Ha.
Qed.

Lemma contribution_jpeg (r : bool) (input p : string) :
  accepted input = true -> In p (contribution r input) -> isJpegFile p = true.
Proof.
  unfold Files.accepted, Files.contribution.
  destruct (stat (resolve input)) as [[s | ents | ] | ]; try discriminate.
  - intros J [<- | []]. exact J.
  - intros _. apply scanDir_jpeg.
Qed.

End Paths.

End FilesFacts.


(** * Facts on [main] *)

Module MainFacts.

Import Main Binary64Facts CliFacts CliResults ReturnFacts.

Section Run.

Variable Buf : Type.
Variable length : Buf -> Z.
Variable resolve : string -> string.
Variable join : string -> string -> string.
Variable extname : string -> string.
Variable basename : string -> string -> string.
Variable World : Type.
Variable tree : World -> string -> option Files.Tree.
Variable stat_size : World -> string -> option Z.
Variable mkdir : World -> string -> World + string.
Variable writeFile : World -> string -> Buf -> option World.
Variable sharp : World -> string -> option (bool -> Cli.JpegOpts -> Buf).

Local Abbreviation Loop := (Loop Buf World).
Local Abbreviation step := (step Buf length join extname basename World stat_size writeFile sharp).
Local Abbreviation loop := (loop Buf length join extname basename World stat_size writeFile sharp).
Local Abbreviation main :=
  (main Buf length resolve join extname basename World tree stat_size mkdir writeFile sharp).
Local Abbreviation outputPathFor := (Files.outputPathFor join extname basename).
Local Abbreviation compress :=
  (fun enc => Cli.compressWithTarget Buf length (Cli.encodeAtQuality (fun _ : string => enc))).

Section Turns.

Variable args : Cli.Args.t.
Variable outDir : string.

Local Abbreviation tallied := (tallied Buf World).
Local Abbreviation fresh_writes := (fresh_writes Buf World stat_size).
Local Abbreviation untouched := (untouched Buf World stat_size).
Local Abbreviation turn :=
  (turn Buf length join extname basename World stat_size writeFile sharp args outDir).

Lemma turn_failed (st : Loop) (inputPath : string) :
  turn st inputPath (failed Buf World inputPath st) None.
Proof.
  unfold failed. rewrite <- (app_nil_r (encodes st)) at 1.
  apply (turn_fail Buf length join extname basename World stat_size writeFile sharp
           args outDir st inputPath []).
Qed.

Lemma process_turn (st : Loop) (inputPath : string) :
  Cli.Args.overwrite args = true \/
  stat_size (world st) (outputPathFor inputPath outDir (Cli.Args.suffix args)) = None ->
  let res := process Buf length World stat_size writeFile sharp args
               (outputPathFor inputPath outDir (Cli.Args.suffix args)) st inputPath in
  turn st inputPath (fst res) (snd res).
Proof.
  intros Hw. cbv zeta. unfold process.
  destruct (stat_size (world st) inputPath) as [before | ] eqn:Sb;
    [ | apply turn_failed].
  destruct (sharp (world st) inputPath) as [enc | ] eqn:Sh; [ | apply turn_failed].
  destruct (Cli.compressWithTarget _ _ _ _ _) as [[r | msg | msg] log] eqn:Ec.
  - destruct (writeFile _ _ _) as [w' | ] eqn:Wr; unfold failed;
      cbn [fst snd world ok fail console writes encodes].
    + apply (turn_done Buf length join extname basename World stat_size writeFile sharp
               args outDir st inputPath before enc r log w'); assumption.
    + apply (turn_fail Buf length join extname basename World stat_size writeFile sharp
               args outDir st inputPath log).
  - cbn [fst snd]. apply turn_die.
  - unfold failed. cbn [fst snd world ok fail console writes encodes].
    apply (turn_fail Buf length join extname basename World stat_size writeFile sharp
             args outDir st inputPath log).
Qed.

Lemma step_turn (st : Loop) (inputPath : string) :
  turn st inputPath (fst (step args outDir st inputPath)) (snd (step args outDir st inputPath)).
Proof.
  unfold Main.step. cbv zeta.
  destruct (Cli.Args.overwrite args) eqn:Ov; cbn [negb andb].
  - apply process_turn. left. exact Ov.
  - destruct (stat_size (world st) (outputPathFor _ _ _)) as [n | ] eqn:So.
    + cbn [fst snd]. apply turn_skip; [exact Ov | rewrite So; discriminate].
    + apply process_turn. right. exact So.
Qed.

(** An invariant of the turns is an invariant of the loop. *)
Lemma loop_invariant (I : Loop -> Prop) :
  (forall st p st' d, I st -> turn st p st' d -> I st') ->
  forall inputs st, I st -> I (fst (loop args outDir inputs st)).
Proof.
  intros Hturn. induction inputs as [ | p rest IH]; intros st Hst; [exact Hst | ].
  cbn [Main.loop]. pose proof (step_turn st p) as T.
  destruct (step args outDir st p) as [st' [msg | ]]; cbn [fst snd] in *.
  - apply (Hturn st p st' (Some msg) Hst T).
  - apply IH. apply (Hturn st p st' None Hst T).
Qed.

Lemma count_app (kind : Line -> bool) (l : list (Line)) (x : Line) :
  count kind (l ++ [x]) = count kind l + (if kind x then 1 else 0).
Proof.
  unfold count. rewrite filter_app, length_app. cbn [filter].
  destruct (kind x); cbn [List.length]; lia.
Qed.

Lemma turn_tallied (st : Loop) (p : string) (st' : Loop) (d : option string) :
  tallied st -> turn st p st' d -> tallied st'.
Proof.
  intros (Ho & Hf & Hw) T. destruct T; unfold Main.tallied;
    cbn [ok fail console writes]; rewrite ?count_app; cbn [is_done is_failed];
    rewrite ?length_app; cbn [List.length]; repeat split; lia.
Qed.

(** A loop that is not ended by [die] takes every input once: it is
    skipped, it fails, or its output is written. *)
Lemma loop_counts (inputs : list string) :
  forall st st',
    loop args outDir inputs st = (st', None) ->
    ok st' + fail st' + count is_skipped (console st')
    = ok st + fail st + count is_skipped (console st) + Z.of_nat (List.length inputs).
Proof.
  induction inputs as [ | p rest IH]; intros st st'.
  - cbn [Main.loop]. intros E. injection E as <-. cbn [List.length]. lia.
  - cbn [Main.loop]. pose proof (step_turn st p) as T.
    destruct (step args outDir st p) as [st1 [msg | ]]; cbn [fst snd] in *; [discriminate | ].
    intros E. rewrite (IH _ _ E). cbn [List.length].
    inversion T; subst; cbn [ok fail console]; rewrite ?count_app; cbn [is_skipped]; lia.
Qed.

Lemma turn_fresh (st : Loop) (p : string) (st' : Loop) (d : option string) :
  Cli.Args.overwrite args = false ->
  fresh_writes st -> turn st p st' d -> fresh_writes st'.
Proof.
  intros Ov H T. destruct T; unfold Main.fresh_writes in *; cbn [writes]; try exact H.
  intros wr Hin. apply in_app_or in Hin. destruct Hin as [Hin | [<- | []]]; [apply H, Hin | ].
  cbn [w_before w_path].
  match goal with Hc : _ \/ _ |- _ => destruct Hc as [Hov | Hno] end;
    [rewrite Ov in Hov; discriminate Hov | exact Hno].
Qed.

Lemma turn_untouched (w0 : World) (st : Loop) (p : string) (st' : Loop) (d : option string) :
  persistent Buf World stat_size mkdir writeFile ->
  Cli.Args.overwrite args = false ->
  untouched w0 st -> turn st p st' d -> untouched w0 st'.
Proof.
  intros [Pw _] Ov [Hex Hwr] T. destruct T; unfold Main.untouched; cbn [world writes];
    try (split; assumption).
  subst w outPath after.
  match goal with Hc : _ \/ _ |- _ => destruct Hc as [Hov | Hno] end;
    [rewrite Ov in Hov; discriminate Hov | ].
  split.
  - intros q Hq. eapply Pw; [eassumption | ]. apply Hex, Hq.
  - intros wr Hin. apply in_app_or in Hin. destruct Hin as [Hin | [<- | []]]; [apply Hwr, Hin | ].
    cbn [w_path].
    destruct (stat_size w0 (outputPathFor p outDir (Cli.Args.suffix args))) as [n | ] eqn:E;
      [ | reflexivity].
    exfalso. apply (Hex (outputPathFor p outDir (Cli.Args.suffix args))); [ | exact Hno].
    rewrite E. discriminate.
Qed.

Lemma warnTarget_exceeds (t : float) (after : Z) :
  Cli.target_of args = Some t -> warnTarget args after = (t <? JS.Z2F after)%float.
Proof.
  unfold Cli.target_of, warnTarget. destruct (Cli.Args.maxSizeBytes args) as [t' | ]; [ | discriminate].
  destruct (JS.truthy t') eqn:Tt; [ | discriminate]. intros E. injection E as <-. reflexivity.
Qed.

Lemma warnTarget_none (after : Z) :
  Cli.target_of args = None -> warnTarget args after = false.
Proof.
  unfold Cli.target_of, warnTarget. destruct (Cli.Args.maxSizeBytes args) as [t' | ]; [ | reflexivity].
  destruct (JS.truthy t'); [discriminate | reflexivity].
Qed.

Lemma turn_truthful (st : Loop) (p : string) (st' : Loop) (d : option string) :
  truthful_lines Buf World args st -> turn st p st' d -> truthful_lines Buf World args st'.
Proof.
  intros H T. destruct T; unfold truthful_lines in *; cbn [console]; try exact H.
  - intros rep Hin. apply in_app_or in Hin. destruct Hin as [Hin | [E | []]];
      [apply H, Hin | discriminate E].
  - intros rep Hin. apply in_app_or in Hin. destruct Hin as [Hin | [E | []]];
      [apply H, Hin | discriminate E].
  - subst w outPath after.
    intros rep Hin. apply in_app_or in Hin. destruct Hin as [Hin | [E | []]]; [apply H, Hin | ].
    injection E as <-. unfold truthful. cbn [r_warnTarget r_pass r_after].
    match goal with
    | Hc : Cli.compressWithTarget _ _ ?e _ _ = _ |- _ =>
        pose proof (f_equal fst Hc) as Er; cbn [fst] in Er; set (encode := e) in *
    end.
    destruct (Cli.target_of args) as [t | ] eqn:Ht.
    + rewrite (warnTarget_exceeds t _ Ht).
      assert (Hpass : Cli.pass Buf r = true -> (JS.Z2F (length (Cli.buf Buf r)) <=? t)%float = true).
      { intros Hp. apply (compress_pass_fits Buf length encode p args t r Ht Er Hp). }
      assert (Hfail : Cli.pass Buf r = false -> (t <? JS.Z2F (length (Cli.buf Buf r)))%float = true).
      { intros Hp. apply (compress_fail_exceeds Buf length encode p args t r Ht Er Hp). }
      split; [ | split; assumption].
      destruct (Cli.pass Buf r).
      * cbn [negb]. specialize (Hpass eq_refl).
        destruct (t <? JS.Z2F (length (Cli.buf Buf r)))%float eqn:L; [ | reflexivity].
        rewrite (ltb_not_leb _ _ L) in Hpass. discriminate Hpass.
      * apply Hfail. reflexivity.
    + rewrite (warnTarget_none _ Ht). split; [reflexivity | ].
      rewrite (compress_passthrough Buf length encode p args Ht) in Er.
      cbn [fst] in Er. injection Er as <-. reflexivity.
Qed.

End Turns.

(** The runs of [main]: it stops before the loop, nothing written and
    nothing encoded, or it lists the inputs, makes the output directory and
    runs the loop. *)
Lemma main_cases (argv : list string) (w : World) :
  (writes (final (main argv w)) = [] /\ encodes (final (main argv w)) = [] /\
   world (final (main argv w)) = w /\
   ok (final (main argv w)) = 0 /\ fail (final (main argv w)) = 0 /\
   (forall l, In l (console (final (main argv w))) -> l = Help) /\
   ((code (main argv w) = 1 /\ died (main argv w) <> None) \/
    (code (main argv w) = 0 /\ died (main argv w) = None /\
     exists args, Cli.parseArgs argv = Ret args /\ Cli.Args.help args = true)))
  \/
  (exists args inputs w1 st d,
     Cli.parseArgs argv = Ret args /\ Cli.Args.help args = false /\
     Cli.Args.compress args = true /\
     Files.listInputs resolve join extname (tree w) (Cli.Args.inputs args)
       (Cli.Args.recursive args) = Ret inputs /\
     inputs <> [] /\
     mkdir w (resolve (Cli.Args.outDir args)) = inl w1 /\
     loop args (resolve (Cli.Args.outDir args)) inputs (start Buf World w1) = (st, d) /\
     main argv w =
     match d with
     | Some msg => mkExit Buf World 1 (Some msg) st
     | None =>
         mkExit Buf World (if fail st =? 0 then 0 else 2) None
           (mkLoop Buf World (world st) (ok st) (fail st)
              (console st ++ [Summary (ok st) (fail st) (resolve (Cli.Args.outDir args))])
              (writes st) (encodes st))
     end).
Proof.
  unfold Main.main.
  assert (Early : forall msg,
    let e := die Buf World msg (start Buf World w) in
    writes (final e) = [] /\ encodes (final e) = [] /\ world (final e) = w /\
    ok (final e) = 0 /\ fail (final e) = 0 /\
    (forall l, In l (console (final e)) -> l = Help) /\
    ((code e = 1 /\ died e <> None) \/
     (code e = 0 /\ died e = None /\
      exists args, Cli.parseArgs argv = Ret args /\ Cli.Args.help args = true))).
  { intros msg. cbn. repeat split; try (intros l []). left. split; [reflexivity | discriminate]. }
  destruct (Cli.parseArgs argv) as [args | msg | msg] eqn:Ep; [ | left; apply Early ..].
  destruct (Cli.Args.help args) eqn:Hh.
  { left. cbn. repeat split.
    - intros l [<- | []]. reflexivity.
    - right. repeat split. exists args. split; [reflexivity | exact Hh]. }
  destruct (Cli.Args.inputs args) as [ | i0 irest] eqn:Ei.
  { left. cbn. repeat split.
    - intros l [<- | []]. reflexivity.
    - left. split; [reflexivity | discriminate]. }
  destruct (Cli.Args.compress args) eqn:Hc; cbn [negb]; [ | left; apply Early].
  destruct (Cli.Args.preserveResolution args); cbn [negb]; [ | left; apply Early].
  destruct (Files.listInputs _ _ _ _ _ _) as [[ | p ps] | msg | msg] eqn:El; try (left; apply Early).
  destruct (mkdir w _) as [w1 | stack] eqn:Em; [ | left; apply Early].
  destruct (Main.loop _ _ _ _ _ _ _ _ _ _ _ _ _) as [st d] eqn:Eloop.
  right. exists args, (p :: ps), w1, st, d.
  rewrite Ei. repeat split; try assumption; try reflexivity; try discriminate.
Qed.

End Run.

End MainFacts.


(** * Facts on [clamp] and on [compressImages] *)

Module ClampFacts.

Import Binary64Facts.

Lemma leb_refl (x : float) : is_nan x = false -> (x <=? x)%float = true.
Proof.
  intros H. rewrite leb_spec. unfold SFleb.
  rewrite (SFcompare_refl _ (not_nan_Prim2SF x H)). reflexivity.
Qed.

(** Two Numbers neither of which is below the other are equal. *)
Lemma not_ltb_eqb (x y : float) :
  is_nan x = false -> is_nan y = false ->
  (x <? y)%float = false -> (y <? x)%float = false -> (x =? y)%float = true.
Proof.
  intros Hx Hy. destruct (compare_defined x y Hx Hy) as [c Hc].
  rewrite !ltb_spec, eqb_spec. unfold SFltb, SFeqb.
  rewrite (SFcompare_antisym _ _ _ Hc), Hc. destruct c; intros H1 H2; try discriminate; reflexivity.
Qed.

Lemma eqb_sym (x y : float) : (x =? y)%float = true -> (y =? x)%float = true.
Proof.
  rewrite !eqb_spec. unfold SFeqb.
  destruct (SFcompare (Prim2SF x) (Prim2SF y)) as [c | ] eqn:Hc; [ | discriminate].
  rewrite (SFcompare_antisym _ _ _ Hc). destruct c; intros H; try discriminate; reflexivity.
Qed.

Lemma eqb_refl (x : float) : is_nan x = false -> (x =? x)%float = true.
Proof.
  intros H. rewrite eqb_spec. unfold SFeqb.
  rewrite (SFcompare_refl _ (not_nan_Prim2SF x H)). reflexivity.
Qed.

(** [Math.min(hi, n)] on Numbers: one of the two, not above [hi], and [n]
    itself, up to the sign of zero, when [n] is not above [hi]. *)
Lemma Math_min_cases (hi n : float) :
  is_nan hi = false -> is_nan n = false ->
  exists y, JS.Math_min hi n = y /\ is_nan y = false /\ (y <=? hi)%float = true /\
    (y = hi \/ y = n) /\ ((n <=? hi)%float = true -> (y =? n)%float = true).
Proof.
  intros Hh Hn. unfold JS.Math_min. rewrite Hh, Hn. cbn [orb].
  destruct (hi <? n)%float eqn:L1.
  - exists hi. repeat split; try assumption; [apply leb_refl, Hh | left; reflexivity | ].
    intros H. rewrite (ltb_not_leb _ _ L1) in H. discriminate H.
  - pose proof (not_ltb_leb _ _ Hh Hn L1) as Le.
    destruct (n <? hi)%float eqn:L2.
    + exists n. repeat split; try assumption; [right; reflexivity | intros _; apply eqb_refl, Hn].
    + pose proof (not_ltb_eqb _ _ Hh Hn L1 L2) as Eq.
      destruct (get_sign hi).
      * exists hi. repeat split; try assumption; [apply leb_refl, Hh | left; reflexivity | ].
        intros _. exact Eq.
      * exists n. repeat split; try assumption; [right; reflexivity | intros _; apply eqb_refl, Hn].
Qed.

Lemma Math_max_cases (lo y : float) :
  is_nan lo = false -> is_nan y = false ->
  exists z, JS.Math_max lo y = z /\ is_nan z = false /\ (lo <=? z)%float = true /\
    (z = lo \/ z = y) /\ ((lo <=? y)%float = true -> (z =? y)%float = true).
Proof.
  intros Hl Hy. unfold JS.Math_max. rewrite Hl, Hy. cbn [orb].
  destruct (y <? lo)%float eqn:L1.
  - exists lo. repeat split; try assumption; [apply leb_refl, Hl | left; reflexivity | ].
    intros H. rewrite (ltb_not_leb _ _ L1) in H. discriminate H.
  - pose proof (not_ltb_leb _ _ Hy Hl L1) as Le.
    destruct (lo <? y)%float eqn:L2.
    + exists y. repeat split; try assumption; [right; reflexivity | intros _; apply eqb_refl, Hy].
    + pose proof (not_ltb_eqb _ _ Hl Hy L2 L1) as Eq.
      destruct (get_sign lo).
      * exists y. repeat split; try assumption; [right; reflexivity | intros _; apply eqb_refl, Hy].
      * exists lo. repeat split; try assumption; [apply leb_refl, Hl | left; reflexivity | ].
        intros _. exact Eq.
Qed.

Lemma clamp_between (n lo hi : float) :
  is_nan n = false -> (lo <=? hi)%float = true ->
  is_nan (Browser.clamp n lo hi) = false /\
  (lo <=? Browser.clamp n lo hi)%float = true /\
  (Browser.clamp n lo hi <=? hi)%float = true.
Proof.
  intros Hn Hlh. destruct (leb_not_nan _ _ Hlh) as [Hl Hh]. unfold Browser.clamp.
  destruct (Math_min_cases hi n Hh Hn) as (y & -> & Ny & Ly & _ & _).
  destruct (Math_max_cases lo y Hl Ny) as (z & -> & Nz & Lz & [-> | ->] & _).
  - repeat split; assumption.
  - repeat split; assumption.
Qed.

Lemma clamp_nan (n lo hi : float) : is_nan n = true -> is_nan (Browser.clamp n lo hi) = true.
Proof.
  intros Hn. unfold Browser.clamp, JS.Math_min, JS.Math_max.
  rewrite Hn, orb_true_r. change (is_nan nan) with true. rewrite orb_true_r. reflexivity.
Qed.

Lemma compare_Eq_finite (s1 s2 : bool) (m1 m2 : positive) (e1 e2 : Z) :
  SFcompare (S754_finite s1 m1 e1) (S754_finite s2 m2 e2) = Some Eq ->
  s1 = s2 /\ m1 = m2 /\ e1 = e2.
Proof.
  cbn [SFcompare]. destruct s1, s2; try discriminate;
    destruct (Z.compare_spec e1 e2) as [-> | | ]; try discriminate;
    intros H; injection H as H.
  - apply CompOpp_iff in H. cbn [CompOpp] in H.
    match type of H with ?f Eq m1 m2 = _ => change (f Eq m1 m2) with (Pos.compare_cont Eq m1 m2) in H end.
    rewrite compare_cont_Eq in H. apply Pos.compare_eq in H. subst. repeat split.
  - match type of H with ?f Eq m1 m2 = _ => change (f Eq m1 m2) with (Pos.compare_cont Eq m1 m2) in H end.
    rewrite compare_cont_Eq in H. apply Pos.compare_eq in H. subst. repeat split.
Qed.

Lemma compare_Eq_trans (x y z : spec_float) :
  SFcompare x y = Some Eq -> SFcompare y z = Some Eq -> SFcompare x z = Some Eq.
Proof.
  destruct x as [sx | sx | | sx mx ex], y as [sy | sy | | sy my ey],
    z as [sz | sz | | sz mz ez]; intros C1 C2;
    try (apply compare_Eq_finite in C1; destruct C1 as (-> & -> & ->); exact C2);
    cbn [SFcompare] in *; try discriminate; try reflexivity;
    repeat match goal with s : bool |- _ => destruct s end;
    try discriminate; reflexivity.
Qed.

Lemma eqb_trans (x y z : float) :
  (x =? y)%float = true -> (y =? z)%float = true -> (x =? z)%float = true.
Proof.
  rewrite !eqb_spec. unfold SFeqb.
  destruct (SFcompare (Prim2SF x) (Prim2SF y)) as [[ | | ] | ] eqn:C1; try discriminate.
  destruct (SFcompare (Prim2SF y) (Prim2SF z)) as [[ | | ] | ] eqn:C2; try discriminate.
  intros _ _. rewrite (compare_Eq_trans _ _ _ C1 C2). reflexivity.
Qed.

(** Comparison is compatible with equality on the right. *)
Lemma leb_eqb (x y z : float) :
  (x <=? y)%float = true -> (z =? y)%float = true -> (x <=? z)%float = true.
Proof.
  rewrite !leb_spec, eqb_spec. unfold SFleb, SFeqb.
  destruct (SFcompare (Prim2SF z) (Prim2SF y)) as [[ | | ] | ] eqn:C; try discriminate.
  intros H _.
  destruct (Prim2SF x) as [sx | sx | | sx mx ex], (Prim2SF y) as [sy | sy | | sy my ey],
    (Prim2SF z) as [sz | sz | | sz mz ez];
    try (apply compare_Eq_finite in C; destruct C as (-> & -> & ->); exact H);
    cbn [SFcompare] in *; try discriminate; try reflexivity; try exact H;
    repeat match goal with s : bool |- _ => destruct s end;
    try discriminate; try reflexivity; try exact H.
Qed.

(** A Number within the bounds is returned, up to the sign of zero. *)
Lemma clamp_inside (n lo hi : float) :
  (lo <=? n)%float = true -> (n <=? hi)%float = true ->
  (Browser.clamp n lo hi =? n)%float = true.
Proof.
  intros Hln Hnh. destruct (leb_not_nan _ _ Hln) as [Hl Hn].
  destruct (leb_not_nan _ _ Hnh) as [_ Hh]. unfold Browser.clamp.
  destruct (Math_min_cases hi n Hh Hn) as (y & -> & Ny & Ly & Hy & Ey).
  specialize (Ey Hnh).
  destruct (Math_max_cases lo y Hl Ny) as (z & -> & Nz & Lz & Hz & Ez).
  destruct Hz as [-> | ->]; [ | exact Ey].
  destruct Hy as [-> | ->]; [ | apply Ez, Hln].
  apply (eqb_trans _ hi); [ | exact Ey]. apply Ez. apply (leb_eqb lo n hi Hln Ey).
Qed.

End ClampFacts.


Module ImagesFacts.

Import Images Binary64Facts BrowserFacts BrowserResults BlobFacts.

Section Facts.

Variable File : Type.
Variable Canvas : Type.
Variable Blob : Type.
Variable size : Blob -> Z.
Variable toBlob : Canvas -> float -> option Blob.
Variable toCanvas : File -> Canvas + string.
Variable canvas_width : Canvas -> Z.
Variable canvas_height : Canvas -> Z.

Local Abbreviation Item := (Item File Blob).
Local Abbreviation Attempt := (Browser.Attempt Blob).
Local Abbreviation M := (Browser.M Blob).
Local Abbreviation compressItem :=
  (compressItem File Canvas Blob size toBlob toCanvas canvas_width canvas_height).
Local Abbreviation compressEach :=
  (compressEach File Canvas Blob size toBlob toCanvas canvas_width canvas_height).
Local Abbreviation compressImages :=
  (compressImages File Canvas Blob size toBlob toCanvas canvas_width canvas_height).
Local Abbreviation stored :=
  (stored File Canvas Blob size toBlob toCanvas canvas_width canvas_height).
Local Abbreviation sound := (sound File Canvas Blob toBlob toCanvas).
Local Abbreviation kept := (kept File Blob).
Local Abbreviation thrown_by :=
  (thrown_by File Canvas Blob toBlob toCanvas canvas_width canvas_height).
Local Abbreviation left_as :=
  (left_as File Canvas Blob size toBlob toCanvas canvas_width canvas_height).
Local Abbreviation total := (total Canvas Blob toBlob).
Local Abbreviation genuine := (genuine Canvas Blob toBlob).
Local Abbreviation agree := (Images.agree Canvas Blob toBlob).

Lemma target_of_truthy (t : float) (b m : option float) :
  JS.truthy t = true -> Browser.target_of (Browser.mkOpts (Some t) b m) = Some t.
Proof. intros H. unfold Browser.target_of. cbn. rewrite H. reflexivity. Qed.

Lemma target_of_falsy (t : float) (b m : option float) :
  JS.truthy t = false -> Browser.target_of (Browser.mkOpts (Some t) b m) = None.
Proof. intros H. unfold Browser.target_of. cbn. rewrite H. reflexivity. Qed.

(** *** The encoder that can reject, against the one that cannot *)

Lemma agree_ret {A : Type} (canvas : Canvas) (a : A) : agree canvas (ret a) (ret a).
Proof. reflexivity. Qed.

Lemma agree_bind {A B : Type} (canvas : Canvas) (x y : M A) (f g : A -> M B) :
  agree canvas x y -> (forall a, agree canvas (f a) (g a)) ->
  agree canvas (bind x f) (bind y g).
Proof.
  destruct x as [[a | m | m] l]; cbn [agree bind].
  - intros -> H. specialize (H a). cbn [bind].
    destruct (f a) as [[b | m | m] l1]; cbn [agree] in *.
    + rewrite H. reflexivity.
    + exact H.
    + destruct H as (-> & Hq & l' & E). split; [reflexivity | ]. split; [exact Hq | ].
      destruct (g a) as [o l2]. cbn [snd] in *. subst l2.
      exists l'. rewrite app_assoc. reflexivity.
  - intros [].
  - intros (-> & Hq & l' & E) _. split; [reflexivity | ]. split; [exact Hq | ].
    destruct y as [[a | m' | m'] l2]; cbn [snd bind] in *; subst l2.
    + destruct (g a) as [o l3]. exists (l' ++ l3). cbn [snd]. rewrite app_assoc. reflexivity.
    + exists l'. reflexivity.
    + exists l'. reflexivity.
Qed.

Lemma agree_encode (d : Blob) (canvas : Canvas) (q : float) :
  agree canvas (canvasToJpegBlob Canvas Blob toBlob canvas q)
        (Browser.canvasToJpegBlob Canvas Blob (total d) canvas q).
Proof.
  unfold canvasToJpegBlob, Browser.canvasToJpegBlob, total.
  destruct (toBlob canvas q) as [b | ] eqn:E; cbn [agree].
  - reflexivity.
  - split; [reflexivity | ]. split; [exists q; exact E | ]. eexists. reflexivity.
Qed.

Lemma agree_search (d : Blob) (canvas : Canvas) (t : float) (fuel : nat) :
  forall lo hi bestBlob bestQ tried,
    agree canvas (search Canvas Blob size toBlob canvas t fuel lo hi bestBlob bestQ tried)
          (Browser.search Canvas Blob size (total d) canvas t fuel lo hi bestBlob bestQ tried).
Proof.
  induction fuel as [ | fuel IH]; intros lo hi bestBlob bestQ tried.
  - apply agree_ret.
  - cbn [search Browser.search]. destruct (0.02 <? hi - lo)%float; [ | apply agree_ret].
    apply agree_bind; [apply agree_encode | ].
    intros b. cbv zeta. destruct (Browser.fits Blob size t b); apply IH.
Qed.

Lemma agree_fitUnder (d : Blob) (canvas : Canvas) (opts : Browser.Opts) :
  agree canvas (encodeCanvasFitUnder Canvas Blob size toBlob canvas opts)
        (Browser.encodeCanvasFitUnder Canvas Blob size (total d) canvas opts).
Proof.
  unfold encodeCanvasFitUnder, Browser.encodeCanvasFitUnder. cbv zeta.
  assert (One : forall q,
    agree canvas
      (bind (canvasToJpegBlob Canvas Blob toBlob canvas q)
            (fun blob => ret (Browser.mkResult Blob blob q 1 true)))
      (bind (Browser.canvasToJpegBlob Canvas Blob (total d) canvas q)
            (fun blob => ret (Browser.mkResult Blob blob q 1 true)))).
  { intros q. apply agree_bind; [apply agree_encode | intros b; apply agree_ret]. }
  destruct (Browser.targetBytes opts) as [t | ]; [ | apply One].
  destruct (negb (JS.truthy t)); [apply One | ].
  apply agree_bind; [apply agree_encode | ]. intros b.
  destruct (Browser.fits Blob size t b); [apply agree_ret | ].
  apply agree_bind; [apply agree_encode | ]. intros bestBlob.
  destruct (Browser.exceeds Blob size t bestBlob); [apply agree_ret | ].
  apply agree_bind; [apply agree_search | ]. intros [[b' q'] n]. apply agree_ret.
Qed.

(** *** What is logged was encoded *)

Lemma genuine_bind {A B : Type} (canvas : Canvas) (x : M A) (f : A -> M B) :
  Forall (genuine canvas) (snd x) -> (forall a, Forall (genuine canvas) (snd (f a))) ->
  Forall (genuine canvas) (snd (bind x f)).
Proof.
  destruct x as [[a | m | m] l]; cbn [snd bind]; intros Hx Hf; try exact Hx.
  specialize (Hf a). destruct (f a) as [o l']. cbn [snd] in *.
  apply Forall_app. split; assumption.
Qed.

Lemma genuine_encode (canvas : Canvas) (q : float) :
  Forall (genuine canvas) (snd (canvasToJpegBlob Canvas Blob toBlob canvas q)).
Proof.
  unfold canvasToJpegBlob. destruct (toBlob canvas q) as [b | ] eqn:E; cbn [snd].
  - constructor; [exact E | constructor].
  - constructor.
Qed.

Lemma genuine_search (canvas : Canvas) (t : float) (fuel : nat) :
  forall lo hi bestBlob bestQ tried,
    Forall (genuine canvas)
           (snd (search Canvas Blob size toBlob canvas t fuel lo hi bestBlob bestQ tried)).
Proof.
  induction fuel as [ | fuel IH]; intros lo hi bestBlob bestQ tried.
  - constructor.
  - cbn [search]. destruct (0.02 <? hi - lo)%float; [ | constructor].
    apply genuine_bind; [apply genuine_encode | ].
    intros b. cbv zeta. destruct (Browser.fits Blob size t b); apply IH.
Qed.

Lemma genuine_fitUnder (canvas : Canvas) (opts : Browser.Opts) :
  Forall (genuine canvas) (snd (encodeCanvasFitUnder Canvas Blob size toBlob canvas opts)).
Proof.
  unfold encodeCanvasFitUnder. cbv zeta.
  assert (One : forall q,
    Forall (genuine canvas)
      (snd (bind (canvasToJpegBlob Canvas Blob toBlob canvas q)
                 (fun blob => ret (Browser.mkResult Blob blob q 1 true))))).
  { intros q. apply genuine_bind; [apply genuine_encode | intros b; constructor]. }
  destruct (Browser.targetBytes opts) as [t | ]; [ | apply One].
  destruct (negb (JS.truthy t)); [apply One | ].
  apply genuine_bind; [apply genuine_encode | ]. intros b.
  destruct (Browser.fits Blob size t b); [constructor | ].
  apply genuine_bind; [apply genuine_encode | ]. intros bestBlob.
  destruct (Browser.exceeds Blob size t bestBlob); [constructor | ].
  apply genuine_bind; [apply genuine_search | ]. intros [[b' q'] n]. constructor.
Qed.

(** *** One item *)

(** The encodes of one item: no more than twelve, whatever the outcome;
    a result is an encode of the canvas whose [pass], once combined with
    the test of [compressImages], tells whether the blob fits; the only
    exception is that of an encode that gave no blob. *)
Lemma fitUnder_outcome (state : Settings) (canvas : Canvas) :
  let run := encodeCanvasFitUnder Canvas Blob size toBlob canvas (options state) in
  (List.length (snd run) <= 12)%nat /\
  match fst run with
  | Ret r =>
      toBlob canvas (Browser.usedQuality Blob r) = Some (Browser.blob Blob r) /\
      Browser.fits Blob size (targetBytes state) (Browser.blob Blob r) && Browser.pass Blob r
      = Browser.fits Blob size (targetBytes state) (Browser.blob Blob r)
  | Throw message =>
      message = "Failed to export canvas to JPEG."%string /\ exists q, toBlob canvas q = None
  | Die _ => False
  end.
Proof.
  cbv zeta. set (opts := options state).
  pose proof (genuine_fitUnder canvas opts) as G.
  destruct (encodeCanvasFitUnder Canvas Blob size toBlob canvas opts) as [o log] eqn:E.
  cbn [fst snd] in *.
  assert (Short : forall d,
    agree canvas (o, log) (Browser.encodeCanvasFitUnder Canvas Blob size (total d) canvas opts)).
  { intros d. rewrite <- E. apply agree_fitUnder. }
  assert (Bound : forall d : Blob, (List.length log <= 12)%nat).
  { intros d. specialize (Short d).
    destruct (fitUnder_tried Canvas Blob size (total d) canvas opts) as (r & Er & Et & Et12).
    destruct o as [a | m | m]; cbn [agree] in Short.
    - rewrite Short in Et. cbn [snd] in Et. lia.
    - destruct Short.
    - destruct Short as (_ & _ & l' & El). rewrite El, length_app in Et. lia. }
  destruct log as [ | a l].
  - split; [cbn; lia | ]. unfold encodeCanvasFitUnder in E. cbv zeta in E.
    assert (First : forall q (k : Blob -> M (Browser.Result Blob)),
               bind (canvasToJpegBlob Canvas Blob toBlob canvas q) k = (o, []) ->
               o = Throw "Failed to export canvas to JPEG."%string /\
               exists q, toBlob canvas q = None).
    { intros q k. unfold canvasToJpegBlob.
      destruct (toBlob canvas q) as [b | ] eqn:Eq; cbn [bind].
      - destruct (k b) as [o' l']. cbn [app]. intros H. discriminate H.
      - intros H. injection H as <-. split; [reflexivity | exists q; exact Eq]. }
    assert (O : o = Throw "Failed to export canvas to JPEG."%string /\
                exists q, toBlob canvas q = None).
    { destruct (Browser.targetBytes opts) as [t | ]; [ | exact (First _ _ E)].
      destruct (negb (JS.truthy t)); exact (First _ _ E). }
    destruct O as [-> Hq]. split; [reflexivity | exact Hq].
  - set (d := Browser.output Blob a). specialize (Short d). specialize (Bound d).
    split; [exact Bound | ]. set (tb := total d) in *.
    destruct o as [r | m | m]; cbn [agree] in Short.
    + split.
      * pose proof (fitUnder_logged Canvas Blob size tb canvas opts r) as L.
        rewrite Short in L. cbn [fst snd] in L. specialize (L eq_refl).
        unfold Returned.logged_blob in L.
        rewrite Forall_forall in G. apply (G _ L).
      * destruct (JS.truthy (targetBytes state)) eqn:Ht.
        -- rewrite (fitUnder_pass_is_fits Canvas Blob size tb canvas opts (targetBytes state) r).
           ++ apply andb_diag.
           ++ apply target_of_truthy, Ht.
           ++ rewrite Short. reflexivity.
        -- pose proof (fitUnder_one_shot Canvas Blob size tb canvas opts
                         (target_of_falsy _ _ _ Ht)) as E1.
           rewrite Short in E1. injection E1 as -> _. apply andb_true_r.
    + exact Short.
    + destruct Short as (Em & Hq & _). split; assumption.
Qed.

Lemma fitUnder_sound (state : Settings) (canvas : Canvas) :
  (forall q, toBlob canvas q <> None) ->
  exists r, fst (encodeCanvasFitUnder Canvas Blob size toBlob canvas (options state)) = Ret r.
Proof.
  intros H. pose proof (fitUnder_outcome state canvas) as [_ O]. cbv zeta in O.
  destruct (fst _) as [r | m | m].
  - exists r. reflexivity.
  - destruct O.
  - destruct O as (_ & q & Eq). destruct (H q Eq).
Qed.

Lemma compressItem_outcome (state : Settings) (item : Item) :
  match compressItem state item with
  | (item', None, log) => stored state item item' /\ (List.length log <= 12)%nat
  | (item', Some message, log) =>
      kept item item' /\ thrown_by item item' message /\ (List.length log <= 12)%nat
  end.
Proof.
  unfold Images.compressItem. cbv zeta.
  destruct (toCanvas (file File Blob item)) as [canvas | message] eqn:Ec.
  - pose proof (fitUnder_outcome state canvas) as [B O]. cbv zeta in B, O.
    destruct (encodeCanvasFitUnder Canvas Blob size toBlob canvas (options state))
      as [[r | m | m] log]; cbn [fst snd] in *.
    + destruct O as [Eb Ep]. split; [ | exact B].
      unfold Images.stored. cbn [id file origBytes wasPng width height compressed].
      repeat (split; [reflexivity | ]).
      exists canvas. eexists. split; [exact Ec | ].
      repeat (split; [reflexivity | ]).
      cbn [blob usedQuality bytes pass]. split; [exact Eb | ]. split; [reflexivity | exact Ep].
    + destruct O.
    + destruct O as (-> & q & Eq). split; [ | split; [ | exact B]].
      * unfold Images.kept. cbn. repeat split.
      * right. exists canvas, q. cbn [width height]. repeat split; assumption.
  - split; [ | split; [ | cbn; lia]].
    + unfold Images.kept. repeat split.
    + left. split; [exact Ec | reflexivity].
Qed.

Lemma compressItem_sound (state : Settings) (item : Item) :
  sound item -> snd (fst (compressItem state item)) = None.
Proof.
  intros (canvas & Ec & Hq). unfold Images.compressItem. cbv zeta. rewrite Ec.
  destruct (fitUnder_sound state canvas Hq) as (r & Er).
  destruct (encodeCanvasFitUnder Canvas Blob size toBlob canvas (options state)) as [o log].
  cbn [fst] in Er. subst o. reflexivity.
Qed.

Lemma thrown_not_sound (item item' : Item) (message : string) :
  thrown_by item item' message -> ~ sound item.
Proof.
  intros [[Ec _] | (canvas & q & Ec & Eq & _)] (canvas' & Ec' & Hq); rewrite Ec in Ec'.
  - discriminate Ec'.
  - injection Ec' as <-. exact (Hq q Eq).
Qed.

(** *** The loop *)

Lemma compressEach_outcome (state : Settings) (items : list Item) :
  let '(items', thrown, log) := compressEach state items in
  left_as state items items' thrown /\
  (List.length log <= 12 * List.length items)%nat.
Proof.
  induction items as [ | item rest IH].
  - cbn. split; [constructor | lia].
  - cbn [Images.compressEach].
    pose proof (compressItem_outcome state item) as Hi.
    destruct (compressItem state item) as [[item' [message | ]] li].
    + destruct Hi as (K & T & L). split.
      * exists [], [], item, item', rest. repeat split; try assumption; try apply K.
        constructor.
      * cbn [List.length]. lia.
    + destruct Hi as (St & L).
      destruct (compressEach state rest) as [[rest' thrown] lr].
      destruct IH as (IH & Lr). split.
      * destruct thrown as [message | ]; cbn [left_as] in *.
        -- destruct IH as (done & done' & failing & failing' & later & -> & -> & F & K & T).
           exists (item :: done), (item' :: done'), failing, failing', later.
           repeat split; try assumption; try apply K. constructor; assumption.
        -- constructor; assumption.
      * rewrite length_app. cbn [List.length]. lia.
Qed.

Lemma compressEach_sound (state : Settings) (items : list Item) :
  Forall sound items -> snd (fst (compressEach state items)) = None.
Proof.
  induction 1 as [ | item rest Hs _ IH]; [reflexivity | ].
  cbn [Images.compressEach]. pose proof (compressItem_sound state item Hs) as Ei.
  destruct (compressItem state item) as [[item' t] li]. cbn [fst snd] in Ei. subst t.
  destruct (compressEach state rest) as [[rest' thrown] lr]. exact IH.
Qed.

(** What is encoded is the canvas of an item. *)
Lemma compressEach_genuine (state : Settings) (items : list Item) (a : Attempt) :
  In a (snd (compressEach state items)) ->
  exists item canvas,
    In item items /\ toCanvas (file File Blob item) = inl canvas /\ genuine canvas a.
Proof.
  induction items as [ | item rest IH]; [intros [] | ].
  cbn [Images.compressEach].
  assert (Hi : forall x, In x (snd (compressItem state item)) ->
                 exists canvas, toCanvas (file File Blob item) = inl canvas /\ genuine canvas x).
  { unfold Images.compressItem. cbv zeta.
    destruct (toCanvas (file File Blob item)) as [canvas | message]; [ | intros x []].
    pose proof (genuine_fitUnder canvas (options state)) as G.
    rewrite Forall_forall in G. intros x Hx. exists canvas. split; [reflexivity | ].
    apply G.
    destruct (encodeCanvasFitUnder Canvas Blob size toBlob canvas (options state))
      as [[r | m | m] log]; exact Hx. }
  destruct (compressItem state item) as [[item' [message | ]] li]; cbn [snd] in *.
  - intros Ha. destruct (Hi a Ha) as (canvas & Ec & G).
    exists item, canvas. split; [left; reflexivity | split; assumption].
  - destruct (compressEach state rest) as [[rest' thrown] lr]. cbn [snd] in *.
    intros Ha. apply in_app_or in Ha. destruct Ha as [Ha | Ha].
    + destruct (Hi a Ha) as (canvas & Ec & G).
      exists item, canvas. split; [left; reflexivity | split; assumption].
    + destruct (IH Ha) as (it & canvas & Hin & Ec & G).
      exists it, canvas. split; [right; exact Hin | split; assumption].
Qed.

End Facts.

End ImagesFacts.


(** * The probes of the binary search lie between its bounds *)

Module MidpointFacts.

Import Binary64 Binary64Facts Binary64More Ticks PercentFacts.

(** A multiple of [2^k] with a mantissa of 53 bits that reaches
    [2^(52 + n)] is a multiple of [2^n], once doubled. *)
Lemma doubled_multiple (m k n : Z) :
  2 ^ 52 <= m < 2 ^ 53 -> 0 <= k -> 1 <= n ->
  2 ^ (52 + n) <= 2 * (m * 2 ^ k) ->
  exists c, 2 * (m * 2 ^ k) = c * 2 ^ n.
Proof.
  intros Hm Hk Hn H.
  assert (Hkn : n <= k + 1).
  { destruct (Z_lt_le_dec (k + 1) n) as [L | L]; [ | exact L]. exfalso.
    assert (2 ^ (k + 1) <= 2 ^ (n - 1)) by (apply Z.pow_le_mono_r; lia).
    assert (E1 : 2 ^ (k + 1) = 2 * 2 ^ k) by (rewrite Z.pow_add_r by lia; lia).
    assert (E2 : 2 ^ (52 + n) = 2 ^ 53 * 2 ^ (n - 1)).
    { rewrite <- Z.pow_add_r by lia. f_equal. lia. }
    assert (0 < 2 ^ (n - 1)) by (apply Z.pow_pos_nonneg; lia).
    nia. }
  exists (m * 2 ^ (k + 1 - n)).
  replace (2 * (m * 2 ^ k)) with (m * 2 ^ (k + 1)) by (rewrite Z.pow_add_r by lia; lia).
  rewrite <- Z.mul_assoc, <- Z.pow_add_r by lia. do 2 f_equal. lia.
Qed.

(** The midpoint, on integers: [s = a + b] is rounded to a multiple [v * 2^n]
    of [2^n], and [v * 2^(n - 1)] lies between [a] and [b]. *)
Lemma mid_int (m1 k1 m2 k2 n v : Z) :
  2 ^ 52 <= m1 < 2 ^ 53 -> 0 <= k1 -> 2 ^ 52 <= m2 < 2 ^ 53 -> 0 <= k2 -> 1 <= n ->
  let a := m1 * 2 ^ k1 in
  let b := m2 * 2 ^ k2 in
  let s := a + b in
  a <= b ->
  2 ^ (52 + n) <= s ->
  (v = s / 2 ^ n \/ v = s / 2 ^ n + 1) ->
  (s mod 2 ^ n = 0 -> v = s / 2 ^ n) ->
  a <= v * 2 ^ (n - 1) <= b.
Proof.
  intros Hm1 Hk1 Hm2 Hk2 Hn a b s Hab Hs Hv Hex.
  assert (P : 0 < 2 ^ n) by (apply Z.pow_pos_nonneg; lia).
  assert (EP : 2 ^ n = 2 * 2 ^ (n - 1)).
  { replace n with (Z.succ (n - 1)) at 1 by lia. apply Z.pow_succ_r. lia. }
  pose proof (Z.mul_div_le s (2 ^ n) P) as Q1.
  pose proof (Z.mul_succ_div_gt s (2 ^ n) P) as Q2.
  pose proof (Z.div_mod s (2 ^ n) ltac:(lia)) as DM.
  pose proof (Z.mod_pos_bound s (2 ^ n) P) as MB.
  set (q := s / 2 ^ n) in *. set (r := s mod 2 ^ n) in *.
  assert (E52 : 2 ^ (52 + n) = 2 ^ 52 * 2 ^ n) by (apply Z.pow_add_r; lia).
  split.
  - (* a <= v * 2^(n-1), that is 2a <= v * 2^n *)
    assert (2 * a <= v * 2 ^ n); [ | lia].
    assert (Hq : q * 2 ^ n <= v * 2 ^ n) by (destruct Hv as [-> | ->]; nia).
    destruct (Z_lt_le_dec (2 * a) (2 ^ (52 + n))) as [L | L].
    + assert (2 ^ 52 <= q) by (apply Z.div_le_lower_bound; lia). nia.
    + destruct (doubled_multiple m1 k1 n Hm1 Hk1 Hn L) as [c Hc]. fold a in Hc.
      assert (c <= q) by (apply Z.div_le_lower_bound; lia). nia.
  - assert (v * 2 ^ n <= 2 * b); [ | lia].
    assert (L : 2 ^ (52 + n) <= 2 * b) by lia.
    destruct (doubled_multiple m2 k2 n Hm2 Hk2 Hn L) as [c Hc]. fold b in Hc.
    destruct (Z.eq_dec r 0) as [Hr | Hr].
    + rewrite (Hex Hr). lia.
    + assert (q < c) by nia.
      destruct Hv as [-> | ->]; nia.
Qed.

(** Rounding a sum of more than 53 bits. *)
Lemma round_sum_near (s : positive) (ez : Z) (n : positive) :
  Zpos (digits2_pos s) = 53 + Zpos n -> -1074 <= ez -> ez + Zpos n + 1 <= 971 ->
  exists m e' v,
    binary_round prec emax false s ez = S754_finite false m e' /\
    (v = Zpos s / 2 ^ Zpos n \/ v = Zpos s / 2 ^ Zpos n + 1) /\
    (Zpos s mod 2 ^ Zpos n = 0 -> v = Zpos s / 2 ^ Zpos n) /\
    ((e' = ez + Zpos n /\ Zpos m = v) \/
     (e' = ez + Zpos n + 1 /\ Zpos m = 2 ^ 52 /\ v = 2 ^ 53)).
Proof.
  intros Hd He Hmax.
  destruct (round_near false s ez n Hd He Hmax) as (m & e' & v & Hr & _ & Hv & Hex & Hc).
  exists m, e', v. split; [ | split; [exact Hv | split; [exact Hex | exact Hc]]].
  unfold binary_round. rewrite Hd.
  replace (fexp prec emax (53 + Zpos n + ez)) with (ez + Zpos n)
    by (unfold fexp, SpecFloat.emin, prec, emax; lia).
  unfold shl_align. replace (ez + Zpos n - ez) with (Zpos n) by lia.
  exact Hr.
Qed.

Lemma ticks_aligned (m : positive) (e ez : Z) :
  -56 <= ez <= e -> ticks m e = Zpos m * 2 ^ (e - ez) * 2 ^ (ez + 56).
Proof.
  intros H. unfold ticks. rewrite <- Z.mul_assoc, <- Z.pow_add_r by lia.
  do 2 f_equal. lia.
Qed.

(** A fidelity is between 0.1 and 1.0, in ticks. *)
Lemma ticks_bounds (m : positive) (e : Z) :
  between (-56) m e -> Zpos M01 <= ticks m e <= 2 ^ 56.
Proof.
  intros (D & R & L & U).
  pose proof (digits2_bounds m) as B. rewrite D in B. change (53 - 1) with 52 in B.
  unfold ticks.
  assert (C : e = -56 \/ e = -55 \/ e = -54 \/ e = -53 \/ e = -52) by lia.
  destruct C as [-> | [-> | [-> | [-> | ->]]]]; cbn [Z.add Z.pos_sub Pos.pred_double].
  - specialize (L eq_refl). change (2 ^ 0) with 1. unfold M01 in *. lia.
  - change (2 ^ 1) with 2. unfold M01. lia.
  - change (2 ^ 2) with 4. unfold M01. lia.
  - change (2 ^ 3) with 8. unfold M01. lia.
  - specialize (U eq_refl). unfold P52 in U. rewrite U. unfold M01. lia.
Qed.

(** The sum of two fidelities, halved: a Number whose value lies between
    them. *)
Lemma sum_ticks (m1 m2 : positive) (e1 e2 : Z) :
  between (-56) m1 e1 -> between (-56) m2 e2 ->
  ticks m1 e1 <= ticks m2 e2 ->
  exists m e,
    SFadd prec emax (S754_finite false m1 e1) (S754_finite false m2 e2)
    = S754_finite false m e /\
    between (-55) m e /\
    ticks m1 e1 <= ticks m (e - 1) <= ticks m2 e2 /\
    ticks m1 e1 + ticks m2 e2 - 32 <= 2 * ticks m (e - 1) <= ticks m1 e1 + ticks m2 e2 + 32.
Proof.
  intros B1 B2 Hle.
  destruct (add_between m1 m2 e1 e2 B1 B2) as (m0 & e0 & Ea & Ba).
  exists m0, e0. split; [exact Ea | ]. split; [exact Ba | ].
  pose proof (ticks_bounds m1 e1 B1) as [_ T1].
  pose proof (ticks_bounds m2 e2 B2) as [_ T2].
  destruct B1 as (D1 & R1 & _ & _). destruct B2 as (D2 & R2 & _ & _).
  pose proof (digits2_bounds m1) as Bm1. rewrite D1 in Bm1. change (53 - 1) with 52 in Bm1.
  pose proof (digits2_bounds m2) as Bm2. rewrite D2 in Bm2. change (53 - 1) with 52 in Bm2.
  unfold SFadd in Ea. cbn [cond_Zopp] in Ea. cbn [Z.add] in Ea.
  set (ez := Z.min e1 e2) in *.
  assert (Hez : -56 <= ez /\ ez <= e1 /\ ez <= e2 /\ ez <= -52) by (unfold ez; lia).
  set (a := fst (shl_align m1 e1 ez)) in *.
  set (b := fst (shl_align m2 e2 ez)) in *.
  assert (Ha : Zpos a = Zpos m1 * 2 ^ (e1 - ez)) by (apply shl_align_value; lia).
  assert (Hb : Zpos b = Zpos m2 * 2 ^ (e2 - ez)) by (apply shl_align_value; lia).
  assert (HS : Zpos (a + b) = Zpos a + Zpos b) by reflexivity.
  set (s := (a + b)%positive) in *. clearbody s a b. cbn [binary_normalize] in Ea.
  rewrite (ticks_aligned m1 e1 ez) in * by lia.
  rewrite (ticks_aligned m2 e2 ez) in * by lia.
  rewrite <- Ha, <- Hb in *.
  assert (X : 0 < 2 ^ (ez + 56)) by (apply Z.pow_pos_nonneg; lia).
  assert (Hab : Zpos a <= Zpos b) by nia.
  assert (P1 : 1 <= 2 ^ (e1 - ez)) by (apply (Z.pow_le_mono_r 2 0); lia).
  assert (P2 : 1 <= 2 ^ (e2 - ez)) by (apply (Z.pow_le_mono_r 2 0); lia).
  assert (S53 : 2 ^ 53 <= Zpos s) by (change (2 ^ 53) with (2 ^ 52 + 2 ^ 52); nia).
  pose proof (digits2_gt s 53 S53) as Dlo.
  assert (Shi : Zpos s < 2 ^ 58).
  { assert (2 ^ (e1 - ez) <= 2 ^ 4) by (apply Z.pow_le_mono_r; lia).
    assert (2 ^ (e2 - ez) <= 2 ^ 4) by (apply Z.pow_le_mono_r; lia).
    change (2 ^ 58) with (2 ^ 53 * 2 ^ 4 + 2 ^ 53 * 2 ^ 4). nia. }
  pose proof (digits2_le s 58 ltac:(lia) Shi) as Dhi.
  assert (Hn : exists n : positive, Zpos (digits2_pos s) = 53 + Zpos n).
  { exists (Z.to_pos (Zpos (digits2_pos s) - 53)). rewrite Z2Pos.id; lia. }
  destruct Hn as [n Hd].
  destruct (round_sum_near s ez n Hd ltac:(lia) ltac:(lia)) as (m & e' & v & Hr & Hv & Hex & Hc).
  rewrite Hr in Ea. injection Ea as <- <-.
  pose proof (digits2_bounds s) as [Slo _]. rewrite Hd in Slo.
  replace (53 + Zpos n - 1) with (52 + Zpos n) in Slo by lia.
  rewrite HS in *. rewrite Ha, Hb in Hab, Slo, Hv, Hex.
  pose proof (mid_int (Zpos m1) (e1 - ez) (Zpos m2) (e2 - ez) (Zpos n) v
                Bm1 ltac:(lia) Bm2 ltac:(lia) ltac:(lia) Hab Slo Hv Hex) as Hmid.
  rewrite <- Ha, <- Hb in Hmid.
  assert (Et : ticks m (e' - 1) = v * 2 ^ (Zpos n - 1) * 2 ^ (ez + 56)).
  { unfold ticks. destruct Hc as [[-> ->] | (-> & -> & ->)].
    - rewrite <- Z.mul_assoc, <- Z.pow_add_r by lia. do 2 f_equal. lia.
    - change (2 ^ 53) with (2 ^ 52 * 2 ^ 1).
      rewrite <- !Z.mul_assoc, <- !Z.pow_add_r by lia. do 2 f_equal. lia. }
  rewrite Et. split; [nia | ].
  set (N := 2 ^ Zpos n) in *.
  assert (HN : 0 < N) by (apply Z.pow_pos_nonneg; lia).
  assert (E2 : 2 * 2 ^ (Zpos n - 1) = N).
  { unfold N. replace (Zpos n) with (1 + (Zpos n - 1)) at 2 by lia.
    rewrite Z.pow_add_r by lia. reflexivity. }
  assert (E52 : 2 ^ (52 + Zpos n) = 2 ^ 52 * N) by (unfold N; apply Z.pow_add_r; lia).
  rewrite E52 in Slo.
  set (SS := Zpos m1 * 2 ^ (e1 - ez) + Zpos m2 * 2 ^ (e2 - ez)) in *.
  pose proof (Z.mul_div_le SS N HN) as Q1.
  pose proof (Z.mul_succ_div_gt SS N HN) as Q2.
  set (q := SS / N) in *.
  assert (HS' : Zpos a + Zpos b = SS) by (unfold SS; lia).
  assert (HV : SS - N < v * N <= SS + N) by (destruct Hv as [-> | ->]; lia).
  assert (SX : SS * 2 ^ (ez + 56) <= 2 ^ 57).
  { rewrite <- HS'. change (2 ^ 57) with (2 ^ 56 + 2 ^ 56). lia. }
  assert (NX : N * 2 ^ (ez + 56) <= 32).
  { assert (2 ^ 52 * (N * 2 ^ (ez + 56)) <= 2 ^ 52 * 32); [ | lia].
    change (2 ^ 52 * 32) with (2 ^ 57).
    apply Z.le_trans with (SS * 2 ^ (ez + 56)); [ | exact SX].
    rewrite Z.mul_assoc. apply Z.mul_le_mono_nonneg_r; lia. }
  replace (2 * (v * 2 ^ (Zpos n - 1) * 2 ^ (ez + 56)))
    with (v * N * 2 ^ (ez + 56)) by (rewrite <- E2; ring).
  replace (Zpos a * 2 ^ (ez + 56) + Zpos b * 2 ^ (ez + 56)) with (SS * 2 ^ (ez + 56))
    by (rewrite <- HS'; ring).
  set (XX := 2 ^ (ez + 56)) in *.
  assert (L1 : (SS - N) * XX <= v * N * XX) by (apply Z.mul_le_mono_nonneg_r; lia).
  assert (L2 : v * N * XX <= (SS + N) * XX) by (apply Z.mul_le_mono_nonneg_r; lia).
  lia.
Qed.

(** On Numbers with mantissas of 53 bits, the comparison is that of the
    values. *)
Lemma compare_ticks (m1 m2 : positive) (e1 e2 : Z) :
  Zpos (digits2_pos m1) = 53 -> Zpos (digits2_pos m2) = 53 -> -56 <= e1 -> -56 <= e2 ->
  SFcompare (S754_finite false m1 e1) (S754_finite false m2 e2)
  = Some (ticks m1 e1 ?= ticks m2 e2).
Proof.
  intros D1 D2 H1 H2. cbn [SFcompare]. f_equal.
  pose proof (digits2_bounds m1) as B1. rewrite D1 in B1. change (53 - 1) with 52 in B1.
  pose proof (digits2_bounds m2) as B2. rewrite D2 in B2. change (53 - 1) with 52 in B2.
  unfold ticks.
  assert (X1 : 0 < 2 ^ (e1 + 56)) by (apply Z.pow_pos_nonneg; lia).
  assert (X2 : 0 < 2 ^ (e2 + 56)) by (apply Z.pow_pos_nonneg; lia).
  destruct (Z.compare_spec e1 e2) as [-> | L | G].
  - match goal with |- context [?f Eq m1 m2] =>
      change (f Eq m1 m2) with (Zpos m1 ?= Zpos m2) end.
    symmetry.
    destruct (Z.compare_spec (Zpos m1) (Zpos m2));
      [apply Z.compare_eq_iff | apply Z.compare_lt_iff | apply Z.compare_gt_iff]; nia.
  - symmetry. apply Z.compare_lt_iff.
    assert (E : 2 ^ (e2 + 56) = 2 ^ (e2 - e1) * 2 ^ (e1 + 56)).
    { rewrite <- Z.pow_add_r by lia. f_equal. lia. }
    assert (2 ^ 1 <= 2 ^ (e2 - e1)) by (apply Z.pow_le_mono_r; lia).
    change (2 ^ 1) with 2 in *. change (2 ^ 53) with (2 * 2 ^ 52) in *. nia.
  - symmetry. apply Z.compare_gt_iff.
    assert (E : 2 ^ (e1 + 56) = 2 ^ (e1 - e2) * 2 ^ (e2 + 56)).
    { rewrite <- Z.pow_add_r by lia. f_equal. lia. }
    assert (2 ^ 1 <= 2 ^ (e1 - e2)) by (apply Z.pow_le_mono_r; lia).
    change (2 ^ 1) with 2 in *. change (2 ^ 53) with (2 * 2 ^ 52) in *. nia.
Qed.

Lemma between_compare (m1 m2 : positive) (e1 e2 : Z) :
  between (-56) m1 e1 -> between (-56) m2 e2 ->
  SFcompare (S754_finite false m1 e1) (S754_finite false m2 e2)
  = Some (ticks m1 e1 ?= ticks m2 e2).
Proof. intros (D1 & R1 & _) (D2 & R2 & _). apply compare_ticks; lia. Qed.

(** Whatever is rounded, the result has the sign asked for, or is NaN. *)
Lemma round_sign (sx : bool) (p : positive) (e : Z) :
  match binary_round prec emax sx p e with
  | S754_finite s _ _ | S754_infinity s | S754_zero s => s = sx
  | S754_nan => True
  end.
Proof.
  unfold binary_round. destruct (shl_align _ _ _) as [mz ez].
  unfold binary_round_aux. destruct (shr_fexp _ _ _ _ _) as [mrs e'].
  destruct (shr_fexp _ _ _ _ _) as [mrs' e''].
  destruct (shr_m mrs'); [reflexivity | | exact I].
  destruct (_ <=? _); reflexivity.
Qed.

(** A difference that is above a positive Number is that of a smaller
    Number from a larger one. *)
Lemma sub_positive (c lo hi : float) (mc m1 m2 : positive) (ec e1 e2 : Z) :
  Prim2SF c = S754_finite false mc ec ->
  Prim2SF lo = S754_finite false m1 e1 -> Prim2SF hi = S754_finite false m2 e2 ->
  -56 <= e1 -> -56 <= e2 ->
  (c <? hi - lo)%float = true -> ticks m1 e1 < ticks m2 e2.
Proof.
  intros Ec E1 E2 H1 H2. rewrite ltb_spec, sub_spec, Ec, E1, E2.
  unfold SF64sub, SFsub. cbn [cond_Zopp].
  set (ez := Z.min e2 e1).
  assert (Hez : -56 <= ez /\ ez <= e1 /\ ez <= e2) by (unfold ez; lia).
  rewrite (ticks_aligned m1 e1 ez), (ticks_aligned m2 e2 ez) by lia.
  rewrite <- (shl_align_value m1 e1 ez), <- (shl_align_value m2 e2 ez) by lia.
  set (a := fst (shl_align m1 e1 ez)). set (b := fst (shl_align m2 e2 ez)).
  assert (X : 0 < 2 ^ (ez + 56)) by (apply Z.pow_pos_nonneg; lia).
  destruct (Zpos b - Zpos a) as [ | p | p] eqn:Ed.
  - cbn [binary_normalize]. unfold SFltb. cbn [SFcompare]. discriminate.
  - intros _. nia.
  - cbn [binary_normalize]. pose proof (round_sign true p ez) as Hs.
    unfold SFltb. destruct (binary_round prec emax true p ez) as [s | s | | s m e];
      try subst s; cbn [SFcompare]; discriminate.
Qed.

(** ** On fidelities *)

Lemma fidelity_compare (x y : float) :
  JS.valid_fidelity x = true -> JS.valid_fidelity y = true ->
  exists m1 e1 m2 e2,
    Prim2SF x = S754_finite false m1 e1 /\ between (-56) m1 e1 /\
    Prim2SF y = S754_finite false m2 e2 /\ between (-56) m2 e2 /\
    (x <=? y)%float = (ticks m1 e1 <=? ticks m2 e2) /\
    (x <? y)%float = (ticks m1 e1 <? ticks m2 e2).
Proof.
  intros Vx Vy.
  destruct (valid_fidelity_between x Vx) as (m1 & e1 & E1 & B1).
  destruct (valid_fidelity_between y Vy) as (m2 & e2 & E2 & B2).
  exists m1, e1, m2, e2.
  split; [exact E1 | ]. split; [exact B1 | ]. split; [exact E2 | ]. split; [exact B2 | ].
  split.
  - rewrite leb_spec, E1, E2. unfold SFleb. rewrite (between_compare _ _ _ _ B1 B2).
    unfold Z.leb. destruct (_ ?= _); reflexivity.
  - rewrite ltb_spec, E1, E2. unfold SFltb. rewrite (between_compare _ _ _ _ B1 B2).
    unfold Z.ltb. destruct (_ ?= _); reflexivity.
Qed.

Lemma fidelity_leb_trans (x y z : float) :
  JS.valid_fidelity x = true -> JS.valid_fidelity y = true -> JS.valid_fidelity z = true ->
  (x <=? y)%float = true -> (y <=? z)%float = true -> (x <=? z)%float = true.
Proof.
  intros Vx Vy Vz.
  destruct (fidelity_compare x y Vx Vy) as (m1 & e1 & m2 & e2 & E1 & _ & E2 & _ & -> & _).
  destruct (fidelity_compare y z Vy Vz) as (m2' & e2' & m3 & e3 & E2' & _ & E3 & _ & -> & _).
  destruct (fidelity_compare x z Vx Vz) as (m1' & e1' & m3' & e3' & E1' & _ & E3' & _ & -> & _).
  rewrite E1 in E1'. injection E1' as <- <-. rewrite E2 in E2'. injection E2' as <- <-.
  rewrite E3 in E3'. injection E3' as <- <-.
  rewrite !Z.leb_le. lia.
Qed.

(** The midpoint of two fidelities lies between them. *)
Lemma midpoint_inside (lo hi : float) :
  JS.valid_fidelity lo = true -> JS.valid_fidelity hi = true ->
  (lo <=? hi)%float = true ->
  inside lo hi ((lo + hi) / 2)%float = true.
Proof.
  intros Vlo Vhi Hle.
  pose proof (midpoint_valid lo hi Vlo Vhi) as Vmid.
  destruct (fidelity_compare lo hi Vlo Vhi)
    as (m1 & e1 & m2 & e2 & E1 & B1 & E2 & B2 & Ele & _).
  rewrite Ele in Hle. apply Z.leb_le in Hle.
  destruct (sum_ticks m1 m2 e1 e2 B1 B2 Hle) as (m & e & Ea & Ba & Hm & _).
  assert (Emid : Prim2SF ((lo + hi) / 2)%float = S754_finite false m (e - 1)).
  { rewrite div_spec, add_spec, E1, E2, Prim2SF_two. unfold SF64div, SF64add.
    rewrite Ea. apply halve_between. exact Ba. }
  unfold inside. apply andb_true_iff. split.
  - destruct (fidelity_compare lo _ Vlo Vmid) as (a & b & c & d & Ea' & _ & Ec & _ & -> & _).
    rewrite E1 in Ea'. injection Ea' as <- <-. rewrite Emid in Ec. injection Ec as <- <-.
    apply Z.leb_le. lia.
  - destruct (fidelity_compare _ hi Vmid Vhi) as (a & b & c & d & Ea' & _ & Ec & _ & -> & _).
    rewrite E2 in Ec. injection Ec as <- <-. rewrite Emid in Ea'. injection Ea' as <- <-.
    apply Z.leb_le. lia.
Qed.

(** The loop goes on only when [lo] is below [hi]. *)
Lemma gap_ordered (c lo hi : float) :
  (exists mc ec, Prim2SF c = S754_finite false mc ec) ->
  JS.valid_fidelity lo = true -> JS.valid_fidelity hi = true ->
  (c <? hi - lo)%float = true -> (lo <=? hi)%float = true.
Proof.
  intros (mc & ec & Ec) Vlo Vhi H.
  destruct (fidelity_compare lo hi Vlo Vhi)
    as (m1 & e1 & m2 & e2 & E1 & B1 & E2 & B2 & -> & _).
  destruct B1 as (_ & R1 & _). destruct B2 as (_ & R2 & _).
  pose proof (sub_positive c lo hi mc m1 m2 ec e1 e2 Ec E1 E2 ltac:(lia) ltac:(lia) H).
  apply Z.leb_le. lia.
Qed.

Lemma inside_refl_lo (lo hi : float) : (lo <=? hi)%float = true -> inside lo hi lo = true.
Proof.
  intros H. unfold inside. rewrite H. destruct (leb_not_nan _ _ H) as [Hl _].
  rewrite (ClampFacts.leb_refl lo Hl). reflexivity.
Qed.

Lemma inside_refl_hi (lo hi : float) : (lo <=? hi)%float = true -> inside lo hi hi = true.
Proof.
  intros H. unfold inside. rewrite H. destruct (leb_not_nan _ _ H) as [_ Hh].
  rewrite (ClampFacts.leb_refl hi Hh). reflexivity.
Qed.

(** A probe between [lo] and [hi], themselves between [q0] and [q1]. *)
Lemma probe_inside (c q0 q1 lo hi : float) :
  (exists mc ec, Prim2SF c = S754_finite false mc ec) ->
  JS.valid_fidelity q0 = true -> JS.valid_fidelity q1 = true ->
  JS.valid_fidelity lo = true -> JS.valid_fidelity hi = true ->
  inside q0 q1 lo = true -> inside q0 q1 hi = true ->
  (c <? hi - lo)%float = true ->
  inside q0 q1 ((lo + hi) / 2)%float = true.
Proof.
  intros Hc V0 V1 Vlo Vhi Ilo Ihi H.
  pose proof (gap_ordered c lo hi Hc Vlo Vhi H) as Hle.
  pose proof (midpoint_inside lo hi Vlo Vhi Hle) as Im.
  pose proof (midpoint_valid lo hi Vlo Vhi) as Vm.
  unfold inside in *. apply andb_true_iff in Ilo, Ihi, Im.
  destruct Ilo as [L0 _], Ihi as [_ H1], Im as [Lm Hm].
  apply andb_true_iff. split.
  - apply (fidelity_leb_trans q0 lo _ V0 Vlo Vm L0 Lm).
  - apply (fidelity_leb_trans _ hi q1 Vm Vhi V1 Hm H1).
Qed.

Lemma threshold_cli : exists mc ec, Prim2SF 0.015 = S754_finite false mc ec.
Proof. eexists _, _. vm_compute. reflexivity. Qed.

Lemma threshold_browser : exists mc ec, Prim2SF 0.02 = S754_finite false mc ec.
Proof. eexists _, _. vm_compute. reflexivity. Qed.

End MidpointFacts.


Module ProbeFacts.

Import Binary64Facts Ticks MidpointFacts CliFacts CliResults BrowserFacts BrowserResults BlobFacts.

Section Cli.

Variable Buf : Type.
Variable length : Buf -> Z.
Variable encode : string -> Cli.Args.t -> float -> option Cli.Variant -> Buf.
Variable inputPath : string.
Variable args : Cli.Args.t.
Variable target : float.

Local Abbreviation search := (Cli.search Buf length encode inputPath args target).

Lemma search_inside (q0 q1 : float) (v : Cli.Variant) (fuel : nat) :
  JS.valid_fidelity q0 = true -> JS.valid_fidelity q1 = true ->
  forall lo hi best bestQ,
    JS.valid_fidelity lo = true -> JS.valid_fidelity hi = true ->
    inside q0 q1 lo = true -> inside q0 q1 hi = true ->
    forall a, In a (snd (search v fuel lo hi best bestQ)) ->
      inside q0 q1 (Cli.fidelity Buf a) = true.
Proof.
  intros V0 V1. induction fuel as [ | fuel IH]; intros lo hi best bestQ Vlo Vhi Ilo Ihi a.
  - intros [].
  - rewrite search_S. destruct (0.015 <? hi - lo)%float eqn:G; [ | intros []].
    pose proof (probe_inside 0.015 q0 q1 lo hi threshold_cli V0 V1 Vlo Vhi Ilo Ihi G) as Im.
    pose proof (midpoint_valid lo hi Vlo Vhi) as Vm.
    cbv zeta. cbn [snd]. intros [<- | H]; [exact Im | ].
    destruct (Cli.fits _ _ _ _); (eapply IH; [ | | | | exact H]; assumption).
Qed.

(** Every probe of a search lies between the bounds it starts from. *)
Lemma search_probes (v : Cli.Variant) (fuel : nat) (lo hi : float) (best : Buf) (bestQ : float) :
  JS.valid_fidelity lo = true -> JS.valid_fidelity hi = true ->
  forall a, In a (snd (search v fuel lo hi best bestQ)) ->
    inside lo hi (Cli.fidelity Buf a) = true.
Proof.
  intros Vlo Vhi a Ha.
  assert (Hle : (lo <=? hi)%float = true).
  { destruct fuel as [ | fuel]; [destruct Ha | ].
    rewrite search_S in Ha. destruct (0.015 <? hi - lo)%float eqn:G; [ | destruct Ha].
    apply (gap_ordered 0.015 lo hi threshold_cli Vlo Vhi G). }
  apply (search_inside lo hi v fuel Vlo Vhi lo hi best bestQ Vlo Vhi
           (inside_refl_lo lo hi Hle) (inside_refl_hi lo hi Hle) a Ha).
Qed.

Lemma forVariants_fidelities (baseQ minQ : float) (vs : list Cli.Variant) :
  JS.valid_fidelity baseQ = true -> JS.valid_fidelity minQ = true ->
  forall bestFit bestClarity a,
    In a (snd (Cli.forVariants Buf length encode inputPath args target baseQ minQ
                 vs bestFit bestClarity)) ->
    Cli.fidelity Buf a = baseQ \/ Cli.fidelity Buf a = minQ \/
    inside minQ baseQ (Cli.fidelity Buf a) = true.
Proof.
  intros Vb Vm. induction vs as [ | v rest IH]; intros bestFit bestClarity a.
  - cbn [Cli.forVariants]. destruct bestClarity; intros [].
  - rewrite forVariants_cons. cbv zeta.
    destruct (Cli.fits Buf length target (encode inputPath args baseQ (Some v))).
    + cbn [snd]. intros [<- | []]. left. reflexivity.
    + destruct (Cli.exceeds Buf length target (encode inputPath args minQ (Some v))).
      * cbn [snd]. intros [<- | [<- | H]];
          [left; reflexivity | right; left; reflexivity | apply (IH _ _ _ H)].
      * pose proof (search_probes v 10 minQ baseQ (encode inputPath args minQ (Some v)) minQ
                      Vm Vb) as Hs.
        destruct (search v 10 minQ baseQ (encode inputPath args minQ (Some v)) minQ)
          as [[sr | msg | msg] ls]; cbn [snd] in *;
          (intros [<- | [<- | H]]; [left; reflexivity | right; left; reflexivity | ]).
        -- apply in_app_or in H. destruct H as [H | H]; [ | apply (IH _ _ _ H)].
           right. right. apply (Hs a H).
        -- right. right. apply (Hs a H).
        -- right. right. apply (Hs a H).
Qed.

End Cli.

Section Browser.

Variable Canvas : Type.
Variable Blob : Type.
Variable size : Blob -> Z.
Variable toBlob : Canvas -> float -> Blob.
Variable canvas : Canvas.

Local Abbreviation search := (Browser.search Canvas Blob size toBlob canvas).

Lemma blob_search_inside (t q0 q1 : float) (fuel : nat) :
  JS.valid_fidelity q0 = true -> JS.valid_fidelity q1 = true ->
  forall lo hi bestBlob bestQ tried,
    JS.valid_fidelity lo = true -> JS.valid_fidelity hi = true ->
    inside q0 q1 lo = true -> inside q0 q1 hi = true ->
    forall a, In a (snd (search t fuel lo hi bestBlob bestQ tried)) ->
      inside q0 q1 (Browser.fidelity Blob a) = true.
Proof.
  intros V0 V1. induction fuel as [ | fuel IH]; intros lo hi bestBlob bestQ tried Vlo Vhi Ilo Ihi a.
  - intros [].
  - rewrite blob_search_S. destruct (0.02 <? hi - lo)%float eqn:G; [ | intros []].
    pose proof (probe_inside 0.02 q0 q1 lo hi threshold_browser V0 V1 Vlo Vhi Ilo Ihi G) as Im.
    pose proof (midpoint_valid lo hi Vlo Vhi) as Vm.
    cbv zeta. cbn [snd]. intros [<- | H]; [exact Im | ].
    destruct (Browser.fits _ _ _ _); (eapply IH; [ | | | | exact H]; assumption).
Qed.

Lemma blob_search_probes (t : float) (fuel : nat) (lo hi : float) (bestBlob : Blob)
      (bestQ : float) (tried : Z) :
  JS.valid_fidelity lo = true -> JS.valid_fidelity hi = true ->
  forall a, In a (snd (search t fuel lo hi bestBlob bestQ tried)) ->
    inside lo hi (Browser.fidelity Blob a) = true.
Proof.
  intros Vlo Vhi a Ha.
  assert (Hle : (lo <=? hi)%float = true).
  { destruct fuel as [ | fuel]; [destruct Ha | ].
    rewrite blob_search_S in Ha. destruct (0.02 <? hi - lo)%float eqn:G; [ | destruct Ha].
    apply (gap_ordered 0.02 lo hi threshold_browser Vlo Vhi G). }
  apply (blob_search_inside t lo hi fuel Vlo Vhi lo hi bestBlob bestQ tried Vlo Vhi
           (inside_refl_lo lo hi Hle) (inside_refl_hi lo hi Hle) a Ha).
Qed.

(** The fidelities of the encodes of [encodeCanvasFitUnder], and that of
    its result: the base, the minimum, or a probe between the two. *)
Lemma fitUnder_fidelities (opts : Browser.Opts) :
  JS.valid_fidelity (Browser.base_of opts) = true ->
  JS.valid_fidelity (Browser.min_of opts) = true ->
  let run := Browser.encodeCanvasFitUnder Canvas Blob size toBlob canvas opts in
  let among q :=
    q = Browser.base_of opts \/ q = Browser.min_of opts \/
    inside (Browser.min_of opts) (Browser.base_of opts) q = true in
  (forall a, In a (snd run) -> among (Browser.fidelity Blob a)) /\
  (forall r, fst run = Ret r -> among (Browser.usedQuality Blob r)).
Proof.
  intros Vb Vm. cbv zeta.
  destruct (Browser.target_of opts) as [t | ] eqn:Ht.
  - destruct (fitUnder_shapes Canvas Blob size toBlob canvas opts t Ht)
      as [(_ & ->) | [(_ & _ & ->) | (_ & _ & b & q & l & Es & _ & _ & _ & ->)]];
      cbn [fst snd].
    + split; [intros a [<- | []]; left; reflexivity | ].
      intros r E. injection E as <-. left. reflexivity.
    + split; [intros a [<- | [<- | []]]; [left | right; left]; reflexivity | ].
      intros r E. injection E as <-. right. left. reflexivity.
    + pose proof (blob_search_probes t 10 _ _ (toBlob canvas (Browser.min_of opts))
                    (Browser.min_of opts) 2 Vm Vb) as Hp.
      rewrite Es in Hp. cbn [snd] in Hp. split.
      * intros a [<- | [<- | H]]; [left; reflexivity | right; left; reflexivity | ].
        right. right. apply (Hp a H).
      * intros r E. injection E as <-. cbn [Browser.usedQuality].
        destruct (blob_search_logged Canvas Blob size toBlob canvas _ _ _ _ _ _ _ _ _ _ _ Es)
          as [[_ ->] | H]; [right; left; reflexivity | ].
        right. right. apply (Hp _ H).
  - rewrite (fitUnder_one_shot Canvas Blob size toBlob canvas opts Ht). cbn [fst snd].
    split; [intros a [<- | []]; left; reflexivity | ].
    intros r E. injection E as <-. left. reflexivity.
Qed.

End Browser.

End ProbeFacts.


(** * Facts on the calls of the browser's encoder, and on the examples *)

Module BlobCalls.

Import Browser Binary64Facts BrowserFacts BrowserResults BlobFacts.

Section Facts.

Variable Canvas : Type.
Variable Blob : Type.
Variable size : Blob -> Z.
Variable toBlob : Canvas -> float -> Blob.
Variable canvas : Canvas.

Local Abbreviation search := (search Canvas Blob size toBlob canvas).
Local Abbreviation encodeCanvasFitUnder := (encodeCanvasFitUnder Canvas Blob size toBlob canvas).

(** Every attempt of a search records an encode of the canvas. *)
Lemma blob_search_genuine (t : float) (fuel : nat) :
  forall lo hi bestBlob bestQ tried a,
    In a (snd (search t fuel lo hi bestBlob bestQ tried)) ->
    output Blob a = toBlob canvas (fidelity Blob a).
Proof.
  induction fuel as [ | fuel IH]; intros lo hi bestBlob bestQ tried a.
  - cbn [Browser.search ret snd]. intros [].
  - rewrite blob_search_S. destruct (0.02 <? hi - lo)%float; [ | intros []].
    cbv zeta. cbn [snd]. intros [<- | H]; [reflexivity | ].
    destruct (fits Blob size t _); eapply IH; exact H.
Qed.

Lemma fitUnder_genuine (opts : Opts) (a : Attempt Blob) :
  In a (snd (encodeCanvasFitUnder opts)) ->
  output Blob a = toBlob canvas (fidelity Blob a).
Proof.
  destruct (target_of opts) as [t | ] eqn:Ht.
  - destruct (fitUnder_shapes Canvas Blob size toBlob canvas opts t Ht)
      as [(_ & ->) | [(_ & _ & ->) | (_ & _ & b & q & l & Es & _ & _ & _ & ->)]];
      cbn [snd].
    + intros [<- | []]. reflexivity.
    + intros [<- | [<- | []]]; reflexivity.
    + intros [<- | [<- | H]]; try reflexivity.
      apply (blob_search_genuine t 10 (min_of opts) (base_of opts)
               (toBlob canvas (min_of opts)) (min_of opts) 2 a).
      rewrite Es. exact H.
  - rewrite (fitUnder_one_shot Canvas Blob size toBlob canvas opts Ht). cbn [snd].
    intros [<- | []]. reflexivity.
Qed.

(** A result that has not passed is the encode at the minimum quality,
    the second of two, and it exceeds the target. *)
Lemma fitUnder_fail_shape (opts : Opts) (r : Result Blob) :
  fst (encodeCanvasFitUnder opts) = Ret r -> pass Blob r = false ->
  exists t, target_of opts = Some t /\
    exceeds Blob size t (blob Blob r) = true /\
    usedQuality Blob r = min_of opts /\ tried Blob r = 2.
Proof.
  destruct (target_of opts) as [t | ] eqn:Ht.
  - destruct (fitUnder_shapes Canvas Blob size toBlob canvas opts t Ht)
      as [(_ & ->) | [(_ & Xm & ->) | (_ & _ & b & q & l & _ & _ & _ & _ & ->)]];
      cbn [fst]; intros E; injection E as <-; cbn [pass]; intros P; try discriminate P.
    exists t. cbn [blob usedQuality tried]. repeat split. exact Xm.
  - rewrite (fitUnder_one_shot Canvas Blob size toBlob canvas opts Ht). cbn [fst].
    intros E. injection E as <-. cbn [pass]. intros P. discriminate P.
Qed.

End Facts.

End BlobCalls.

Module NamesMore.

Import Names StringFacts HtmlFacts NamesFacts.

Local Open Scope string_scope.

(** The extension of a name without a dot is removed. *)
Lemma strip_extension_removes (name ext : string) :
  Str.every kept name = true -> ext <> EmptyString -> Str.every not_dot ext = true ->
  strip_extension (name ++ String "." ext) = name.
Proof.
  intros Hk He Hd. induction name as [ | c r IH].
  - cbn [append strip_extension]. rewrite Hd.
    destruct ext; [contradiction | reflexivity].
  - cbn [Str.every] in Hk. apply andb_prop in Hk. destruct Hk as [Hc Hr].
    cbn [append strip_extension]. rewrite (kept_not_dot c Hc). cbn [andb].
    rewrite (IH Hr). reflexivity.
Qed.

Lemma pickSafeBaseName_extension (name ext : string) :
  name <> EmptyString -> Str.every kept name = true ->
  Str.startsWith name "_" = false -> Text.endsWith name "_" = false ->
  ext <> EmptyString -> Str.every not_dot ext = true ->
  pickSafeBaseName (name ++ String "." ext) = name.
Proof.
  intros Hn Hk Hs He Hx Hd. unfold pickSafeBaseName. cbv zeta.
  rewrite (or_document_same (name ++ String "." ext)) by (intros H; destruct name; cbn in H; discriminate H).
  rewrite (strip_extension_removes name ext Hk Hx Hd).
  rewrite (replace_runs_same name Hk), (strip_underscores_same name Hs He).
  apply or_document_same. exact Hn.
Qed.

End NamesMore.

Module SampleFacts.

Import Sample.

Lemma sample_persistent :
  Main.persistent Z World stat_size mkdir writeFile.
Proof.
  split.
  - intros w p b w' E q H. injection E as <-. cbn [stat_size].
    destruct (String.eqb p q); [discriminate | exact H].
  - intros w d w' E q H. injection E as <-. exact H.
Qed.

End SampleFacts.


(** * The probes of a search halve its interval *)

Module WidthFacts.

Import Binary64 Binary64Facts Binary64More Ticks PercentFacts MidpointFacts.

(** Rounding a mantissa of 53 bits at most, at any exponent: nothing is
    lost. *)
Lemma round_small_at (sx : bool) (p : positive) (e d : Z) :
  d = Zpos (digits2_pos p) -> d <= 53 -> -1074 <= e + d - 53 -> e <= 971 ->
  exists m, Zpos m = Zpos p * 2 ^ (53 - d) /\ Zpos (digits2_pos m) = 53 /\
    binary_round prec emax sx p e = S754_finite sx m (e + d - 53).
Proof.
  intros Ed Hd Hlo Hhi. unfold binary_round.
  rewrite <- Ed.
  assert (Hp : 0 < d) by (pose proof (Pos2Z.is_pos (digits2_pos p)); lia).
  assert (Hf : fexp prec emax (d + e) = e + d - 53)
    by (unfold fexp, SpecFloat.emin, prec, emax; lia).
  rewrite Hf.
  pose proof (shl_align_value p e (e + d - 53) ltac:(lia)) as Hv.
  destruct (shl_align p e (e + d - 53)) as [mz ez] eqn:Es. cbn [fst] in Hv.
  assert (Hez : ez = e + d - 53).
  { unfold shl_align in Es. destruct (e + d - 53 - e) eqn:E0; injection Es as <- <-; lia. }
  subst ez. replace (e - (e + d - 53)) with (53 - d) in Hv by lia.
  assert (Dm : Zpos (digits2_pos mz) = 53).
  { apply digits2_unique. rewrite Hv.
    pose proof (digits2_bounds p) as [Lo Hi]. rewrite <- Ed in Lo, Hi.
    assert (P : 0 < 2 ^ (53 - d)) by (apply Z.pow_pos_nonneg; lia).
    replace (53 - 1) with ((d - 1) + (53 - d)) by lia.
    replace 53 with (d + (53 - d)) at 4 by lia.
    rewrite !Z.pow_add_r by lia. split; nia. }
  exists mz. split; [exact Hv | ]. split; [exact Dm | ].
  rewrite round_53 by (try assumption; lia).
  replace (e + d - 53 <=? 971) with true by (symmetry; apply Z.leb_le; lia). reflexivity.
Qed.

(** The comparison of two Numbers with mantissas of 53 bits is that of
    their values, in units of [2^k]. *)
Lemma compare_at (k : Z) (m1 m2 : positive) (e1 e2 : Z) :
  Zpos (digits2_pos m1) = 53 -> Zpos (digits2_pos m2) = 53 -> k <= e1 -> k <= e2 ->
  SFcompare (S754_finite false m1 e1) (S754_finite false m2 e2)
  = Some (Zpos m1 * 2 ^ (e1 - k) ?= Zpos m2 * 2 ^ (e2 - k)).
Proof.
  intros D1 D2 H1 H2. cbn [SFcompare]. f_equal.
  pose proof (digits2_bounds m1) as B1. rewrite D1 in B1. change (53 - 1) with 52 in B1.
  pose proof (digits2_bounds m2) as B2. rewrite D2 in B2. change (53 - 1) with 52 in B2.
  assert (X1 : 0 < 2 ^ (e1 - k)) by (apply Z.pow_pos_nonneg; lia).
  assert (X2 : 0 < 2 ^ (e2 - k)) by (apply Z.pow_pos_nonneg; lia).
  destruct (Z.compare_spec e1 e2) as [-> | L | G].
  - match goal with |- context [?f Eq m1 m2] =>
      change (f Eq m1 m2) with (Zpos m1 ?= Zpos m2) end.
    symmetry.
    destruct (Z.compare_spec (Zpos m1) (Zpos m2));
      [apply Z.compare_eq_iff | apply Z.compare_lt_iff | apply Z.compare_gt_iff]; nia.
  - symmetry. apply Z.compare_lt_iff.
    assert (E : 2 ^ (e2 - k) = 2 ^ (e2 - e1) * 2 ^ (e1 - k)).
    { rewrite <- Z.pow_add_r by lia. f_equal. lia. }
    assert (2 ^ 1 <= 2 ^ (e2 - e1)) by (apply Z.pow_le_mono_r; lia).
    change (2 ^ 1) with 2 in *. change (2 ^ 53) with (2 * 2 ^ 52) in *. nia.
  - symmetry. apply Z.compare_gt_iff.
    assert (E : 2 ^ (e1 - k) = 2 ^ (e1 - e2) * 2 ^ (e2 - k)).
    { rewrite <- Z.pow_add_r by lia. f_equal. lia. }
    assert (2 ^ 1 <= 2 ^ (e1 - e2)) by (apply Z.pow_le_mono_r; lia).
    change (2 ^ 1) with 2 in *. change (2 ^ 53) with (2 * 2 ^ 52) in *. nia.
Qed.

Lemma ticks_of_fidelity (q : float) :
  JS.valid_fidelity q = true ->
  exists m e, Prim2SF q = S754_finite false m e /\ between (-56) m e /\
    ticks_of q = ticks m e /\ Zpos M01 <= ticks_of q <= 2 ^ 56.
Proof.
  intros V. destruct (valid_fidelity_between q V) as (m & e & E & B).
  exists m, e. split; [exact E | ]. split; [exact B | ].
  unfold ticks_of. rewrite E. split; [reflexivity | ]. apply ticks_bounds. exact B.
Qed.

(** An interval of fidelities is at most [widest]. *)
Lemma width_widest (lo hi : float) :
  JS.valid_fidelity lo = true -> JS.valid_fidelity hi = true ->
  ticks_of hi - ticks_of lo <= widest.
Proof.
  intros Vlo Vhi.
  destruct (ticks_of_fidelity lo Vlo) as (_ & _ & _ & _ & _ & L).
  destruct (ticks_of_fidelity hi Vhi) as (_ & _ & _ & _ & _ & H).
  unfold widest, M01 in *. lia.
Qed.

(** A difference of fidelities that is small enough is computed exactly,
    and is not above the threshold [c]. *)
Lemma small_gap (c lo hi : float) (mc : positive) (ec narrow : Z) :
  Prim2SF c = S754_finite false mc ec -> Zpos (digits2_pos mc) = 53 ->
  -120 <= ec <= -56 ->
  narrow * 2 ^ (- 56 - ec) <= Zpos mc -> narrow < 2 ^ 53 ->
  JS.valid_fidelity lo = true -> JS.valid_fidelity hi = true ->
  ticks_of hi - ticks_of lo <= narrow ->
  (c <? hi - lo)%float = false.
Proof.
  intros Ec Dc Rc Hn Hn50 Vlo Vhi.
  destruct (ticks_of_fidelity lo Vlo) as (m1 & e1 & E1 & B1 & -> & _).
  destruct (ticks_of_fidelity hi Vhi) as (m2 & e2 & E2 & B2 & -> & _).
  destruct B1 as (_ & R1 & _). destruct B2 as (_ & R2 & _).
  rewrite ltb_spec, sub_spec, Ec, E1, E2.
  unfold SF64sub, SFsub. cbn [cond_Zopp].
  set (ez := Z.min e2 e1).
  assert (Hez : -56 <= ez /\ ez <= e1 /\ ez <= e2 /\ ez <= -52) by (unfold ez; lia).
  rewrite (ticks_aligned m1 e1 ez), (ticks_aligned m2 e2 ez) by lia.
  rewrite <- (shl_align_value m1 e1 ez), <- (shl_align_value m2 e2 ez) by lia.
  set (a := fst (shl_align m1 e1 ez)). set (b := fst (shl_align m2 e2 ez)).
  assert (X : 1 <= 2 ^ (ez + 56)) by (apply (Z.pow_le_mono_r 2 0); lia).
  intros Hw.
  destruct (Zpos b - Zpos a) as [ | p | p] eqn:Ed.
  - cbn [binary_normalize]. reflexivity.
  - cbn [binary_normalize].
    assert (Hp : Zpos p * 2 ^ (ez + 56) <= narrow) by (rewrite <- Ed; lia).
    assert (Hp50 : Zpos p < 2 ^ 53) by nia.
    pose proof (digits2_le p 53 ltac:(lia) Hp50) as Dp.
    pose proof (Pos2Z.is_pos (digits2_pos p)) as Dp0.
    destruct (round_small_at false p ez _ eq_refl ltac:(lia) ltac:(lia) ltac:(lia))
      as (m & Em & Dm & ->).
    unfold SFltb. rewrite (compare_at (-120)) by (try assumption; lia).
    set (d := Zpos (digits2_pos p)) in *.
    assert (G : Zpos m * 2 ^ (ez + d - 53 - -120) <= Zpos mc * 2 ^ (ec - -120)).
    { rewrite Em.
      replace (Zpos p * 2 ^ (53 - d) * 2 ^ (ez + d - 53 - -120))
        with (Zpos p * 2 ^ (ez + 56) * 2 ^ 64).
      2:{ rewrite <- !Z.mul_assoc, <- !Z.pow_add_r by lia. do 2 f_equal. lia. }
      apply Z.le_trans with (narrow * 2 ^ (- 56 - ec) * 2 ^ (ec - -120)).
      - replace (narrow * 2 ^ (- 56 - ec) * 2 ^ (ec - -120)) with (narrow * 2 ^ 64).
        2:{ rewrite <- !Z.mul_assoc, <- !Z.pow_add_r by lia. do 2 f_equal. lia. }
        apply Z.mul_le_mono_nonneg_r; [apply Z.pow_nonneg; lia | exact Hp].
      - apply Z.mul_le_mono_nonneg_r; [apply Z.pow_nonneg; lia | exact Hn]. }
    destruct (Z.compare_spec (Zpos mc * 2 ^ (ec - -120)) (Zpos m * 2 ^ (ez + d - 53 - -120)));
      try reflexivity. lia.
  - cbn [binary_normalize]. pose proof (round_sign true p ez) as Hs.
    unfold SFltb. destruct (binary_round prec emax true p ez) as [s | s | | s m e];
      try subst s; cbn [SFcompare]; reflexivity.
Qed.

(** The loop goes on only when [lo] is below [hi], in ticks. *)
Lemma gap_ticks (c lo hi : float) :
  (exists mc ec, Prim2SF c = S754_finite false mc ec) ->
  JS.valid_fidelity lo = true -> JS.valid_fidelity hi = true ->
  (c <? hi - lo)%float = true -> ticks_of lo < ticks_of hi.
Proof.
  intros (mc & ec & Ec) Vlo Vhi H.
  destruct (ticks_of_fidelity lo Vlo) as (m1 & e1 & E1 & B1 & -> & _).
  destruct (ticks_of_fidelity hi Vhi) as (m2 & e2 & E2 & B2 & -> & _).
  destruct B1 as (_ & R1 & _). destruct B2 as (_ & R2 & _).
  apply (sub_positive c lo hi mc m1 m2 ec e1 e2 Ec E1 E2 ltac:(lia) ltac:(lia) H).
Qed.

(** The midpoint, in ticks: between the two, and within 16 ticks of the
    middle. *)
Lemma midpoint_ticks (lo hi : float) :
  JS.valid_fidelity lo = true -> JS.valid_fidelity hi = true ->
  ticks_of lo <= ticks_of hi ->
  let mid := ((lo + hi) / 2)%float in
  ticks_of lo <= ticks_of mid <= ticks_of hi /\
  ticks_of lo + ticks_of hi - 32 <= 2 * ticks_of mid <= ticks_of lo + ticks_of hi + 32.
Proof.
  intros Vlo Vhi. cbv zeta.
  destruct (ticks_of_fidelity lo Vlo) as (m1 & e1 & E1 & B1 & -> & _).
  destruct (ticks_of_fidelity hi Vhi) as (m2 & e2 & E2 & B2 & -> & _).
  intros Hle.
  destruct (sum_ticks m1 m2 e1 e2 B1 B2 Hle) as (m & e & Ea & Ba & Hm & Hnear).
  assert (Emid : Prim2SF ((lo + hi) / 2)%float = S754_finite false m (e - 1)).
  { rewrite div_spec, add_spec, E1, E2, Prim2SF_two. unfold SF64div, SF64add.
    rewrite Ea. apply halve_between. exact Ba. }
  unfold ticks_of at 1 2 3 4. rewrite Emid. split; assumption.
Qed.

(** One probe: the width of the interval that is kept. *)
Lemma probe_width (c lo hi : float) (width : Z) :
  (exists mc ec, Prim2SF c = S754_finite false mc ec) ->
  JS.valid_fidelity lo = true -> JS.valid_fidelity hi = true ->
  (c <? hi - lo)%float = true ->
  ticks_of hi - ticks_of lo <= width ->
  let mid := ((lo + hi) / 2)%float in
  JS.valid_fidelity mid = true /\
  ticks_of hi - ticks_of mid <= width / 2 + 16 /\
  ticks_of mid - ticks_of lo <= width / 2 + 16.
Proof.
  intros Hc Vlo Vhi G Hw. cbv zeta.
  pose proof (gap_ticks c lo hi Hc Vlo Vhi G) as Hlt.
  destruct (midpoint_ticks lo hi Vlo Vhi ltac:(lia)) as [_ Hnear].
  split; [apply midpoint_valid; assumption | ].
  assert (D : forall x, 2 * (x - 16) <= width -> x <= width / 2 + 16).
  { intros x Hx. assert (x - 16 <= width / 2); [ | lia].
    apply Z.div_le_lower_bound; lia. }
  split; apply D; lia.
Qed.

Lemma threshold_cli_value :
  Prim2SF 0.015 = S754_finite false 8646911284551352 (-59).
Proof. reflexivity. Qed.

Lemma threshold_browser_value :
  Prim2SF 0.02 = S754_finite false 5764607523034235 (-58).
Proof. reflexivity. Qed.

(** At a width that is narrow, the loops stop. *)
Lemma narrow_cli_stops (lo hi : float) :
  JS.valid_fidelity lo = true -> JS.valid_fidelity hi = true ->
  ticks_of hi - ticks_of lo <= narrow_cli -> (0.015 <? hi - lo)%float = false.
Proof.
  apply (small_gap 0.015 lo hi 8646911284551352 (-59) narrow_cli threshold_cli_value);
    [reflexivity | lia | vm_compute; discriminate | reflexivity].
Qed.

Lemma narrow_browser_stops (lo hi : float) :
  JS.valid_fidelity lo = true -> JS.valid_fidelity hi = true ->
  ticks_of hi - ticks_of lo <= narrow_browser -> (0.02 <? hi - lo)%float = false.
Proof.
  apply (small_gap 0.02 lo hi 5764607523034235 (-58) narrow_browser threshold_browser_value);
    [reflexivity | lia | vm_compute; discriminate | reflexivity].
Qed.

End WidthFacts.


(** * Six probes are enough *)

Module CountFacts.

Import Binary64Facts Ticks MidpointFacts WidthFacts CliFacts CliResults BrowserFacts BrowserResults.

Lemma probes_cli : probes narrow_cli widest 10 = 6%nat.
Proof. vm_compute. reflexivity. Qed.

Lemma probes_browser : probes narrow_browser widest 10 = 6%nat.
Proof. vm_compute. reflexivity. Qed.

Section Cli.

Variable Buf : Type.
Variable length : Buf -> Z.
Variable encode : string -> Cli.Args.t -> float -> option Cli.Variant -> Buf.
Variable inputPath : string.
Variable args : Cli.Args.t.
Variable target : float.

Local Abbreviation search := (Cli.search Buf length encode inputPath args target).

(** The probes of a search, by the width of its interval. *)
Lemma search_few (v : Cli.Variant) (fuel : nat) :
  forall width lo hi best bestQ,
    JS.valid_fidelity lo = true -> JS.valid_fidelity hi = true ->
    ticks_of hi - ticks_of lo <= width ->
    (List.length (snd (search v fuel lo hi best bestQ)) <= probes narrow_cli width fuel)%nat.
Proof.
  induction fuel as [ | fuel IH]; intros width lo hi best bestQ Vlo Vhi Hw.
  - cbn. lia.
  - rewrite search_S. cbn [probes].
    destruct (Z.leb_spec width narrow_cli) as [Hn | Hn].
    + rewrite (narrow_cli_stops lo hi Vlo Vhi ltac:(lia)). cbn. lia.
    + destruct (0.015 <? hi - lo)%float eqn:G; [ | cbn; lia].
      destruct (probe_width 0.015 lo hi width threshold_cli Vlo Vhi G Hw) as (Vm & W1 & W2).
      cbv zeta. cbn [snd List.length]. apply le_n_S.
      destruct (Cli.fits _ _ _ _); apply IH; assumption.
Qed.

(** The search of a variant, from the minimum to the base: six probes at
    most. *)
Lemma search_six (v : Cli.Variant) (minQ baseQ : float) (best : Buf) (bestQ : float) :
  JS.valid_fidelity minQ = true -> JS.valid_fidelity baseQ = true ->
  (List.length (snd (search v 10 minQ baseQ best bestQ)) <= 6)%nat.
Proof.
  intros Vm Vb. rewrite <- probes_cli.
  apply search_few; [assumption | assumption | apply width_widest; assumption].
Qed.

Lemma forVariants_few (baseQ minQ : float) (vs : list Cli.Variant) :
  JS.valid_fidelity baseQ = true -> JS.valid_fidelity minQ = true ->
  forall bestFit bestClarity,
    (List.length (snd (Cli.forVariants Buf length encode inputPath args target baseQ minQ
                         vs bestFit bestClarity))
     <= 8 * List.length vs)%nat.
Proof.
  intros Vb Vm. induction vs as [ | v rest IH]; intros bestFit bestClarity.
  - cbn. destruct bestClarity; cbn; lia.
  - rewrite forVariants_cons. cbv zeta. cbn [List.length].
    destruct (Cli.fits _ _ _ _); [cbn; lia | ].
    destruct (Cli.exceeds _ _ _ _).
    + cbn [snd List.length]. specialize (IH bestFit (Cli.clarity_after Buf length encode inputPath args baseQ v bestClarity)). lia.
    + pose proof (search_six v minQ baseQ (encode inputPath args minQ (Some v)) minQ Vm Vb) as H6.
      destruct (search v 10 minQ baseQ _ minQ) as [[sr | msg | msg] ls]; cbn [snd] in H6;
        cbn [snd List.length]; try lia.
      rewrite length_app.
      specialize (IH (Cli.fit_after Buf v sr bestFit)
                     (Cli.clarity_after Buf length encode inputPath args baseQ v bestClarity)).
      lia.
Qed.

End Cli.

Section CliWhole.

Variable Buf : Type.
Variable length : Buf -> Z.
Variable encode : string -> Cli.Args.t -> float -> option Cli.Variant -> Buf.
Variable inputPath : string.

(** A run makes 32 encodes at most. *)
Lemma compress_few (args : Cli.Args.t) :
  (List.length (snd (Cli.compressWithTarget Buf length encode inputPath args)) <= 32)%nat.
Proof.
  destruct (Cli.target_of args) as [t | ] eqn:Ht.
  - destruct (compress_shapes Buf length encode inputPath args t Ht)
      as [(msg & ->) | (bq & mq & _ & _ & Vb & Vm & ->)].
    + cbn. lia.
    + pose proof (forVariants_few Buf length encode inputPath args t bq mq Cli.variants
                    Vb Vm None None) as H.
      cbn [Cli.variants List.length] in H. exact H.
  - rewrite (compress_passthrough Buf length encode inputPath args Ht). cbn. lia.
Qed.

End CliWhole.

Section Browser.

Variable Canvas : Type.
Variable Blob : Type.
Variable size : Blob -> Z.
Variable toBlob : Canvas -> float -> Blob.
Variable canvas : Canvas.

Local Abbreviation search := (Browser.search Canvas Blob size toBlob canvas).

Lemma blob_search_few (t : float) (fuel : nat) :
  forall width lo hi bestBlob bestQ tried,
    JS.valid_fidelity lo = true -> JS.valid_fidelity hi = true ->
    ticks_of hi - ticks_of lo <= width ->
    (List.length (snd (search t fuel lo hi bestBlob bestQ tried))
     <= probes narrow_browser width fuel)%nat.
Proof.
  induction fuel as [ | fuel IH]; intros width lo hi bestBlob bestQ tried Vlo Vhi Hw.
  - cbn. lia.
  - rewrite blob_search_S. cbn [probes].
    destruct (Z.leb_spec width narrow_browser) as [Hn | Hn].
    + rewrite (narrow_browser_stops lo hi Vlo Vhi ltac:(lia)). cbn. lia.
    + destruct (0.02 <? hi - lo)%float eqn:G; [ | cbn; lia].
      destruct (probe_width 0.02 lo hi width threshold_browser Vlo Vhi G Hw) as (Vm & W1 & W2).
      cbv zeta. cbn [snd List.length]. apply le_n_S.
      destruct (Browser.fits _ _ _ _); apply IH; assumption.
Qed.

(** Eight encodes at most, unless a quality of [opts] is NaN. *)
Lemma fitUnder_few (opts : Browser.Opts) :
  is_nan (Browser.nullish (Browser.baseQuality opts) 0.85) = false ->
  is_nan (Browser.nullish (Browser.minQuality opts) 0.55) = false ->
  (List.length (snd (Browser.encodeCanvasFitUnder Canvas Blob size toBlob canvas opts)) <= 8)%nat.
Proof.
  intros Nb Nm.
  pose proof (clamp_valid _ Nb) as Vb. pose proof (clamp_valid _ Nm) as Vm.
  fold (Browser.base_of opts) in Vb. fold (Browser.min_of opts) in Vm.
  destruct (Browser.target_of opts) as [t | ] eqn:Ht.
  - destruct (fitUnder_shapes Canvas Blob size toBlob canvas opts t Ht)
      as [(_ & ->) | [(_ & _ & ->) | (_ & _ & b & q & l & Es & _ & _ & _ & ->)]];
      cbn [snd List.length]; try lia.
    pose proof (blob_search_few t 10 widest (Browser.min_of opts) (Browser.base_of opts)
                  (toBlob canvas (Browser.min_of opts)) (Browser.min_of opts) 2 Vm Vb
                  (width_widest _ _ Vm Vb)) as H.
    rewrite Es, probes_browser in H. cbn [snd] in H. lia.
  - rewrite (fitUnder_one_shot Canvas Blob size toBlob canvas opts Ht). cbn. lia.
Qed.

End Browser.

End CountFacts.


(** * More facts on [main]: what is written, and how much is encoded *)

Module MainMore.

Import Main Binary64Facts CliFacts CliResults ReturnFacts MainFacts CountFacts.

Section Run.

Variable Buf : Type.
Variable length : Buf -> Z.
Variable resolve : string -> string.
Variable join : string -> string -> string.
Variable extname : string -> string.
Variable basename : string -> string -> string.
Variable World : Type.
Variable tree : World -> string -> option Files.Tree.
Variable stat_size : World -> string -> option Z.
Variable mkdir : World -> string -> World + string.
Variable writeFile : World -> string -> Buf -> option World.
Variable sharp : World -> string -> option (bool -> Cli.JpegOpts -> Buf).

Variable args : Cli.Args.t.
Variable outDir : string.

Local Abbreviation Loop := (Loop Buf World).
Local Abbreviation step := (step Buf length join extname basename World stat_size writeFile sharp).
Local Abbreviation loop := (loop Buf length join extname basename World stat_size writeFile sharp).
Local Abbreviation turn :=
  (turn Buf length join extname basename World stat_size writeFile sharp args outDir).
Local Abbreviation matches := (matches Buf length join extname basename World args outDir).
Local Abbreviation reported := (reported Buf length join extname basename World args outDir).

Lemma matches_more (log more : list (Cli.Attempt Buf)) (line : Line) (wr : Write Buf World) :
  matches log line wr -> matches (log ++ more) line wr.
Proof.
  unfold Main.matches. destruct line as [ | o | report | i | a b o]; try (intros H; exact H).
  intros (A & B & C). repeat split; try assumption. apply in_or_app. left. exact C.
Qed.

Lemma reported_more (st : Loop) (more : list (Cli.Attempt Buf)) (lines : list Line)
      (ws : list (Write Buf World)) :
  Forall2 (matches (encodes st)) lines ws ->
  Forall2 (matches (encodes st ++ more)) lines ws.
Proof.
  intros H. induction H; constructor; [apply matches_more; assumption | assumption].
Qed.

Lemma filter_app_other (kind : Line -> bool) (l : list Line) (x : Line) :
  kind x = false -> filter kind (l ++ [x]) = filter kind l.
Proof. intros H. rewrite filter_app. cbn [filter]. rewrite H. apply app_nil_r. Qed.

Lemma turn_reported (st : Loop) (p : string) (st' : Loop) (d : option string) :
  reported st -> turn st p st' d -> reported st'.
Proof.
  intros H T. destruct T; unfold Main.reported in *; cbn [console writes encodes].
  - rewrite filter_app_other by reflexivity. exact H.
  - rewrite filter_app_other by reflexivity. apply reported_more. exact H.
  - apply reported_more. exact H.
  - subst w outPath after. rewrite filter_app. cbn [filter is_done].
    apply Forall2_app; [apply reported_more; exact H | ].
    constructor; [ | constructor].
    unfold Main.matches. cbn [w_path w_buf r_input r_after r_usedQuality r_used].
    split; [reflexivity | ]. split; [reflexivity | ].
    apply in_or_app. right.
    match goal with
    | Hc : Cli.compressWithTarget _ _ ?e _ _ = _ |- _ =>
        pose proof (compress_logged Buf length e p args r ltac:(rewrite Hc; reflexivity)) as L;
        rewrite Hc in L
    end.
    exact L.
Qed.

(** One input costs 32 encodes at most. *)
Lemma step_encodes (st : Loop) (p : string) :
  (List.length (encodes (fst (step args outDir st p))) <= List.length (encodes st) + 32)%nat.
Proof.
  unfold Main.step. cbv zeta.
  assert (P : forall outPath,
    (List.length (encodes (fst (process Buf length World stat_size writeFile sharp args
                                  outPath st p)))
     <= List.length (encodes st) + 32)%nat).
  { intros outPath. unfold process.
    destruct (stat_size (world st) p); [ | cbn; lia].
    destruct (sharp (world st) p) as [enc | ]; [ | cbn; lia].
    pose proof (compress_few Buf length (Cli.encodeAtQuality (fun _ : string => enc)) p args) as F.
    destruct (Cli.compressWithTarget _ _ _ _ _) as [[r | msg | msg] log]; cbn [snd] in F.
    - destruct (writeFile _ _ _); unfold failed;
        cbn [fst encodes]; rewrite length_app; lia.
    - cbn [fst encodes]. rewrite length_app. lia.
    - unfold failed. cbn [fst encodes]. rewrite length_app. lia. }
  destruct (negb (Cli.Args.overwrite args) && _); [cbn; lia | apply P].
Qed.

Lemma loop_encodes (inputs : list string) :
  forall st,
    (List.length (encodes (fst (loop args outDir inputs st)))
     <= List.length (encodes st) + 32 * List.length inputs)%nat.
Proof.
  induction inputs as [ | p rest IH]; intros st; [cbn; lia | ].
  cbn [Main.loop List.length]. pose proof (step_encodes st p) as S1.
  destruct (step args outDir st p) as [st' [msg | ]]; cbn [fst] in *.
  - lia.
  - specialize (IH st'). lia.
Qed.

End Run.

End MainMore.


(** * The properties of the specification *)

Module Claims.

Import Binary64Facts CliFacts CliResults BrowserFacts BrowserResults StringFacts ParseFacts.
Import QualityFacts SizeFacts.

Local Open Scope string_scope.

(** ** Scenario A: a fit exists for the first variant *)

(** C1 (the code departs from it).  Scenario A on the CLI selector: target
    600,000 bytes, base fidelity 0.85, minimum fidelity 0.55, stub encoder
    [size = floor(1,000,000 * fidelity)].  For the first variant the encode at
    the base fidelity exceeds the target and the bounded binary search finds
    the fit of 596,875 bytes at fidelity 0.596875, within 0.015 of 0.600; yet
    [compressWithTarget] does not return it: it goes on through the four
    variants (28 encodes) and returns the base-fidelity encode of 850,000
    bytes with [pass = false]. *)
Theorem C1_scenario_A_fit_found_but_not_returned :
  let t := 600000%float in
  let args := Scenario.cli_args (Some t) in
  let v1 := Cli.mkVariant "4:4:4" false true in
  let run := Scenario.cli_run (Some t) in
  Cli.fits Z (fun n => n) t (Scenario.stub_encode "in.jpg" args 0.85 (Some v1)) = false /\
  fst (Cli.search Z (fun n => n) Scenario.stub_encode "in.jpg" args t v1 10
                  0.55 0.85 (Scenario.stub_size 0.55) 0.55)
  = Ret (596875, 0.596875%float) /\
  Cli.fits Z (fun n => n) t 596875 = true /\
  (abs (0.596875 - 0.6) <=? 0.015)%float = true /\
  fst run = Ret (Cli.mkResult Z 850000 0.85 v1 false) /\
  List.length (snd run) = 28%nat.
Proof. vm_compute. repeat split; reflexivity. Qed.

(** C2 (the code departs from it).  In the same run of Scenario A the
    result has [pass = false], although the log holds attempts whose size is
    at most the target of 600,000 bytes: the encode of the first variant at
    the minimum fidelity (550,000 bytes) and its probe at 0.596875 (596,875
    bytes). *)
Theorem C2_scenario_A_fails_with_fitting_attempts :
  let t := 600000%float in
  let v1 := Cli.mkVariant "4:4:4" false true in
  let run := Scenario.cli_run (Some t) in
  (exists r, fst run = Ret r /\ Cli.pass Z r = false) /\
  In (Cli.mkAttempt Z 0.55 v1 550000) (snd run) /\
  Cli.fits Z (fun n => n) t 550000 = true /\
  In (Cli.mkAttempt Z 0.596875 v1 596875) (snd run) /\
  Cli.fits Z (fun n => n) t 596875 = true.
Proof.
  cbv zeta. split; [eexists; split; [vm_compute; reflexivity | reflexivity] | ].
  split; [vm_compute; tauto | ]. split; [vm_compute; reflexivity | ].
  split; [vm_compute; tauto | ]. vm_compute. reflexivity.
Qed.

(** ** Scenario B: nothing fits *)

(** C3 (amended).  In the CLI selector, when for every variant of the table
    both the base-fidelity encode and the minimum-fidelity encode exceed the
    target, the result is a base-fidelity encode of least length over the
    table, with [usedQuality] the base fidelity and [pass = false].  In the
    browser search, which has one implicit variant, the result in that case
    is the encode at the minimum fidelity: [usedQuality] is the minimum
    fidelity, two encodes were tried and [pass = false]. *)
Theorem C3_fallback_when_nothing_fits :
  (forall (Buf : Type) (length : Buf -> Z)
          (encode : string -> Cli.Args.t -> float -> option Cli.Variant -> Buf)
          (inputPath : string) (args : Cli.Args.t) (t baseQ minQ : float),
     Cli.target_of args = Some t ->
     Cli.clamp01 (Cli.Args.quality args) = Ret baseQ ->
     Cli.clamp01 (Cli.Args.minQuality args) = Ret minQ ->
     (forall v, In v Cli.variants ->
        Cli.fits Buf length t (encode inputPath args baseQ (Some v)) = false /\
        Cli.exceeds Buf length t (encode inputPath args minQ (Some v)) = true) ->
     exists v, In v Cli.variants /\
       fst (Cli.compressWithTarget Buf length encode inputPath args)
       = Ret (Cli.mkResult Buf (encode inputPath args baseQ (Some v)) baseQ v false) /\
       forall v', In v' Cli.variants ->
         length (encode inputPath args baseQ (Some v))
         <= length (encode inputPath args baseQ (Some v')))
  /\
  (forall (Canvas Blob : Type) (size : Blob -> Z) (toBlob : Canvas -> float -> Blob)
          (canvas : Canvas) (opts : Browser.Opts) (t : float),
     Browser.target_of opts = Some t ->
     Browser.fits Blob size t (toBlob canvas (Browser.base_of opts)) = false ->
     Browser.exceeds Blob size t (toBlob canvas (Browser.min_of opts)) = true ->
     fst (Browser.encodeCanvasFitUnder Canvas Blob size toBlob canvas opts)
     = Ret (Browser.mkResult Blob (toBlob canvas (Browser.min_of opts))
              (Browser.min_of opts) 2 false)).
Proof.
  split.
  - intros Buf length encode inputPath args t baseQ minQ Ht Eb Em Hall.
    apply (compress_fallback Buf length encode inputPath args t baseQ minQ Ht Eb Em).
    intros v Hv. apply (Hall v Hv).
  - intros Canvas Blob size toBlob canvas opts t Ht Fb Xm.
    destruct (fitUnder_shapes Canvas Blob size toBlob canvas opts t Ht)
      as [(Fb' & _) | [(_ & _ & ->) | (_ & Xm' & _)]].
    + rewrite Fb in Fb'. discriminate Fb'.
    + reflexivity.
    + rewrite Xm in Xm'. discriminate Xm'.
Qed.

(** Scenario B (target 100 bytes) through C3: on the CLI the result is the
    850,000-byte encode at fidelity 0.85, failed; in the browser it is the
    550,000-byte encode at fidelity 0.55, failed. *)
Lemma C3_scenario_B_witness :
  (exists v, In v Cli.variants /\
     fst (Scenario.cli_run (Some 100%float))
     = Ret (Cli.mkResult Z 850000 0.85 v false) /\
     forall v', In v' Cli.variants -> 850000 <= 850000)
  /\
  fst (Scenario.browser_run (Some 100%float))
  = Ret (Browser.mkResult Z 550000 0.55 2 false).
Proof.
  split.
  - apply (proj1 C3_fallback_when_nothing_fits Z (fun n => n) Scenario.stub_encode
             "in.jpg" (Scenario.cli_args (Some 100%float)) 100%float 0.85%float 0.55%float).
    + reflexivity.
    + reflexivity.
    + reflexivity.
    + intros v _. split; reflexivity.
  - apply (proj2 C3_fallback_when_nothing_fits unit Z (fun n => n) Scenario.stub_toBlob tt
             (Browser.mkOpts (Some 100%float) (Some 0.85%float) (Some 0.55%float)) 100%float).
    + reflexivity.
    + reflexivity.
    + reflexivity.
Defined.

(** C3 as stated fails in the browser search under Scenario B: base and
    minimum encodes both exceed the target of 100 bytes, and the result has
    [usedQuality = 0.55], not 0.85, and 550,000 bytes, not 850,000. *)
Lemma C3_browser_counterexample :
  Browser.fits Z (fun n => n) 100 (Scenario.stub_toBlob tt 0.85) = false /\
  Browser.exceeds Z (fun n => n) 100 (Scenario.stub_toBlob tt 0.55) = true /\
  (exists r, fst (Scenario.browser_run (Some 100%float)) = Ret r /\
     Browser.pass Z r = false /\
     (Browser.usedQuality Z r =? 0.85)%float = false /\
     Browser.usedQuality Z r = 0.55%float /\
     Browser.blob Z r = 550000 /\ Browser.blob Z r <> 850000).
Proof.
  split; [vm_compute; reflexivity | ]. split; [vm_compute; reflexivity | ].
  eexists. split; [vm_compute; reflexivity | ].
  cbn [Browser.pass Browser.usedQuality Browser.blob].
  repeat split; try reflexivity. discriminate.
Qed.

(** ** Bounded search *)

(** C4 (amended).  For each variant the binary search makes at most 10
    probe encodes beyond the base and minimum encodes, in the CLI as in the
    browser (whose result counts them in [tried], at most 12).  It stops as
    soon as [hi - lo > threshold] is false, and probes the midpoint while it
    is true and probes remain; the threshold is 0.015 in the CLI
    ([compressWithTarget]) and 0.02 in the browser ([encodeCanvasFitUnder]). *)
Theorem C4_at_most_ten_probes_until_the_interval_is_narrow :
  (forall (Buf : Type) (length : Buf -> Z)
          (encode : string -> Cli.Args.t -> float -> option Cli.Variant -> Buf)
          (inputPath : string) (args : Cli.Args.t),
     (forall (t : float) (v : Cli.Variant) (lo hi : float) (best : Buf) (bestQ : float),
        (List.length (snd (Cli.search Buf length encode inputPath args t v 10
                                      lo hi best bestQ)) <= 10)%nat) /\
     (forall (t : float) (v : Cli.Variant) (fuel : nat) (lo hi : float) (best : Buf)
             (bestQ : float),
        (0.015 <? hi - lo)%float = false ->
        Cli.search Buf length encode inputPath args t v fuel lo hi best bestQ
        = (Ret (best, bestQ), [])) /\
     (forall (t : float) (v : Cli.Variant) (fuel : nat) (lo hi : float) (best : Buf)
             (bestQ : float),
        (0.015 <? hi - lo)%float = true ->
        exists rest,
          snd (Cli.search Buf length encode inputPath args t v (S fuel) lo hi best bestQ)
          = Cli.attempt_of Buf encode inputPath args ((lo + hi) / 2)%float v :: rest) /\
     (forall v0 : Cli.Variant,
        (List.length (Cli.attempts_for Buf v0
           (snd (Cli.compressWithTarget Buf length encode inputPath args))) <= 12)%nat))
  /\
  (forall (Canvas Blob : Type) (size : Blob -> Z) (toBlob : Canvas -> float -> Blob)
          (canvas : Canvas),
     (forall (t : float) (lo hi : float) (bestBlob : Blob) (bestQ : float) (tried : Z),
        (List.length (snd (Browser.search Canvas Blob size toBlob canvas t 10
                                          lo hi bestBlob bestQ tried)) <= 10)%nat) /\
     (forall (t : float) (fuel : nat) (lo hi : float) (bestBlob : Blob) (bestQ : float)
             (tried : Z),
        (0.02 <? hi - lo)%float = false ->
        Browser.search Canvas Blob size toBlob canvas t fuel lo hi bestBlob bestQ tried
        = (Ret (bestBlob, bestQ, tried), [])) /\
     (forall (t : float) (fuel : nat) (lo hi : float) (bestBlob : Blob) (bestQ : float)
             (tried : Z),
        (0.02 <? hi - lo)%float = true ->
        exists rest,
          snd (Browser.search Canvas Blob size toBlob canvas t (S fuel)
                              lo hi bestBlob bestQ tried)
          = Browser.attempt_at Canvas Blob toBlob canvas ((lo + hi) / 2)%float :: rest) /\
     (forall opts : Browser.Opts,
        exists r,
          fst (Browser.encodeCanvasFitUnder Canvas Blob size toBlob canvas opts) = Ret r /\
          Browser.tried Blob r
          = Z.of_nat (List.length
              (snd (Browser.encodeCanvasFitUnder Canvas Blob size toBlob canvas opts))) /\
          Browser.tried Blob r <= 12)).
Proof.
  split.
  - intros Buf length encode inputPath args. repeat split.
    + intros t v lo hi best bestQ.
      destruct (search_returns Buf length encode inputPath args t v 10 lo hi best bestQ)
        as (b & q & l & -> & Hn & _). exact Hn.
    + intros t v fuel lo hi best bestQ H. destruct fuel as [ | fuel]; [reflexivity | ].
      rewrite search_S, H. reflexivity.
    + intros t v fuel lo hi best bestQ H. rewrite search_S, H. cbv zeta. cbn [snd].
      eexists. reflexivity.
    + intros v0. apply compress_attempts.
  - intros Canvas Blob size toBlob canvas. repeat split.
    + intros t lo hi bestBlob bestQ tried.
      destruct (blob_search_returns Canvas Blob size toBlob canvas t 10 lo hi bestBlob bestQ tried)
        as (b & q & l & -> & Hn & _). exact Hn.
    + intros t fuel lo hi bestBlob bestQ tried H. destruct fuel as [ | fuel]; [reflexivity | ].
      rewrite blob_search_S, H. reflexivity.
    + intros t fuel lo hi bestBlob bestQ tried H. rewrite blob_search_S, H. cbv zeta. cbn [snd].
      eexists. reflexivity.
    + intros opts. apply fitUnder_tried.
Qed.

(** C4 at work on Scenario A: on an interval of width 0.3 the CLI search
    probes first at the midpoint 0.7; on one of width 0.009375 it returns at
    once; the browser search does the same at its own threshold. *)
Lemma C4_scenario_A_witness :
  (exists rest,
     snd (Cli.search Z (fun n => n) Scenario.stub_encode "in.jpg"
            (Scenario.cli_args (Some 600000%float)) 600000 (Cli.mkVariant "4:4:4" false true)
            10 0.55 0.85 550000 0.55)
     = Cli.attempt_of Z Scenario.stub_encode "in.jpg" (Scenario.cli_args (Some 600000%float))
         ((0.55 + 0.85) / 2)%float (Cli.mkVariant "4:4:4" false true) :: rest)
  /\
  Cli.search Z (fun n => n) Scenario.stub_encode "in.jpg"
    (Scenario.cli_args (Some 600000%float)) 600000 (Cli.mkVariant "4:4:4" false true)
    5 0.596875 0.60625 596875 0.596875
  = (Ret (596875, 0.596875%float), [])
  /\
  Browser.search unit Z (fun n => n) Scenario.stub_toBlob tt 600000
    6 0.5875 0.60625 587500 0.5875 6
  = (Ret (587500, 0.5875%float, 6), []).
Proof.
  split; [ | split].
  - apply (proj1 (proj2 (proj2 (proj1 C4_at_most_ten_probes_until_the_interval_is_narrow
             Z (fun n => n) Scenario.stub_encode "in.jpg"
             (Scenario.cli_args (Some 600000%float)))))).
    reflexivity.
  - apply (proj1 (proj2 (proj1 C4_at_most_ten_probes_until_the_interval_is_narrow
             Z (fun n => n) Scenario.stub_encode "in.jpg"
             (Scenario.cli_args (Some 600000%float))))).
    reflexivity.
  - apply (proj1 (proj2 (proj2 C4_at_most_ten_probes_until_the_interval_is_narrow
             unit Z (fun n => n) Scenario.stub_toBlob tt))).
    reflexivity.
Defined.

(** C4 as stated fails in the browser search: in Scenario A, after four
    probes the interval [0.5875, 0.60625] is wider than 0.015 and six probes
    remain, yet the search stops (its threshold is 0.02) and returns
    fidelity 0.5875 with [tried = 6], where the CLI search probes a fifth
    time. *)
Lemma C4_browser_counterexample :
  (0.015 <? 0.60625 - 0.5875)%float = true /\
  Browser.search unit Z (fun n => n) Scenario.stub_toBlob tt 600000
    6 0.5875 0.60625 587500 0.5875 6
  = (Ret (587500, 0.5875%float, 6), []) /\
  Scenario.browser_run (Some 600000%float)
  = (Ret (Browser.mkResult Z 587500 0.5875 6 true),
     [ Browser.mkAttempt Z 0.85 850000; Browser.mkAttempt Z 0.55 550000;
       Browser.mkAttempt Z 0.7 700000; Browser.mkAttempt Z 0.625 625000;
       Browser.mkAttempt Z 0.5875 587500; Browser.mkAttempt Z 0.60625 606250 ]) /\
  snd (Cli.search Z (fun n => n) Scenario.stub_encode "in.jpg"
         (Scenario.cli_args (Some 600000%float)) 600000 (Cli.mkVariant "4:4:4" false true)
         6 0.5875 0.60625 587500 0.5875)
  = [ Cli.mkAttempt Z 0.596875 (Cli.mkVariant "4:4:4" false true) 596875 ].
Proof. vm_compute. repeat split; reflexivity. Qed.

(** ** Budget respect *)

(** C5.  Whenever a byte target is configured and the result has
    [pass = true], the returned buffer satisfies [length <= target], in the
    CLI selector and in the browser search; when the target is the Number of
    an integer [tz] and both are below 2^53, that is [length <= tz] on the
    integers. *)
Theorem C5_pass_implies_size_within_target :
  (forall (Buf : Type) (length : Buf -> Z)
          (encode : string -> Cli.Args.t -> float -> option Cli.Variant -> Buf)
          (inputPath : string) (args : Cli.Args.t) (t : float) (r : Cli.Result Buf),
     Cli.target_of args = Some t ->
     fst (Cli.compressWithTarget Buf length encode inputPath args) = Ret r ->
     Cli.pass Buf r = true ->
     Cli.fits Buf length t (Cli.buf Buf r) = true /\
     (forall tz : Z, t = JS.Z2F tz -> 0 <= tz < 2 ^ 53 ->
        0 <= length (Cli.buf Buf r) < 2 ^ 53 -> length (Cli.buf Buf r) <= tz))
  /\
  (forall (Canvas Blob : Type) (size : Blob -> Z) (toBlob : Canvas -> float -> Blob)
          (canvas : Canvas) (opts : Browser.Opts) (t : float) (r : Browser.Result Blob),
     Browser.target_of opts = Some t ->
     fst (Browser.encodeCanvasFitUnder Canvas Blob size toBlob canvas opts) = Ret r ->
     Browser.pass Blob r = true ->
     Browser.fits Blob size t (Browser.blob Blob r) = true /\
     (forall tz : Z, t = JS.Z2F tz -> 0 <= tz < 2 ^ 53 ->
        0 <= size (Browser.blob Blob r) < 2 ^ 53 -> size (Browser.blob Blob r) <= tz)).
Proof.
  split.
  - intros Buf length encode inputPath args t r Ht Er Hp.
    pose proof (compress_pass_fits Buf length encode inputPath args t r Ht Er Hp) as F.
    split; [exact F | ]. intros tz -> Htz Hl. unfold Cli.fits in F.
    rewrite (Z2F_leb _ _ Hl Htz) in F. apply Z.leb_le. exact F.
  - intros Canvas Blob size toBlob canvas opts t r Ht Er Hp.
    pose proof (fitUnder_pass_fits Canvas Blob size toBlob canvas opts t r Ht Er Hp) as F.
    split; [exact F | ]. intros tz -> Htz Hl. unfold Browser.fits in F.
    rewrite (Z2F_leb _ _ Hl Htz) in F. apply Z.leb_le. exact F.
Qed.

(** C5 at work: with a target of 900,000 bytes the stub's base encode of
    850,000 bytes passes in the CLI; with 600,000 bytes the browser's fit
    of 587,500 bytes passes. *)
Lemma C5_witness :
  (Cli.fits Z (fun n => n) 900000 850000 = true /\
   (forall tz : Z, 900000%float = JS.Z2F tz -> 0 <= tz < 2 ^ 53 ->
      0 <= 850000 < 2 ^ 53 -> 850000 <= tz))
  /\
  (Browser.fits Z (fun n => n) 600000 587500 = true /\
   (forall tz : Z, 600000%float = JS.Z2F tz -> 0 <= tz < 2 ^ 53 ->
      0 <= 587500 < 2 ^ 53 -> 587500 <= tz)).
Proof.
  split.
  - apply (proj1 C5_pass_implies_size_within_target Z (fun n => n) Scenario.stub_encode
             "in.jpg" (Scenario.cli_args (Some 900000%float)) 900000%float
             (Cli.mkResult Z 850000 0.85 (Cli.mkVariant "4:4:4" false true) true)).
    + reflexivity.
    + reflexivity.
    + reflexivity.
  - apply (proj2 C5_pass_implies_size_within_target unit Z (fun n => n) Scenario.stub_toBlob tt
             (Browser.mkOpts (Some 600000%float) (Some 0.85%float) (Some 0.55%float))
             600000%float (Browser.mkResult Z 587500 0.5875 6 true)).
    + reflexivity.
    + reflexivity.
    + reflexivity.
Defined.

(** ** Configuration *)

(** C6 (amended).  A configuration whose minimum quality is above its
    quality is not an invalid configuration: the two qualities are never
    compared.  [parseArgs] accepts any two finite qualities, whatever their
    order: a command line that it accepts is still accepted when
    [--quality q --min-quality m] is appended, for any finite [q] and [m];
    the qualities returned are [q] and [m], each clamped into [[0.1, 1.0]]
    on its own, and the other arguments are unchanged.  It rejects a command
    line for the known reasons only, none of which compares the two.
    [compressWithTarget] has no check of them either: called on arguments
    that [parseArgs] returned, with an encoder that returns, it makes at
    least one encode and returns a result. *)
Theorem C6_minimum_above_quality_is_not_rejected :
  (forall (argv : list string) (args : Cli.Args.t) (q m : string),
     Cli.parseArgs argv = Ret args ->
     JS.isFinite (JS.Number q) = true -> JS.isFinite (JS.Number m) = true ->
     Cli.parseArgs (argv ++ ["--quality"; q; "--min-quality"; m])%list
     = Ret (Cli.Args.set_minQuality (JS.Math_max 0.1 (JS.Math_min 1.0 (JS.Number m)))
              (Cli.Args.set_quality (JS.Math_max 0.1 (JS.Math_min 1.0 (JS.Number q))) args)))
  /\
  (forall (argv : list string) (msg : string),
     Cli.parseArgs argv = Die msg -> Cli.known_rejection msg = true)
  /\
  (forall (argv : list string) (args : Cli.Args.t),
     Cli.parseArgs argv = Ret args ->
     forall (Buf : Type) (length : Buf -> Z)
            (encode : string -> Cli.Args.t -> float -> option Cli.Variant -> Buf)
            (inputPath : string),
     exists r a l,
       Cli.compressWithTarget Buf length encode inputPath args = (Ret r, a :: l)).
Proof.
  split; [ | split].
  - intros argv args q m Hp Fq Fm. apply parseArgs_qualities; assumption.
  - apply parseArgs_die.
  - intros argv args Hp Buf length encode inputPath.
    destruct (parseArgs_valid argv args Hp) as [Vq Vm].
    apply compress_returns; assumption.
Qed.

(** C6 at work on [--fit-under 400kb a.jpg], followed by
    [--quality 0.5 --min-quality 0.9]: the command line is accepted, with
    the minimum quality 0.9 above the quality 0.5. *)
Lemma C6_witness :
  Cli.parseArgs ["--fit-under"; "400kb"; "a.jpg"; "--quality"; "0.5"; "--min-quality"; "0.9"]
  = Ret (Cli.Args.set_inputs ["a.jpg"]
           (Cli.Args.set_maxSizeBytes (Some 409600%float)
              (Cli.Args.set_fitUnder (Some "400kb")
                 (Cli.Args.set_minQuality 0.9
                    (Cli.Args.set_quality 0.5 Cli.Args.defaults))))).
Proof.
  apply (proj1 C6_minimum_above_quality_is_not_rejected
           ["--fit-under"; "400kb"; "a.jpg"]
           (Cli.Args.set_inputs ["a.jpg"]
              (Cli.Args.set_maxSizeBytes (Some 409600%float)
                 (Cli.Args.set_fitUnder (Some "400kb") Cli.Args.defaults)))
           "0.5" "0.9").
  - vm_compute. reflexivity.
  - reflexivity.
  - reflexivity.
Defined.

(** C6 as stated fails: with [--quality 0.5 --min-quality 0.9 --fit-under
    400kb] the minimum quality is strictly above the quality, [parseArgs]
    accepts the command line, and [compressWithTarget] encodes (under
    Scenario A's stub: for each of the four variants once at 0.5 and once at
    0.9, eight encodes) and returns a result. *)
Lemma C6_counterexample :
  let argv := ["--quality"; "0.5"; "--min-quality"; "0.9"; "--fit-under"; "400kb"; "a.jpg"] in
  exists args,
    Cli.parseArgs argv = Ret args /\
    Cli.Args.quality args = 0.5%float /\ Cli.Args.minQuality args = 0.9%float /\
    (Cli.Args.quality args <? Cli.Args.minQuality args)%float = true /\
    fst (Cli.compressWithTarget Z (fun n => n) Scenario.stub_encode "a.jpg" args)
    = Ret (Cli.mkResult Z 500000 0.5 (Cli.mkVariant "4:4:4" false true) false) /\
    map (Cli.fidelity Z)
        (snd (Cli.compressWithTarget Z (fun n => n) Scenario.stub_encode "a.jpg" args))
    = [0.5; 0.9; 0.5; 0.9; 0.5; 0.9; 0.5; 0.9]%float.
Proof.
  cbv zeta. eexists. split; [vm_compute; reflexivity | ].
  vm_compute. repeat split; reflexivity.
Qed.

(** ** Passthrough *)

(** C7 (amended).  When no byte target is configured, exactly one encode is
    made, at the base fidelity, and the result has [pass = true] and
    [usedQuality] equal to that fidelity whatever the size.  In the CLI the
    fidelity is [args.quality] (that [parseArgs] has clamped) and the encode
    uses the subsampling, progressive and metadata settings of [args]: the
    tool's [encodeAtQuality] hands them to sharp.  They are those of the
    table's first variant for the default arguments.  In the browser the
    fidelity is the clamped base quality. *)
Theorem C7_without_target_one_encode_with_the_configured_knobs :
  (forall (Buf : Type) (length : Buf -> Z)
          (encode : string -> Cli.Args.t -> float -> option Cli.Variant -> Buf)
          (inputPath : string) (args : Cli.Args.t),
     Cli.target_of args = None ->
     let configured :=
       Cli.mkVariant (Cli.Args.subsample args) (Cli.Args.progressive args)
                     (Cli.Args.stripMetadata args) in
     let buf := encode inputPath args (Cli.Args.quality args) None in
     Cli.compressWithTarget Buf length encode inputPath args
     = (Ret (Cli.mkResult Buf buf (Cli.Args.quality args) configured true),
        [Cli.mkAttempt Buf (Cli.Args.quality args) configured buf]))
  /\
  (forall (Buf : Type) (sharp : string -> bool -> Cli.JpegOpts -> Buf)
          (inputPath : string) (args : Cli.Args.t) (q : float),
     Cli.encodeAtQuality sharp inputPath args q None
     = sharp inputPath (negb (Cli.Args.stripMetadata args))
         (Cli.mkJpegOpts (JS.Math_round (q * 100)%float) (Cli.Args.progressive args)
                         (Cli.Args.subsample args) true true))
  /\
  Cli.effective Cli.Args.defaults None = Cli.mkVariant "4:4:4" false true
  /\
  (forall (Canvas Blob : Type) (size : Blob -> Z) (toBlob : Canvas -> float -> Blob)
          (canvas : Canvas) (opts : Browser.Opts),
     Browser.target_of opts = None ->
     Browser.encodeCanvasFitUnder Canvas Blob size toBlob canvas opts
     = (Ret (Browser.mkResult Blob (toBlob canvas (Browser.base_of opts))
               (Browser.base_of opts) 1 true),
        [Browser.mkAttempt Blob (Browser.base_of opts)
           (toBlob canvas (Browser.base_of opts))])).
Proof.
  split; [ | split; [ | split]].
  - intros Buf length encode inputPath args Ht. cbv zeta.
    apply (compress_passthrough Buf length encode inputPath args Ht).
  - reflexivity.
  - reflexivity.
  - intros Canvas Blob size toBlob canvas opts Ht.
    apply (fitUnder_one_shot Canvas Blob size toBlob canvas opts Ht).
Qed.

(** C7 at work on Scenario C (no target, defaults): one encode at 0.85 with
    the first variant's knobs, [pass = true]; the same in the browser. *)
Lemma C7_scenario_C_witness :
  Scenario.cli_run None
  = (Ret (Cli.mkResult Z 850000 0.85 (Cli.mkVariant "4:4:4" false true) true),
     [Cli.mkAttempt Z 0.85 (Cli.mkVariant "4:4:4" false true) 850000])
  /\
  Scenario.browser_run None
  = (Ret (Browser.mkResult Z 850000 0.85 1 true), [Browser.mkAttempt Z 0.85 850000]).
Proof.
  split.
  - apply (proj1 C7_without_target_one_encode_with_the_configured_knobs
             Z (fun n => n) Scenario.stub_encode "in.jpg" (Scenario.cli_args None)).
    reflexivity.
  - apply (proj2 (proj2 (proj2 C7_without_target_one_encode_with_the_configured_knobs))
             unit Z (fun n => n) Scenario.stub_toBlob tt
             (Browser.mkOpts None (Some 0.85%float) (Some 0.55%float))).
    reflexivity.
Defined.

(** C7 as stated fails on [--subsample 4:2:0 --progressive] without a
    target: the single encode is made with 4:2:0 subsampling and progressive
    scan, which is not the table's first variant (4:4:4, baseline). *)
Lemma C7_counterexample :
  let argv := ["--subsample"; "4:2:0"; "--progressive"; "a.jpg"] in
  exists args,
    Cli.parseArgs argv = Ret args /\
    Cli.target_of args = None /\
    Cli.compressWithTarget Z (fun n => n) Scenario.stub_encode "a.jpg" args
    = (Ret (Cli.mkResult Z 850000 0.85 (Cli.mkVariant "4:2:0" true true) true),
       [Cli.mkAttempt Z 0.85 (Cli.mkVariant "4:2:0" true true) 850000]) /\
    hd_error Cli.variants = Some (Cli.mkVariant "4:4:4" false true) /\
    Cli.variant_eqb (Cli.mkVariant "4:2:0" true true) (Cli.mkVariant "4:4:4" false true)
    = false.
Proof.
  cbv zeta. eexists. split; [vm_compute; reflexivity | ].
  vm_compute. repeat split; reflexivity.
Qed.

(** ** The size-target normalizer *)

(** C8 (amended).  [parseSizeToBytes] trims and lower-cases its argument,
    and accepts the two forms of the specification, and these only.  A
    string of bare digits yields the Number nearest to the integer they
    write: below 2^53 it compares with a byte count as that integer does;
    beyond the range of Numbers it is [Infinity].  A numeric value (digits,
    optionally a point and digits) immediately followed by [kb], [mb] or
    [gb] yields the floor of the value times 1024, 1024^2 or 1024^3.  Every
    other form is a configuration error, with the message
    [Invalid --max-size].  A value of zero is accepted and yields 0, so the
    output is not always positive; "no constraint" is produced by
    [parseArgs], when no size or an empty size is given. *)
Theorem C8_size_target_normalizer :
  (forall (s : string) (n : float),
     Cli.parseSizeToBytes s = Ret n <->
     SizeForms.bytes_of (Str.toLowerCase (Str.trim s)) n)
  /\
  (forall s : string,
     (exists n, Cli.parseSizeToBytes s = Ret n) \/
     Cli.parseSizeToBytes s
     = Die ("Invalid --max-size " ++ Str.dquote ++ s ++ Str.dquote
            ++ " (examples: 6mb, 5500kb, 5000000)"))
  /\
  (forall s : string,
     let raw := Str.toLowerCase (Str.trim s) in
     let z := Str.digits_val 10 Str.digit_val raw 0 in
     SizeForms.digits raw ->
     Cli.parseSizeToBytes s = Ret (JS.Z2F z) /\ 0 <= z /\
     (z < 2 ^ 53 ->
      forall len : Z, 0 <= len < 2 ^ 53 -> (JS.Z2F len <=? JS.Z2F z)%float = (len <=? z)%Z))
  /\
  (Cli.mult_of "kb" = 1024%float /\ Cli.mult_of "mb" = 1048576%float /\
   Cli.mult_of "gb" = 1073741824%float)
  /\
  (Cli.parseSizeToBytes "5000000" = Ret 5000000%float /\
   Cli.parseSizeToBytes "600kb" = Ret 614400%float /\
   Cli.parseSizeToBytes " 6MB " = Ret 6291456%float /\
   Cli.parseSizeToBytes "1Gb" = Ret 1073741824%float /\
   Cli.parseSizeToBytes "1.5mb" = Ret 1572864%float /\
   Cli.parseSizeToBytes "0.3kb" = Ret 307%float)
  /\
  (Cli.parseSizeToBytes "0" = Ret 0%float /\ Cli.parseSizeToBytes "0kb" = Ret 0%float /\
   Cli.parseSizeToBytes "0.0001kb" = Ret 0%float /\
   Cli.parseSizeToBytes (SizeForms.nines 400) = Ret infinity)
  /\
  ((exists msg, Cli.parseSizeToBytes "-5" = Die msg) /\
   (exists msg, Cli.parseSizeToBytes "6 mb" = Die msg) /\
   (exists msg, Cli.parseSizeToBytes "5e3" = Die msg) /\
   (exists msg, Cli.parseSizeToBytes "600k" = Die msg))
  /\
  (forall (argv : list string) (raw : Cli.Args.t),
     Cli.scan argv Cli.Args.defaults = Ret raw ->
     Cli.size_of raw = None \/ Cli.size_of raw = Some EmptyString ->
     forall args, Cli.parseArgs argv = Ret args -> Cli.Args.maxSizeBytes args = None).
Proof.
  split; [ | split; [ | split; [ | split; [ | split; [ | split; [ | split]]]]]].
  - apply parseSizeToBytes_forms.
  - apply parseSizeToBytes_cases.
  - intros s. cbv zeta. intros D.
    pose proof D as A. apply all_digits_every in A.
    split; [ | split].
    + unfold Cli.parseSizeToBytes. rewrite A, (Number_digits _ A). reflexivity.
    + apply digits_val_nonneg; [apply D | lia].
    + intros Hz len Hl. apply Z2F_leb; [exact Hl | ].
      split; [apply digits_val_nonneg; [apply D | lia] | exact Hz].
  - repeat split; reflexivity.
  - vm_compute. repeat split; reflexivity.
  - vm_compute. repeat split; reflexivity.
  - repeat split; eexists; vm_compute; reflexivity.
  - intros argv raw Es Hsize args. rewrite (parseArgs_after_scan argv raw Es). unfold bindO.
    destruct (Cli.clamp01 (Cli.Args.quality raw)); try discriminate.
    destruct (Cli.clamp01 (Cli.Args.minQuality raw)); try discriminate.
    destruct (Cli.normalizeSubsample (Cli.Args.subsample raw)); try discriminate.
    destruct Hsize as [-> | ->]; intros E; injection E as <-; reflexivity.
Qed.

(** C8 at work on ["600kb"]: a numeric value and a unit, hence
    floor(600 * 1024); on ["5000000"], bare digits, with which a length of
    614,400 bytes compares as with the integer; and on a command line
    without a size, hence no constraint. *)
Lemma C8_witness :
  Cli.parseSizeToBytes "600kb" = Ret (JS.Math_floor (JS.Number "600" * 1024)%float)
  /\
  (JS.Z2F 614400 <=? JS.Z2F 5000000)%float = (614400 <=? 5000000)%Z
  /\
  (forall args, Cli.parseArgs ["a.jpg"] = Ret args -> Cli.Args.maxSizeBytes args = None).
Proof.
  split; [ | split].
  - apply (proj2 (proj1 C8_size_target_normalizer "600kb" _)).
    apply (SizeForms.with_unit "600" "kb" 1024%float); [ | exact SizeForms.kb].
    apply SizeForms.whole. split; [discriminate | reflexivity].
  - destruct (proj1 (proj2 (proj2 C8_size_target_normalizer)) "5000000") as (_ & _ & H).
    + split; [discriminate | reflexivity].
    + apply H; [reflexivity | lia].
  - apply (proj2 (proj2 (proj2 (proj2 (proj2 (proj2 (proj2 C8_size_target_normalizer))))))
             ["a.jpg"] (Cli.Args.set_inputs ["a.jpg"] Cli.Args.defaults)).
    + reflexivity.
    + left. reflexivity.
Defined.

(** C8 as stated fails on ["0"]: the output is 0, which is neither a
    positive integer nor "no constraint", and no error is raised;
    [parseArgs] stores it in [maxSizeBytes], and the selector then treats it
    as no target. *)
Lemma C8_counterexample :
  Cli.parseSizeToBytes "0" = Ret 0%float /\
  (0 <? 0)%float = false /\
  exists args,
    Cli.parseArgs ["--max-size"; "0"; "a.jpg"] = Ret args /\
    Cli.Args.maxSizeBytes args = Some 0%float /\
    Cli.target_of args = None.
Proof.
  split; [vm_compute; reflexivity | ]. split; [reflexivity | ].
  eexists. split; [vm_compute; reflexivity | ]. split; reflexivity.
Qed.

(** ** Clamping *)

(** C9.  Every fidelity passed to an encode call lies within [0.1, 1.0].
    [clamp01] maps every finite quality into that range (and rejects the
    others), the browser's [clamp] every quality that is not NaN.  Hence
    every encode of a CLI run on arguments that [parseArgs] returned, and
    every encode of the browser's [encodeCanvasFitUnder] and
    [encodeCanvasSmart], binary-search midpoints included, is made at a
    fidelity of [0.1, 1.0]. *)
Theorem C9_every_encode_fidelity_is_within_range :
  (forall x : float,
     JS.isFinite x = true ->
     exists q, Cli.clamp01 x = Ret q /\ JS.valid_fidelity q = true)
  /\
  (forall x : float,
     is_nan x = false -> JS.valid_fidelity (Browser.clamp x 0.1 1.0) = true)
  /\
  (forall (argv : list string) (args : Cli.Args.t),
     Cli.parseArgs argv = Ret args ->
     forall (Buf : Type) (length : Buf -> Z)
            (encode : string -> Cli.Args.t -> float -> option Cli.Variant -> Buf)
            (inputPath : string) (a : Cli.Attempt Buf),
       In a (snd (Cli.compressWithTarget Buf length encode inputPath args)) ->
       JS.valid_fidelity (Cli.fidelity Buf a) = true)
  /\
  (forall (Canvas Blob : Type) (size : Blob -> Z) (toBlob : Canvas -> float -> Blob)
          (canvas : Canvas) (opts : Browser.Opts),
     is_nan (Browser.nullish (Browser.baseQuality opts) 0.85) = false ->
     is_nan (Browser.nullish (Browser.minQuality opts) 0.55) = false ->
     forall a : Browser.Attempt Blob,
       In a (snd (Browser.encodeCanvasFitUnder Canvas Blob size toBlob canvas opts)) ->
       JS.valid_fidelity (Browser.fidelity Blob a) = true)
  /\
  (forall (Canvas Blob : Type) (size : Blob -> Z) (toBlob : Canvas -> float -> Blob)
          (canvas : Canvas) (state : Browser.State),
     is_nan (Browser.quality state) = false ->
     forall a : Browser.Attempt Blob,
       In a (snd (Browser.encodeCanvasSmart Canvas Blob size toBlob state canvas)) ->
       JS.valid_fidelity (Browser.fidelity Blob a) = true).
Proof.
  split; [ | split; [ | split; [ | split]]].
  - intros x F. destruct (clamp01_cases x) as [H | (msg & E)]; [exact H | ].
    unfold Cli.clamp01 in E. rewrite F in E. discriminate E.
  - intros x N. apply clamp_valid. exact N.
  - intros argv args Hp Buf length encode inputPath a.
    destruct (parseArgs_valid argv args Hp) as [Vq _].
    apply compress_log_valid. exact Vq.
  - intros Canvas Blob size toBlob canvas opts. apply fitUnder_log_valid.
  - intros Canvas Blob size toBlob canvas state. apply smart_log_valid.
Qed.

(** C9 at work on [--quality 7 --min-quality -3 --fit-under 600kb] and on
    browser options [{baseQuality: 7, minQuality: -3}]: the qualities are
    clamped to 1.0 and 0.1, and the first probe is at their midpoint. *)
Lemma C9_witness :
  (exists q, Cli.clamp01 7 = Ret q /\ JS.valid_fidelity q = true)
  /\
  JS.valid_fidelity (Browser.clamp (-3) 0.1 1.0) = true
  /\
  JS.valid_fidelity
    (Cli.fidelity Z (Cli.mkAttempt Z 0.55 (Cli.mkVariant "4:4:4" false true) 550000)) = true
  /\
  JS.valid_fidelity (Browser.fidelity Z (Browser.mkAttempt Z 0.55 550000)) = true.
Proof.
  split; [ | split; [ | split]].
  - apply (proj1 C9_every_encode_fidelity_is_within_range 7%float). reflexivity.
  - apply (proj1 (proj2 C9_every_encode_fidelity_is_within_range) (-3)%float). reflexivity.
  - apply (proj1 (proj2 (proj2 C9_every_encode_fidelity_is_within_range))
             ["--quality"; "7"; "--min-quality"; "-3"; "--fit-under"; "600kb"; "a.jpg"]
             (Cli.Args.set_inputs ["a.jpg"]
                (Cli.Args.set_maxSizeBytes (Some 614400%float)
                   (Cli.Args.set_fitUnder (Some "600kb")
                      (Cli.Args.set_minQuality 0.1
                         (Cli.Args.set_quality 1 Cli.Args.defaults)))))
             eq_refl Z (fun n => n) Scenario.stub_encode "a.jpg").
    vm_compute. tauto.
  - apply (proj1 (proj2 (proj2 (proj2 C9_every_encode_fidelity_is_within_range)))
             unit Z (fun n => n) Scenario.stub_toBlob tt
             (Browser.mkOpts (Some 600000%float) (Some 7%float) (Some (-3)%float))
             eq_refl eq_refl).
    vm_compute. tauto.
Defined.

(** ** Metadata *)

(** C10.  Whenever a byte target is configured, every encode attempt of
    [compressWithTarget] is made with [stripMetadata = true], the value that
    each entry of the variant table hard-codes: the tool's [encodeAtQuality]
    then never asks sharp to keep the metadata, and two runs that differ
    only in [args.stripMetadata] have the same result and the same log.
    Without a target the setting reaches sharp, which is asked to keep the
    metadata exactly when [args.stripMetadata] is false. *)
Theorem C10_metadata_setting_matters_only_without_target :
  (forall (Buf : Type) (length : Buf -> Z)
          (encode : string -> Cli.Args.t -> float -> option Cli.Variant -> Buf)
          (inputPath : string) (args : Cli.Args.t) (t : float) (a : Cli.Attempt Buf),
     Cli.target_of args = Some t ->
     In a (snd (Cli.compressWithTarget Buf length encode inputPath args)) ->
     In (Cli.knobs Buf a) Cli.variants /\ Cli.stripMetadata (Cli.knobs Buf a) = true)
  /\
  (forall (Buf : Type) (sharp : string -> bool -> Cli.JpegOpts -> Buf)
          (inputPath : string) (args : Cli.Args.t) (q : float) (v : Cli.Variant),
     In v Cli.variants ->
     Cli.encodeAtQuality sharp inputPath args q (Some v)
     = sharp inputPath false
         (Cli.mkJpegOpts (JS.Math_round (q * 100)%float) (Cli.progressive v)
                         (Cli.subsample v) true true))
  /\
  (forall (Buf : Type) (length : Buf -> Z) (sharp : string -> bool -> Cli.JpegOpts -> Buf)
          (inputPath : string) (args : Cli.Args.t) (t : float) (b : bool),
     Cli.target_of args = Some t ->
     Cli.compressWithTarget Buf length (Cli.encodeAtQuality sharp) inputPath
       (Cli.Args.set_stripMetadata b args)
     = Cli.compressWithTarget Buf length (Cli.encodeAtQuality sharp) inputPath args)
  /\
  (forall (Buf : Type) (length : Buf -> Z) (sharp : string -> bool -> Cli.JpegOpts -> Buf)
          (inputPath : string) (args : Cli.Args.t),
     Cli.target_of args = None ->
     exists r,
       fst (Cli.compressWithTarget Buf length (Cli.encodeAtQuality sharp) inputPath args)
       = Ret r /\
       Cli.buf Buf r
       = sharp inputPath (negb (Cli.Args.stripMetadata args))
           (Cli.jpegOpts args (Cli.Args.quality args)) /\
       Cli.stripMetadata (Cli.used Buf r) = Cli.Args.stripMetadata args).
Proof.
  split; [ | split; [ | split]].
  - intros Buf length encode inputPath args t a Ht Ha.
    pose proof (compress_log_variant Buf length encode inputPath args t Ht a Ha) as Hin.
    split; [exact Hin | ].
    unfold Cli.variants in Hin.
    destruct Hin as [<- | [<- | [<- | [<- | []]]]]; reflexivity.
  - intros Buf sharp inputPath args q v Hin.
    unfold Cli.variants in Hin.
    destruct Hin as [<- | [<- | [<- | [<- | []]]]]; reflexivity.
  - intros Buf length sharp inputPath args t b Ht.
    apply (compress_strip Buf length sharp inputPath args b t Ht).
  - intros Buf length sharp inputPath args Ht.
    rewrite (compress_passthrough Buf length (Cli.encodeAtQuality sharp) inputPath args Ht).
    eexists. split; [reflexivity | ]. split; reflexivity.
Qed.

(** C10 at work with a stub of sharp for which kept metadata costs 1,000
    bytes: with a target of 900,000 bytes, [--keep-metadata] changes
    nothing; without a target it gives 851,000 bytes instead of 850,000. *)
Lemma C10_witness :
  Cli.compressWithTarget Z (fun n => n) (Cli.encodeAtQuality Scenario.stub_sharp) "in.jpg"
    (Cli.Args.set_stripMetadata false (Scenario.cli_args (Some 900000%float)))
  = Cli.compressWithTarget Z (fun n => n) (Cli.encodeAtQuality Scenario.stub_sharp) "in.jpg"
      (Scenario.cli_args (Some 900000%float))
  /\
  (exists r,
     fst (Cli.compressWithTarget Z (fun n => n) (Cli.encodeAtQuality Scenario.stub_sharp)
            "in.jpg" (Cli.Args.set_stripMetadata false (Scenario.cli_args None)))
     = Ret r /\
     Cli.buf Z r = 851000 /\
     Cli.stripMetadata (Cli.used Z r) = false).
Proof.
  split.
  - apply (proj1 (proj2 (proj2 C10_metadata_setting_matters_only_without_target))
             Z (fun n => n) Scenario.stub_sharp "in.jpg"
             (Scenario.cli_args (Some 900000%float)) 900000%float false).
    reflexivity.
  - apply (proj2 (proj2 (proj2 C10_metadata_setting_matters_only_without_target))
             Z (fun n => n) Scenario.stub_sharp "in.jpg"
             (Cli.Args.set_stripMetadata false (Scenario.cli_args None))).
    reflexivity.
Defined.

End Claims.


(** * Further properties of the two tools *)

Module Properties.

Import Binary64Facts CliFacts CliResults BrowserFacts BrowserResults StringFacts ParseFacts.
Import HtmlFacts NamesFacts ScanFacts ReturnFacts BlobFacts ParseMore PercentFacts CallFacts.
Import FilesFacts MainFacts ClampFacts ImagesFacts MidpointFacts ProbeFacts BlobCalls NamesMore SampleFacts CountFacts MainMore.

(** ** The command line *)

(** X1.  A command line of words none of which starts with two dashes is
    accepted by [parseArgs]: the words are the inputs, in their order, and
    every option has its default value. *)
Theorem X1_plain_words_are_the_inputs (ws : list string) :
  forallb Words.plain ws = true ->
  Cli.parseArgs ws = Ret (Cli.Args.set_inputs ws Cli.Args.defaults).
Proof. intros H. apply parseArgs_plain. exact H. Qed.

(** X1 at work on three words, one of them with a single dash. *)
Lemma X1_witness :
  Cli.parseArgs ["a.jpg"; "-r"; "my photos"]%string
  = Ret (Cli.Args.set_inputs ["a.jpg"; "-r"; "my photos"]%string Cli.Args.defaults).
Proof.
  apply (X1_plain_words_are_the_inputs ["a.jpg"; "-r"; "my photos"]%string). reflexivity.
Defined.

(** X2.  For an option that takes a value, [--k=v] is read as [--k v]:
    the command lines that start with the one and with the other are parsed
    alike.  An inline value is cut at its first equals sign: what follows
    it is dropped. *)
Theorem X2_inline_value_is_the_next_word
        (k : string) (f : string -> Cli.Args.t -> Cli.Args.t) (v tl : string)
        (rest : list string) :
  Cli.option_handler k = Some (Cli.Valued f) ->
  Str.every Words.not_equals v = true ->
  tl = EmptyString \/ (exists t, tl = String "=" t) ->
  Cli.parseArgs ((k ++ String "=" (v ++ tl))%string :: rest) = Cli.parseArgs (k :: v :: rest).
Proof.
  intros Hk Hv Htl. destruct (scan_valued k f v tl rest Cli.Args.defaults Hk) as [A B].
  unfold Cli.parseArgs. rewrite (A Hv Htl), B. reflexivity.
Qed.

(** X2 at work: [--suffix=-small=x] sets the suffix [-small]. *)
Lemma X2_witness :
  Cli.parseArgs ["--suffix=-small=x"; "a.jpg"]%string
  = Cli.parseArgs ["--suffix"; "-small"; "a.jpg"]%string.
Proof.
  apply (X2_inline_value_is_the_next_word "--suffix" Cli.Args.set_suffix "-small" "=x"
           ["a.jpg"%string]).
  - reflexivity.
  - reflexivity.
  - right. exists "x"%string. reflexivity.
Defined.

(** X3.  The two qualities are checked first: when the options read leave
    a quality or a minimum quality that is not a finite number, [parseArgs]
    dies with the message of [clamp01], which names [--quality] for either,
    whatever the subsampling and the sizes are. *)
Theorem X3_quality_is_checked_first (argv : list string) (raw : Cli.Args.t) :
  Cli.scan argv Cli.Args.defaults = Ret raw ->
  JS.isFinite (Cli.Args.quality raw) = false \/ JS.isFinite (Cli.Args.minQuality raw) = false ->
  Cli.parseArgs argv = Die "Invalid --quality (must be number 0.1..1.0)".
Proof. intros Es H. apply (parseArgs_invalid_quality argv raw Es H). Qed.

(** X3 at work on a minimum quality that is not a number, together with
    a subsampling that does not exist. *)
Lemma X3_witness :
  Cli.parseArgs ["--min-quality"; "high"; "--subsample"; "4:1:1"]%string
  = Die "Invalid --quality (must be number 0.1..1.0)".
Proof.
  apply (X3_quality_is_checked_first
           ["--min-quality"; "high"; "--subsample"; "4:1:1"]%string
           (Cli.Args.set_subsample "4:1:1"
              (Cli.Args.set_minQuality (JS.Number "high") Cli.Args.defaults))).
  - reflexivity.
  - right. reflexivity.
Defined.

(** X4.  [--fit-under] takes precedence over [--max-size]: when it is
    given, the byte target is the size it writes, and an empty
    [--fit-under] leaves the run without a target, whatever [--max-size]
    is. *)
Theorem X4_fit_under_takes_precedence
        (argv : list string) (raw args : Cli.Args.t) (s : string) :
  Cli.scan argv Cli.Args.defaults = Ret raw ->
  Cli.Args.fitUnder raw = Some s ->
  Cli.parseArgs argv = Ret args ->
  match s with
  | EmptyString => Cli.Args.maxSizeBytes args = None
  | _ => exists n, Cli.parseSizeToBytes s = Ret n /\ Cli.Args.maxSizeBytes args = Some n
  end.
Proof. intros Es Hf Hp. apply (parseArgs_fit_under argv raw args s Es Hf Hp). Qed.

(** X4 at work: [--max-size 6mb --fit-under 600kb] gives 614,400 bytes. *)
Lemma X4_witness :
  exists n, Cli.parseSizeToBytes "600kb" = Ret n /\
    Cli.Args.maxSizeBytes
      (Cli.Args.set_maxSizeBytes (Some 614400%float)
         (Cli.Args.set_fitUnder (Some "600kb"%string)
            (Cli.Args.set_maxSize (Some "6mb"%string) Cli.Args.defaults))) = Some n.
Proof.
  apply (X4_fit_under_takes_precedence
           ["--max-size"; "6mb"; "--fit-under"; "600kb"]%string
           (Cli.Args.set_fitUnder (Some "600kb"%string)
              (Cli.Args.set_maxSize (Some "6mb"%string) Cli.Args.defaults))
           (Cli.Args.set_maxSizeBytes (Some 614400%float)
              (Cli.Args.set_fitUnder (Some "600kb"%string)
                 (Cli.Args.set_maxSize (Some "6mb"%string) Cli.Args.defaults)))
           "600kb"%string).
  - reflexivity.
  - reflexivity.
  - vm_compute. reflexivity.
Defined.

(** ** The encodes of the CLI *)

(** X5.  Every encode of a run on arguments that [parseArgs] returned is
    a call of sharp with well-formed options: the chroma subsampling is
    [4:4:4] or [4:2:0], the quality is an integer from 10 to 100, and
    [mozjpeg] and [optimizeCoding] are on.  The options are those that
    [jpegOpts] makes for the knobs and the fidelity of the attempt. *)
Theorem X5_sharp_is_called_with_well_formed_options
        (argv : list string) (args : Cli.Args.t) (Buf : Type) (length : Buf -> Z)
        (sharp : string -> bool -> Cli.JpegOpts -> Buf) (inputPath : string)
        (a : Cli.Attempt Buf) :
  Cli.parseArgs argv = Ret args ->
  In a (snd (Cli.compressWithTarget Buf length (Cli.encodeAtQuality sharp) inputPath args)) ->
  let opts :=
    Cli.jpegOpts (Cli.Args.set_subsample (Cli.subsample (Cli.knobs Buf a))
                    (Cli.Args.set_progressive (Cli.progressive (Cli.knobs Buf a)) args))
                 (Cli.fidelity Buf a) in
  Cli.output Buf a = sharp inputPath (negb (Cli.stripMetadata (Cli.knobs Buf a))) opts /\
  (Cli.chromaSubsampling opts = "4:4:4"%string \/ Cli.chromaSubsampling opts = "4:2:0"%string) /\
  (exists n, 10 <= n <= 100 /\ Cli.jpeg_quality opts = JS.Z2F n) /\
  Cli.mozjpeg opts = true /\ Cli.optimizeCoding opts = true.
Proof.
  intros Hp Ha. cbv zeta.
  destruct (parseArgs_valid argv args Hp) as [Vq _].
  pose proof (compress_log_valid Buf length _ inputPath args Vq a Ha) as Va.
  pose proof (compress_genuine Buf length _ inputPath args a Ha) as G.
  split; [ | split; [ | split; [ | split; reflexivity]]].
  - destruct (Cli.target_of args); [destruct G as (v & _ & Hk & Ho) | destruct G as [Hk Ho]];
      rewrite Ho; unfold Cli.encodeAtQuality; cbv zeta; rewrite <- Hk; reflexivity.
  - cbn [Cli.jpegOpts Cli.chromaSubsampling Cli.Args.set_subsample Cli.Args.subsample].
    destruct (Cli.target_of args) as [t | ] eqn:Ht.
    + pose proof (compress_log_variant Buf length _ inputPath args t Ht a Ha) as Hin.
      unfold Cli.variants in Hin.
      destruct Hin as [<- | [<- | [<- | [<- | []]]]]; cbn; auto.
    + destruct G as [Hk _]. rewrite Hk. cbn [Cli.effective Cli.subsample].
      apply (parseArgs_subsample argv args Hp).
  - cbn [Cli.jpegOpts Cli.jpeg_quality]. apply percent_valid. exact Va.
Qed.

(** X5 at work on the first attempt of scenario A: quality 85, [4:4:4]. *)
Lemma X5_witness :
  850000 = Scenario.stub_sharp "in.jpg" false
             (Cli.mkJpegOpts 85 false "4:4:4" true true) /\
  ("4:4:4"%string = "4:4:4"%string \/ "4:4:4"%string = "4:2:0"%string) /\
  (exists n, 10 <= n <= 100 /\ 85%float = JS.Z2F n) /\ true = true /\ true = true.
Proof.
  apply (X5_sharp_is_called_with_well_formed_options
           ["--fit-under"; "600000"; "in.jpg"]%string
           (Cli.Args.set_inputs ["in.jpg"%string]
              (Cli.Args.set_maxSizeBytes (Some 600000%float)
                 (Cli.Args.set_fitUnder (Some "600000"%string) Cli.Args.defaults)))
           Z (fun n => n) Scenario.stub_sharp "in.jpg"
           (Cli.mkAttempt Z 0.85 (Cli.mkVariant "4:4:4" false true) 850000)).
  - vm_compute. reflexivity.
  - vm_compute. tauto.
Defined.

(** X6.  With a byte target, [pass] tells exactly whether the returned
    buffer fits it; and a result that has not passed is an encode at the
    base fidelity, the clamped [args.quality], that exceeds the target. *)
Theorem X6_pass_tells_whether_the_buffer_fits
        (Buf : Type) (length : Buf -> Z)
        (encode : string -> Cli.Args.t -> float -> option Cli.Variant -> Buf)
        (inputPath : string) (args : Cli.Args.t) (t : float) (r : Cli.Result Buf) :
  Cli.target_of args = Some t ->
  fst (Cli.compressWithTarget Buf length encode inputPath args) = Ret r ->
  Cli.pass Buf r = Cli.fits Buf length t (Cli.buf Buf r) /\
  (Cli.pass Buf r = false ->
   Cli.exceeds Buf length t (Cli.buf Buf r) = true /\
   Cli.clamp01 (Cli.Args.quality args) = Ret (Cli.usedQuality Buf r)).
Proof.
  intros Ht Er.
  assert (F : Cli.pass Buf r = false ->
              Cli.exceeds Buf length t (Cli.buf Buf r) = true /\
              Cli.clamp01 (Cli.Args.quality args) = Ret (Cli.usedQuality Buf r)).
  { intros Hp. apply (compress_fail_exceeds Buf length encode inputPath args t r Ht Er Hp). }
  split; [ | exact F].
  destruct (Cli.pass Buf r) eqn:Hp.
  - symmetry. apply (compress_pass_fits Buf length encode inputPath args t r Ht Er Hp).
  - symmetry. destruct (F eq_refl) as [X _]. unfold Cli.exceeds in X. unfold Cli.fits.
    apply ltb_not_leb. exact X.
Qed.

(** X6 at work on scenario B: the target of 100 bytes is missed by the
    base encode of 850,000 bytes, which is returned with [pass = false]. *)
Lemma X6_witness :
  false = Cli.fits Z (fun n => n) 100 850000 /\
  Cli.exceeds Z (fun n => n) 100 850000 = true /\
  Cli.clamp01 (Cli.Args.quality (Scenario.cli_args (Some 100%float))) = Ret 0.85%float.
Proof.
  destruct (X6_pass_tells_whether_the_buffer_fits Z (fun n => n) Scenario.stub_encode "in.jpg"
              (Scenario.cli_args (Some 100%float)) 100%float
              (Cli.mkResult Z 850000 0.85 (Cli.mkVariant "4:4:4" false true) false))
    as [A B].
  - reflexivity.
  - vm_compute. reflexivity.
  - split; [exact A | apply B; reflexivity].
Defined.

(** X7.  What [compressWithTarget] returns was encoded as it says: the
    returned buffer is the output of an encode of the run, made at the
    returned [usedQuality] with the returned [used] knobs, which are those
    in effect for that call of [encodeAtQuality]. *)
Theorem X7_the_result_is_an_encode_of_the_run
        (Buf : Type) (length : Buf -> Z)
        (encode : string -> Cli.Args.t -> float -> option Cli.Variant -> Buf)
        (inputPath : string) (args : Cli.Args.t) (r : Cli.Result Buf) :
  fst (Cli.compressWithTarget Buf length encode inputPath args) = Ret r ->
  In (Cli.mkAttempt Buf (Cli.usedQuality Buf r) (Cli.used Buf r) (Cli.buf Buf r))
     (snd (Cli.compressWithTarget Buf length encode inputPath args)) /\
  exists overrides,
    Cli.used Buf r = Cli.effective args overrides /\
    Cli.buf Buf r = encode inputPath args (Cli.usedQuality Buf r) overrides.
Proof.
  intros Er.
  pose proof (compress_logged Buf length encode inputPath args r Er) as L.
  unfold Returned.logged_result in L. split; [exact L | ].
  pose proof (compress_genuine Buf length encode inputPath args _ L) as G.
  destruct (Cli.target_of args).
  - destruct G as (v & _ & Hk & Ho). exists (Some v). split; [exact Hk | exact Ho].
  - destruct G as [Hk Ho]. exists None. split; [exact Hk | exact Ho].
Qed.

(** X7 at work on scenario C, without a target. *)
Lemma X7_witness :
  In (Cli.mkAttempt Z 0.85 (Cli.mkVariant "4:4:4" false true) 850000)
     (snd (Cli.compressWithTarget Z (fun n => n) Scenario.stub_encode "in.jpg"
             (Scenario.cli_args None))) /\
  exists overrides,
    Cli.mkVariant "4:4:4" false true = Cli.effective (Scenario.cli_args None) overrides /\
    850000 = Scenario.stub_encode "in.jpg" (Scenario.cli_args None) 0.85 overrides.
Proof.
  apply (X7_the_result_is_an_encode_of_the_run Z (fun n => n) Scenario.stub_encode "in.jpg"
           (Scenario.cli_args None)
           (Cli.mkResult Z 850000 0.85 (Cli.mkVariant "4:4:4" false true) true)).
  vm_compute. reflexivity.
Defined.

(** ** The browser tool *)

(** X8.  [encodeCanvasFitUnder] returns a blob that it encoded, at the
    [usedQuality] it returns, and [tried] is the number of its encodes;
    with a byte target, [pass] tells exactly whether that blob fits. *)
Theorem X8_the_blob_is_an_encode_and_pass_tells_whether_it_fits
        (Canvas Blob : Type) (size : Blob -> Z) (toBlob : Canvas -> float -> Blob)
        (canvas : Canvas) (opts : Browser.Opts) (r : Browser.Result Blob) :
  fst (Browser.encodeCanvasFitUnder Canvas Blob size toBlob canvas opts) = Ret r ->
  Browser.blob Blob r = toBlob canvas (Browser.usedQuality Blob r) /\
  In (Browser.mkAttempt Blob (Browser.usedQuality Blob r) (Browser.blob Blob r))
     (snd (Browser.encodeCanvasFitUnder Canvas Blob size toBlob canvas opts)) /\
  Browser.tried Blob r
  = Z.of_nat (List.length (snd (Browser.encodeCanvasFitUnder Canvas Blob size toBlob canvas opts))) /\
  (forall t, Browser.target_of opts = Some t ->
     Browser.pass Blob r = Browser.fits Blob size t (Browser.blob Blob r)).
Proof.
  intros Er.
  pose proof (fitUnder_logged Canvas Blob size toBlob canvas opts r Er) as L.
  unfold Returned.logged_blob in L.
  split; [ | split; [exact L | split]].
  - apply (fitUnder_genuine Canvas Blob size toBlob canvas opts _ L).
  - destruct (fitUnder_tried Canvas Blob size toBlob canvas opts) as (r' & Er' & Ht & _).
    rewrite Er in Er'. injection Er' as <-. exact Ht.
  - intros t Ht. apply (fitUnder_pass_is_fits Canvas Blob size toBlob canvas opts t r Ht Er).
Qed.

(** X8 at work on scenario B in the browser: two encodes, the blob of
    550,000 bytes made at 0.55 is returned, and it does not fit 100 bytes. *)
Lemma X8_witness :
  550000 = Scenario.stub_toBlob tt 0.55 /\
  In (Browser.mkAttempt Z 0.55 550000) (snd (Scenario.browser_run (Some 100%float))) /\
  2 = Z.of_nat (List.length (snd (Scenario.browser_run (Some 100%float)))) /\
  false = Browser.fits Z (fun n => n) 100 550000.
Proof.
  destruct (X8_the_blob_is_an_encode_and_pass_tells_whether_it_fits unit Z (fun n => n)
              Scenario.stub_toBlob tt
              (Browser.mkOpts (Some 100%float) (Some 0.85%float) (Some 0.55%float))
              (Browser.mkResult Z 550000 0.55 2 false))
    as (A & B & C & D).
  - vm_compute. reflexivity.
  - split; [exact A | ]. split; [exact B | ]. split; [exact C | ].
    apply (D 100%float). reflexivity.
Defined.

(** X9.  [compressImages], run on a page that is not busy and has items,
    goes through the items in their order and stops at the first on which
    something rejects: the decoding of the file, or an encode that gives
    no blob.  Every item before that one has its outcome stored: it keeps
    its id, its file and its original size, has the dimensions of its
    canvas, and a [compressed] whose blob is the encode of the canvas at
    the stored [usedQuality], whose [bytes] is the size of the blob and
    whose [pass] tells exactly whether that size is within the target of
    the page, [600 * 1024] for the preset and [floor(imgTargetKB * 1024)]
    otherwise.  The item on which something rejects gets no outcome: it
    keeps the [compressed] it had, with the dimensions of its canvas when
    it is the encode that rejected, and the items after it are left as
    they were; the toast is then that of the error, with its message.
    When nothing rejects every item has its outcome and the toast is that
    of completion.  Either way the page is no longer busy, no more than
    twelve encodes per item were made, and each was of the canvas of an
    item.  On a busy page, or without items, nothing is done. *)
Theorem X9_compressImages_stops_at_the_first_rejection
        (File Canvas Blob : Type) (size : Blob -> Z)
        (toBlob : Canvas -> float -> option Blob) (toCanvas : File -> Canvas + string)
        (canvas_width canvas_height : Canvas -> Z)
        (state : Images.Settings) (first : Images.Item File Blob)
        (others : list (Images.Item File Blob)) :
  let compressImages :=
    Images.compressImages File Canvas Blob size toBlob toCanvas canvas_width canvas_height in
  let stored :=
    Images.stored File Canvas Blob size toBlob toCanvas canvas_width canvas_height state in
  let items := first :: others in
  let run := compressImages state false items in
  ((Images.toast File Blob run = Some Images.Complete /\
    Forall2 stored items (Images.items_after File Blob run))
   \/
   (exists done done' failing failing' later message,
      items = done ++ failing :: later /\
      Images.items_after File Blob run = done' ++ failing' :: later /\
      Forall2 stored done done' /\
      Images.kept File Blob failing failing' /\
      Images.thrown_by File Canvas Blob toBlob toCanvas canvas_width canvas_height
                       failing failing' message /\
      Images.toast File Blob run = Some (Images.Failure (Images.shown message))))
  /\
  (Forall (Images.sound File Canvas Blob toBlob toCanvas) items ->
   Images.toast File Blob run = Some Images.Complete)
  /\
  Images.busy_after File Blob run = false
  /\
  (List.length (Images.encodes File Blob run) <= 12 * List.length items)%nat
  /\
  (forall a, In a (Images.encodes File Blob run) ->
     exists item canvas,
       In item items /\ toCanvas (Images.file File Blob item) = inl canvas /\
       toBlob canvas (Browser.fidelity Blob a) = Some (Browser.output Blob a))
  /\
  compressImages state true items = Images.mkRun File Blob items None true []
  /\
  (forall busy, compressImages state busy [] = Images.mkRun File Blob [] None busy []).
Proof.
  cbv zeta. unfold Images.compressImages.
  pose proof (compressEach_outcome File Canvas Blob size toBlob toCanvas canvas_width
                canvas_height state (first :: others)) as O.
  pose proof (compressEach_sound File Canvas Blob size toBlob toCanvas canvas_width
                canvas_height state (first :: others)) as S.
  pose proof (compressEach_genuine File Canvas Blob size toBlob toCanvas canvas_width
                canvas_height state (first :: others)) as G.
  destruct (Images.compressEach File Canvas Blob size toBlob toCanvas canvas_width
              canvas_height state (first :: others)) as [[items' thrown] log].
  cbn [fst snd Images.toast Images.items_after Images.busy_after Images.encodes] in *.
  destruct O as [L B].
  split; [ | split; [ | split; [reflexivity | split; [exact B | split; [exact G | ]]]]].
  - destruct thrown as [message | ]; cbn [Images.left_as] in L.
    + right. destruct L as (done & done' & failing & failing' & later & E & E' & F & K & T).
      exists done, done', failing, failing', later, message.
      repeat (split; [assumption | ]). reflexivity.
    + left. split; [reflexivity | exact L].
  - intros Hs. rewrite (S Hs). reflexivity.
  - split; [reflexivity | intros busy; reflexivity].
Qed.

(** X9 at work on two images of the sample page, which are compressed,
    and on three of which the second cannot be exported: the first has its
    outcome, a blob of 606,250 bytes found with six encodes; the second has
    the dimensions of its canvas and nothing else; the third is as it
    was. *)
Lemma X9_witness :
  Images.toast Z Z
    (Sample.compressImages Sample.page false [Sample.image "a" 4; Sample.image "c" 5]%string)
  = Some Images.Complete
  /\
  Sample.compressImages Sample.page false
    [Sample.image "a" 4; Sample.image "b" 13; Sample.image "c" 5]%string
  = Images.mkRun Z Z
      [Images.mkItem Z Z "a" 4 1000000 4 5 false
         (Some (Images.mkCompressed Z 606250 606250 0.60625 6 true));
       Images.mkItem Z Z "b" 13 1000000 13 14 false None;
       Sample.image "c" 5]%string
      (Some (Images.Failure "Failed to export canvas to JPEG."))
      false
      [Browser.mkAttempt Z 0.85 850000; Browser.mkAttempt Z 0.55 550000;
       Browser.mkAttempt Z 0.7 700000; Browser.mkAttempt Z 0.625 625000;
       Browser.mkAttempt Z 0.5875 587500; Browser.mkAttempt Z 0.60625 606250].
Proof.
  split.
  - apply (X9_compressImages_stops_at_the_first_rejection Z Z Z (fun n => n)
             Sample.toBlob Sample.toCanvas (fun c => c) (fun c => c + 1) Sample.page
             (Sample.image "a" 4) [Sample.image "c" 5]%string).
    repeat constructor; unfold Images.sound; cbn [Images.file Sample.image];
      eexists; (split; [reflexivity | intros q H; discriminate H]).
  - vm_compute. reflexivity.
Defined.

(** ** [clamp] *)

(** X10.  [clamp(n, min, max)], for bounds in order: a Number that is not
    NaN is brought within the bounds, and one that is within them is
    returned (up to the sign of zero).  A NaN is returned as NaN: the
    bounds do not replace it. *)
Theorem X10_clamp_brings_within_the_bounds (n lo hi : float) :
  (is_nan n = false -> (lo <=? hi)%float = true ->
   (lo <=? Browser.clamp n lo hi)%float = true /\
   (Browser.clamp n lo hi <=? hi)%float = true) /\
  ((lo <=? n)%float = true -> (n <=? hi)%float = true ->
   (Browser.clamp n lo hi =? n)%float = true) /\
  (is_nan n = true -> is_nan (Browser.clamp n lo hi) = true).
Proof.
  split; [ | split].
  - intros N H. destruct (clamp_between n lo hi N H) as (_ & A & B). split; assumption.
  - apply clamp_inside.
  - apply clamp_nan.
Qed.

(** X10 at work on the bounds of the page's inputs: a size of 40 MB is
    brought to 25, a target of 600 KB is kept, and a minimum quality that
    is not a number stays so. *)
Lemma X10_witness :
  ((1 <=? Browser.clamp 40 1 25)%float = true /\ (Browser.clamp 40 1 25 <=? 25)%float = true) /\
  (Browser.clamp 600 50 6000 =? 600)%float = true /\
  is_nan (Browser.clamp nan 0.1 0.95) = true.
Proof.
  split; [ | split].
  - apply (proj1 (X10_clamp_brings_within_the_bounds 40 1 25)); reflexivity.
  - apply (proj1 (proj2 (X10_clamp_brings_within_the_bounds 600 50 6000))); reflexivity.
  - apply (proj2 (proj2 (X10_clamp_brings_within_the_bounds nan 0.1 0.95))). reflexivity.
Defined.

(** ** The page's helpers on strings *)

(** X11.  What [escapeHtml] returns holds no angle bracket and no quote,
    double or single: it can be written in a text node or in a quoted
    attribute value.  It is at least as long as the string, and at most six
    times as long. *)
Theorem X11_escapeHtml_leaves_no_markup (s : string) :
  Str.every (fun c => negb (Html.raw_markup c)) (Html.escapeHtml s) = true /\
  (String.length s <= String.length (Html.escapeHtml s) <= 6 * String.length s)%nat.
Proof. split; [apply escapeHtml_no_markup | apply escapeHtml_length]. Qed.

(** X12.  [escapeHtml] loses nothing: two strings that are escaped to the
    same string are the same. *)
Theorem X12_escapeHtml_is_injective (s t : string) :
  Html.escapeHtml s = Html.escapeHtml t -> s = t.
Proof. apply escapeHtml_injective. Qed.

(** X12 at work: a name and itself. *)
Lemma X12_witness : "a<b>.pdf"%string = "a<b>.pdf"%string.
Proof. apply (X12_escapeHtml_is_injective "a<b>.pdf" "a<b>.pdf"). reflexivity. Defined.

(** X13.  [escapeHtml] works character by character: the escape of a
    concatenation is the concatenation of the escapes; and the strings that
    it returns as they are are those without an ampersand, an angle bracket
    or a quote.  Escaping twice is the same as escaping once for these
    strings only. *)
Theorem X13_escapeHtml_is_a_morphism (s t : string) :
  Html.escapeHtml (s ++ t) = (Html.escapeHtml s ++ Html.escapeHtml t)%string /\
  (Html.escapeHtml s = s <-> Str.every (fun c => negb (Html.special c)) s = true) /\
  (Html.escapeHtml (Html.escapeHtml s) = Html.escapeHtml s ->
   Html.escapeHtml s = s).
Proof.
  split; [apply escapeHtml_append | split; [apply escapeHtml_fixed | ]].
  intros H. apply escapeHtml_injective in H. exact H.
Qed.

(** X14.  [pickSafeBaseName] returns a name that is not empty, made of
    letters, digits, underscores and dashes only, that neither starts nor
    ends with an underscore; and it returns such a name as it is, so that
    applying it twice changes nothing. *)
Theorem X14_pickSafeBaseName_returns_a_safe_name (fileName : string) :
  let name := Names.pickSafeBaseName fileName in
  name <> EmptyString /\
  Str.every Names.kept name = true /\
  Str.startsWith name "_" = false /\ Text.endsWith name "_" = false /\
  Names.pickSafeBaseName name = name.
Proof.
  cbv zeta. destruct (pickSafeBaseName_shape fileName) as (A & B & C & D).
  repeat (split; [assumption | ]). apply pickSafeBaseName_same; assumption.
Qed.

(** X15.  A file name made of a safe name and an extension without a dot
    gives the safe name. *)
Theorem X15_pickSafeBaseName_removes_the_extension (name ext : string) :
  name <> EmptyString -> Str.every Names.kept name = true ->
  Str.startsWith name "_" = false -> Text.endsWith name "_" = false ->
  ext <> EmptyString -> Str.every Names.not_dot ext = true ->
  Names.pickSafeBaseName (name ++ String "." ext) = name.
Proof. apply pickSafeBaseName_extension. Qed.

(** X15 at work on the name of a scan. *)
Lemma X15_witness : Names.pickSafeBaseName "scan-01.pdf" = "scan-01"%string.
Proof.
  apply (X15_pickSafeBaseName_removes_the_extension "scan-01" "pdf");
    solve [reflexivity | discriminate].
Defined.

(** ** The inputs of the CLI *)

(** X16.  [listInputs] takes the inputs in their order.  When each is a
    file with a JPEG extension or a directory, it returns the resolved
    paths of the files and, for each directory, what [scanDir] lists in it,
    in that order.  Otherwise it dies on the first input that is not: it is
    not found, it is a file without a JPEG extension, or it is neither a
    file nor a directory, and the message says which and names it as it was
    written. *)
Theorem X16_listInputs_lists_or_rejects_the_first_bad_input
        (resolve : string -> string) (join : string -> string -> string)
        (extname : string -> string) (stat : string -> option Files.Tree)
        (recursive : bool) (inputs : list string) :
  (forallb (Files.accepted resolve extname stat) inputs = true /\
   Files.listInputs resolve join extname stat inputs recursive
   = Ret (flat_map (Files.contribution resolve join extname stat recursive) inputs))
  \/
  (exists pre input rest,
     inputs = pre ++ input :: rest /\
     forallb (Files.accepted resolve extname stat) pre = true /\
     Files.accepted resolve extname stat input = false /\
     Files.listInputs resolve join extname stat inputs recursive
     = Die (Files.rejection resolve stat input)).
Proof.
  destruct (first_rejected resolve extname stat inputs)
    as [H | (pre & input & rest & -> & Hp & Hi)].
  - left. split; [exact H | ]. apply listInputs_accepted. exact H.
  - right. exists pre, input, rest. split; [reflexivity | ]. split; [exact Hp | ].
    split; [exact Hi | ]. apply listInputs_rejected; assumption.
Qed.

(** X17.  Every path that [listInputs] returns has a JPEG extension,
    [.jpg] or [.jpeg] in any case of the letters, be it an input or a file
    found in a directory. *)
Theorem X17_listInputs_returns_JPEG_paths_only
        (resolve : string -> string) (join : string -> string -> string)
        (extname : string -> string) (stat : string -> option Files.Tree)
        (recursive : bool) (inputs out : list string) (p : string) :
  Files.listInputs resolve join extname stat inputs recursive = Ret out ->
  In p out -> Files.isJpegFile extname p = true.
Proof.
  intros E Hin.
  destruct (first_rejected resolve extname stat inputs)
    as [H | (pre & input & rest & -> & Hp & Hi)].
  - rewrite (listInputs_accepted resolve join extname stat recursive inputs H) in E.
    injection E as <-. apply in_flat_map in Hin. destruct Hin as (input & Hi & Hc).
    apply (contribution_jpeg resolve join extname stat recursive input p); [ | exact Hc].
    rewrite forallb_forall in H. apply H. exact Hi.
  - rewrite (listInputs_rejected resolve join extname stat recursive pre input rest Hp Hi) in E.
    discriminate E.
Qed.

(** X17 at work on a directory and a file: the image of the subdirectory
    is listed, the text file and the link are not. *)
Lemma X17_witness : Files.isJpegFile Sample.extname "photos/sub/y.JPG" = true.
Proof.
  apply (X17_listInputs_returns_JPEG_paths_only Sample.resolve Sample.join Sample.extname
           Sample.stat_photos true ["photos"; "a.jpeg"]%string
           ["photos/x.jpg"; "photos/sub/y.JPG"; "a.jpeg"]%string "photos/sub/y.JPG").
  - reflexivity.
  - right. left. reflexivity.
Defined.

(** X18.  Without [--recursive], [scanDir] lists the entries of the
    directory itself that are regular files with a JPEG extension, and
    nothing else; a link is not followed.  With [--recursive] it lists
    these as well. *)
Theorem X18_scanDir_without_recursion
        (join : string -> string -> string) (extname : string -> string)
        (dir : string) (ents : list (string * Files.Tree)) (p : string) :
  (In p (Files.scanDir join extname dir (Files.Dir ents) false) <->
   exists name size,
     In (name, Files.File size) ents /\ p = join dir name /\
     Files.isJpegFile extname p = true) /\
  (In p (Files.scanDir join extname dir (Files.Dir ents) false) ->
   In p (Files.scanDir join extname dir (Files.Dir ents) true)).
Proof.
  split; [apply scanDir_flat | apply scanDir_recursive_more].
Qed.

(** ** [main] *)

(** X19.  Without [--overwrite], a run writes a file only where [fs.stat]
    has just been rejected.  On a file system where what exists goes on
    existing when a file is written or a directory made, nothing that
    existed before the run is written over, and all of it still exists
    after the run. *)
Theorem X19_without_overwrite_nothing_is_written_over
        (Buf : Type) (length : Buf -> Z)
        (resolve : string -> string) (join : string -> string -> string)
        (extname : string -> string) (basename : string -> string -> string)
        (World : Type) (tree : World -> string -> option Files.Tree)
        (stat_size : World -> string -> option Z) (mkdir : World -> string -> World + string)
        (writeFile : World -> string -> Buf -> option World)
        (sharp : World -> string -> option (bool -> Cli.JpegOpts -> Buf))
        (argv : list string) (w : World) (args : Cli.Args.t) :
  Cli.parseArgs argv = Ret args -> Cli.Args.overwrite args = false ->
  let done :=
    Main.final (Main.main Buf length resolve join extname basename World tree stat_size
                  mkdir writeFile sharp argv w) in
  (forall wr, In wr (Main.writes done) ->
     stat_size (Main.w_before wr) (Main.w_path wr) = None) /\
  (Main.persistent Buf World stat_size mkdir writeFile ->
   (forall wr, In wr (Main.writes done) -> stat_size w (Main.w_path wr) = None) /\
   (forall q, stat_size w q <> None -> stat_size (Main.world done) q <> None)).
Proof.
  intros Hp Ho. cbv zeta.
  destruct (main_cases Buf length resolve join extname basename World tree stat_size mkdir
              writeFile sharp argv w)
    as [(Hw & _ & Hworld & _) | (args' & inputs & w1 & st & d & Hp' & _ & _ & _ & _ & Hm & Hl & ->)].
  - rewrite Hw, Hworld. split; [intros wr [] | ]. intros _. split; [intros wr [] | auto].
  - rewrite Hp in Hp'. injection Hp' as <-.
    assert (Hfinal :
      Main.writes (Main.final
        match d with
        | Some msg => Main.mkExit Buf World 1 (Some msg) st
        | None =>
            Main.mkExit Buf World (if Main.fail st =? 0 then 0 else 2) None
              (Main.mkLoop Buf World (Main.world st) (Main.ok st) (Main.fail st)
                 (Main.console st ++
                  [Main.Summary (Main.ok st) (Main.fail st) (resolve (Cli.Args.outDir args))])
                 (Main.writes st) (Main.encodes st))
        end) = Main.writes st /\
      Main.world (Main.final
        match d with
        | Some msg => Main.mkExit Buf World 1 (Some msg) st
        | None =>
            Main.mkExit Buf World (if Main.fail st =? 0 then 0 else 2) None
              (Main.mkLoop Buf World (Main.world st) (Main.ok st) (Main.fail st)
                 (Main.console st ++
                  [Main.Summary (Main.ok st) (Main.fail st) (resolve (Cli.Args.outDir args))])
                 (Main.writes st) (Main.encodes st))
        end) = Main.world st).
    { destruct d; split; reflexivity. }
    destruct Hfinal as [-> ->].
    assert (Est : st = fst (Main.loop Buf length join extname basename World stat_size
                              writeFile sharp args (resolve (Cli.Args.outDir args)) inputs
                              (Main.start Buf World w1))) by (rewrite Hl; reflexivity).
    split.
    + rewrite Est.
      apply (loop_invariant Buf length join extname basename World stat_size writeFile sharp
               args (resolve (Cli.Args.outDir args))
               (Main.fresh_writes Buf World stat_size)).
      * intros s p s' d' I T. eapply turn_fresh; eassumption.
      * intros wr [].
    + intros Pers.
      assert (U : Main.untouched Buf World stat_size w1 st).
      { rewrite Est.
        apply (loop_invariant Buf length join extname basename World stat_size writeFile sharp
                 args (resolve (Cli.Args.outDir args))
                 (Main.untouched Buf World stat_size w1)).
        - intros s p s' d' I T. eapply turn_untouched; eassumption.
        - split; [auto | intros wr []]. }
      destruct U as [U1 U2]. destruct Pers as [_ Pm]. split.
      * intros wr Hin. specialize (U2 wr Hin).
        destruct (stat_size w (Main.w_path wr)) eqn:E; [ | reflexivity].
        exfalso. apply (Pm w _ w1 Hm (Main.w_path wr)); [rewrite E; discriminate | exact U2].
      * intros q Hq. apply U1. apply (Pm w _ w1 Hm q Hq).
Qed.

(** X19 at work on the sample disk: the output of the first image is
    written where nothing was, the second image is skipped, and its earlier
    output is still there. *)
Lemma X19_witness :
  Sample.stat_size Sample.disk "out/a-uscis.jpg" = None /\
  Sample.stat_size (Main.world (Main.final (Sample.run ["a.jpg"; "b.jpeg"]%string Sample.disk)))
    "out/b-uscis.jpg" <> None.
Proof.
  destruct (X19_without_overwrite_nothing_is_written_over Z (fun n => n)
              Sample.resolve Sample.join Sample.extname Sample.basename Sample.World
              Sample.tree Sample.stat_size Sample.mkdir Sample.writeFile Sample.sharp
              ["a.jpg"; "b.jpeg"]%string Sample.disk
              (Cli.Args.set_inputs ["a.jpg"; "b.jpeg"]%string Cli.Args.defaults))
    as [_ B].
  - reflexivity.
  - reflexivity.
  - destruct (B sample_persistent) as [B1 B2]. split.
    + apply (B1 (Main.mkWrite Z Sample.World Sample.disk "out/a-uscis.jpg" 850000)).
      vm_compute. left. reflexivity.
    + apply B2. discriminate.
Defined.

(** X20.  The counters of a run count its lines: [ok] is the number of
    outputs reported, which is the number of files written, and [fail] the
    number of failures reported.  A run that [die] ends exits with code 1;
    any other run exits with code 0 when nothing failed and with code 2
    otherwise. *)
Theorem X20_the_exit_code_tells_the_failures
        (Buf : Type) (length : Buf -> Z)
        (resolve : string -> string) (join : string -> string -> string)
        (extname : string -> string) (basename : string -> string -> string)
        (World : Type) (tree : World -> string -> option Files.Tree)
        (stat_size : World -> string -> option Z) (mkdir : World -> string -> World + string)
        (writeFile : World -> string -> Buf -> option World)
        (sharp : World -> string -> option (bool -> Cli.JpegOpts -> Buf))
        (argv : list string) (w : World) :
  let run := Main.main Buf length resolve join extname basename World tree stat_size mkdir
              writeFile sharp argv w in
  let done := Main.final run in
  Main.ok done = Main.count Main.is_done (Main.console done) /\
  Main.fail done = Main.count Main.is_failed (Main.console done) /\
  Main.ok done = Z.of_nat (List.length (Main.writes done)) /\
  (Main.died run <> None -> Main.code run = 1) /\
  (Main.died run = None -> Main.code run = if Main.fail done =? 0 then 0 else 2).
Proof.
  cbv zeta.
  destruct (main_cases Buf length resolve join extname basename World tree stat_size mkdir
              writeFile sharp argv w)
    as [(Hw & _ & _ & Hok & Hfail & Hc & Hcode)
       | (args & inputs & w1 & st & d & _ & _ & _ & _ & _ & _ & Hl & ->)].
  - rewrite Hw, Hok, Hfail.
    assert (Z0 : forall kind, kind Main.Help = false ->
                   Main.count kind (Main.console (Main.final (Main.main Buf length resolve join extname basename World tree stat_size mkdir
              writeFile sharp argv w))) = 0).
    { intros kind Hk. unfold Main.count.
      induction (Main.console _) as [ | l ls IH]; [reflexivity | ].
      cbn [filter]. rewrite (Hc l (or_introl eq_refl)), Hk. apply IH.
      intros l' Hin. apply Hc. right. exact Hin. }
    rewrite !Z0 by reflexivity. repeat split.
    + intros Hd. destruct Hcode as [[C _] | (_ & D & _)]; [exact C | contradiction].
    + intros Hd. destruct Hcode as [[_ D] | (C & _ & _)]; [contradiction | exact C].
  - assert (T : Main.tallied Buf World st).
    { replace st with (fst (Main.loop Buf length join extname basename World stat_size
                              writeFile sharp args (resolve (Cli.Args.outDir args)) inputs
                              (Main.start Buf World w1))) by (rewrite Hl; reflexivity).
      apply (loop_invariant Buf length join extname basename World stat_size writeFile sharp
               args (resolve (Cli.Args.outDir args))
               (Main.tallied Buf World)).
      - intros s p s' d' I T. eapply turn_tallied; eassumption.
      - repeat split. }
    destruct T as (T1 & T2 & T3). destruct d as [msg | ].
    + cbn [Main.final Main.died Main.code]. repeat split; try assumption.
      intros H. discriminate H.
    + cbn [Main.final Main.died Main.code Main.ok Main.fail Main.console Main.writes].
      rewrite !count_app. cbn [Main.is_done Main.is_failed]. rewrite !Z.add_0_r.
      repeat split; try assumption. intros H. contradiction.
Qed.

(** X20 at work on the sample disk: one output, no failure, code 0. *)
Lemma X20_witness :
  Main.ok (Main.final (Sample.run ["a.jpg"; "b.jpeg"]%string Sample.disk)) = 1 /\
  Main.code (Sample.run ["a.jpg"; "b.jpeg"]%string Sample.disk) = 0.
Proof.
  destruct (X20_the_exit_code_tells_the_failures Z (fun n => n)
              Sample.resolve Sample.join Sample.extname Sample.basename Sample.World
              Sample.tree Sample.stat_size Sample.mkdir Sample.writeFile Sample.sharp
              ["a.jpg"; "b.jpeg"]%string Sample.disk)
    as (_ & _ & A & _ & B).
  split; [exact A | apply B; reflexivity].
Defined.

(** X21.  A run that reaches the end of the loop has taken every listed
    input exactly once: it was skipped, it failed, or its output was
    written; the three counts add up to the number of inputs. *)
Theorem X21_every_input_is_taken_once
        (Buf : Type) (length : Buf -> Z)
        (resolve : string -> string) (join : string -> string -> string)
        (extname : string -> string) (basename : string -> string -> string)
        (World : Type) (tree : World -> string -> option Files.Tree)
        (stat_size : World -> string -> option Z) (mkdir : World -> string -> World + string)
        (writeFile : World -> string -> Buf -> option World)
        (sharp : World -> string -> option (bool -> Cli.JpegOpts -> Buf))
        (argv : list string) (w : World) (args : Cli.Args.t) (inputs : list string) :
  let run := Main.main Buf length resolve join extname basename World tree stat_size mkdir
              writeFile sharp argv w in
  Cli.parseArgs argv = Ret args -> Cli.Args.help args = false ->
  Files.listInputs resolve join extname (tree w) (Cli.Args.inputs args)
    (Cli.Args.recursive args) = Ret inputs ->
  Main.died run = None ->
  Main.ok (Main.final run) + Main.fail (Main.final run)
  + Main.count Main.is_skipped (Main.console (Main.final run))
  = Z.of_nat (List.length inputs).
Proof.
  cbv zeta. intros Hp Hh Hi.
  destruct (main_cases Buf length resolve join extname basename World tree stat_size mkdir
              writeFile sharp argv w)
    as [(_ & _ & _ & _ & _ & _ & Hcode)
       | (args' & inputs' & w1 & st & d & Hp' & _ & _ & Hi' & _ & _ & Hl & ->)].
  - intros Hd. destruct Hcode as [[_ D] | (_ & _ & a & Ha & Hha)]; [contradiction | ].
    rewrite Hp in Ha. injection Ha as <-. rewrite Hh in Hha. discriminate Hha.
  - rewrite Hp in Hp'. injection Hp' as <-. rewrite Hi in Hi'. injection Hi' as <-.
    destruct d as [msg | ]; [intros H; discriminate H | intros _].
    cbn [Main.final Main.ok Main.fail Main.console].
    rewrite count_app. cbn [Main.is_skipped]. rewrite Z.add_0_r.
    rewrite (loop_counts Buf length join extname basename World stat_size writeFile sharp
               args (resolve (Cli.Args.outDir args)) inputs _ _ Hl).
    reflexivity.
Qed.

(** X21 at work on the sample disk: one output and one skip for two
    inputs. *)
Lemma X21_witness :
  Main.ok (Main.final (Sample.run ["a.jpg"; "b.jpeg"]%string Sample.disk))
  + Main.fail (Main.final (Sample.run ["a.jpg"; "b.jpeg"]%string Sample.disk))
  + Main.count Main.is_skipped
      (Main.console (Main.final (Sample.run ["a.jpg"; "b.jpeg"]%string Sample.disk)))
  = Z.of_nat (List.length ["a.jpg"; "b.jpeg"]%string).
Proof.
  apply (X21_every_input_is_taken_once Z (fun n => n)
           Sample.resolve Sample.join Sample.extname Sample.basename Sample.World
           Sample.tree Sample.stat_size Sample.mkdir Sample.writeFile Sample.sharp
           ["a.jpg"; "b.jpeg"]%string Sample.disk
           (Cli.Args.set_inputs ["a.jpg"; "b.jpeg"]%string Cli.Args.defaults)
           ["a.jpg"; "b.jpeg"]%string); reflexivity.
Defined.

(** X22.  The lines of a run tell the truth about the target.  With a
    byte target, an output is tagged as missing the target exactly when
    its result has not passed, in which case its size exceeds the target,
    and a result that has passed is within it; without a target no output
    is tagged and every result has passed. *)
Theorem X22_the_reports_are_truthful
        (Buf : Type) (length : Buf -> Z)
        (resolve : string -> string) (join : string -> string -> string)
        (extname : string -> string) (basename : string -> string -> string)
        (World : Type) (tree : World -> string -> option Files.Tree)
        (stat_size : World -> string -> option Z) (mkdir : World -> string -> World + string)
        (writeFile : World -> string -> Buf -> option World)
        (sharp : World -> string -> option (bool -> Cli.JpegOpts -> Buf))
        (argv : list string) (w : World) (args : Cli.Args.t) (report : Main.Report) :
  let run := Main.main Buf length resolve join extname basename World tree stat_size mkdir
              writeFile sharp argv w in
  Cli.parseArgs argv = Ret args ->
  In (Main.Done report) (Main.console (Main.final run)) ->
  match Cli.target_of args with
  | Some t =>
      Main.r_warnTarget report = negb (Main.r_pass report) /\
      (Main.r_pass report = true -> (JS.Z2F (Main.r_after report) <=? t)%float = true) /\
      (Main.r_pass report = false -> (t <? JS.Z2F (Main.r_after report))%float = true)
  | None => Main.r_warnTarget report = false /\ Main.r_pass report = true
  end.
Proof.
  cbv zeta. intros Hp.
  destruct (main_cases Buf length resolve join extname basename World tree stat_size mkdir
              writeFile sharp argv w)
    as [(_ & _ & _ & _ & _ & Hc & _)
       | (args' & inputs & w1 & st & d & Hp' & _ & _ & _ & _ & _ & Hl & ->)].
  - intros Hin. apply Hc in Hin. discriminate Hin.
  - rewrite Hp in Hp'. injection Hp' as <-.
    assert (T : Main.truthful_lines Buf World args st).
    { replace st with (fst (Main.loop Buf length join extname basename World stat_size
                              writeFile sharp args (resolve (Cli.Args.outDir args)) inputs
                              (Main.start Buf World w1))) by (rewrite Hl; reflexivity).
      apply (loop_invariant Buf length join extname basename World stat_size writeFile sharp
               args (resolve (Cli.Args.outDir args))
               (Main.truthful_lines Buf World args)).
      - intros s p s' d' I T. eapply turn_truthful; eassumption.
      - intros r []. }
    intros Hin. apply (T report).
    destruct d as [msg | ]; cbn [Main.final Main.console] in Hin; [exact Hin | ].
    apply in_app_or in Hin. destruct Hin as [Hin | [Hin | []]]; [exact Hin | discriminate Hin].
Qed.

(** X22 at work on the sample disk with a target of 600 KB: under the
    stub of the scenarios the output of 850,000 bytes has not passed, and
    it is tagged. *)
Lemma X22_witness :
  true = negb false /\ (614400 <? JS.Z2F 850000)%float = true.
Proof.
  destruct (X22_the_reports_are_truthful Z (fun n => n)
           Sample.resolve Sample.join Sample.extname Sample.basename Sample.World
           Sample.tree Sample.stat_size Sample.mkdir Sample.writeFile Sample.sharp
           ["--fit-under"; "600kb"; "a.jpg"]%string Sample.disk
           (Cli.Args.set_inputs ["a.jpg"%string]
              (Cli.Args.set_maxSizeBytes (Some 614400%float)
                 (Cli.Args.set_fitUnder (Some "600kb"%string) Cli.Args.defaults)))
           (Main.mkReport "a.jpg" 2000000 850000 57 0.85 false false true
              (Cli.mkVariant "4:4:4" false true)))
    as (A & _ & B).
  - vm_compute. reflexivity.
  - vm_compute. left. reflexivity.
  - split; [exact A | apply B; reflexivity].
Defined.

(** X23.  A run that does not reach the loop changes nothing: when the
    command line is rejected, help is asked for, [--no-compress] is given,
    or the inputs cannot be listed or hold no JPEG file, nothing is
    encoded, nothing is written, and the output directory is not made. *)
Theorem X23_a_rejected_run_changes_nothing
        (Buf : Type) (length : Buf -> Z)
        (resolve : string -> string) (join : string -> string -> string)
        (extname : string -> string) (basename : string -> string -> string)
        (World : Type) (tree : World -> string -> option Files.Tree)
        (stat_size : World -> string -> option Z) (mkdir : World -> string -> World + string)
        (writeFile : World -> string -> Buf -> option World)
        (sharp : World -> string -> option (bool -> Cli.JpegOpts -> Buf))
        (argv : list string) (w : World) :
  let run := Main.main Buf length resolve join extname basename World tree stat_size mkdir
              writeFile sharp argv w in
  (forall args inputs,
     Cli.parseArgs argv = Ret args ->
     Files.listInputs resolve join extname (tree w) (Cli.Args.inputs args)
       (Cli.Args.recursive args) = Ret inputs ->
     inputs = [] \/ Cli.Args.help args = true \/ Cli.Args.compress args = false) ->
  Main.writes (Main.final run) = [] /\ Main.encodes (Main.final run) = [] /\
  Main.world (Main.final run) = w /\
  Main.ok (Main.final run) = 0 /\ Main.fail (Main.final run) = 0.
Proof.
  cbv zeta. intros H.
  destruct (main_cases Buf length resolve join extname basename World tree stat_size mkdir
              writeFile sharp argv w)
    as [(A & B & C & D & E & _)
       | (args & inputs & w1 & st & d & Hp & Hh & Hc & Hi & Hne & _)].
  - repeat split; assumption.
  - exfalso. destruct (H args inputs Hp Hi) as [E | [E | E]].
    + contradiction.
    + rewrite Hh in E. discriminate E.
    + rewrite Hc in E. discriminate E.
Qed.

(** X23 at work on an input that does not exist. *)
Lemma X23_witness :
  Main.writes (Main.final (Sample.run ["missing.jpg"]%string Sample.disk)) = [] /\
  Main.encodes (Main.final (Sample.run ["missing.jpg"]%string Sample.disk)) = [] /\
  Main.world (Main.final (Sample.run ["missing.jpg"]%string Sample.disk)) = Sample.disk /\
  Main.ok (Main.final (Sample.run ["missing.jpg"]%string Sample.disk)) = 0 /\
  Main.fail (Main.final (Sample.run ["missing.jpg"]%string Sample.disk)) = 0.
Proof.
  apply (X23_a_rejected_run_changes_nothing Z (fun n => n)
           Sample.resolve Sample.join Sample.extname Sample.basename Sample.World
           Sample.tree Sample.stat_size Sample.mkdir Sample.writeFile Sample.sharp
           ["missing.jpg"]%string Sample.disk).
  intros args inputs Hp. injection Hp as <-. intros Hi. discriminate Hi.
Defined.

(** ** The fidelities of the searches *)

(** X24.  With a byte target, every encode of [compressWithTarget] is
    made at the base fidelity, at the minimum fidelity, or at a probe that
    lies between the minimum and the base: the search never leaves the
    interval that the two qualities bound. *)
Theorem X24_probes_lie_between_the_minimum_and_the_base
        (Buf : Type) (length : Buf -> Z)
        (encode : string -> Cli.Args.t -> float -> option Cli.Variant -> Buf)
        (inputPath : string) (args : Cli.Args.t) (t baseQ minQ : float)
        (a : Cli.Attempt Buf) :
  Cli.target_of args = Some t ->
  Cli.clamp01 (Cli.Args.quality args) = Ret baseQ ->
  Cli.clamp01 (Cli.Args.minQuality args) = Ret minQ ->
  In a (snd (Cli.compressWithTarget Buf length encode inputPath args)) ->
  Cli.fidelity Buf a = baseQ \/ Cli.fidelity Buf a = minQ \/
  ((minQ <=? Cli.fidelity Buf a)%float = true /\ (Cli.fidelity Buf a <=? baseQ)%float = true).
Proof.
  intros Ht Eb Em. rewrite (compress_targeted Buf length encode inputPath args t baseQ minQ Ht Eb Em).
  intros Ha.
  destruct (forVariants_fidelities Buf length encode inputPath args t baseQ minQ Cli.variants
              (clamp01_valid _ _ Eb) (clamp01_valid _ _ Em) None None a Ha) as [H | [H | H]];
    [left; exact H | right; left; exact H | right; right].
  unfold Ticks.inside in H. apply andb_prop in H. exact H.
Qed.

(** X24 at work on the first probe of scenario A, at 0.7. *)
Lemma X24_witness :
  0.7%float = 0.85%float \/ 0.7%float = 0.55%float \/
  ((0.55 <=? 0.7)%float = true /\ (0.7 <=? 0.85)%float = true).
Proof.
  apply (X24_probes_lie_between_the_minimum_and_the_base Z (fun n => n) Scenario.stub_encode
           "in.jpg" (Scenario.cli_args (Some 600000%float)) 600000 0.85 0.55
           (Cli.mkAttempt Z 0.7 (Cli.mkVariant "4:4:4" false true) 700000)).
  - reflexivity.
  - reflexivity.
  - reflexivity.
  - vm_compute. tauto.
Defined.

(** X25.  In the browser as well: unless a quality of [opts] is NaN,
    every encode of [encodeCanvasFitUnder] is made at the base quality, at
    the minimum quality, or between the two, and so is the [usedQuality]
    that it returns. *)
Theorem X25_browser_qualities_lie_between_the_minimum_and_the_base
        (Canvas Blob : Type) (size : Blob -> Z) (toBlob : Canvas -> float -> Blob)
        (canvas : Canvas) (opts : Browser.Opts) :
  is_nan (Browser.nullish (Browser.baseQuality opts) 0.85) = false ->
  is_nan (Browser.nullish (Browser.minQuality opts) 0.55) = false ->
  let run := Browser.encodeCanvasFitUnder Canvas Blob size toBlob canvas opts in
  let among q :=
    q = Browser.base_of opts \/ q = Browser.min_of opts \/
    ((Browser.min_of opts <=? q)%float = true /\ (q <=? Browser.base_of opts)%float = true) in
  (forall a, In a (snd run) -> among (Browser.fidelity Blob a)) /\
  (forall r, fst run = Ret r -> among (Browser.usedQuality Blob r)).
Proof.
  intros Nb Nm. cbv zeta.
  destruct (fitUnder_fidelities Canvas Blob size toBlob canvas opts
              (clamp_valid _ Nb) (clamp_valid _ Nm)) as [A B].
  split.
  - intros a Ha. destruct (A a Ha) as [H | [H | H]]; auto.
    right. right. unfold Ticks.inside in H. apply andb_prop in H. exact H.
  - intros r Hr. destruct (B r Hr) as [H | [H | H]]; auto.
    right. right. unfold Ticks.inside in H. apply andb_prop in H. exact H.
Qed.

(** X25 at work on scenario A in the browser, which returns the quality
    0.5875. *)
Lemma X25_witness :
  0.5875%float = 0.85%float \/ 0.5875%float = 0.55%float \/
  ((0.55 <=? 0.5875)%float = true /\ (0.5875 <=? 0.85)%float = true).
Proof.
  destruct (X25_browser_qualities_lie_between_the_minimum_and_the_base unit Z (fun n => n)
              Scenario.stub_toBlob tt
              (Browser.mkOpts (Some 600000%float) (Some 0.85%float) (Some 0.55%float))
              eq_refl eq_refl) as [_ B].
  apply (B (Browser.mkResult Z 587500 0.5875 6 true)). vm_compute. reflexivity.
Defined.

(** X26.  Six probes are enough.  From a minimum and a base fidelity of
    [[0.1, 1.0]], the loop of [compressWithTarget] probes six times at most,
    whatever the encoder returns: a probe halves the interval, up to the
    rounding of the midpoint, and after six the width is no longer above
    0.015; the bound of ten turns is never reached.  A run hence makes 32
    encodes at most, eight for each variant. *)
Theorem X26_six_probes_are_enough
        (Buf : Type) (length : Buf -> Z)
        (encode : string -> Cli.Args.t -> float -> option Cli.Variant -> Buf)
        (inputPath : string) (args : Cli.Args.t) :
  (forall (t : float) (v : Cli.Variant) (minQ baseQ : float) (best : Buf) (bestQ : float),
     JS.valid_fidelity minQ = true -> JS.valid_fidelity baseQ = true ->
     (List.length (snd (Cli.search Buf length encode inputPath args t v 10 minQ baseQ
                          best bestQ)) <= 6)%nat) /\
  (List.length (snd (Cli.compressWithTarget Buf length encode inputPath args)) <= 32)%nat.
Proof.
  split.
  - intros t v minQ baseQ best bestQ Vm Vb. apply search_six; assumption.
  - apply compress_few.
Qed.

(** X26 at work on scenario A, whose search probes five times. *)
Lemma X26_witness :
  (List.length (snd (Cli.search Z (fun n => n) Scenario.stub_encode "in.jpg"
                       (Scenario.cli_args (Some 600000%float)) 600000%float
                       (Cli.mkVariant "4:4:4" false true) 10 0.55%float 0.85%float
                       550000%Z 0.55%float))
   <= 6)%nat.
Proof.
  apply (proj1 (X26_six_probes_are_enough Z (fun n => n) Scenario.stub_encode "in.jpg"
                  (Scenario.cli_args (Some 600000%float)))); reflexivity.
Defined.

(** X27.  In the browser as well: unless a quality of [opts] is NaN,
    [encodeCanvasFitUnder] makes eight encodes at most, the base, the
    minimum and six probes, and the [tried] that it returns is at most 8. *)
Theorem X27_the_browser_tries_eight_times_at_most
        (Canvas Blob : Type) (size : Blob -> Z) (toBlob : Canvas -> float -> Blob)
        (canvas : Canvas) (opts : Browser.Opts) (r : Browser.Result Blob) :
  is_nan (Browser.nullish (Browser.baseQuality opts) 0.85) = false ->
  is_nan (Browser.nullish (Browser.minQuality opts) 0.55) = false ->
  fst (Browser.encodeCanvasFitUnder Canvas Blob size toBlob canvas opts) = Ret r ->
  (List.length (snd (Browser.encodeCanvasFitUnder Canvas Blob size toBlob canvas opts))
   <= 8)%nat /\
  Browser.tried Blob r <= 8.
Proof.
  intros Nb Nm Er.
  pose proof (fitUnder_few Canvas Blob size toBlob canvas opts Nb Nm) as H.
  split; [exact H | ].
  destruct (fitUnder_tried Canvas Blob size toBlob canvas opts) as (r' & Er' & Ht & _).
  rewrite Er in Er'. injection Er' as <-. rewrite Ht. lia.
Qed.

(** X27 at work on scenario A in the browser: six encodes. *)
Lemma X27_witness :
  (List.length (snd (Scenario.browser_run (Some 600000%float))) <= 8)%nat /\ 6 <= 8.
Proof.
  apply (X27_the_browser_tries_eight_times_at_most unit Z (fun n => n) Scenario.stub_toBlob tt
           (Browser.mkOpts (Some 600000%float) (Some 0.85%float) (Some 0.55%float))
           (Browser.mkResult Z 587500 0.5875 6 true)).
  - reflexivity.
  - reflexivity.
  - vm_compute. reflexivity.
Defined.

(** X28.  [encodeCanvasSmart], for a quality of the page that is not
    NaN: the blob it returns is the encode of the canvas at the
    [usedQuality] it returns, after eight encodes at most.  Its result has
    not passed only when compression and the size limit are both on, and
    then the blob, encoded at the minimum quality 0.55, exceeds
    [floor(maxSizeMB * 1024 * 1024)] bytes. *)
Theorem X28_encodeCanvasSmart_fails_only_above_the_limit
        (Canvas Blob : Type) (size : Blob -> Z) (toBlob : Canvas -> float -> Blob)
        (canvas : Canvas) (state : Browser.State) (r : Browser.Result Blob) :
  is_nan (Browser.quality state) = false ->
  fst (Browser.encodeCanvasSmart Canvas Blob size toBlob state canvas) = Ret r ->
  Browser.blob Blob r = toBlob canvas (Browser.usedQuality Blob r) /\
  (List.length (snd (Browser.encodeCanvasSmart Canvas Blob size toBlob state canvas))
   <= 8)%nat /\
  (Browser.pass Blob r = false ->
   Browser.compress state = true /\ Browser.fitUnderMax state = true /\
   Browser.exceeds Blob size
     (JS.Math_floor (Browser.maxSizeMB state * 1024 * 1024)%float) (Browser.blob Blob r)
   = true /\
   Browser.usedQuality Blob r = 0.55%float /\ Browser.tried Blob r = 2).
Proof.
  intros Nq.
  assert (Vq : JS.valid_fidelity (Browser.clamp (Browser.quality state) 0.1 1.0) = true)
    by (apply clamp_valid; exact Nq).
  assert (Nc : is_nan (Browser.clamp (Browser.quality state) 0.1 1.0) = false).
  { unfold JS.valid_fidelity in Vq. apply andb_true_iff in Vq.
    destruct Vq as [V _]. apply leb_not_nan in V. apply V. }
  unfold Browser.encodeCanvasSmart. destruct (Browser.compress state); cbn [negb].
  - set (opts := Browser.mkOpts _ _ _). intros Er.
    pose proof (fitUnder_logged Canvas Blob size toBlob canvas opts r Er) as L.
    unfold Returned.logged_blob in L.
    split; [apply (fitUnder_genuine Canvas Blob size toBlob canvas opts _ L) | ].
    split; [apply fitUnder_few; [exact Nc | reflexivity] | ].
    intros P.
    destruct (fitUnder_fail_shape Canvas Blob size toBlob canvas opts r Er P)
      as (t & Ht & X & Q & T).
    unfold Browser.target_of, opts in Ht. cbn [Browser.targetBytes] in Ht.
    destruct (Browser.fitUnderMax state); [ | discriminate Ht].
    destruct (JS.truthy _); [ | discriminate Ht]. injection Ht as <-.
    repeat split; assumption.
  - rewrite bind_blob. cbn [fst snd ret]. intros E. injection E as <-.
    cbn [Browser.blob Browser.usedQuality Browser.pass List.length].
    split; [reflexivity | ]. split; [lia | ]. intros P. discriminate P.
Qed.

(** X28 at work with a limit of 0.0001 MB, 104 bytes: the encode of
    550,000 bytes at 0.55 is returned, and has not passed. *)
Lemma X28_witness :
  550000 = Scenario.stub_toBlob tt 0.55 /\
  Browser.exceeds Z (fun n => n) (JS.Math_floor (0.0001 * 1024 * 1024)%float) 550000 = true.
Proof.
  destruct (X28_encodeCanvasSmart_fails_only_above_the_limit unit Z (fun n => n)
              Scenario.stub_toBlob tt (Browser.mkState 0.85 true 0.0001 true)
              (Browser.mkResult Z 550000 0.55 2 false))
    as (A & _ & B).
  - reflexivity.
  - vm_compute. reflexivity.
  - split; [exact A | ]. destruct (B eq_refl) as (_ & _ & X & _). exact X.
Defined.

(** ** What [main] writes and encodes *)

(** X29.  What [main] reports is what it wrote.  The lines that report an
    output and the files written go together, in their order: the file is
    written at the output path of the input reported, the size reported is
    the length of what was written, and what was written is the output of
    an encode of the run, made at the quality and with the knobs
    reported. *)
Theorem X29_what_is_reported_is_what_was_written
        (Buf : Type) (length : Buf -> Z)
        (resolve : string -> string) (join : string -> string -> string)
        (extname : string -> string) (basename : string -> string -> string)
        (World : Type) (tree : World -> string -> option Files.Tree)
        (stat_size : World -> string -> option Z) (mkdir : World -> string -> World + string)
        (writeFile : World -> string -> Buf -> option World)
        (sharp : World -> string -> option (bool -> Cli.JpegOpts -> Buf))
        (argv : list string) (w : World) (args : Cli.Args.t) :
  let done := Main.final (Main.main Buf length resolve join extname basename World tree stat_size mkdir
              writeFile sharp argv w) in
  Cli.parseArgs argv = Ret args ->
  Forall2
    (Main.matches Buf length join extname basename World args
       (resolve (Cli.Args.outDir args)) (Main.encodes done))
    (filter Main.is_done (Main.console done)) (Main.writes done).
Proof.
  cbv zeta. intros Hp.
  destruct (main_cases Buf length resolve join extname basename World tree stat_size mkdir
              writeFile sharp argv w)
    as [(Hw & _ & _ & _ & _ & Hc & _)
       | (args' & inputs & w1 & st & d & Hp' & _ & _ & _ & _ & _ & Hl & ->)].
  - rewrite Hw.
    assert (F : filter Main.is_done
                  (Main.console (Main.final (Main.main Buf length resolve join extname basename World tree stat_size mkdir
              writeFile sharp argv w))) = []).
    { induction (Main.console _) as [ | l ls IH]; [reflexivity | ].
      cbn [filter]. rewrite (Hc l (or_introl eq_refl)). cbn [Main.is_done]. apply IH.
      intros l' Hin. apply Hc. right. exact Hin. }
    rewrite F. constructor.
  - rewrite Hp in Hp'. injection Hp' as <-.
    assert (R : Main.reported Buf length join extname basename World args
                  (resolve (Cli.Args.outDir args)) st).
    { replace st with (fst (Main.loop Buf length join extname basename World stat_size
                              writeFile sharp args (resolve (Cli.Args.outDir args)) inputs
                              (Main.start Buf World w1))) by (rewrite Hl; reflexivity).
      apply (loop_invariant Buf length join extname basename World stat_size writeFile sharp
               args (resolve (Cli.Args.outDir args))
               (Main.reported Buf length join extname basename World args
                  (resolve (Cli.Args.outDir args)))).
      - intros s p s' d' I T. eapply turn_reported; eassumption.
      - constructor. }
    unfold Main.reported in R. destruct d as [msg | ].
    + exact R.
    + cbn [Main.final Main.console Main.writes Main.encodes].
      rewrite filter_app_other by reflexivity. exact R.
Qed.

(** X29 at work on the sample disk: one output, reported and written. *)
Lemma X29_witness :
  Forall2
    (Main.matches Z (fun n => n) Sample.join Sample.extname Sample.basename Sample.World
       (Cli.Args.set_inputs ["a.jpg"; "b.jpeg"]%string Cli.Args.defaults) "out"
       (Main.encodes (Main.final (Sample.run ["a.jpg"; "b.jpeg"]%string Sample.disk))))
    (filter Main.is_done
       (Main.console (Main.final (Sample.run ["a.jpg"; "b.jpeg"]%string Sample.disk))))
    (Main.writes (Main.final (Sample.run ["a.jpg"; "b.jpeg"]%string Sample.disk))).
Proof.
  apply (X29_what_is_reported_is_what_was_written Z (fun n => n)
           Sample.resolve Sample.join Sample.extname Sample.basename Sample.World
           Sample.tree Sample.stat_size Sample.mkdir Sample.writeFile Sample.sharp
           ["a.jpg"; "b.jpeg"]%string Sample.disk
           (Cli.Args.set_inputs ["a.jpg"; "b.jpeg"]%string Cli.Args.defaults)).
  reflexivity.
Defined.

(** X30.  A run makes 32 encodes at most for each input that
    [listInputs] returned. *)
Theorem X30_a_run_encodes_32_times_an_input_at_most
        (Buf : Type) (length : Buf -> Z)
        (resolve : string -> string) (join : string -> string -> string)
        (extname : string -> string) (basename : string -> string -> string)
        (World : Type) (tree : World -> string -> option Files.Tree)
        (stat_size : World -> string -> option Z) (mkdir : World -> string -> World + string)
        (writeFile : World -> string -> Buf -> option World)
        (sharp : World -> string -> option (bool -> Cli.JpegOpts -> Buf))
        (argv : list string) (w : World) (args : Cli.Args.t) (inputs : list string) :
  Cli.parseArgs argv = Ret args ->
  Files.listInputs resolve join extname (tree w) (Cli.Args.inputs args)
    (Cli.Args.recursive args) = Ret inputs ->
  (List.length (Main.encodes (Main.final (Main.main Buf length resolve join extname basename World tree stat_size mkdir
              writeFile sharp argv w)))
   <= 32 * List.length inputs)%nat.
Proof.
  intros Hp Hi.
  destruct (main_cases Buf length resolve join extname basename World tree stat_size mkdir
              writeFile sharp argv w)
    as [(_ & He & _) | (args' & inputs' & w1 & st & d & Hp' & _ & _ & Hi' & _ & _ & Hl & ->)].
  - rewrite He. cbn. lia.
  - rewrite Hp in Hp'. injection Hp' as <-. rewrite Hi in Hi'. injection Hi' as <-.
    pose proof (loop_encodes Buf length join extname basename World stat_size writeFile sharp
                  args (resolve (Cli.Args.outDir args)) inputs (Main.start Buf World w1)) as L.
    rewrite Hl in L. cbn [fst Main.start Main.encodes List.length] in L.
    destruct d; cbn [Main.final Main.encodes]; lia.
Qed.

(** X30 at work on the sample disk with a target of 600 KB: 28 encodes
    for one input. *)
Lemma X30_witness :
  (List.length
     (Main.encodes
        (Main.final (Sample.run ["--fit-under"; "600kb"; "a.jpg"]%string Sample.disk)))
   <= 32 * List.length ["a.jpg"%string])%nat.
Proof.
  apply (X30_a_run_encodes_32_times_an_input_at_most Z (fun n => n)
           Sample.resolve Sample.join Sample.extname Sample.basename Sample.World
           Sample.tree Sample.stat_size Sample.mkdir Sample.writeFile Sample.sharp
           ["--fit-under"; "600kb"; "a.jpg"]%string Sample.disk
           (Cli.Args.set_inputs ["a.jpg"%string]
              (Cli.Args.set_maxSizeBytes (Some 614400%float)
                 (Cli.Args.set_fitUnder (Some "600kb"%string) Cli.Args.defaults)))
           ["a.jpg"%string]).
  - vm_compute. reflexivity.
  - reflexivity.
Defined.

End Properties.
